(* ===== verification/_CoqProject ===== *)
-Q . S2P
Prelude.v
Bytes.v
GptTypes.v
BlockDev.v
GptUtil.v
Gpt.v
GptSpec.v
GptTheorems.v
GoStrings.v
GoPath.v
GoNet.v
Json.v
Hostname.v
Types.v
Os.v
Process.v
Shutdown.v
Netlink.v
Disk.v
Launch.v
LaunchTheorems.v
LaunchSteps.v
Etc.v
Join.v
SetupRace.v
Route.v
Dhcp.v
Network.v
Conf.v
Cards.v
Cloud.v
Services.v
Logging.v
Power.v
Uptime.v
Boot.v
LaunchRefine.v
BootTheorems.v
Panics.v
