(* ===== verification/Prelude.v ===== *)
(** * vinitd: a verification development

    vinitd is the init process of a Vorteil micro virtual machine: a Go program
    (src/cmd/vorteil.go and the package under src/pkg/vorteil) that runs as
    process 1.  It grows the boot disk, reads its configuration from the disk,
    sets up cards, files and services, starts the configured programs, and takes
    the machine down when it is asked to or when nothing is left to run.  This
    library models the program as Rocq functions on an explicit state and proves
    what makes it correct; where the code does not do what it means to, a theorem
    says so and under which condition.

    ** The program and its parts

    [main] runs four stages in order.  [PreSetup] mounts the basic directories,
    finds the boot disk, reads the configuration, and grows the partition table.
    [Setup] names the machine, brings up the cards and writes /etc.  [PostSetup]
    asks the cloud for metadata and starts DNS, NFS, logging, time and busybox.
    [Launch] starts the programs.  Beside them run goroutines that wait for
    signals, the power button, the exit of processes and DHCP renewals; all of
    them may call [shutdown].  An error of a stage calls [SystemPanic], which is
    a shutdown; a Go panic kills process 1 and with it the machine.

    ** Style

    Fallible code is a state monad with the outcomes [Ret], [Fail] (an error
    value), [Panic] (a Go panic) and [Halted] (control does not come back): [M] of
    this file.  Go integers are [Z] with the wrap-around written out, strings and
    buffers are sequences of bytes, maps are [gmap], the order in which Go ranges
    over a map is a parameter.  Indexing, nil dereference, division, sends on
    closed channels and concurrent writes to a map panic in the model where they do
    in Go.

    Goroutines that share something are step relations that interleave freely:
    [Shutdown], [Join], [SetupRace] and [LaunchSteps].  In the functions of the
    components and of [Boot] a goroutine runs as a whole; the order in which the
    goroutines of a group run, and whether one that nobody waits for any more still
    runs, is decided by the class [schedule], over which the theorems quantify.

    - [Prelude]: outcomes, the monad, integers, lists, the hint database and
      tactics all files share.
    - [Bytes], [GoStrings], [GoPath], [GoNet], [Json]: what the sources use of the
      standard library (encoding/binary, hash/crc32, strings, strconv, fmt, path,
      net, encoding/json).
    - [Os]: the [world] (files, disk, trace of system calls, package variables,
      the fields of [Vinitd]) and the classes [kernel], which decides which call
      fails and which HTTP request is never answered, and [schedule].  The predicates [tame], [quietly], [keeps], [safe] and [dies] carry
      the proofs about code that runs on an arbitrary kernel.

    ** Which file models which part

    - [GptTypes], [BlockDev], [GptUtil], [Gpt] (types.go, gpt.go, gptutil.go): the
      partition table on a device with injected faults.  [GptSpec] has the
      abstract specification [grow_spec] and the refinement; [GptTheorems] shows
      that a grow leaves valid headers that point at each other, extends the last
      partition only, is idempotent, and under any fault changes metadata only.
    - [Disk] (disk.go): the grow with the kernel and the file system told about
      it; right sizes, no panic.
    - [Hostname] (network.go): the validation loops equal a reference function.
    - [Types] (types.go): the shared records and enumerations.
    - [Process] (process.go, and its callers in log.go, vinitd.go, launch.go):
      the shutdown sequence, complete and in order whatever the kernel refuses, at
      most one reboot for sequential requests.  [Shutdown] interleaves goroutines
      that shut down at the same time: the sequential model is one of its runs, the
      first one past its assignment decides once the boot is over, and before
      that a second one can get through.
    - [Netlink] (process.go): the process connector byte by byte; the exit of
      the last program powers the machine off.
    - [Launch], [LaunchTheorems] (launch.go): arguments, environment, bootstrap
      commands; a program is registered for its signal exactly when it started.
      [LaunchSteps] interleaves the goroutines of the programs: every run ends, a
      run that is joined has started and registered every program, and the only
      panic is the concurrent write to the map of signals, which does happen.
    - [Etc] (etc.go): the files of /etc; only nine paths change, users once.
    - [Join] (vinitd.go, network.go, launch.go): the WaitGroup and channel
      skeleton of [PostSetup], [Launch] and [networkSetup] as a step relation;
      termination, no deadlock and the right verdict under every interleaving, and
      exactly when a second error panics.  [SetupRace] (vinitd.go) is the group of
      [Setup], whose goroutines also share the variable [err]: all runs are
      explored, and the ways in which they end are listed.
    - [Route], [Dhcp], [Network], [Cards] (network.go, chelper.go, utils.go): the
      routes, the DHCP client, the cards; addresses, routes and the calls for them
      on a healthy machine, and on any machine a well-formed card table and two
      reasons for a panic.
    - [Conf] (conf.go, vinitd.go): environment, sysctls, root remount, hypervisor.
    - [Cloud] (conf.go): metadata requests, polling, the report to Azure.
    - [Services] (dns.go, nfs.go, ntp.go, process.go), [Logging] (logging.go,
      log.go), [Power] (power.go, rnd.go, chelper.go, cmd/vorteil.go), [Uptime]
      (utils.go, chelper.go, log.go).
    - [Boot] (vinitd.go, conf.go, launch.go, cmd/vorteil.go): the four stages and
      [main], composed of the components.  [LaunchRefine]: [Launch] as it runs in
      [main] is one of the runs of [LaunchSteps].  [BootTheorems]: the configuration
      read is the one on the disk, and a stage that errs ends in an orderly
      power-off, after which [main] goes on only if the kernel refused it.
      [Panics]: how [PreSetup] can panic on a machine where any call may fail, and
      that it touches nothing but the partitioning metadata of the disk.

    ** Bounds

    Loops over data are structural.  Loops that wait take the number of rounds or
    the list of events to consider: [poll] of [Launch] (waiting for a file or a
    port), [listenPowerLoop], [checkLogs], [renew_loop], [listenToProcesses]; a
    theorem about the end of such a wait is stated for every number of rounds or
    for the event that ends it.  [dhcpDiscover] has the bounds of the source (ten
    rounds of ten attempts) and [pollGCP] ends within 61 rounds because of its
    deadline, if no request is left open.  [explore] of [SetupRace] follows the
    group of [Setup] for forty steps, and no run has more.  [main] takes the rounds for the waiting programs; its theorems
    hold for every number.  [split_fuel] and [replace_fuel] of [GoStrings] recurse
    on the length of the string.

    ** Hypotheses

    Code outside the repository is a class of parameters with named hypotheses:
    [kernel], [launch_libs] (shell words, signal names), [netlink_lib], [dhcp_lib],
    [dns_lib], [image_lib] (the structures on the disk and the decoding of the
    configuration), [ifc_order], [map_order], [schedule], [clock], [chance].  Every property
    with a hypothesis has a witness that applies it at a concrete machine, and
    [boot_launches] evaluates a whole boot.

    ** Not modelled

    - The text given to the logger (logDebug, logWarn, logError, [init] of
      log.go): logrus is a library and printing changes no state the program
      reads.  The logger is taken to be set: when [init] cannot open /dev/vtty it
      stays nil and the first log call panics, and no theorem about panics speaks
      of such a run.
    - statik.go: generated; the archive is an argument.
    - helper.c and vmtools.c: C code behind recorded calls.
    - The socket handling inside [ioctl] of network.go, and the C layout of the
      structures passed to ioctl(2): a call is recorded with its values.
    - An HTTP server that never answers the GET of a bootstrap command.
    - Memory races other than those on [initStatus], on [err] of [Setup], on
      [terminateSignals] and on the channels: otherwise the work of a goroutine
      between two such actions is one step.  In [Boot] the goroutines of
      [PostSetup] run in the order of their start.  Writes to the environment map by
      the pollers of the cloud metadata are not interleaved with its readers. *)

From stdpp Require Export base list strings gmap numbers option relations.
From Stdlib Require Export ZArith Lia.

Declare Scope go_scope.
Delimit Scope go_scope with go.

(** ** Fixed-width integers

    A Go integer of width [w] is a [Z]; arithmetic wraps explicitly. *)

Definition uwrap (w z : Z) : Z := (z mod 2 ^ w)%Z.
Definition swrap (w z : Z) : Z := ((z + 2 ^ (w - 1)) mod 2 ^ w - 2 ^ (w - 1))%Z.

Abbreviation u8 := (uwrap 8).
Abbreviation u16 := (uwrap 16).
Abbreviation u32 := (uwrap 32).
Abbreviation u64 := (uwrap 64).
Abbreviation i32 := (swrap 32).
Abbreviation i64 := (swrap 64).

Notation "x +u64 y" := (uwrap 64 (x + y)) (at level 50, left associativity) : go_scope.
Notation "x -u64 y" := (uwrap 64 (x - y)) (at level 50, left associativity) : go_scope.
Notation "x *u64 y" := (uwrap 64 (x * y)) (at level 40, left associativity) : go_scope.

(** ** Errors, panics and outcomes

    A Go call returns a value, returns an [error], or panics.  A panic that
    nobody recovers (there is no [recover] in the sources) ends the process.  A
    successful [reboot(2)] does not return at all: the machine is [Halted]. *)

Inductive error :=
| EIO
| EINVAL
| ENOSPC
| ENOENT
| IO_EOF
| IO_UnexpectedEOF
| Errno (e : Z)
| Errorf (msg : string).

Inductive panic :=
| NilDeref
| IndexOutOfRange
| SliceBounds
| SendOnClosed
| CloseOfClosed
| NegativeWaitGroup
| ConcurrentMapWrites
| DivideByZero.

#[global] Instance error_eq_dec : EqDecision error.
Proof. solve_decision. Defined.

#[global] Instance panic_eq_dec : EqDecision panic.
Proof. solve_decision. Defined.

Inductive outcome (A : Type) :=
| Ret (a : A)
| Fail (e : error)
| Panic (p : panic)
| Halted.
Arguments Ret {A} a.
Arguments Fail {A} e.
Arguments Panic {A} p.
Arguments Halted {A}.

#[global] Instance outcome_ret : MRet outcome := @Ret.

#[global] Instance outcome_bind : MBind outcome := λ A B f o,
  match o with
  | Ret a => f a
  | Fail e => Fail e
  | Panic p => Panic p
  | Halted => Halted
  end.

(** Stateful code: the state survives an error or a panic. *)

Definition M (S A : Type) : Type := S → outcome A * S.

#[global] Instance M_ret {S} : MRet (M S) := λ A a s, (Ret a, s).

#[global] Instance M_bind {S} : MBind (M S) := λ A B f m s,
  match m s with
  | (Ret a, s') => f a s'
  | (Fail e, s') => (Fail e, s')
  | (Panic p, s') => (Panic p, s')
  | (Halted, s') => (Halted, s')
  end.

Definition mfail {S A} (e : error) : M S A := λ s, (Fail e, s).
Definition mpanic {S A} (p : panic) : M S A := λ s, (Panic p, s).
Definition mget {S} : M S S := λ s, (Ret s, s).
Definition mmodify {S} (f : S → S) : M S unit := λ s, (Ret tt, f s).

(** [v, err := m] where the caller inspects [err]; a panic still propagates. *)
Definition mtry {S A} (m : M S A) : M S (A + error) := λ s,
  match m s with
  | (Ret a, s') => (Ret (inl a), s')
  | (Fail e, s') => (Ret (inr e), s')
  | (Panic p, s') => (Panic p, s')
  | (Halted, s') => (Halted, s')
  end.

(** Sequential [for _, x := range l] in the state monad. *)
Fixpoint mforeach {S A} (f : A → M S unit) (l : list A) : M S unit :=
  match l with
  | [] => mret tt
  | x :: l => f x;; mforeach f l
  end.

(** ** Sublists: the bytes of a region, and overwriting a region *)

Section splice.
Context {A : Type}.
Implicit Types (l bs : list A) (off len i : nat).

Definition slice off len l : list A := take len (drop off l).

Definition splice off bs l : list A :=
  take off l ++ bs ++ drop (off + length bs) l.

Lemma length_slice off len l :
  off + len ≤ length l → length (slice off len l) = len.
Proof. intros. unfold slice. rewrite length_take, length_drop. lia. Qed.

Lemma length_splice off bs l :
  off + length bs ≤ length l → length (splice off bs l) = length l.
Proof.
  intros. unfold splice.
  rewrite !length_app, length_take, length_drop. lia.
Qed.

Lemma lookup_slice off len l i :
  slice off len l !! i = if decide (i < len) then l !! (off + i) else None.
Proof.
  unfold slice. case_decide.
  - rewrite lookup_take_lt by lia. by rewrite lookup_drop.
  - by rewrite lookup_take_ge by lia.
Qed.

Lemma lookup_splice off bs l i :
  off + length bs ≤ length l →
  splice off bs l !! i =
    if decide (off ≤ i < off + length bs) then bs !! (i - off) else l !! i.
Proof.
  intros Hle. unfold splice. case_decide as Hi.
  - rewrite lookup_app_r by (rewrite length_take; lia).
    rewrite length_take, lookup_app_l by lia. f_equal. lia.
  - destruct (decide (i < off)).
    + rewrite lookup_app_l by (rewrite length_take; lia).
      by rewrite lookup_take_lt by lia.
    + rewrite lookup_app_r by (rewrite length_take; lia).
      rewrite length_take, lookup_app_r by lia.
      rewrite lookup_drop. f_equal. lia.
Qed.

Lemma splice_outside off bs l i :
  off + length bs ≤ length l →
  i < off ∨ off + length bs ≤ i →
  splice off bs l !! i = l !! i.
Proof. intros. rewrite lookup_splice by done. case_decide; [lia|done]. Qed.

Lemma slice_ext off len l1 l2 :
  (∀ i, off ≤ i < off + len → l1 !! i = l2 !! i) →
  slice off len l1 = slice off len l2.
Proof.
  intros H. apply list_eq. intros i. rewrite !lookup_slice.
  case_decide; [apply H; lia|done].
Qed.

Lemma slice_splice_same off bs l :
  off + length bs ≤ length l → slice off (length bs) (splice off bs l) = bs.
Proof.
  intros. apply list_eq. intros i. rewrite lookup_slice. case_decide.
  - rewrite lookup_splice by done. rewrite decide_True by lia. f_equal. lia.
  - symmetry. apply lookup_ge_None. lia.
Qed.

Lemma slice_splice_disjoint off bs l o n :
  off + length bs ≤ length l →
  o + n ≤ off ∨ off + length bs ≤ o →
  slice o n (splice off bs l) = slice o n l.
Proof. intros. apply slice_ext. intros. apply splice_outside; lia. Qed.

Lemma slice_slice o n o' n' l :
  o' + n' ≤ n → slice o' n' (slice o n l) = slice (o + o') n' l.
Proof.
  intros. apply list_eq. intros i. rewrite !lookup_slice.
  case_decide; [|done]. rewrite decide_True by lia. f_equal. lia.
Qed.

Lemma slice_splice_within off bs l o n :
  off + length bs ≤ length l →
  off ≤ o → o + n ≤ off + length bs →
  slice o n (splice off bs l) = slice (o - off) n bs.
Proof.
  intros. apply list_eq. intros i. rewrite !lookup_slice.
  case_decide; [|done]. rewrite lookup_splice by done.
  rewrite decide_True by lia. f_equal. lia.
Qed.

Lemma splice_splice_adjacent off a b l :
  off + length a + length b ≤ length l →
  splice (off + length a) b (splice off a l) = splice off (a ++ b) l.
Proof.
  intros. apply list_eq. intros i.
  rewrite (lookup_splice off (a ++ b)) by (rewrite length_app; lia).
  rewrite lookup_splice by (rewrite length_splice; lia).
  rewrite length_app. repeat case_decide; try lia.
  - rewrite lookup_app_r by lia. f_equal. lia.
  - rewrite lookup_splice by lia. rewrite decide_True by lia.
    rewrite lookup_app_l by lia. done.
  - rewrite lookup_splice by lia. by rewrite decide_False by lia.
Qed.

Lemma splice_nil off l : splice off [] l = l.
Proof. unfold splice. cbn. rewrite Nat.add_0_r. apply take_drop. Qed.

Lemma slice_0 off l : slice off 0 l = [].
Proof. done. Qed.

Lemma slice_all l : slice 0 (length l) l = l.
Proof. unfold slice. rewrite drop_0. by rewrite take_ge by lia. Qed.

Lemma slice_app o n n' l :
  slice o (n + n') l = slice o n l ++ slice (o + n) n' l.
Proof.
  apply list_eq. intros i.
  destruct (decide (i < length (slice o n l))) as [Hi|Hi].
  - rewrite lookup_app_l by done. rewrite !lookup_slice.
    assert (i < n) by (unfold slice in Hi; rewrite length_take in Hi; lia).
    by rewrite !decide_True by lia.
  - rewrite lookup_app_r by lia.
    unfold slice in Hi |- *. rewrite length_take, length_drop in Hi |- *.
    destruct (decide (o + n ≤ length l)).
    + rewrite Nat.min_l in Hi |- * by lia. fold (slice o (n+n') l) (slice (o+n) n' l).
      rewrite !lookup_slice. repeat case_decide; try lia; [|done]. f_equal. lia.
    + rewrite (lookup_ge_None_2 (take (n + n') _)) by (rewrite length_take, length_drop; lia).
      symmetry. apply lookup_ge_None. rewrite length_take, length_drop. lia.
Qed.
End splice.

(** ** Lists up to their order *)

(** The boolean [List.filter] respects permutations. *)
#[export] Instance list_filter_perm {A} (f : A → bool) : Proper ((≡ₚ) ==> (≡ₚ)) (List.filter f).
Proof.
  induction 1 as [|x l1 l2 _ IH|x y l|l1 l2 l3 _ IH1 _ IH2]; cbn; [done| | |by etransitivity].
  - destruct (f x); [by constructor|done].
  - destruct (f x), (f y); try done. constructor.
Qed.

(** ** Automation *)

Create HintDb vinitd.

(** Code that only makes system calls, by its shape: see [tame] of [Os]. *)
Create HintDb tame.

Create Rewrite HintDb vlen.
#[export] Hint Rewrite @length_app @length_take @length_drop @length_replicate : vlen.

(** Case analysis on every [match]/[if] of a monadic run. *)
Ltac mrun :=
  repeat (first
    [ progress simplify_eq/=
    | case_match ]).

(** Arithmetic on wrapped integers that do not overflow. *)
Lemma uwrap_small w z : (0 ≤ z < 2 ^ w)%Z → uwrap w z = z.
Proof. intros. unfold uwrap. by apply Z.mod_small. Qed.

Lemma uwrap_range w z : (0 ≤ w)%Z → (0 ≤ uwrap w z < 2 ^ w)%Z.
Proof. intros. apply Z.mod_pos_bound. by apply Z.pow_pos_nonneg. Qed.

Lemma uwrap_idemp w z : (0 ≤ w)%Z → uwrap w (uwrap w z) = uwrap w z.
Proof. intros. apply uwrap_small. by apply uwrap_range. Qed.

Lemma swrap_small w z :
  (0 < w)%Z → (- 2 ^ (w - 1) ≤ z < 2 ^ (w - 1))%Z → swrap w z = z.
Proof.
  intros Hw Hz. unfold swrap.
  assert (2 ^ w = 2 * 2 ^ (w - 1))%Z as E.
  { rewrite <-Z.pow_succ_r by lia. f_equal. lia. }
  rewrite Z.mod_small; lia.
Qed.
