(* ===== verification/Bytes.v ===== *)
(** * Bytes, little-endian integers and CRC-32

    What the sources use of [encoding/binary] (little-endian fixed-size
    fields) and of [hash/crc32] (the IEEE polynomial).  Bytes are
    [Init.Byte.byte], so every list of bytes is a valid Go [[]byte]. *)

From S2P Require Import Prelude.
From Stdlib Require Export Strings.Byte.
Local Open Scope Z_scope.

(** ** Bytes and integers *)

Definition byteZ (b : byte) : Z := Z.of_N (Byte.to_N b).

Definition Zbyte (z : Z) : byte :=
  match Byte.of_N (Z.to_N (z mod 256)) with
  | Some b => b
  | None => x00
  end.

#[global] Instance byte_eq_dec : EqDecision byte := Byte.byte_eq_dec.

Lemma byteZ_range b : 0 ≤ byteZ b < 256.
Proof. unfold byteZ. pose proof (Byte.to_N_bounded b). lia. Qed.

Lemma byteZ_Zbyte z : byteZ (Zbyte z) = z mod 256.
Proof.
  unfold byteZ, Zbyte.
  assert (0 ≤ z mod 256 < 256) by (apply Z.mod_pos_bound; lia).
  destruct (Byte.of_N (Z.to_N (z mod 256))) as [b|] eqn:E.
  - apply Byte.to_of_N in E. rewrite E. lia.
  - apply Byte.of_N_None_iff in E. lia.
Qed.

Lemma Zbyte_byteZ b : Zbyte (byteZ b) = b.
Proof.
  unfold Zbyte. rewrite Z.mod_small by apply byteZ_range.
  unfold byteZ. by rewrite N2Z.id, Byte.of_to_N.
Qed.

Lemma Zbyte_ext z z' : z mod 256 = z' mod 256 → Zbyte z = Zbyte z'.
Proof. intros E. unfold Zbyte. by rewrite E. Qed.

(** ** Little-endian fields *)

Fixpoint le_put (n : nat) (z : Z) : list byte :=
  match n with
  | O => []
  | S n => Zbyte z :: le_put n (z / 256)
  end.

Fixpoint le_get (bs : list byte) : Z :=
  match bs with
  | [] => 0
  | b :: bs => byteZ b + 256 * le_get bs
  end.

Lemma length_le_put n z : length (le_put n z) = n.
Proof. revert z. induction n as [|n IH]; intros z; simpl; [done|]. by rewrite IH. Qed.

Lemma le_get_range bs : 0 ≤ le_get bs < 256 ^ Z.of_nat (length bs).
Proof.
  induction bs as [|b bs IH]; simpl length; [simpl; lia|].
  cbn [le_get]. rewrite Nat2Z.inj_succ, Z.pow_succ_r by lia.
  pose proof (byteZ_range b). lia.
Qed.

Lemma le_get_put n z : le_get (le_put n z) = z mod 256 ^ Z.of_nat n.
Proof.
  revert z. induction n as [|n IH]; intros z.
  - simpl. by rewrite Z.mod_1_r.
  - cbn [le_put le_get]. rewrite IH, byteZ_Zbyte, Nat2Z.inj_succ, Z.pow_succ_r by lia.
    rewrite Z.rem_mul_r by lia. done.
Qed.

Lemma le_put_get bs n : length bs = n → le_put n (le_get bs) = bs.
Proof.
  intros <-. induction bs as [|b bs IH]; [done|].
  cbn [le_get length le_put]. pose proof (byteZ_range b). f_equal.
  - rewrite <-(Zbyte_byteZ b) at 2. apply Zbyte_ext.
    by rewrite Z.mul_comm, Z_mod_plus_full.
  - rewrite (Z.mul_comm 256), Z.div_add, Z.div_small, Z.add_0_l by lia. done.
Qed.

Lemma le_get_put_small n z : 0 ≤ z < 256 ^ Z.of_nat n → le_get (le_put n z) = z.
Proof. intros. rewrite le_get_put. by apply Z.mod_small. Qed.

(** ** CRC-32 (IEEE), as [hash/crc32] computes it

    [crc_table] is [simpleMakeTable(IEEE)], [crc32] the byte-at-a-time
    [simpleUpdate] between the two complements. *)

Definition crc_poly : Z := 0xEDB88320.

Definition crc_bit (c : Z) : Z :=
  if Z.testbit c 0 then Z.lxor (Z.shiftr c 1) crc_poly else Z.shiftr c 1.

Definition crc_entry (i : Z) : Z := Nat.iter 8 crc_bit i.

Definition crc_table : list Z := crc_entry <$> seqZ 0 256.

Definition crc_byte (c : Z) (b : byte) : Z :=
  Z.lxor (crc_entry (Z.land (Z.lxor c (byteZ b)) 0xFF)) (Z.shiftr c 8).

Definition crc32 (bs : list byte) : Z :=
  Z.lxor (foldl crc_byte 0xFFFFFFFF bs) 0xFFFFFFFF.

Lemma crc_byte_table c b :
  crc_table !! Z.to_nat (Z.land (Z.lxor c (byteZ b)) 0xFF)
  = Some (crc_entry (Z.land (Z.lxor c (byteZ b)) 0xFF)).
Proof.
  change 0xFF with (Z.ones 8). rewrite Z.land_ones by lia.
  set (i := _ mod 2 ^ 8).
  assert (0 ≤ i < 256) by (apply Z.mod_pos_bound; lia).
  unfold crc_table. rewrite list_lookup_fmap, lookup_seqZ_lt by lia.
  simpl. do 2 f_equal. lia.
Qed.

(** CRC values stay within 32 bits. *)
Lemma lt_pow2_testbit n z : 0 ≤ n → 0 ≤ z → z < 2 ^ n ↔ (∀ i, n ≤ i → Z.testbit z i = false).
Proof.
  intros Hn Hz. split.
  - intros Hlt i Hi. destruct (decide (z = 0)) as [->|]; [apply Z.testbit_0_l|].
    apply Z.bits_above_log2; [done|].
    apply Z.lt_le_trans with n; [|done]. apply Z.log2_lt_pow2; lia.
  - intros Hb. destruct (decide (z = 0)) as [->|]; [by apply Z.pow_pos_nonneg|].
    apply Z.log2_lt_pow2; [lia|].
    destruct (Z.lt_ge_cases (Z.log2 z) n) as [?|Hge]; [done|].
    specialize (Hb _ Hge). rewrite Z.bit_log2 in Hb by lia. done.
Qed.

Lemma lxor_range n a b :
  0 ≤ n → 0 ≤ a < 2 ^ n → 0 ≤ b < 2 ^ n → 0 ≤ Z.lxor a b < 2 ^ n.
Proof.
  intros Hn Ha Hb. assert (0 ≤ Z.lxor a b) by (apply Z.lxor_nonneg; lia).
  split; [done|]. apply lt_pow2_testbit; [done..|]. intros i Hi.
  rewrite Z.lxor_spec.
  rewrite (proj1 (lt_pow2_testbit n a ltac:(done) ltac:(lia)) ltac:(lia)) by done.
  by rewrite (proj1 (lt_pow2_testbit n b ltac:(done) ltac:(lia)) ltac:(lia)) by done.
Qed.

Lemma shiftr_range n k a : 0 ≤ k → 0 ≤ a < 2 ^ n → 0 ≤ Z.shiftr a k < 2 ^ n.
Proof.
  intros Hk Ha. rewrite Z.shiftr_div_pow2 by done.
  assert (0 < 2 ^ k) by (by apply Z.pow_pos_nonneg).
  split; [apply Z.div_pos; lia|].
  apply Z.le_lt_trans with a; [|lia]. apply Z.div_le_upper_bound; nia.
Qed.

Lemma crc_entry_range i : 0 ≤ i < 2 ^ 32 → 0 ≤ crc_entry i < 2 ^ 32.
Proof.
  unfold crc_entry. intros H.
  assert (∀ n, 0 ≤ Nat.iter n crc_bit i < 2 ^ 32) as Hn; [|apply (Hn 8%nat)].
  induction n as [|n IH]; [done|].
  change (Nat.iter (S n) crc_bit i) with (crc_bit (Nat.iter n crc_bit i)). revert IH.
  generalize (Nat.iter n crc_bit i). intros c Hc. unfold crc_bit.
  assert (0 ≤ Z.shiftr c 1 < 2 ^ 32) by (apply shiftr_range; lia).
  case_match; [|done]. apply lxor_range; unfold crc_poly; lia.
Qed.

Lemma crc32_range bs : 0 ≤ crc32 bs < 2 ^ 32.
Proof.
  unfold crc32. apply lxor_range; [lia| |lia].
  assert (∀ c, 0 ≤ c < 2 ^ 32 → 0 ≤ foldl crc_byte c bs < 2 ^ 32) as H; [|by apply H].
  induction bs as [|b bs IH]; intros c Hc; [done|]. simpl. apply IH.
  unfold crc_byte. apply lxor_range; [lia| |by apply shiftr_range].
  apply crc_entry_range. change 0xFF with (Z.ones 8). rewrite Z.land_ones by lia.
  assert (0 ≤ Z.lxor c (byteZ b) mod 2 ^ 8 < 2 ^ 8) by (apply Z.mod_pos_bound; lia). lia.
Qed.

(** The check value of CRC-32/ISO-HDLC: the CRC of the ASCII digits 1 to 9. *)
Example crc32_check :
  crc32 [x31; x32; x33; x34; x35; x36; x37; x38; x39] = 0xCBF43926.
Proof. vm_compute. reflexivity. Qed.

#[export] Hint Rewrite length_le_put : vlen.
