(* ===== verification/GptTypes.v ===== *)
(** * On-disk structures (src/pkg/vorteil/types.go)

    [GPTHeader], [ProtectiveMBREntry] and [PartitionEntry] with the byte
    layout [encoding/binary] gives them: fields in declaration order, integers
    little-endian, no padding. *)

From S2P Require Import Prelude Bytes.
Local Open Scope Z_scope.

(** ** Fixed-width layouts *)

Fixpoint split_fields (ws : list nat) (bs : list byte) : list (list byte) :=
  match ws with
  | [] => []
  | w :: ws => take w bs :: split_fields ws (drop w bs)
  end.

Lemma split_fields_concat fs ws :
  length <$> fs = ws → split_fields ws (concat fs) = fs.
Proof.
  revert ws. induction fs as [|f fs IH]; intros ws <-; [done|].
  cbn. rewrite take_app_length, drop_app_length. by rewrite IH.
Qed.

Lemma concat_split_fields ws bs :
  sum_list ws = length bs → concat (split_fields ws bs) = bs.
Proof.
  revert bs. induction ws as [|w ws IH]; intros bs H; cbn in *.
  - by destruct bs.
  - rewrite IH by (rewrite length_drop; lia). apply take_drop.
Qed.

Lemma length_split_fields ws bs :
  sum_list ws = length bs → length <$> split_fields ws bs = ws.
Proof.
  revert bs. induction ws as [|w ws IH]; intros bs H; cbn in *; [done|].
  rewrite IH by (rewrite length_drop; lia). rewrite length_take. f_equal. lia.
Qed.

(** ** The structures *)

Record GPTHeader := {
  Signature : Z;
  Revision : list byte;
  HeaderSize : Z;
  Crc : Z;
  Reserved0 : Z;
  CurrentLBA : Z;
  BackupLBA : Z;
  FirstUsableLBA : Z;
  LastUsableLBA : Z;
  GUID : list byte;
  StartLBAParts : Z;
  NoOfParts : Z;
  SizePartEntry : Z;
  CrcParts : Z;
  Reserved1 : list byte
}.

Record ProtectiveMBREntry := {
  Bootloader : list byte;
  Status : byte;
  headFirst : byte;
  sectorFirst : byte;
  cylinderFirst : byte;
  PartitionType : byte;
  headLast : byte;
  sectorLast : byte;
  cylinderLast : byte;
  mbr_FirstLBA : Z;
  NumberOfSectors : Z;
  Reserved6 : list byte;
  MagicNumber : list byte
}.

Record PartitionEntry := {
  TypeGUID : list byte;
  PartGUID : list byte;
  FirstLBA : Z;
  LastLBA : Z;
  Attributes : Z;
  Name : list byte
}.

(** ** Assignments to the fields the program writes *)

Definition set_Crc (c : Z) (h : GPTHeader) : GPTHeader :=
  {| Signature := Signature h; Revision := Revision h; HeaderSize := HeaderSize h;
     Crc := c; Reserved0 := Reserved0 h; CurrentLBA := CurrentLBA h;
     BackupLBA := BackupLBA h; FirstUsableLBA := FirstUsableLBA h;
     LastUsableLBA := LastUsableLBA h; GUID := GUID h;
     StartLBAParts := StartLBAParts h; NoOfParts := NoOfParts h;
     SizePartEntry := SizePartEntry h; CrcParts := CrcParts h;
     Reserved1 := Reserved1 h |}.

Definition set_CrcParts (c : Z) (h : GPTHeader) : GPTHeader :=
  {| Signature := Signature h; Revision := Revision h; HeaderSize := HeaderSize h;
     Crc := Crc h; Reserved0 := Reserved0 h; CurrentLBA := CurrentLBA h;
     BackupLBA := BackupLBA h; FirstUsableLBA := FirstUsableLBA h;
     LastUsableLBA := LastUsableLBA h; GUID := GUID h;
     StartLBAParts := StartLBAParts h; NoOfParts := NoOfParts h;
     SizePartEntry := SizePartEntry h; CrcParts := c;
     Reserved1 := Reserved1 h |}.

(** [g.LastUsableLBA], [g.BackupLBA] of the primary header. *)
Definition set_limits (last backup : Z) (h : GPTHeader) : GPTHeader :=
  {| Signature := Signature h; Revision := Revision h; HeaderSize := HeaderSize h;
     Crc := Crc h; Reserved0 := Reserved0 h; CurrentLBA := CurrentLBA h;
     BackupLBA := backup; FirstUsableLBA := FirstUsableLBA h;
     LastUsableLBA := last; GUID := GUID h;
     StartLBAParts := StartLBAParts h; NoOfParts := NoOfParts h;
     SizePartEntry := SizePartEntry h; CrcParts := CrcParts h;
     Reserved1 := Reserved1 h |}.

(** [g.CurrentLBA], [g.BackupLBA], [g.StartLBAParts] of the backup header. *)
Definition set_location (cur backup start : Z) (h : GPTHeader) : GPTHeader :=
  {| Signature := Signature h; Revision := Revision h; HeaderSize := HeaderSize h;
     Crc := Crc h; Reserved0 := Reserved0 h; CurrentLBA := cur;
     BackupLBA := backup; FirstUsableLBA := FirstUsableLBA h;
     LastUsableLBA := LastUsableLBA h; GUID := GUID h;
     StartLBAParts := start; NoOfParts := NoOfParts h;
     SizePartEntry := SizePartEntry h; CrcParts := CrcParts h;
     Reserved1 := Reserved1 h |}.

Definition set_NoOfParts (n : Z) (h : GPTHeader) : GPTHeader :=
  {| Signature := Signature h; Revision := Revision h; HeaderSize := HeaderSize h;
     Crc := Crc h; Reserved0 := Reserved0 h; CurrentLBA := CurrentLBA h;
     BackupLBA := BackupLBA h; FirstUsableLBA := FirstUsableLBA h;
     LastUsableLBA := LastUsableLBA h; GUID := GUID h;
     StartLBAParts := StartLBAParts h; NoOfParts := n;
     SizePartEntry := SizePartEntry h; CrcParts := CrcParts h;
     Reserved1 := Reserved1 h |}.

Definition set_LastLBA (l : Z) (p : PartitionEntry) : PartitionEntry :=
  {| TypeGUID := TypeGUID p; PartGUID := PartGUID p; FirstLBA := FirstLBA p;
     LastLBA := l; Attributes := Attributes p; Name := Name p |}.

Definition set_NumberOfSectors (n : Z) (m : ProtectiveMBREntry) : ProtectiveMBREntry :=
  {| Bootloader := Bootloader m; Status := Status m; headFirst := headFirst m;
     sectorFirst := sectorFirst m; cylinderFirst := cylinderFirst m;
     PartitionType := PartitionType m; headLast := headLast m;
     sectorLast := sectorLast m; cylinderLast := cylinderLast m;
     mbr_FirstLBA := mbr_FirstLBA m; NumberOfSectors := n;
     Reserved6 := Reserved6 m; MagicNumber := MagicNumber m |}.

(** ** Encoding ([binary.Write]) and decoding ([binary.Read]) *)

Definition gpt_widths : list nat := [8; 4; 4; 4; 4; 8; 8; 8; 8; 16; 8; 4; 4; 4; 420]%nat.

Definition encode_GPTHeader (h : GPTHeader) : list byte :=
  concat
    [ le_put 8 (Signature h); Revision h; le_put 4 (HeaderSize h); le_put 4 (Crc h);
      le_put 4 (Reserved0 h); le_put 8 (CurrentLBA h); le_put 8 (BackupLBA h);
      le_put 8 (FirstUsableLBA h); le_put 8 (LastUsableLBA h); GUID h;
      le_put 8 (StartLBAParts h); le_put 4 (NoOfParts h); le_put 4 (SizePartEntry h);
      le_put 4 (CrcParts h); Reserved1 h ].

Definition decode_GPTHeader (bs : list byte) : option GPTHeader :=
  match split_fields gpt_widths bs with
  | [sg; rv; hs; cr; r0; cl; bl; fu; lu; gu; sl; np; sp; cp; r1] =>
      Some {| Signature := le_get sg; Revision := rv; HeaderSize := le_get hs;
              Crc := le_get cr; Reserved0 := le_get r0; CurrentLBA := le_get cl;
              BackupLBA := le_get bl; FirstUsableLBA := le_get fu;
              LastUsableLBA := le_get lu; GUID := gu; StartLBAParts := le_get sl;
              NoOfParts := le_get np; SizePartEntry := le_get sp;
              CrcParts := le_get cp; Reserved1 := r1 |}
  | _ => None
  end.

Definition mbr_widths : list nat := [446; 1; 1; 1; 1; 1; 1; 1; 1; 4; 4; 48; 2]%nat.

Definition encode_MBR (m : ProtectiveMBREntry) : list byte :=
  concat
    [ Bootloader m; [Status m]; [headFirst m]; [sectorFirst m]; [cylinderFirst m];
      [PartitionType m]; [headLast m]; [sectorLast m]; [cylinderLast m];
      le_put 4 (mbr_FirstLBA m); le_put 4 (NumberOfSectors m); Reserved6 m;
      MagicNumber m ].

Definition decode_MBR (bs : list byte) : option ProtectiveMBREntry :=
  match split_fields mbr_widths bs with
  | [bl; [st]; [hf]; [sf]; [cf]; [pt]; [hl]; [sl]; [cl]; fl; ns; r6; mn] =>
      Some {| Bootloader := bl; Status := st; headFirst := hf; sectorFirst := sf;
              cylinderFirst := cf; PartitionType := pt; headLast := hl;
              sectorLast := sl; cylinderLast := cl; mbr_FirstLBA := le_get fl;
              NumberOfSectors := le_get ns; Reserved6 := r6; MagicNumber := mn |}
  | _ => None
  end.

Definition pe_widths : list nat := [16; 16; 8; 8; 8; 72]%nat.

Definition encode_PartitionEntry (p : PartitionEntry) : list byte :=
  concat
    [ TypeGUID p; PartGUID p; le_put 8 (FirstLBA p); le_put 8 (LastLBA p);
      le_put 8 (Attributes p); Name p ].

Definition decode_PartitionEntry (bs : list byte) : option PartitionEntry :=
  match split_fields pe_widths bs with
  | [tg; pg; fl; ll; at_; nm] =>
      Some {| TypeGUID := tg; PartGUID := pg; FirstLBA := le_get fl;
              LastLBA := le_get ll; Attributes := le_get at_; Name := nm |}
  | _ => None
  end.

(** Values a Go variable of the type can hold. *)

Record wf_GPTHeader (h : GPTHeader) : Prop := {
  wf_Signature : 0 ≤ Signature h < 2 ^ 64;
  wf_Revision : length (Revision h) = 4%nat;
  wf_HeaderSize : 0 ≤ HeaderSize h < 2 ^ 32;
  wf_Crc : 0 ≤ Crc h < 2 ^ 32;
  wf_Reserved0 : 0 ≤ Reserved0 h < 2 ^ 32;
  wf_CurrentLBA : 0 ≤ CurrentLBA h < 2 ^ 64;
  wf_BackupLBA : 0 ≤ BackupLBA h < 2 ^ 64;
  wf_FirstUsableLBA : 0 ≤ FirstUsableLBA h < 2 ^ 64;
  wf_LastUsableLBA : 0 ≤ LastUsableLBA h < 2 ^ 64;
  wf_GUID : length (GUID h) = 16%nat;
  wf_StartLBAParts : 0 ≤ StartLBAParts h < 2 ^ 64;
  wf_NoOfParts : 0 ≤ NoOfParts h < 2 ^ 32;
  wf_SizePartEntry : 0 ≤ SizePartEntry h < 2 ^ 32;
  wf_CrcParts : 0 ≤ CrcParts h < 2 ^ 32;
  wf_Reserved1 : length (Reserved1 h) = 420%nat
}.

Record wf_MBR (m : ProtectiveMBREntry) : Prop := {
  wf_Bootloader : length (Bootloader m) = 446%nat;
  wf_mbr_FirstLBA : 0 ≤ mbr_FirstLBA m < 2 ^ 32;
  wf_NumberOfSectors : 0 ≤ NumberOfSectors m < 2 ^ 32;
  wf_Reserved6 : length (Reserved6 m) = 48%nat;
  wf_MagicNumber : length (MagicNumber m) = 2%nat
}.

Record wf_PartitionEntry (p : PartitionEntry) : Prop := {
  wf_TypeGUID : length (TypeGUID p) = 16%nat;
  wf_PartGUID : length (PartGUID p) = 16%nat;
  wf_FirstLBA : 0 ≤ FirstLBA p < 2 ^ 64;
  wf_LastLBA : 0 ≤ LastLBA p < 2 ^ 64;
  wf_Attributes : 0 ≤ Attributes p < 2 ^ 64;
  wf_Name : length (Name p) = 72%nat
}.

(** ** Round trips *)

Lemma le_get_field n bs :
  length bs = n → 0 ≤ le_get bs < 2 ^ (8 * Z.of_nat n).
Proof.
  intros <-. pose proof (le_get_range bs) as H.
  by rewrite Z.pow_mul_r by lia.
Qed.

Ltac field_widths :=
  cbn -[le_put]; rewrite !length_le_put;
  unfold gpt_widths, mbr_widths, pe_widths; congruence.

Ltac field_bounds :=
  first [ apply (le_get_field 8); assumption | apply (le_get_field 4); assumption ].

(** Destructs a list of known length. *)
Ltac list_of_length H :=
  repeat match type of H with
  | length <$> ?l = _ => is_var l; destruct l; cbn in H; try discriminate H
  | length <$> (_ :: _) = _ => cbn in H
  | _ = [] => idtac
  | length _ :: _ = _ :: _ => injection H; clear H; intros H ?
  end.

Lemma encode_GPTHeader_length h : wf_GPTHeader h → length (encode_GPTHeader h) = 512%nat.
Proof.
  intros []. unfold encode_GPTHeader. cbn [concat].
  rewrite !length_app, !length_le_put. cbn [length]. lia.
Qed.

Lemma encode_MBR_length m : wf_MBR m → length (encode_MBR m) = 512%nat.
Proof.
  intros []. unfold encode_MBR. cbn [concat].
  rewrite !length_app, !length_le_put. cbn [length]. lia.
Qed.

Lemma encode_PartitionEntry_length p :
  wf_PartitionEntry p → length (encode_PartitionEntry p) = 128%nat.
Proof.
  intros []. unfold encode_PartitionEntry. cbn [concat].
  rewrite !length_app, !length_le_put. cbn [length]. lia.
Qed.

Lemma decode_encode_GPTHeader h :
  wf_GPTHeader h → decode_GPTHeader (encode_GPTHeader h) = Some h.
Proof.
  intros []. unfold decode_GPTHeader, encode_GPTHeader.
  rewrite split_fields_concat by field_widths.
  rewrite !le_get_put_small by lia. by destruct h.
Qed.

Lemma decode_encode_MBR m : wf_MBR m → decode_MBR (encode_MBR m) = Some m.
Proof.
  intros []. unfold decode_MBR, encode_MBR.
  rewrite split_fields_concat by field_widths.
  rewrite !le_get_put_small by lia. by destruct m.
Qed.

Lemma decode_encode_PartitionEntry p :
  wf_PartitionEntry p → decode_PartitionEntry (encode_PartitionEntry p) = Some p.
Proof.
  intros []. unfold decode_PartitionEntry, encode_PartitionEntry.
  rewrite split_fields_concat by field_widths.
  rewrite !le_get_put_small by lia. by destruct p.
Qed.

(** Decoding a full block always succeeds, and encoding gives the block back. *)

Lemma decode_GPTHeader_total bs :
  length bs = 512%nat →
  ∃ h, decode_GPTHeader bs = Some h ∧ wf_GPTHeader h ∧ encode_GPTHeader h = bs.
Proof.
  intros Hl. pose proof (concat_split_fields gpt_widths bs ltac:(by rewrite Hl)) as Hc.
  pose proof (length_split_fields gpt_widths bs ltac:(by rewrite Hl)) as Hw.
  unfold decode_GPTHeader. destruct (split_fields gpt_widths bs) as [|? l]; [done|].
  unfold gpt_widths in Hw. list_of_length Hw.
  eexists. split; [done|]. split.
  - constructor; cbn; try done; field_bounds.
  - unfold encode_GPTHeader; cbn [Signature Revision HeaderSize Crc Reserved0 CurrentLBA
      BackupLBA FirstUsableLBA LastUsableLBA GUID StartLBAParts NoOfParts SizePartEntry
      CrcParts Reserved1]. rewrite !le_put_get by done. done.
Qed.

Lemma decode_MBR_total bs :
  length bs = 512%nat →
  ∃ m, decode_MBR bs = Some m ∧ wf_MBR m ∧ encode_MBR m = bs.
Proof.
  intros Hl. pose proof (concat_split_fields mbr_widths bs ltac:(by rewrite Hl)) as Hc.
  pose proof (length_split_fields mbr_widths bs ltac:(by rewrite Hl)) as Hw.
  unfold decode_MBR. destruct (split_fields mbr_widths bs) as [|? l]; [done|].
  unfold mbr_widths in Hw. list_of_length Hw.
  repeat match goal with
  | H : length ?l = 1%nat |- _ => destruct l as [|? [|]]; try discriminate H; clear H
  end.
  eexists. split; [done|]. split.
  - constructor; cbn; try done; field_bounds.
  - unfold encode_MBR; cbn [Bootloader Status headFirst sectorFirst cylinderFirst
      PartitionType headLast sectorLast cylinderLast mbr_FirstLBA NumberOfSectors
      Reserved6 MagicNumber]. rewrite !le_put_get by done. done.
Qed.

Lemma decode_PartitionEntry_total bs :
  length bs = 128%nat →
  ∃ p, decode_PartitionEntry bs = Some p ∧ wf_PartitionEntry p
       ∧ encode_PartitionEntry p = bs.
Proof.
  intros Hl. pose proof (concat_split_fields pe_widths bs ltac:(by rewrite Hl)) as Hc.
  pose proof (length_split_fields pe_widths bs ltac:(by rewrite Hl)) as Hw.
  unfold decode_PartitionEntry. destruct (split_fields pe_widths bs) as [|? l]; [done|].
  unfold pe_widths in Hw. list_of_length Hw.
  eexists. split; [done|]. split.
  - constructor; cbn; try done; field_bounds.
  - unfold encode_PartitionEntry; cbn [TypeGUID PartGUID FirstLBA LastLBA Attributes Name].
    rewrite !le_put_get by done. done.
Qed.

#[export] Hint Resolve encode_GPTHeader_length encode_MBR_length
  encode_PartitionEntry_length decode_encode_GPTHeader decode_encode_MBR
  decode_encode_PartitionEntry : vinitd.
