(* ===== verification/BlockDev.v ===== *)
(** * The boot disk as an [*os.File]

    [growDisk] works on a block device opened read/write.  Its size is fixed:
    a seek past the end is [EINVAL] (the kernel's [blkdev_llseek]), a write
    past the end stores what fits and returns [ENOSPC], a read that reaches the
    end early is [io.EOF] or [io.ErrUnexpectedEOF].  Any system call may also
    fail for a reason outside the program; [faults] says, call by call, whether
    it does and after how many bytes. *)

From S2P Require Import Prelude Bytes GptTypes.
Local Open Scope Z_scope.

Record dev := {
  content : list byte;
  pos : Z;
  faults : list (option nat)
}.

Definition dev_size (d : dev) : Z := Z.of_nat (length (content d)).

Definition set_pos (p : Z) (d : dev) : dev :=
  {| content := content d; pos := p; faults := faults d |}.

Definition set_content (c : list byte) (d : dev) : dev :=
  {| content := c; pos := pos d; faults := faults d |}.

(** Takes the next outcome of the kernel. *)
Definition next_fault : M dev (option nat) := λ d,
  match faults d with
  | [] => (Ret None, d)
  | f :: fs => (Ret f, {| content := content d; pos := pos d; faults := fs |})
  end.

(** [f.Seek(off, 0)] *)
Definition seek (off : Z) : M dev Z :=
  f ← next_fault;
  d ← mget;
  match f with
  | Some _ => mfail EIO
  | None =>
      if (off <? 0) || (dev_size d <? off) then mfail EINVAL
      else mmodify (set_pos off);; mret off
  end.

(** [f.Seek(0, 2)] *)
Definition seek_end : M dev Z :=
  f ← next_fault;
  d ← mget;
  match f with
  | Some _ => mfail EIO
  | None => mmodify (set_pos (dev_size d));; mret (dev_size d)
  end.

(** [io.ReadFull(f, b)] with [len(b) = n], the read under [binary.Read]. *)
Definition read_full (n : nat) : M dev (list byte) :=
  f ← next_fault;
  d ← mget;
  match f with
  | Some k => mmodify (set_pos (pos d + Z.of_nat (k `min` n)));; mfail EIO
  | None =>
      let got := slice (Z.to_nat (pos d)) n (content d) in
      mmodify (set_pos (pos d + Z.of_nat (length got)));;
      if decide (length got = n) then mret got
      else if decide (length got = 0%nat) then mfail IO_EOF
      else mfail IO_UnexpectedEOF
  end.

(** [f.ReadAt(b, off)] with [len(b) = n]; the file position does not move. *)
Definition read_at (n : nat) (off : Z) : M dev (list byte) :=
  f ← next_fault;
  d ← mget;
  match f with
  | Some _ => mfail EIO
  | None =>
      if off <? 0 then mfail EINVAL else
      let got := slice (Z.to_nat off) n (content d) in
      if decide (length got = n) then mret got else mfail IO_EOF
  end.

(** Stores as many of [bs] at [off] as the device has room for. *)
Definition store (off : Z) (bs : list byte) (d : dev) : dev :=
  let bs' := take (length (content d) - Z.to_nat off) bs in
  if off <? 0 then d else
  if dev_size d <=? off then d else
  set_content (splice (Z.to_nat off) bs' (content d)) d.

Definition write_at (bs : list byte) (off : Z) : M dev unit :=
  f ← next_fault;
  d ← mget;
  match f with
  | Some k => mmodify (store off (take k bs));; mfail EIO
  | None =>
      if off <? 0 then mfail EINVAL else
      mmodify (store off bs);;
      if off + Z.of_nat (length bs) <=? dev_size d then mret tt else mfail ENOSPC
  end.

(** [f.Write(b)]: at the file position, which moves past the bytes stored. *)
Definition write (bs : list byte) : M dev unit :=
  d ← mget;
  write_at bs (pos d);;
  mmodify (set_pos (pos d + Z.of_nat (length bs))).

(** [binary.Read] of the three structures; a full block always decodes
    ([decode_GPTHeader_total] and its siblings). *)

Definition decoded {A} (o : option A) : M dev A :=
  match o with Some a => mret a | None => mfail IO_UnexpectedEOF end.

Definition read_GPTHeader : M dev GPTHeader :=
  bs ← read_full 512; decoded (decode_GPTHeader bs).

Definition read_PartitionEntry : M dev PartitionEntry :=
  bs ← read_full 128; decoded (decode_PartitionEntry bs).

(** ** What a call does, whatever the kernel decides

    [does W m c p a c' p']: from content [c] and position [p], [m] returns [a]
    with content [c'] and position [p'], or some fault was injected and [m]
    returns an error with only bytes of [W] changed.  It never panics. *)

Definition same_outside (W : nat → Prop) (c c' : list byte) : Prop :=
  length c' = length c ∧ ∀ i, ¬ W i → c' !! i = c !! i.

Lemma same_outside_refl W c : same_outside W c c.
Proof. done. Qed.

Lemma same_outside_trans W c1 c2 c3 :
  same_outside W c1 c2 → same_outside W c2 c3 → same_outside W c1 c3.
Proof.
  intros [E1 H1] [E2 H2]. split; [congruence|]. intros i Hi. rewrite H2 by done. by apply H1.
Qed.

Lemma same_outside_weaken (W W' : nat → Prop) c c' :
  (∀ i, W i → W' i) → same_outside W c c' → same_outside W' c c'.
Proof. intros HW [E H]. split; [done|]. intros i Hi. apply H. auto. Qed.

(** The bytes a write of [n] bytes at [off] can touch. *)
Definition span (off n : nat) (i : nat) : Prop := (off ≤ i < off + n)%nat.

Lemma same_outside_splice off bs c :
  (off + length bs ≤ length c)%nat →
  same_outside (span off (length bs)) c (splice off bs c).
Proof.
  intros Hl. split; [by apply length_splice|].
  intros i Hi. apply splice_outside; [done|]. unfold span in Hi. lia.
Qed.

Lemma same_outside_store off bs d :
  same_outside (span (Z.to_nat off) (length bs)) (content d) (content (store off bs d)).
Proof.
  unfold store. destruct (Z.ltb_spec off 0); [done|].
  destruct (Z.leb_spec (dev_size d) off); [done|]. unfold dev_size in *.
  cbn [content set_content]. set (bs' := take _ bs).
  assert (length bs' ≤ length bs ∧ Z.to_nat off + length bs' ≤ length (content d))%nat
    as [Hb Hfit] by (unfold bs'; rewrite length_take; lia).
  eapply same_outside_weaken; [|by apply same_outside_splice].
  unfold span. lia.
Qed.

Definition D (c : list byte) (p : Z) (fs : list (option nat)) : dev :=
  {| content := c; pos := p; faults := fs |}.

Definition does {A} (W : nat → Prop) (m : M dev A) (c : list byte) (p : Z)
    (a : A) (c' : list byte) (p' : Z) : Prop :=
  same_outside W c c' ∧
  ∀ fs,
    (∃ fs', m (D c p fs) = (Ret a, D c' p' fs') ∧ (fs = [] → fs' = [])) ∨
    (fs ≠ [] ∧ ∃ e d', m (D c p fs) = (Fail e, d') ∧ same_outside W c (content d')).

Definition nothing : nat → Prop := λ _, False.

Lemma does_bind {A B} W (m : M dev A) (k : A → M dev B) c p a c1 p1 b c2 p2 :
  does W m c p a c1 p1 → does W (k a) c1 p1 b c2 p2 → does W (m ≫= k) c p b c2 p2.
Proof.
  intros [S1 H1] [S2 H2]. split; [by eapply same_outside_trans|].
  intros fs. unfold mbind, M_bind.
  destruct (H1 fs) as [(fs1 & -> & Hn)|(Hn & e & d' & -> & Hs)].
  - destruct (H2 fs1) as [(fs2 & -> & Hn2)|(Hn2 & e & d' & -> & Hs)].
    + left. eauto 10.
    + right. split; [by intros ->; apply Hn2, Hn|].
      do 2 eexists. split; [done|]. by eapply same_outside_trans.
  - right. eauto 10.
Qed.

Lemma does_weaken {A} (W W' : nat → Prop) (m : M dev A) c p a c' p' :
  (∀ i, W i → W' i) → does W m c p a c' p' → does W' m c p a c' p'.
Proof.
  intros HW [Hs H]. split; [by eapply same_outside_weaken|].
  intros fs. destruct (H fs) as [?|(? & e & d' & ? & ?)]; [by left|right].
  split; [done|]. do 2 eexists. split; [done|]. by eapply same_outside_weaken.
Qed.

Lemma does_ret {A} W (a : A) c p : does W (mret a) c p a c p.
Proof. split; [done|]. intros fs. left. by exists fs. Qed.

(** Case split on the next fault of a call. *)
Ltac fault_case fs :=
  split;
  [ try done
  | intros fs; destruct fs as [|[?k|] fs];
    [left; exists [] | right; split; [done|] | left; exists fs];
    unfold mbind, M_bind, mret, M_ret, mget, mmodify, mfail, next_fault, D, dev_size;
    cbn [faults content pos] ].

Ltac fault_fail := do 2 eexists; split; [done|apply same_outside_refl].

Lemma does_seek off c p :
  0 ≤ off ≤ Z.of_nat (length c) → does nothing (seek off) c p off c off.
Proof.
  intros Hoff. unfold seek. fault_case fs; [|fault_fail|];
    by rewrite (proj2 (Z.ltb_ge off 0)), (proj2 (Z.ltb_ge _ off)) by lia.
Qed.

Lemma does_seek_end c p :
  does nothing seek_end c p (Z.of_nat (length c)) c (Z.of_nat (length c)).
Proof. unfold seek_end. fault_case fs; [done|fault_fail|done]. Qed.

Lemma does_read_full n c p :
  0 ≤ p → p + Z.of_nat n ≤ Z.of_nat (length c) →
  does nothing (read_full n) c p (slice (Z.to_nat p) n c) c (p + Z.of_nat n).
Proof.
  intros ? ?. unfold read_full. fault_case fs; [|fault_fail|];
    by rewrite length_slice, decide_True by lia.
Qed.

Lemma does_read_at n off c p :
  0 ≤ off → off + Z.of_nat n ≤ Z.of_nat (length c) →
  does nothing (read_at n off) c p (slice (Z.to_nat off) n c) c p.
Proof.
  intros ? ?. unfold read_at. fault_case fs; [|fault_fail|];
    rewrite (proj2 (Z.ltb_ge off 0)) by lia;
    by rewrite length_slice, decide_True by lia.
Qed.

Lemma store_fits off bs d :
  0 ≤ off → off + Z.of_nat (length bs) ≤ dev_size d →
  store off bs d = set_content (splice (Z.to_nat off) bs (content d)) d.
Proof.
  intros Ho Hn. unfold store, dev_size in *. rewrite (proj2 (Z.ltb_ge off 0)) by lia.
  destruct (Z.leb_spec (Z.of_nat (length (content d))) off) as [Hl|Hl].
  - destruct bs as [|b bs]; [|cbn in Hn; lia]. rewrite splice_nil. by destruct d.
  - by rewrite take_ge by lia.
Qed.

Lemma does_write_at bs off c p :
  0 ≤ off → off + Z.of_nat (length bs) ≤ Z.of_nat (length c) →
  does (span (Z.to_nat off) (length bs)) (write_at bs off) c p tt
       (splice (Z.to_nat off) bs c) p.
Proof.
  intros ? ?. unfold write_at. fault_case fs.
  - apply same_outside_splice. lia.
  - rewrite (proj2 (Z.ltb_ge off 0)) by lia. rewrite store_fits by (unfold dev_size; cbn; lia).
    by rewrite (proj2 (Z.leb_le _ _)) by done.
  - do 2 eexists. split; [done|].
    eapply same_outside_weaken; [|apply same_outside_store].
    intros i. unfold span. rewrite length_take. lia.
  - rewrite (proj2 (Z.ltb_ge off 0)) by lia. rewrite store_fits by (unfold dev_size; cbn; lia).
    by rewrite (proj2 (Z.leb_le _ _)) by done.
Qed.

Lemma does_write bs c p :
  0 ≤ p → p + Z.of_nat (length bs) ≤ Z.of_nat (length c) →
  does (span (Z.to_nat p) (length bs)) (write bs) c p tt
       (splice (Z.to_nat p) bs c) (p + Z.of_nat (length bs)).
Proof.
  intros Hp Hl. destruct (does_write_at bs p c p Hp Hl) as [Hs H]. split; [done|].
  intros fs. unfold write, mbind, M_bind. cbn [mget D pos].
  fold (D c p fs). destruct (H fs) as [(fs' & -> & ?)|(? & e & d' & -> & ?)].
  - left. by exists fs'.
  - right. eauto.
Qed.

Lemma does_read_GPTHeader c p h :
  0 ≤ p → p + 512 ≤ Z.of_nat (length c) →
  decode_GPTHeader (slice (Z.to_nat p) 512 c) = Some h →
  does nothing read_GPTHeader c p h c (p + 512).
Proof.
  intros Hp Hl E. eapply does_bind; [by apply (does_read_full 512)|].
  rewrite E. apply does_ret.
Qed.

Lemma does_read_PartitionEntry c p pe :
  0 ≤ p → p + 128 ≤ Z.of_nat (length c) →
  decode_PartitionEntry (slice (Z.to_nat p) 128 c) = Some pe →
  does nothing read_PartitionEntry c p pe c (p + 128).
Proof.
  intros Hp Hl E. eapply does_bind; [by apply (does_read_full 128)|].
  rewrite E. apply does_ret.
Qed.
