(* ===== verification/GptUtil.v ===== *)
(** * Filesystem detection and the zero reader (src/pkg/vorteil/gptutil.go) *)

From S2P Require Import Prelude Bytes GptTypes BlockDev.
Local Open Scope Z_scope.

Definition sectorSize : Z := 512.

(** [Format] with its four values. *)
Inductive Format := Ext2FS | Ext4FS | XFS | UnknownFS.

#[global] Instance Format_eq_dec : EqDecision Format.
Proof. solve_decision. Defined.

Definition ext2Signature : list byte := [x53; xef].
Definition xfsSignature : list byte := [x58; x46; x53; x42].

(** The result is [(format, err)]: on a read error the format is [UnknownFS]
    and the error is returned. *)
Definition detectFormat (start : Z) : M dev Format :=
  let off := i64 (start + 1080) in
  b ← read_at 2 off;
  if decide (b = ext2Signature) then mret Ext2FS
  else
    let off := start in
    b ← read_at 4 off;
    if decide (b = xfsSignature) then mret XFS
    else mret UnknownFS.

(** [(x + y - 1) / y] on 64-bit [int]; Go's [/] truncates and panics on zero. *)
Definition ceiling (x y : Z) : outcome Z :=
  if y =? 0 then Panic DivideByZero
  else Ret (i64 (Z.quot (i64 (i64 (x + y) - 1)) y)).

(** [zr.Read]: zero the first byte, then double the zeroed prefix.  The loop
    variable at least doubles, so [length p] rounds are enough. *)
Fixpoint zr_loop (fuel bp : nat) (p : list byte) : list byte :=
  match fuel with
  | O => p
  | S fuel =>
      if decide (bp < length p)%nat then
        zr_loop fuel (bp * 2) (splice bp (take (length p - bp) (take bp p)) p)
      else p
  end.

Definition zr_Read (p : list byte) : list byte :=
  match p with
  | [] => []
  | _ :: _ => zr_loop (length p) 1 (<[0%nat := x00]> p)
  end.

(** ** Properties *)

Lemma zr_loop_zeroes fuel bp p :
  (0 < bp)%nat → (length p ≤ fuel + bp)%nat →
  (∀ i, i < bp → i < length p → p !! i = Some x00)%nat →
  zr_loop fuel bp p = replicate (length p) x00.
Proof.
  revert bp p. induction fuel as [|fuel IH]; intros bp p Hbp Hf Hz; cbn [zr_loop].
  - apply list_eq. intros i. destruct (decide (i < length p)%nat).
    + rewrite lookup_replicate_2 by done. apply Hz; lia.
    + rewrite !lookup_ge_None_2; rewrite ?length_replicate; auto with lia.
  - set (bs := take (length p - bp) (take bp p)).
    assert (length bs = (length p - bp) `min` bp)%nat as Hb
      by (unfold bs; rewrite !length_take; lia).
    case_decide as Hlt.
    + rewrite IH; rewrite ?length_splice by lia; [done|lia..|].
      intros i Hi Hip. rewrite lookup_splice by lia. case_decide.
      * unfold bs. rewrite !lookup_take_lt by lia. apply Hz; lia.
      * apply Hz; lia.
    + apply list_eq. intros i. destruct (decide (i < length p)%nat).
      * rewrite lookup_replicate_2 by done. apply Hz; lia.
      * rewrite !lookup_ge_None_2; rewrite ?length_replicate; auto with lia.
Qed.

(** The doubling loop zeroes the whole buffer, whatever its length and
    whatever it held. *)
Lemma zr_Read_zeroes p : zr_Read p = replicate (length p) x00.
Proof.
  destruct p as [|b p]; [done|]. unfold zr_Read.
  rewrite zr_loop_zeroes; rewrite ?length_insert; [done|lia|cbn; lia|].
  intros [|i] ? ?; [done|lia].
Qed.
