(* ===== verification/Gpt.v ===== *)
(** * Growing the partition table (src/pkg/vorteil/gpt.go)

    The operations of [gptModifier] on the boot disk. *)

From S2P Require Import Prelude Bytes GptTypes BlockDev GptUtil.
Local Open Scope Z_scope.
Local Open Scope go_scope.

(** ** State *)

(** [gptModifier]; the pointers that may be nil are options. *)
Record gptModifier := {
  gm_path : string;
  gm_size : Z;
  partitionEntry : option PartitionEntry;
  gptHeader : GPTHeader;
  backupGPTHeader : option GPTHeader;
  sectorsAdded : Z;
  originalBackupGPTLBA : Z
}.

(** The modifier with its file, and the cell of the header that
    [UpdateSecondaryGPTHeader] allocates. *)
Record gst := {
  gdev : dev;
  gm : gptModifier;
  gnew : GPTHeader
}.

Definition set_gdev (d : dev) (s : gst) : gst := {| gdev := d; gm := gm s; gnew := gnew s |}.
Definition set_gm (m : gptModifier) (s : gst) : gst := {| gdev := gdev s; gm := m; gnew := gnew s |}.
Definition set_gnew (g : GPTHeader) (s : gst) : gst := {| gdev := gdev s; gm := gm s; gnew := g |}.

Definition with_partitionEntry (pe : option PartitionEntry) (m : gptModifier) : gptModifier :=
  {| gm_path := gm_path m; gm_size := gm_size m; partitionEntry := pe;
     gptHeader := gptHeader m; backupGPTHeader := backupGPTHeader m;
     sectorsAdded := sectorsAdded m; originalBackupGPTLBA := originalBackupGPTLBA m |}.

Definition with_gptHeader (h : GPTHeader) (m : gptModifier) : gptModifier :=
  {| gm_path := gm_path m; gm_size := gm_size m; partitionEntry := partitionEntry m;
     gptHeader := h; backupGPTHeader := backupGPTHeader m;
     sectorsAdded := sectorsAdded m; originalBackupGPTLBA := originalBackupGPTLBA m |}.

Definition with_backupGPTHeader (h : option GPTHeader) (m : gptModifier) : gptModifier :=
  {| gm_path := gm_path m; gm_size := gm_size m; partitionEntry := partitionEntry m;
     gptHeader := gptHeader m; backupGPTHeader := h;
     sectorsAdded := sectorsAdded m; originalBackupGPTLBA := originalBackupGPTLBA m |}.

Definition with_sectorsAdded (n : Z) (m : gptModifier) : gptModifier :=
  {| gm_path := gm_path m; gm_size := gm_size m; partitionEntry := partitionEntry m;
     gptHeader := gptHeader m; backupGPTHeader := backupGPTHeader m;
     sectorsAdded := n; originalBackupGPTLBA := originalBackupGPTLBA m |}.

(** File operations inside a method of the modifier. *)
Definition on_dev {A} (m : M dev A) : M gst A := λ s,
  let '(r, d) := m (gdev s) in (r, set_gdev d s).

(** The two headers [calculateCRCs] is called on. *)
Inductive hdr := hPrimary | hBackup.

Definition hdr_get (g : hdr) (s : gst) : GPTHeader :=
  match g with hPrimary => gptHeader (gm s) | hBackup => gnew s end.

Definition hdr_set (g : hdr) (f : GPTHeader → GPTHeader) (s : gst) : gst :=
  match g with
  | hPrimary => set_gm (with_gptHeader (f (gptHeader (gm s))) (gm s)) s
  | hBackup => set_gnew (f (gnew s)) s
  end.

(** ** Operations *)

Definition lastUsableLBA (m : gptModifier) : Z :=
  u64 (i64 (Z.quot (gm_size m) sectorSize - 34)).

Definition needsResize (m : gptModifier) : bool :=
  ((LastUsableLBA (gptHeader m) +u64 35) *u64 sectorSize) <? u64 (gm_size m).

Definition getGPTHeader : M dev GPTHeader :=
  seek sectorSize;;
  read_GPTHeader.

Definition newGPTModifier (path : string) : M dev gptModifier :=
  h ← getGPTHeader;
  let orig := BackupLBA h in
  size ← seek_end;
  mret {| gm_path := path; gm_size := size; partitionEntry := None; gptHeader := h;
          backupGPTHeader := None; sectorsAdded := 0; originalBackupGPTLBA := orig |}.

Definition zero_PartitionEntry : PartitionEntry :=
  {| TypeGUID := replicate 16 x00; PartGUID := replicate 16 x00; FirstLBA := 0;
     LastLBA := 0; Attributes := 0; Name := replicate 72 x00 |}.

Definition tableOffset : Z := sectorSize * 2.
Definition peLen : Z := 128.

(** The loop of [addPartition]: [n] rounds left, [i] done; the result is the
    last entry in use and its offset. *)
Fixpoint add_scan (n : nat) (i : Z) (last : option PartitionEntry) (peOffset : Z)
    : M dev (option PartitionEntry * Z) :=
  match n with
  | O => mret (last, peOffset)
  | S n =>
      pe ← read_PartitionEntry;
      if FirstLBA pe =? 0 then mret (last, peOffset)
      else add_scan n (i + 1) (Some pe) (tableOffset + i * peLen)
  end.

Definition addPartition : M gst unit :=
  on_dev (seek (2 * sectorSize));;
  '(last, peOffset) ← on_dev (add_scan 128 0 None 0);
  s ← mget;
  match last with
  | None => mpanic NilDeref
  | Some last =>
      let pe := {| TypeGUID := TypeGUID zero_PartitionEntry;
                   PartGUID := PartGUID zero_PartitionEntry;
                   FirstLBA := LastLBA last +u64 1;
                   LastLBA := lastUsableLBA (gm s);
                   Attributes := 0;
                   Name := Name zero_PartitionEntry |} in
      on_dev (seek (peOffset + peLen));;
      on_dev (write (encode_PartitionEntry pe));;
      mmodify (hdr_set hPrimary (λ h, set_NoOfParts (u32 (NoOfParts h + 1)) h))
  end.

(** The loop of [extendFinalPartition]; [m.partitionEntry] is assigned as it
    goes. *)
Fixpoint extend_scan (n : nat) (i : Z) (peOffset : Z) : M gst Z :=
  match n with
  | O => mret peOffset
  | S n =>
      pe ← on_dev read_PartitionEntry;
      if FirstLBA pe =? 0 then mret peOffset
      else
        mmodify (λ s, set_gm (with_partitionEntry (Some pe) (gm s)) s);;
        extend_scan n (i + 1) (tableOffset + i * peLen)
  end.

Definition extendFinalPartition : M gst Z :=
  on_dev (seek tableOffset);;
  peOffset ← extend_scan 128 0 0;
  s ← mget;
  match partitionEntry (gm s) with
  | None => mpanic NilDeref
  | Some pe =>
      let out := lastUsableLBA (gm s) -u64 LastLBA pe in
      let pe' := set_LastLBA (lastUsableLBA (gm s)) pe in
      mmodify (λ s, set_gm (with_partitionEntry (Some pe') (gm s)) s);;
      on_dev (seek peOffset);;
      on_dev (write (encode_PartitionEntry pe'));;
      mret out
  end.

(** The checksum of the partition entry array, read from the disk or taken over
    from the primary header. *)
Definition calculate_CrcParts (g : hdr) (skipParts : bool) : M gst unit :=
  s ← mget;
  if skipParts then mmodify (hdr_set g (set_CrcParts (CrcParts (gptHeader (gm s)))))
  else
    pea ← on_dev (read_at (Z.to_nat (sectorSize * 32))
                     (i64 (StartLBAParts (hdr_get g s) *u64 sectorSize)));
    mmodify (hdr_set g (set_CrcParts (crc32 pea))).

(** [hdrBuf.Bytes()] holds exactly the 512 bytes of the header, in a buffer of
    that capacity, so a longer slice panics. *)
Definition calculateCRCs (g : hdr) (skipParts : bool) : M gst unit :=
  mmodify (hdr_set g (set_Crc 0));;
  calculate_CrcParts g skipParts;;
  s ← mget;
  let hdrBuf := encode_GPTHeader (hdr_get g s) in
  let n := HeaderSize (hdr_get g s) in
  if Z.of_nat (length hdrBuf) <? n then mpanic SliceBounds
  else mmodify (hdr_set g (set_Crc (crc32 (take (Z.to_nat n) hdrBuf)))).

Definition updatePrimaryGPTHeader : M gst unit :=
  s ← mget;
  mmodify (hdr_set hPrimary
             (set_limits (lastUsableLBA (gm s))
                (u64 (Z.quot (gm_size (gm s)) sectorSize) -u64 1)));;
  calculateCRCs hPrimary false;;
  on_dev (seek (1 * sectorSize));;
  s ← mget;
  on_dev (write (encode_GPTHeader (gptHeader (gm s)))).

Definition UpdateSecondaryGPTHeader : M gst unit :=
  on_dev (seek (1 * sectorSize));;
  g ← on_dev read_GPTHeader;
  s ← mget;
  let cur := BackupLBA (gptHeader (gm s)) in
  mmodify (set_gnew (set_location cur (CurrentLBA (gptHeader (gm s))) (cur -u64 32) g));;
  calculateCRCs hBackup true;;
  s ← mget;
  on_dev (seek (i64 (CurrentLBA (gnew s) *u64 sectorSize)));;
  on_dev (write (encode_GPTHeader (gnew s)));;
  mmodify (λ s, set_gm (with_backupGPTHeader (Some (gnew s)) (gm s)) s).

(** The sector-by-sector copy of the table: [n] sectors left, [i] done. *)
Fixpoint copy_table (n : nat) (i : Z) (src gptOff : Z) : M dev unit :=
  match n with
  | O => mret tt
  | S n =>
      b ← read_at (Z.to_nat sectorSize) (i64 ((src *u64 sectorSize) +u64 u64 (i * sectorSize)));
      write_at b (i64 (gptOff +u64 u64 (i * sectorSize)));;
      copy_table n (i + 1) src gptOff
  end.

(** [io.CopyN(m.f, zeroes, n)]: one buffer of [n] bytes, filled by [zr.Read]. *)
Definition copyN_zeroes (n : Z) : M dev unit :=
  write (zr_Read (replicate (Z.to_nat n) x00)).

Definition relocateRedundantGPTTable : M gst unit :=
  s ← mget;
  let redundantGPTOffset := (originalBackupGPTLBA (gm s) -u64 32) *u64 sectorSize in
  let gptLen := 33 * sectorSize in
  on_dev (seek (i64 redundantGPTOffset));;
  on_dev (copyN_zeroes gptLen);;
  match backupGPTHeader (gm s) with
  | None => mpanic NilDeref
  | Some b =>
      let gptOff := StartLBAParts b *u64 sectorSize in
      on_dev (copy_table 32 0 (StartLBAParts (gptHeader (gm s))) gptOff)
  end.

Definition updateMBR : M gst unit :=
  b ← on_dev (read_at (Z.to_nat sectorSize) 0);
  mbr ← on_dev (decoded (decode_MBR b));
  s ← mget;
  let mbr' := set_NumberOfSectors (u32 (u32 (Z.quot (gm_size (gm s)) sectorSize) - 1)) mbr in
  on_dev (seek 0);;
  on_dev (write (encode_MBR mbr')).

Definition grow : M gst unit :=
  s ← mget;
  if negb (needsResize (gm s)) then mret tt
  else
    out ← extendFinalPartition;
    mmodify (λ s, set_gm (with_sectorsAdded out (gm s)) s);;
    updatePrimaryGPTHeader;;
    UpdateSecondaryGPTHeader;;
    relocateRedundantGPTTable;;
    updateMBR.

(** A modifier just built by [newGPTModifier] on a disk. *)
Definition zero_GPTHeader : GPTHeader :=
  {| Signature := 0; Revision := replicate 4 x00; HeaderSize := 0; Crc := 0;
     Reserved0 := 0; CurrentLBA := 0; BackupLBA := 0; FirstUsableLBA := 0;
     LastUsableLBA := 0; GUID := replicate 16 x00; StartLBAParts := 0;
     NoOfParts := 0; SizePartEntry := 0; CrcParts := 0; Reserved1 := replicate 420 x00 |}.

Definition open_and_grow (path : string) : M dev gptModifier := λ d,
  match newGPTModifier path d with
  | (Ret m, d') =>
      match grow {| gdev := d'; gm := m; gnew := zero_GPTHeader |} with
      | (Ret _, s) => (Ret (gm s), gdev s)
      | (Fail e, s) => (Fail e, gdev s)
      | (Panic p, s) => (Panic p, gdev s)
      | (Halted, s) => (Halted, gdev s)
      end
  | (Fail e, d') => (Fail e, d')
  | (Panic p, d') => (Panic p, d')
  | (Halted, d') => (Halted, d')
  end.
