(* ===== verification/GptSpec.v ===== *)
(** * What growing the disk must achieve, and that [grow] does it

    [grow_spec] is the abstract result of a grow: one pure function from the
    bytes of the disk to the bytes of the disk.  The refinement lemma shows that
    the operations of [Gpt] compute it on a healthy device; the properties of
    the partition table are then read off the specification. *)

From S2P Require Import Prelude Bytes GptTypes BlockDev GptUtil Gpt.
Local Open Scope Z_scope.

(** ** Reading a disk *)

(** Number of whole sectors. *)
Definition nsect (c : list byte) : Z := Z.of_nat (length c) / 512.

Definition sector (c : list byte) (lba : Z) : list byte :=
  slice (Z.to_nat (lba * 512)) 512 c.

Definition header_at (c : list byte) (lba : Z) : option GPTHeader :=
  decode_GPTHeader (sector c lba).

(** The partition entry array a header points to. *)
Definition table_at (c : list byte) (lba : Z) : list byte :=
  slice (Z.to_nat (lba * 512)) (Z.to_nat (sectorSize * 32)) c.

Definition entry (c : list byte) (i : nat) : option PartitionEntry :=
  decode_PartitionEntry (slice (1024 + 128 * i) 128 c).

Definition entry_used (c : list byte) (i : nat) : bool :=
  match entry c i with
  | Some p => negb (FirstLBA p =? 0)
  | None => false
  end.

(** Length of the used prefix of the table, scanning [n] entries from [i]. *)
Fixpoint used_from (c : list byte) (n i : nat) : nat :=
  match n with
  | O => i
  | S n => if entry_used c i then used_from c n (S i) else i
  end.

Definition used (c : list byte) : nat := used_from c 128 0.

(** ** The abstract grow *)

(** A header whose two checksums are right for table [tbl]. *)
Definition seal (tbl_crc : Z) (h : GPTHeader) : GPTHeader :=
  let h0 := set_CrcParts tbl_crc (set_Crc 0 h) in
  set_Crc (crc32 (take (Z.to_nat (HeaderSize h0)) (encode_GPTHeader h0))) h0.

(** The header at [lba] describes itself, and both its checksums hold. *)
Definition header_ok (c : list byte) (lba : Z) (h : GPTHeader) : Prop :=
  header_at c lba = Some h ∧
  CurrentLBA h = lba ∧
  Crc h = crc32 (take (Z.to_nat (HeaderSize h)) (encode_GPTHeader (set_Crc 0 h))) ∧
  CrcParts h = crc32 (table_at c (StartLBAParts h)).

Definition spec_entry (c : list byte) (pe : PartitionEntry) (k : nat) : list byte :=
  splice (1024 + 128 * k) (encode_PartitionEntry pe) c.

Definition spec_primary (c : list byte) (h : GPTHeader) : GPTHeader :=
  seal (crc32 (table_at c 2)) (set_limits (nsect c - 34) (nsect c - 1) h).

Definition spec_backup (c : list byte) (h1 : GPTHeader) : GPTHeader :=
  seal (CrcParts h1) (set_location (nsect c - 1) 1 (nsect c - 33) h1).

Definition zero_block : list byte := replicate (Z.to_nat (33 * sectorSize)) x00.

Definition grow_spec (c : list byte) (h : GPTHeader) (k : nat) (pe : PartitionEntry)
    (mbr : ProtectiveMBREntry) : list byte :=
  let n := nsect c in
  let c1 := spec_entry c (set_LastLBA (n - 34) pe) k in
  let h1 := spec_primary c1 h in
  let h2 := spec_backup c1 h1 in
  let c2 := splice 512 (encode_GPTHeader h1) c1 in
  let c3 := splice (Z.to_nat ((n - 1) * 512)) (encode_GPTHeader h2) c2 in
  let c4 := splice (Z.to_nat ((BackupLBA h - 32) * 512)) zero_block c3 in
  let c5 := splice (Z.to_nat ((n - 33) * 512)) (table_at c4 2) c4 in
  splice 0 (encode_MBR (set_NumberOfSectors (u32 (u32 n - 1)) mbr)) c5.

(** A GPT disk that has room to grow: the header at LBA 1 is a primary header
    whose table follows it, the backup structures end at [BackupLBA], at least
    one partition exists, and the disk continues past the backup header. *)
Record growable (c : list byte) (h : GPTHeader) : Prop := {
  g_header : header_at c 1 = Some h;
  g_size : HeaderSize h ≤ 512;
  g_current : CurrentLBA h = 1;
  g_start : StartLBAParts h = 2;
  g_backup : 66 ≤ BackupLBA h;
  g_last : LastUsableLBA h = BackupLBA h - 33;
  g_room : (BackupLBA h + 2) * 512 < Z.of_nat (length c);
  g_int64 : Z.of_nat (length c) < 2 ^ 63;
  g_used : entry_used c 0 = true
}.

(** ** Runs, whatever the kernel decides

    [Run W x c p m g a c' p' m' g'] lifts [does] to the methods of the modifier:
    they return [a] in the state given, or a fault was injected and they return
    an error having changed only bytes of [W]. *)

Definition mk (c : list byte) (p : Z) (m : gptModifier) (g : GPTHeader)
    (fs : list (option nat)) : gst :=
  {| gdev := D c p fs; gm := m; gnew := g |}.

Definition Run {A} (W : nat → Prop) (x : M gst A)
    (c : list byte) (p : Z) (m : gptModifier) (g : GPTHeader)
    (a : A) (c' : list byte) (p' : Z) (m' : gptModifier) (g' : GPTHeader) : Prop :=
  same_outside W c c' ∧
  ∀ fs,
    (∃ fs', x (mk c p m g fs) = (Ret a, mk c' p' m' g' fs') ∧ (fs = [] → fs' = [])) ∨
    (fs ≠ [] ∧ ∃ e s', x (mk c p m g fs) = (Fail e, s') ∧
                       same_outside W c (content (gdev s'))).

Section rules.
Context (W : nat → Prop).

Lemma Run_bind {A B} (x : M gst A) (k : A → M gst B) c p m g a c1 p1 m1 g1 b c2 p2 m2 g2 :
  Run W x c p m g a c1 p1 m1 g1 → Run W (k a) c1 p1 m1 g1 b c2 p2 m2 g2 →
  Run W (x ≫= k) c p m g b c2 p2 m2 g2.
Proof.
  intros [S1 H1] [S2 H2]. split; [by eapply same_outside_trans|].
  intros fs. unfold mbind, M_bind.
  destruct (H1 fs) as [(fs1 & -> & Hn)|(Hn & e & d' & -> & Hs)].
  - destruct (H2 fs1) as [(fs2 & -> & Hn2)|(Hn2 & e & d' & -> & Hs)].
    + left. eauto 10.
    + right. split; [by intros ->; apply Hn2, Hn|].
      do 2 eexists. split; [done|]. by eapply same_outside_trans.
  - right. eauto 10.
Qed.

Lemma Run_dev {A} (V : nat → Prop) (x : M dev A) c p a c' p' m g :
  does V x c p a c' p' → (∀ i, V i → W i) →
  Run W (on_dev x) c p m g a c' p' m g.
Proof.
  intros Hd HV. destruct (does_weaken V W _ _ _ _ _ _ HV Hd) as [Hs H]. split; [done|].
  intros fs. unfold on_dev, mk. cbn [gdev].
  destruct (H fs) as [(fs' & -> & ?)|(? & e & d' & -> & ?)]; [left|right]; eauto 10.
Qed.

Lemma Run_get {B} (k : gst → M gst B) c p m g b c2 p2 m2 g2 :
  (∀ fs, Run W (k (mk c p m g fs)) c p m g b c2 p2 m2 g2) →
  Run W (mget ≫= k) c p m g b c2 p2 m2 g2.
Proof.
  intros H. split; [apply (H [])|]. intros fs. apply (H fs).
Qed.

Lemma Run_modify (f : gst → gst) c p m g m' g' :
  (∀ fs, f (mk c p m g fs) = mk c p m' g' fs) →
  Run W (mmodify f) c p m g tt c p m' g'.
Proof.
  intros H. split; [done|]. intros fs. left. exists fs. unfold mmodify. by rewrite H.
Qed.

Lemma Run_ret {A} (a : A) c p m g : Run W (mret a) c p m g a c p m g.
Proof. split; [done|]. intros fs. left. by exists fs. Qed.

Lemma Run_eq {A} (x : M gst A) c p m g a c' p' m' g' a1 c1 p1 m1 g1 :
  Run W x c p m g a c' p' m' g' →
  a = a1 → c' = c1 → p' = p1 → m' = m1 → g' = g1 →
  Run W x c p m g a1 c1 p1 m1 g1.
Proof. by intros ? -> -> -> -> ->. Qed.

(** Associates the statements of a body to the left. *)
Lemma Run_assoc {B C A} (x : M gst A) (k : M gst B) (l : M gst C) c p m g b c2 p2 m2 g2 :
  Run W ((x ≫= λ _, k) ≫= λ _, l) c p m g b c2 p2 m2 g2 →
  Run W (x ≫= λ _, k ≫= λ _, l) c p m g b c2 p2 m2 g2.
Proof.
  intros [Hs H]. split; [done|]. intros fs. specialize (H fs). revert H.
  unfold mbind, M_bind. by destruct (x (mk c p m g fs)) as [[?| | |] ?].
Qed.

Lemma run_seek c p m g off :
  0 ≤ off ≤ Z.of_nat (length c) →
  Run W (on_dev (seek off)) c p m g off c off m g.
Proof. intros. by eapply Run_dev; [apply does_seek|]. Qed.

Lemma run_read_at n off c p m g :
  0 ≤ off → off + Z.of_nat n ≤ Z.of_nat (length c) →
  Run W (on_dev (read_at n off)) c p m g (slice (Z.to_nat off) n c) c p m g.
Proof. intros. by eapply Run_dev; [apply does_read_at|]. Qed.

Lemma run_read_header c p m g h :
  0 ≤ p → p + 512 ≤ Z.of_nat (length c) →
  decode_GPTHeader (slice (Z.to_nat p) 512 c) = Some h →
  Run W (on_dev read_GPTHeader) c p m g h c (p + 512) m g.
Proof. intros. by eapply Run_dev; [apply does_read_GPTHeader|]. Qed.

Lemma run_read_entry c p m g pe :
  0 ≤ p → p + 128 ≤ Z.of_nat (length c) →
  decode_PartitionEntry (slice (Z.to_nat p) 128 c) = Some pe →
  Run W (on_dev read_PartitionEntry) c p m g pe c (p + 128) m g.
Proof. intros. by eapply Run_dev; [apply does_read_PartitionEntry|]. Qed.

Lemma run_write bs c p m g n :
  length bs = n → 0 ≤ p → p + Z.of_nat n ≤ Z.of_nat (length c) →
  (∀ i, span (Z.to_nat p) n i → W i) →
  Run W (on_dev (write bs)) c p m g tt (splice (Z.to_nat p) bs c) (p + Z.of_nat n) m g.
Proof. intros <- ? ? ?. by eapply Run_dev; [apply does_write|]. Qed.
End rules.

(** Executes the next call of a run. *)
Tactic Notation "run" tactic3(t) := eapply Run_bind; [solve [t]|].
Ltac run_get := apply Run_get; intros ?fs.
Ltac run_set :=
  apply Run_modify; intros ?fs; unfold hdr_set, set_gm, set_gnew, mk;
  cbn [gm gdev gnew]; reflexivity.
Ltac run_modify := eapply Run_bind; [run_set|].

Lemma entry_total c i :
  (1024 + 128 * i + 128 ≤ length c)%nat → ∃ p, entry c i = Some p ∧ wf_PartitionEntry p.
Proof.
  intros. destruct (decode_PartitionEntry_total (slice (1024 + 128 * i) 128 c)) as (p & ? & ? & ?).
  { apply length_slice. lia. }
  eauto.
Qed.

Lemma used_from_ge c n i : (i ≤ used_from c n i)%nat.
Proof.
  revert i. induction n as [|n IH]; intros i; cbn; [done|].
  case_match; [|done]. specialize (IH (S i)). lia.
Qed.

Lemma used_from_le c n i : (used_from c n i ≤ i + n)%nat.
Proof.
  revert i. induction n as [|n IH]; intros i; cbn; [lia|].
  case_match; [|lia]. specialize (IH (S i)). lia.
Qed.

(** The scan of the table stops after the used prefix, at its last entry. *)
Lemma run_extend_scan W n i off c m g :
  (i + n ≤ 128)%nat → 17408 ≤ Z.of_nat (length c) →
  ∃ p, let k := used_from c n i in
    Run W (extend_scan n (Z.of_nat i) off) c (1024 + 128 * Z.of_nat i) m g
      (if decide (k = i) then off else 1024 + 128 * Z.of_nat (k - 1)) c p
      (if decide (k = i) then m else with_partitionEntry (entry c (k - 1)) m) g.
Proof.
  revert i off m. induction n as [|n IH]; intros i off m Hi Hl; cbn [extend_scan used_from].
  - eexists. cbn zeta. rewrite !decide_True by done. apply Run_ret.
  - destruct (entry_total c i) as (pe & E & _); [lia|].
    destruct (IH (S i) (tableOffset + Z.of_nat i * peLen)
                (with_partitionEntry (Some pe) m)) as (p & Hr); [lia..|]. cbn zeta in Hr |- *.
    unfold entry_used. rewrite E.
    destruct (Z.eqb_spec (FirstLBA pe) 0) as [H0|H0]; cbn [negb].
    + eexists. rewrite !decide_True by done.
      run (apply (run_read_entry _ c _ _ _ pe); [lia..|];
           rewrite <-E; unfold entry; do 2 f_equal; lia).
      rewrite H0. apply Run_ret.
    + exists p. pose proof (used_from_ge c n (S i)).
      rewrite !(decide_False (P := used_from c n (S i) = i)) by lia.
      run (apply (run_read_entry _ c _ _ _ pe); [lia..|];
           rewrite <-E; unfold entry; do 2 f_equal; lia).
      rewrite (proj2 (Z.eqb_neq _ _)) by done. run_modify.
      replace (Z.of_nat i + 1) with (Z.of_nat (S i)) by lia.
      replace (1024 + 128 * Z.of_nat i + 128) with (1024 + 128 * Z.of_nat (S i)) by lia.
      eapply Run_eq; [exact Hr|..]; try done; case_decide as Hk; try done;
        rewrite Hk; replace (S i - 1)%nat with i by lia; [|by rewrite E].
      unfold tableOffset, sectorSize, peLen. lia.
Qed.

(** ** Well-formedness of what is written *)

Lemma wf_set_LastLBA l p :
  wf_PartitionEntry p → 0 ≤ l < 2 ^ 64 → wf_PartitionEntry (set_LastLBA l p).
Proof. intros [] ?. by constructor. Qed.

Lemma wf_set_NumberOfSectors n m :
  wf_MBR m → 0 ≤ n < 2 ^ 32 → wf_MBR (set_NumberOfSectors n m).
Proof. intros [] ?. by constructor. Qed.

Lemma wf_set_limits a b h :
  wf_GPTHeader h → 0 ≤ a < 2 ^ 64 → 0 ≤ b < 2 ^ 64 → wf_GPTHeader (set_limits a b h).
Proof. intros [] ? ?. by constructor. Qed.

Lemma wf_set_location a b s h :
  wf_GPTHeader h → 0 ≤ a < 2 ^ 64 → 0 ≤ b < 2 ^ 64 → 0 ≤ s < 2 ^ 64 →
  wf_GPTHeader (set_location a b s h).
Proof. intros [] ? ? ?. by constructor. Qed.

Lemma wf_set_Crc n h : wf_GPTHeader h → 0 ≤ n < 2 ^ 32 → wf_GPTHeader (set_Crc n h).
Proof. intros [] ?. by constructor. Qed.

Lemma wf_set_CrcParts n h :
  wf_GPTHeader h → 0 ≤ n < 2 ^ 32 → wf_GPTHeader (set_CrcParts n h).
Proof. intros [] ?. by constructor. Qed.

Lemma wf_seal t h : wf_GPTHeader h → 0 ≤ t < 2 ^ 32 → wf_GPTHeader (seal t h).
Proof.
  intros ? ?. unfold seal. apply wf_set_Crc; [|apply crc32_range].
  apply wf_set_CrcParts; [|done]. apply wf_set_Crc; [done|lia].
Qed.

#[export] Hint Resolve wf_set_LastLBA wf_set_NumberOfSectors wf_set_limits
  wf_set_location wf_seal crc32_range wf_CrcParts : vinitd.

Lemma nsect_bounds c : 512 * nsect c ≤ Z.of_nat (length c) < 512 * nsect c + 512.
Proof.
  unfold nsect. pose proof (Z.div_mod (Z.of_nat (length c)) 512 ltac:(lia)).
  pose proof (Z.mod_pos_bound (Z.of_nat (length c)) 512 ltac:(lia)). lia.
Qed.

Lemma length_eq_nsect c c' : length c = length c' → nsect c = nsect c'.
Proof. unfold nsect. by intros ->. Qed.

(** The modifier's arithmetic, free of wrap-around on a disk below 8 EiB. *)
Lemma quot_nsect c : Z.quot (Z.of_nat (length c)) sectorSize = nsect c.
Proof. unfold nsect, sectorSize. apply Z.quot_div_nonneg; lia. Qed.

Lemma lastUsableLBA_nsect c m :
  gm_size m = Z.of_nat (length c) → 34 ≤ nsect c → Z.of_nat (length c) < 2 ^ 63 →
  lastUsableLBA m = nsect c - 34.
Proof.
  intros E ? ?. pose proof (nsect_bounds c).
  unfold lastUsableLBA. rewrite E, quot_nsect, swrap_small by lia.
  apply uwrap_small. lia.
Qed.

(** ** The steps of [grow] *)

Section steps.
Context (W : nat → Prop).
Context (c : list byte) (p : Z) (m : gptModifier) (g : GPTHeader).
Context (Hm : gm_size m = Z.of_nat (length c)).
Context (Hlo : 68 ≤ nsect c) (Hhi : Z.of_nat (length c) < 2 ^ 63).

Lemma run_extendFinalPartition pe k :
  partitionEntry m = None →
  used c = S k → entry c k = Some pe →
  (∀ i, span (1024 + 128 * k) 128 i → W i) →
  let pe' := set_LastLBA (nsect c - 34) pe in
  ∃ p', Run W extendFinalPartition c p m g
    (u64 (nsect c - 34 - LastLBA pe)) (spec_entry c pe' k) p'
    (with_partitionEntry (Some pe') m) g.
Proof.
  intros Hnone Hk Hpe HW pe'. pose proof (nsect_bounds c).
  pose proof (used_from_le c 128 0) as Hk'. fold (used c) in Hk'.
  destruct (run_extend_scan W 128 0 0 c m g) as (q & Hs); [lia..|].
  cbn zeta in Hs. fold (used c) in Hs. rewrite Hk, !decide_False in Hs by lia.
  replace (S k - 1)%nat with k in Hs by lia. rewrite Hpe in Hs.
  destruct (entry_total c k) as (pe2 & E2 & Hwf); [lia|].
  rewrite Hpe in E2. injection E2 as <-.
  unfold extendFinalPartition. eexists.
  run (apply run_seek; unfold tableOffset, sectorSize; lia).
  run (exact Hs). run_get. cbn [gm mk with_partitionEntry partitionEntry].
  rewrite (lastUsableLBA_nsect c) by (done || lia). cbn zeta. fold pe'.
  run_modify. run (apply run_seek; lia).
  run (apply (run_write _ _ _ _ _ _ 128);
       [apply encode_PartitionEntry_length; unfold pe'; auto 6 with vinitd lia
       |lia..|intros i Hi; apply HW; unfold span in *; lia]).
  eapply Run_eq; [apply Run_ret|..]; try done.
  unfold spec_entry. f_equal. lia.
Qed.

(** Storing the header checksum, for a header whose other fields are set. *)
Lemma run_crc_header gh h0 m' g' :
  (∀ fs, hdr_get gh (mk c p m g fs) = h0) → wf_GPTHeader h0 → HeaderSize h0 ≤ 512 →
  (∀ fs, hdr_set gh (set_Crc (crc32 (take (Z.to_nat (HeaderSize h0)) (encode_GPTHeader h0))))
           (mk c p m g fs) = mk c p m' g' fs) →
  Run W (s ← mget;
    let hdrBuf := encode_GPTHeader (hdr_get gh s) in
    let n := HeaderSize (hdr_get gh s) in
    if Z.of_nat (length hdrBuf) <? n then mpanic SliceBounds
    else mmodify (hdr_set gh (set_Crc (crc32 (take (Z.to_nat n) hdrBuf)))))
    c p m g tt c p m' g'.
Proof.
  intros E Hwf Hz Hset. run_get. cbn zeta.
  rewrite E, encode_GPTHeader_length by done.
  rewrite (proj2 (Z.ltb_ge _ _)) by lia. by apply Run_modify.
Qed.

Lemma run_updateMBR mbr :
  decode_MBR (slice 0 512 c) = Some mbr → wf_MBR mbr → (∀ i, span 0 512 i → W i) →
  Run W updateMBR c p m g tt
    (splice 0 (encode_MBR (set_NumberOfSectors (u32 (u32 (nsect c) - 1)) mbr)) c) 512 m g.
Proof.
  intros Hd Hwf HW. pose proof (nsect_bounds c). unfold updateMBR.
  run (apply run_read_at; unfold sectorSize; lia).
  change (slice (Z.to_nat 0) (Z.to_nat sectorSize) c) with (slice 0 512 c).
  rewrite Hd. run (apply (Run_dev _ nothing); [apply does_ret|done]).
  run_get. cbn [gm mk]. rewrite Hm, quot_nsect. cbn zeta.
  run (apply run_seek; lia).
  eapply Run_eq; [apply (run_write _ _ _ _ _ _ 512); [|lia..|exact HW]|done..].
  apply encode_MBR_length. auto using uwrap_range with vinitd lia.
Qed.
End steps.

Lemma run_crcs_primary W c p m g h :
  68 ≤ nsect c →
  gptHeader m = h → wf_GPTHeader h → StartLBAParts h = 2 → HeaderSize h ≤ 512 →
  Run W (calculateCRCs hPrimary false) c p m g tt
    c p (with_gptHeader (seal (crc32 (table_at c 2)) h) m) g.
Proof.
  intros Hlo Eh Hwf Hs Hz. pose proof (nsect_bounds c). unfold calculateCRCs.
  set (h0 := set_CrcParts (crc32 (table_at c 2)) (set_Crc 0 h)).
  run_modify. cbn [hdr_get gm mk]. rewrite Eh.
  eapply (Run_bind _ _ _ c p _ g tt c p (with_gptHeader h0 m) g).
  { unfold calculate_CrcParts. run_get. cbn [hdr_get gm mk with_gptHeader gptHeader
      set_Crc StartLBAParts]. rewrite Hs. change (i64 _) with 1024.
    run (apply run_read_at; unfold sectorSize; lia).
    unfold h0, table_at. change (2 * 512) with 1024. run_set. }
  apply (run_crc_header _ _ _ _ _ hPrimary h0); [done| |done|done].
  unfold h0. apply wf_set_CrcParts; [|apply crc32_range]. apply wf_set_Crc; [done|lia].
Qed.

Lemma run_crcs_backup W c p m g t :
  CrcParts (gptHeader m) = t → 0 ≤ t < 2 ^ 32 → wf_GPTHeader g → HeaderSize g ≤ 512 →
  Run W (calculateCRCs hBackup true) c p m g tt c p m (seal t g).
Proof.
  intros Et Ht Hwf Hz. unfold calculateCRCs.
  set (g0 := set_CrcParts t (set_Crc 0 g)).
  run_modify.
  eapply (Run_bind _ _ _ c p m _ tt c p m g0).
  { unfold calculate_CrcParts. run_get. unfold g0. rewrite <-Et. run_set. }
  apply (run_crc_header _ _ _ _ _ hBackup g0); [done| |done|done].
  unfold g0. apply wf_set_CrcParts; [|done]. apply wf_set_Crc; [done|lia].
Qed.

Section headers.
Context (W : nat → Prop).
Context (c : list byte) (p : Z) (m : gptModifier) (g : GPTHeader).
Context (Hm : gm_size m = Z.of_nat (length c)).
Context (Hlo : 68 ≤ nsect c) (Hhi : Z.of_nat (length c) < 2 ^ 63).

Lemma run_updatePrimaryGPTHeader h :
  gptHeader m = h → wf_GPTHeader h → StartLBAParts h = 2 → HeaderSize h ≤ 512 →
  (∀ i, span 512 512 i → W i) →
  Run W updatePrimaryGPTHeader c p m g tt
    (splice 512 (encode_GPTHeader (spec_primary c h)) c) 1024
    (with_gptHeader (spec_primary c h) m) g.
Proof.
  intros Eh Hwf Hs Hz HW. pose proof (nsect_bounds c). unfold updatePrimaryGPTHeader.
  run_get. cbn [gm mk]. rewrite (lastUsableLBA_nsect c) by (done || lia).
  rewrite Hm, quot_nsect, (uwrap_small 64 (nsect c)), uwrap_small by lia.
  run_modify. cbn [hdr_set mk gm]. rewrite Eh.
  set (h' := set_limits _ _ h).
  assert (wf_GPTHeader h') by (unfold h'; auto 6 with vinitd lia).
  run (by apply (run_crcs_primary _ _ _ (with_gptHeader h' m) _ h')).
  change (seal _ h') with (spec_primary c h).
  run (apply run_seek; unfold sectorSize; lia).
  run_get. cbn [gm mk gptHeader with_gptHeader].
  eapply Run_eq;
    [apply (run_write _ _ _ _ _ _ 512); [|unfold sectorSize; lia..|exact HW]|done..].
  apply encode_GPTHeader_length. unfold spec_primary. auto 6 with vinitd lia.
Qed.

Lemma run_UpdateSecondaryGPTHeader h1 :
  gptHeader m = h1 → wf_GPTHeader h1 → HeaderSize h1 ≤ 512 →
  header_at c 1 = Some h1 → CurrentLBA h1 = 1 → BackupLBA h1 = nsect c - 1 →
  (∀ i, span (Z.to_nat ((nsect c - 1) * 512)) 512 i → W i) →
  Run W UpdateSecondaryGPTHeader c p m g tt
    (splice (Z.to_nat ((nsect c - 1) * 512)) (encode_GPTHeader (spec_backup c h1)) c)
    ((nsect c - 1) * 512 + 512)
    (with_backupGPTHeader (Some (spec_backup c h1)) m) (spec_backup c h1).
Proof.
  intros Eh Hwf Hz Hat Hcur Hbak HW. pose proof (nsect_bounds c).
  unfold UpdateSecondaryGPTHeader.
  run (apply run_seek; unfold sectorSize; lia).
  run (apply run_read_header; [unfold sectorSize; lia..|exact Hat]).
  run_get. cbn [gm mk]. rewrite Eh, Hcur, Hbak. cbn zeta.
  rewrite uwrap_small by lia. replace (nsect c - 1 - 32) with (nsect c - 33) by lia.
  set (g' := set_location _ _ _ h1).
  assert (wf_GPTHeader g') by (unfold g'; auto 7 with vinitd lia).
  eapply Run_bind; [by apply (Run_modify _ _ _ _ m g m g')|].
  run (by apply (run_crcs_backup _ _ _ _ _ (CrcParts h1)); [rewrite Eh|apply wf_CrcParts|..]).
  change (seal _ g') with (spec_backup c h1).
  run_get. cbn [gnew mk].
  change (CurrentLBA (spec_backup c h1)) with (nsect c - 1).
  rewrite uwrap_small, swrap_small by (unfold sectorSize; lia).
  assert (length (encode_GPTHeader (spec_backup c h1)) = 512%nat) as Hl.
  { apply encode_GPTHeader_length. unfold spec_backup. auto 7 with vinitd lia. }
  run (apply run_seek; unfold sectorSize; lia).
  run (apply (run_write _ _ _ _ _ _ 512); [done|unfold sectorSize; lia..|exact HW]).
  run_set.
Qed.
End headers.

(** ** Relocating the backup table *)

(** Copying [n] sectors one by one is copying one block, when source and
    destination do not overlap. *)
Lemma does_copy_table (W : nat → Prop) n i src dst c p :
  (i + n ≤ 32)%nat →
  0 ≤ src → (src + 32) * 512 ≤ dst → dst + 32 * 512 ≤ Z.of_nat (length c) →
  Z.of_nat (length c) < 2 ^ 63 →
  (∀ j, dst ≤ Z.of_nat j < dst + 32 * 512 → W j) →
  does W (copy_table n (Z.of_nat i) src dst) c p tt
    (splice (Z.to_nat dst + 512 * i)
       (slice (Z.to_nat (src * 512) + 512 * i) (512 * n) c) c) p.
Proof.
  revert i c. induction n as [|n IH]; intros i c Hi Hs Hd Hl Hmax HW; cbn [copy_table].
  - rewrite Nat.mul_0_r, slice_0, splice_nil. apply does_ret.
  - unfold sectorSize.
    rewrite (uwrap_small 64 (src * 512)), (uwrap_small 64 (Z.of_nat i * 512)) by lia.
    rewrite (uwrap_small 64 (src * 512 + _)), (uwrap_small 64 (dst + _)) by lia.
    rewrite !swrap_small by lia. change (Z.to_nat 512) with 512%nat.
    set (sec := slice (Z.to_nat (src * 512 + Z.of_nat i * 512)) 512 c).
    assert (length sec = 512%nat) as Hsec by (apply length_slice; lia).
    set (c' := splice (Z.to_nat (dst + Z.of_nat i * 512)) sec c).
    assert (length c' = length c) as Hc' by (apply length_splice; lia).
    eapply does_bind; [eapply does_weaken; [|apply does_read_at; lia]; done|].
    eapply does_bind.
    { eapply does_weaken; [|apply (does_write_at sec); lia].
      intros j. unfold span. rewrite Hsec. intros. apply HW. lia. }
    replace (Z.of_nat i + 1) with (Z.of_nat (S i)) by lia. fold sec c'.
    replace (splice _ _ c) with (splice (Z.to_nat dst + 512 * S i)
      (slice (Z.to_nat (src * 512) + 512 * S i) (512 * n) c') c'); [apply IH; rewrite ?Hc'; done || lia|].
    replace (Z.to_nat dst + 512 * S i)%nat with (Z.to_nat (dst + Z.of_nat i * 512) + length sec)%nat
      by lia.
    unfold c'. rewrite (slice_splice_disjoint _ sec c) by lia.
    rewrite splice_splice_adjacent by (rewrite length_slice; lia).
    f_equal; [lia|].
    replace (512 * S n)%nat with (512 + 512 * n)%nat by lia.
    rewrite slice_app. unfold sec. do 2 f_equal; lia.
Qed.

Lemma does_copy_32 (W : nat → Prop) src dst c p :
  0 ≤ src → (src + 32) * 512 ≤ dst → dst + 32 * 512 ≤ Z.of_nat (length c) →
  Z.of_nat (length c) < 2 ^ 63 →
  (∀ j, dst ≤ Z.of_nat j < dst + 32 * 512 → W j) →
  does W (copy_table 32 0 src dst) c p tt (splice (Z.to_nat dst) (table_at c src) c) p.
Proof.
  intros. pose proof (does_copy_table W 32 0 src dst c p ltac:(lia)) as Hd.
  rewrite !Nat.mul_0_r, !Nat.add_0_r in Hd. by apply Hd.
Qed.

Lemma length_zero_block : Z.of_nat (length zero_block) = 16896.
Proof. unfold zero_block. rewrite length_replicate. unfold sectorSize. lia. Qed.

Lemma run_relocate W c p m g h1 h2 :
  68 ≤ nsect c → Z.of_nat (length c) < 2 ^ 63 →
  34 ≤ originalBackupGPTLBA m - 32 → originalBackupGPTLBA m + 1 < nsect c →
  gptHeader m = h1 → StartLBAParts h1 = 2 →
  backupGPTHeader m = Some h2 → StartLBAParts h2 = nsect c - 33 →
  (∀ i, span (Z.to_nat ((originalBackupGPTLBA m - 32) * 512)) (length zero_block) i → W i) →
  (∀ i, (nsect c - 33) * 512 ≤ Z.of_nat i < (nsect c - 33) * 512 + 32 * 512 → W i) →
  let c4 := splice (Z.to_nat ((originalBackupGPTLBA m - 32) * 512)) zero_block c in
  ∃ p', Run W relocateRedundantGPTTable c p m g tt
    (splice (Z.to_nat ((nsect c - 33) * 512)) (table_at c4 2) c4) p' m g.
Proof.
  intros Hlo Hmax Ho Hon E1 H1 E2 H2 HW1 HW2 c4. pose proof (nsect_bounds c).
  pose proof length_zero_block as Hz.
  assert (length c4 = length c) as Hc4 by (apply length_splice; lia).
  unfold relocateRedundantGPTTable. eexists. run_get. cbn zeta. cbn [gm mk].
  rewrite (uwrap_small 64 (_ - 32)), uwrap_small, swrap_small by (unfold sectorSize; lia).
  run (apply run_seek; unfold sectorSize; lia).
  unfold copyN_zeroes. rewrite zr_Read_zeroes, length_replicate. fold zero_block.
  run (apply (run_write _ _ _ _ _ _ (length zero_block));
       [done|unfold sectorSize; lia..|exact HW1]).
  rewrite E1, E2, H1, H2.
  rewrite uwrap_small by (unfold sectorSize; lia).
  eapply (Run_dev _ W); [|done].
  change sectorSize with 512. fold c4.
  apply does_copy_32; [lia|lia|lia|lia|exact HW2].
Qed.

(** ** The disks [grow] is specified on *)

Lemma header_at_wf c lba h :
  0 ≤ lba → (lba + 1) * 512 ≤ Z.of_nat (length c) →
  header_at c lba = Some h → wf_GPTHeader h.
Proof.
  intros ? ? E. unfold header_at in E.
  destruct (decode_GPTHeader_total (sector c lba)) as (h' & E' & Hwf & _).
  { apply length_slice. lia. }
  congruence.
Qed.

(** [newGPTModifier] reads the header at LBA 1 and the size of the device. *)
Definition new_modifier (path : string) (c : list byte) (h : GPTHeader) : gptModifier :=
  {| gm_path := path; gm_size := Z.of_nat (length c); partitionEntry := None;
     gptHeader := h; backupGPTHeader := None; sectorsAdded := 0;
     originalBackupGPTLBA := BackupLBA h |}.

Lemma does_newGPTModifier path c p h :
  header_at c 1 = Some h → 1024 ≤ Z.of_nat (length c) →
  does nothing (newGPTModifier path) c p (new_modifier path c h) c (Z.of_nat (length c)).
Proof.
  intros E ?. eapply does_bind.
  { eapply does_bind; [apply does_seek; unfold sectorSize; lia|].
    apply does_read_GPTHeader; [unfold sectorSize; lia..|]. exact E. }
  eapply does_bind; [apply does_seek_end|]. apply does_ret.
Qed.

Section growing.
Context (c : list byte) (h : GPTHeader) (Hg : growable c h).

Lemma growable_sizes :
  68 ≤ nsect c ∧ Z.of_nat (length c) < 2 ^ 63 ∧ BackupLBA h + 2 ≤ nsect c ∧
  17408 ≤ Z.of_nat (length c) ∧ wf_GPTHeader h.
Proof.
  destruct Hg. pose proof (nsect_bounds c).
  assert (BackupLBA h + 2 ≤ nsect c) by lia.
  do 4 (split; [lia|]). eapply header_at_wf; [..|done]; lia.
Qed.

Lemma growable_last : ∃ k pe,
  used c = S k ∧ (k < 128)%nat ∧ entry c k = Some pe ∧ wf_PartitionEntry pe.
Proof.
  destruct growable_sizes as (?&?&?&?&?).
  assert (∃ k, used c = S k) as [k Hk].
  { change (used c) with (if entry_used c 0 then used_from c 127 1 else 0%nat).
    rewrite (g_used _ _ Hg).
    pose proof (used_from_ge c 127 1). destruct (used_from c 127 1); [lia|eauto]. }
  pose proof (used_from_le c 128 0) as Hle. fold (used c) in Hle.
  destruct (entry_total c k) as (pe & ? & ?); [lia|].
  exists k, pe. split_and!; [done|lia|done|done].
Qed.

Lemma growable_mbr : ∃ mbr, decode_MBR (slice 0 512 c) = Some mbr ∧ wf_MBR mbr.
Proof.
  destruct growable_sizes as (?&?&?&?&?).
  destruct (decode_MBR_total (slice 0 512 c)) as (mbr & ? & ? & _); [|eauto].
  apply length_slice. lia.
Qed.

Lemma growable_needsResize m :
  gptHeader m = h → gm_size m = Z.of_nat (length c) → needsResize m = true.
Proof.
  intros E1 E2. destruct growable_sizes as (?&?&?&?&?), Hg. unfold needsResize.
  rewrite E1, E2, g_last0. pose proof (nsect_bounds c).
  rewrite (uwrap_small 64 (_ + 35)), !uwrap_small by (unfold sectorSize; lia).
  unfold sectorSize. apply Z.ltb_lt. lia.
Qed.
End growing.
