(* ===== verification/GptTheorems.v ===== *)
(** * Correctness of growing the boot disk

    The refinement of [grow] to [grow_spec], and what the specification
    guarantees: both copies of the header are valid and point at each other,
    the backup table is the primary table, the last partition reaches the last
    usable block, and no partition data changes, even when the kernel fails a
    call halfway. *)

From S2P Require Import Prelude Bytes GptTypes BlockDev GptUtil Gpt GptSpec.
Local Open Scope Z_scope.

(** The modifier a successful grow leaves behind. *)
Definition grown_modifier (path : string) (c : list byte) (h : GPTHeader) (k : nat)
    (pe : PartitionEntry) : gptModifier :=
  let c1 := spec_entry c (set_LastLBA (nsect c - 34) pe) k in
  {| gm_path := path; gm_size := Z.of_nat (length c);
     partitionEntry := Some (set_LastLBA (nsect c - 34) pe);
     gptHeader := spec_primary c1 h;
     backupGPTHeader := Some (spec_backup c1 (spec_primary c1 h));
     sectorsAdded := u64 (nsect c - 34 - LastLBA pe); originalBackupGPTLBA := BackupLBA h |}.

(** The blocks that hold partitioning metadata before or after the grow: the
    first 34, the old backup structures and the new ones. *)
Definition metadata (c : list byte) (h : GPTHeader) (i : nat) : Prop :=
  Z.of_nat i < 34 * 512 ∨
  (BackupLBA h - 32) * 512 ≤ Z.of_nat i < (BackupLBA h + 1) * 512 ∨
  (nsect c - 33) * 512 ≤ Z.of_nat i < nsect c * 512.

Section run.
Context (c : list byte) (h : GPTHeader) (Hg : growable c h).
Context (k : nat) (pe : PartitionEntry) (mbr : ProtectiveMBREntry).
Context (Hk : used c = S k) (Hk' : (k < 128)%nat) (Hpe : entry c k = Some pe)
        (Hwfpe : wf_PartitionEntry pe).
Context (Hmbr : decode_MBR (slice 0 512 c) = Some mbr) (Hwfmbr : wf_MBR mbr).

Let pe' := set_LastLBA (nsect c - 34) pe.
Let c1 := spec_entry c pe' k.
Let h1 := spec_primary c1 h.
Let h2 := spec_backup c1 h1.
Let c2 := splice 512 (encode_GPTHeader h1) c1.
Let c3 := splice (Z.to_nat ((nsect c - 1) * 512)) (encode_GPTHeader h2) c2.
Let c4 := splice (Z.to_nat ((BackupLBA h - 32) * 512)) zero_block c3.
Let c5 := splice (Z.to_nat ((nsect c - 33) * 512)) (table_at c4 2) c4.

Lemma wf_pe' : wf_PartitionEntry pe'.
Proof.
  destruct (growable_sizes c h Hg) as (?&?&?&?&?). pose proof (nsect_bounds c).
  apply wf_set_LastLBA; [done|lia].
Qed.

Lemma length_c1 : length c1 = length c.
Proof.
  destruct (growable_sizes c h Hg) as (?&?&?&?&?).
  apply length_splice. rewrite encode_PartitionEntry_length by apply wf_pe'. lia.
Qed.

Lemma nsect_c1 : nsect c1 = nsect c.
Proof. apply length_eq_nsect, length_c1. Qed.

Lemma wf_h1 : wf_GPTHeader h1.
Proof.
  destruct (growable_sizes c h Hg) as (?&?&?&?&?). pose proof (nsect_bounds c).
  unfold h1, spec_primary. rewrite nsect_c1. auto 6 with vinitd lia.
Qed.

Lemma wf_h2 : wf_GPTHeader h2.
Proof.
  destruct (growable_sizes c h Hg) as (?&?&?&?&?). pose proof (nsect_bounds c).
  unfold h2, spec_backup. rewrite nsect_c1.
  apply wf_seal; [|apply wf_CrcParts, wf_h1].
  apply wf_set_location; [apply wf_h1|lia..].
Qed.

Lemma length_c2 : length c2 = length c.
Proof.
  destruct (growable_sizes c h Hg) as (?&?&?&?&?). rewrite <-length_c1.
  apply length_splice. rewrite encode_GPTHeader_length, length_c1 by apply wf_h1. lia.
Qed.

Lemma length_c3 : length c3 = length c.
Proof.
  destruct (growable_sizes c h Hg) as (?&?&?&?&?). pose proof (nsect_bounds c).
  rewrite <-length_c2. apply length_splice.
  rewrite encode_GPTHeader_length, length_c2 by apply wf_h2. lia.
Qed.

Lemma length_c4 : length c4 = length c.
Proof.
  destruct (growable_sizes c h Hg) as (?&?&?&?&?), Hg. pose proof (nsect_bounds c).
  rewrite <-length_c3. apply length_splice.
  pose proof length_zero_block. rewrite length_c3. lia.
Qed.

Lemma length_table d lba :
  0 ≤ lba → (lba + 32) * 512 ≤ Z.of_nat (length d) →
  Z.of_nat (length (table_at d lba)) = 16384.
Proof.
  intros. unfold table_at. rewrite length_slice; unfold sectorSize; lia.
Qed.

Lemma length_c5 : length c5 = length c.
Proof.
  destruct (growable_sizes c h Hg) as (?&?&?&?&?), Hg. pose proof (nsect_bounds c).
  rewrite <-length_c4. apply length_splice.
  pose proof (length_table c4 2). rewrite length_c4 in *. lia.
Qed.

Lemma header_c2 : header_at c2 1 = Some h1.
Proof.
  destruct (growable_sizes c h Hg) as (?&?&?&?&?).
  unfold header_at, sector. change (Z.to_nat (1 * 512)) with 512%nat.
  pose proof (encode_GPTHeader_length h1 wf_h1) as Hl.
  assert (slice 512 512 c2 = encode_GPTHeader h1) as ->.
  { rewrite <-Hl at 2. apply slice_splice_same. rewrite Hl, length_c1. lia. }
  apply decode_encode_GPTHeader, wf_h1.
Qed.

(** Bytes outside the structures the specification writes. *)
Lemma c5_outside (i : nat) :
  ¬ (512 ≤ i < 1024)%nat → ¬ (1024 + 128 * k ≤ i < 1024 + 128 * k + 128)%nat →
  ¬ ((BackupLBA h - 32) * 512 ≤ Z.of_nat i < (BackupLBA h + 1) * 512) →
  ¬ ((nsect c - 33) * 512 ≤ Z.of_nat i < nsect c * 512) →
  c5 !! i = c !! i.
Proof.
  destruct (growable_sizes c h Hg) as (?&?&?&?&?), Hg. pose proof (nsect_bounds c).
  pose proof length_c1. pose proof length_c2. pose proof length_c3. pose proof length_c4.
  pose proof (length_table c4 2). pose proof length_zero_block.
  pose proof (encode_GPTHeader_length h1 wf_h1). pose proof (encode_GPTHeader_length h2 wf_h2).
  pose proof (encode_PartitionEntry_length pe' wf_pe').
  intros. unfold c5. rewrite splice_outside by lia. unfold c4. rewrite splice_outside by lia.
  unfold c3. rewrite splice_outside by lia. unfold c2. rewrite splice_outside by lia.
  unfold c1, spec_entry. rewrite splice_outside by lia. done.
Qed.

Lemma mbr_c5 : slice 0 512 c5 = slice 0 512 c.
Proof.
  destruct (growable_sizes c h Hg) as (?&?&?&?&?), Hg.
  apply slice_ext. intros. apply c5_outside; lia.
Qed.

Let m0 path := new_modifier path c h.

Let W := metadata c h.

Lemma W_low i : Z.of_nat i < 34 * 512 → W i.
Proof. by left. Qed.

(** The two header updates, from the disk with the extended entry. *)
Lemma run_headers m p g :
  gm_size m = Z.of_nat (length c) → gptHeader m = h → ∃ p',
  Run W (_ ← updatePrimaryGPTHeader; UpdateSecondaryGPTHeader) c1 p m g tt
    c3 p' (with_backupGPTHeader (Some h2) (with_gptHeader h1 m)) h2.
Proof.
  intros Es Eh. destruct (growable_sizes c h Hg) as (?&?&?&?&?).
  pose proof nsect_c1 as Hn1.
  assert (nsect c2 = nsect c) as Hn2 by apply length_eq_nsect, length_c2.
  eexists. eapply Run_bind.
  { apply (run_updatePrimaryGPTHeader W c1 p m g) with (h := h);
      [by rewrite length_c1|by rewrite Hn1|by rewrite length_c1|done|done
      |apply (g_start _ _ Hg)|apply (g_size _ _ Hg)|].
    intros i Hi. apply W_low. unfold span in Hi. lia. }
  fold h1 c2. eapply Run_eq.
  - apply (run_UpdateSecondaryGPTHeader W c2 1024 (with_gptHeader h1 m) g) with (h1 := h1);
      [by rewrite Hn2|by rewrite length_c2|done|apply wf_h1|apply (g_size _ _ Hg)
      |apply header_c2|apply (g_current _ _ Hg)
      |change (BackupLBA h1) with (nsect c1 - 1); by rewrite Hn1, Hn2|].
    intros i Hi. rewrite Hn2 in Hi. right. right. unfold span in Hi. lia.
  - done.
  - rewrite Hn2. unfold c3, h2, spec_backup. by rewrite Hn1, Hn2.
  - done.
  - unfold h2, spec_backup. by rewrite Hn1, Hn2.
  - unfold h2, spec_backup. by rewrite Hn1, Hn2.
Qed.

(** Relocation and the protective MBR, from the disk with both headers. *)
Lemma run_tail m p :
  gm_size m = Z.of_nat (length c) → gptHeader m = h1 → backupGPTHeader m = Some h2 →
  originalBackupGPTLBA m = BackupLBA h → ∃ p',
  Run W (_ ← relocateRedundantGPTTable; updateMBR) c3 p m h2 tt
    (grow_spec c h k pe mbr) p' m h2.
Proof.
  intros Es E1 E2 E3. destruct (growable_sizes c h Hg) as (?&?&?&?&?), Hg.
  pose proof nsect_c1 as Hn1. pose proof length_zero_block.
  assert (nsect c3 = nsect c) as Hn3 by apply length_eq_nsect, length_c3.
  assert (nsect c5 = nsect c) as Hn5 by apply length_eq_nsect, length_c5.
  destruct (run_relocate W c3 p m h2 h1 h2) as (q & Hr);
    [by rewrite Hn3|by rewrite length_c3|lia|lia|done|done|done
    |change (StartLBAParts h2) with (nsect c1 - 33); by rewrite Hn1, Hn3|..].
  { intros i Hi. rewrite E3 in Hi. right. left. unfold span in Hi. lia. }
  { intros i Hi. rewrite Hn3 in Hi. right. right. lia. }
  rewrite E3, Hn3 in Hr. fold c4 c5 in Hr.
  eexists. eapply Run_bind; [exact Hr|].
  replace (grow_spec c h k pe mbr) with
    (splice 0 (encode_MBR (set_NumberOfSectors (u32 (u32 (nsect c5) - 1)) mbr)) c5)
    by (rewrite Hn5; reflexivity).
  apply (run_updateMBR W c5 q m h2).
  - by rewrite length_c5.
  - by rewrite Hn5.
  - by rewrite mbr_c5.
  - exact Hwfmbr.
  - intros i Hi. apply W_low. unfold span in Hi. lia.
Qed.

Lemma run_grow path p g : ∃ p',
  Run W grow c p (m0 path) g tt (grow_spec c h k pe mbr) p'
    (grown_modifier path c h k pe) h2.
Proof.
  destruct (growable_sizes c h Hg) as (?&?&?&?&?).
  destruct (run_extendFinalPartition W c p (m0 path) g) with (pe := pe) (k := k)
    as (q1 & E1); [done..| |].
  { intros i Hi. apply W_low. unfold span in Hi. lia. }
  fold pe' c1 in E1.
  set (m1 := with_sectorsAdded (u64 (nsect c - 34 - LastLBA pe))
               (with_partitionEntry (Some pe') (m0 path))).
  destruct (run_headers m1 q1 g) as (q2 & E2); [done..|].
  destruct (run_tail (with_backupGPTHeader (Some h2) (with_gptHeader h1 m1)) q2)
    as (q3 & E3); [done..|].
  exists q3. unfold grow. run_get. cbn [gm mk].
  rewrite (growable_needsResize c h Hg) by done. cbn [negb].
  run (exact E1).
  eapply Run_bind; [by apply (Run_modify _ _ _ _ _ _ m1 g)|].
  eapply Run_assoc, Run_bind; [exact E2|exact E3].
Qed.

(** *** Reading the grown disk *)

Let cF := grow_spec c h k pe mbr.
Let mbr' := set_NumberOfSectors (u32 (u32 (nsect c) - 1)) mbr.

Lemma wf_mbr' : wf_MBR mbr'.
Proof. apply wf_set_NumberOfSectors; [done|]. by apply uwrap_range. Qed.

Lemma cF_eq : cF = splice 0 (encode_MBR mbr') c5.
Proof. reflexivity. Qed.

Lemma length_cF : length cF = length c.
Proof.
  destruct (growable_sizes c h Hg) as (?&?&?&?&?).
  rewrite <-length_c5, cF_eq. apply length_splice.
  rewrite (encode_MBR_length _ wf_mbr'), length_c5. lia.
Qed.

Lemma cF_high i : (512 ≤ i)%nat → cF !! i = c5 !! i.
Proof.
  intros. destruct (growable_sizes c h Hg) as (?&?&?&?&?).
  rewrite cF_eq. apply splice_outside; rewrite (encode_MBR_length _ wf_mbr'), ?length_c5; lia.
Qed.

(** Below the backup structures the final disk is the one written first. *)
Lemma cF_low i : (512 ≤ i)%nat → Z.of_nat i < 34 * 512 → cF !! i = c2 !! i.
Proof.
  intros. destruct (growable_sizes c h Hg) as (?&?&?&?&?), Hg.
  pose proof (nsect_bounds c). pose proof length_c2. pose proof length_c3.
  pose proof length_c4. pose proof (length_table c4 2). pose proof length_zero_block.
  pose proof (encode_GPTHeader_length h2 wf_h2).
  rewrite cF_high by done. unfold c5. rewrite splice_outside by lia.
  unfold c4. rewrite splice_outside by lia. unfold c3. by rewrite splice_outside by lia.
Qed.

Lemma header_cF_primary : header_at cF 1 = Some h1.
Proof.
  rewrite <-header_c2. unfold header_at, sector. f_equal. apply slice_ext.
  intros i Hi. apply cF_low; lia.
Qed.

Lemma table_cF_primary : table_at cF 2 = table_at c1 2.
Proof.
  destruct (growable_sizes c h Hg) as (?&?&?&?&?). pose proof length_c1.
  pose proof (encode_GPTHeader_length h1 wf_h1).
  apply slice_ext. unfold sectorSize. intros i Hi. rewrite cF_low by lia.
  unfold c2. by rewrite splice_outside by lia.
Qed.

Lemma table_c4 : table_at c4 2 = table_at c1 2.
Proof.
  destruct (growable_sizes c h Hg) as (?&?&?&?&?), Hg.
  pose proof (nsect_bounds c). pose proof length_c1. pose proof length_c2.
  pose proof length_c3. pose proof length_zero_block.
  pose proof (encode_GPTHeader_length h2 wf_h2).
  pose proof (encode_GPTHeader_length h1 wf_h1).
  apply slice_ext. unfold sectorSize. intros i Hi.
  unfold c4. rewrite splice_outside by lia. unfold c3. rewrite splice_outside by lia.
  unfold c2. by rewrite splice_outside by lia.
Qed.

Lemma table_cF_backup : table_at cF (nsect c - 33) = table_at c1 2.
Proof.
  destruct (growable_sizes c h Hg) as (?&?&?&?&?). pose proof (nsect_bounds c).
  pose proof length_c4. pose proof (length_table c4 2).
  rewrite <-table_c4. transitivity (table_at c5 (nsect c - 33)).
  - apply slice_ext. intros i Hi. apply cF_high. lia.
  - unfold table_at at 1. replace (Z.to_nat (sectorSize * 32)) with (length (table_at c4 2))
      by (unfold sectorSize; lia).
    apply slice_splice_same. lia.
Qed.

Lemma header_cF_backup : header_at cF (nsect c - 1) = Some h2.
Proof.
  destruct (growable_sizes c h Hg) as (?&?&?&?&?), Hg. pose proof (nsect_bounds c).
  pose proof length_c2. pose proof length_c3. pose proof length_c4.
  pose proof (length_table c4 2). pose proof length_zero_block.
  pose proof (encode_GPTHeader_length h2 wf_h2) as Hl.
  unfold header_at. assert (sector cF (nsect c - 1) = encode_GPTHeader h2) as ->;
    [|apply decode_encode_GPTHeader, wf_h2].
  transitivity (sector c3 (nsect c - 1)).
  - apply slice_ext. intros i Hi. rewrite cF_high by lia.
    unfold c5. rewrite splice_outside by lia. unfold c4. by rewrite splice_outside by lia.
  - unfold sector. rewrite <-Hl at 1. apply slice_splice_same. lia.
Qed.

Lemma seal_ok t g :
  let g' := seal t g in
  Crc g' = crc32 (take (Z.to_nat (HeaderSize g')) (encode_GPTHeader (set_Crc 0 g'))) ∧
  CrcParts g' = t.
Proof. done. Qed.

Lemma headers_cF :
  header_ok cF 1 h1 ∧ header_ok cF (nsect c - 1) h2.
Proof.
  pose proof nsect_c1 as Hn1. split.
  - destruct (seal_ok (crc32 (table_at c1 2)) (set_limits (nsect c1 - 34) (nsect c1 - 1) h))
      as [E1 E2].
    split_and!; [apply header_cF_primary|apply (g_current _ _ Hg)|exact E1|].
    change (StartLBAParts h1) with (StartLBAParts h). rewrite (g_start _ _ Hg).
    rewrite table_cF_primary. exact E2.
  - destruct (seal_ok (CrcParts h1) (set_location (nsect c1 - 1) 1 (nsect c1 - 33) h1))
      as [E1 E2].
    split_and!; [apply header_cF_backup| |exact E1|].
    + change (CurrentLBA h2) with (nsect c1 - 1). by rewrite Hn1.
    + change (StartLBAParts h2) with (nsect c1 - 33). rewrite Hn1, table_cF_backup.
      transitivity (CrcParts h1); [exact E2|reflexivity].
Qed.

(** The table entries: entry [k] is extended, the others are untouched. *)
Lemma entry_cF i :
  (i < 128)%nat → entry cF i = if decide (i = k) then Some pe' else entry c i.
Proof.
  intros Hi. destruct (growable_sizes c h Hg) as (?&?&?&?&?).
  pose proof length_c1. pose proof (encode_GPTHeader_length h1 wf_h1).
  pose proof (encode_PartitionEntry_length pe' wf_pe') as Hl.
  assert (slice (1024 + 128 * i) 128 cF = slice (1024 + 128 * i) 128 c1) as E.
  { apply slice_ext. intros j Hj. rewrite cF_low by lia.
    unfold c2. by rewrite splice_outside by lia. }
  unfold entry. rewrite E. case_decide as Hik.
  - subst i. pose proof (slice_splice_same (1024 + 128 * k) _ c ltac:(by rewrite Hl; lia)) as Es.
    rewrite Hl in Es. unfold c1, spec_entry. rewrite Es.
    apply decode_encode_PartitionEntry, wf_pe'.
  - unfold c1, spec_entry. by rewrite slice_splice_disjoint by lia.
Qed.

Lemma mbr_cF : decode_MBR (sector cF 0) = Some mbr'.
Proof.
  destruct (growable_sizes c h Hg) as (?&?&?&?&?). pose proof length_c5.
  pose proof (encode_MBR_length _ wf_mbr') as Hl.
  unfold sector. change (Z.to_nat (0 * 512)) with 0%nat. rewrite <-Hl at 1.
  rewrite cF_eq, slice_splice_same by lia. apply decode_encode_MBR, wf_mbr'.
Qed.

Lemma data_cF : same_outside (metadata c h) c cF.
Proof.
  destruct (run_grow "" 0 h) as (? & [Hs _]). exact Hs.
Qed.
End run.

(** ** The properties *)

(** What a grow does to the device, whatever the kernel decides. *)
Lemma open_and_grow_cases path c h p fs :
  growable c h →
  ∃ k pe mbr,
    used c = S k ∧ (k < 128)%nat ∧ entry c k = Some pe ∧
    wf_PartitionEntry pe ∧ decode_MBR (sector c 0) = Some mbr ∧ wf_MBR mbr ∧
    ((∃ p' fs', open_and_grow path (D c p fs) =
        (Ret (grown_modifier path c h k pe), D (grow_spec c h k pe mbr) p' fs') ∧
        (fs = [] → fs' = [])) ∨
     (fs ≠ [] ∧ ∃ e d', open_and_grow path (D c p fs) = (Fail e, d') ∧
                        same_outside (metadata c h) c (content d'))).
Proof.
  intros Hg. destruct (growable_last c h Hg) as (k & pe & Hk & Hk' & Hpe & Hwf).
  destruct (growable_mbr c h Hg) as (mbr & Hmbr & Hwfm).
  exists k, pe, mbr. split_and!; try done. unfold open_and_grow.
  destruct (growable_sizes c h Hg) as (_&_&_&Hlen&_).
  destruct (does_newGPTModifier path c p h (g_header _ _ Hg) ltac:(lia)) as [_ Hn].
  destruct (Hn fs) as [(fs1 & -> & H1)|(Hne & e & d' & -> & Hs)].
  - destruct (run_grow c h Hg k pe mbr Hk Hk' Hpe Hwf Hmbr Hwfm path
                (Z.of_nat (length c)) zero_GPTHeader) as (p' & [_ Hrun]).
    change {| gdev := D c _ fs1; gm := _; gnew := _ |} with
      (mk c (Z.of_nat (length c)) (new_modifier path c h) zero_GPTHeader fs1).
    destruct (Hrun fs1) as [(fs2 & -> & H2)|(Hne & e & s' & -> & Hs)].
    + left. exists p', fs2. split; [done|auto].
    + right. split; [by intros ->; apply Hne, H1|]. eauto.
  - right. split; [done|]. do 2 eexists. split; [done|].
    by eapply same_outside_weaken; [|exact Hs].
Qed.

(** C1: on a healthy device, growing a GPT disk that has room refines the
    abstract specification: [open_and_grow] succeeds and leaves exactly the
    bytes [grow_spec] describes. *)
Theorem grow_refines_spec path c h p :
  growable c h →
  ∃ k pe mbr p',
    used c = S k ∧ entry c k = Some pe ∧ decode_MBR (sector c 0) = Some mbr ∧
    open_and_grow path (D c p []) =
      (Ret (grown_modifier path c h k pe), D (grow_spec c h k pe mbr) p' []).
Proof.
  intros Hg. destruct (open_and_grow_cases path c h p [] Hg)
    as (k & pe & mbr & ? & ? & ? & ? & ? & ? & [(p' & fs' & E & Hfs)|[]]); [|done].
  rewrite Hfs in E by done. eauto 10.
Qed.

(** C2: after a grow both copies of the GPT header are valid: each records its
    own position, its header checksum and the checksum of the table it points
    to; they point at each other, agree on the last usable block, and the
    backup table is the primary table. *)
Theorem grow_headers_valid path c h p :
  growable c h →
  ∃ m c' p' h1 h2,
    open_and_grow path (D c p []) = (Ret m, D c' p' []) ∧ length c' = length c ∧
    header_ok c' 1 h1 ∧ header_ok c' (nsect c - 1) h2 ∧
    BackupLBA h1 = nsect c - 1 ∧ BackupLBA h2 = 1 ∧
    StartLBAParts h1 = 2 ∧ StartLBAParts h2 = nsect c - 33 ∧
    LastUsableLBA h1 = nsect c - 34 ∧ LastUsableLBA h2 = nsect c - 34 ∧
    table_at c' (nsect c - 33) = table_at c' 2.
Proof.
  intros Hg. destruct (open_and_grow_cases path c h p [] Hg)
    as (k & pe & mbr & Hk & Hk' & Hpe & Hwf & Hmbr & Hwfm & [(p' & fs' & E & Hfs)|[]]); [|done].
  rewrite Hfs in E by done.
  assert (nsect (spec_entry c (set_LastLBA (nsect c - 34) pe) k) = nsect c) as Hn1
    by (by eapply nsect_c1).
  edestruct (headers_cF c h Hg k pe mbr) as [Ho1 Ho2]; [eassumption..|].
  do 5 eexists. split; [exact E|]. split; [by eapply length_cF|].
  split; [exact Ho1|]. split; [exact Ho2|].
  split; [exact (f_equal (λ n, n - 1) Hn1)|]. split; [done|].
  split; [exact (g_start _ _ Hg)|]. split; [exact (f_equal (λ n, n - 33) Hn1)|].
  split; [exact (f_equal (λ n, n - 34) Hn1)|]. split; [exact (f_equal (λ n, n - 34) Hn1)|].
  by erewrite table_cF_backup, table_cF_primary by done.
Qed.

Lemma used_ext c c' n i :
  (∀ j, i ≤ j < i + n → entry_used c j = entry_used c' j)%nat →
  used_from c n i = used_from c' n i.
Proof.
  revert i. induction n as [|n IH]; intros i H; cbn [used_from]; [done|].
  rewrite H by lia. case_match; [|done]. apply IH. intros. apply H. lia.
Qed.

(** C4: a grow moves the end of the last partition, and only that: the entry
    after the scan ends at the last usable block, every other entry of the
    table, and the number of entries in use, stay as they were. *)
Theorem grow_extends_last_partition path c h p :
  growable c h →
  ∃ m c' p' k pe,
    open_and_grow path (D c p []) = (Ret m, D c' p' []) ∧
    used c = S k ∧ used c' = S k ∧ entry c k = Some pe ∧
    entry c' k = Some (set_LastLBA (nsect c - 34) pe) ∧
    partitionEntry m = Some (set_LastLBA (nsect c - 34) pe) ∧
    (∀ i, (i < 128)%nat → i ≠ k → entry c' i = entry c i).
Proof.
  intros Hg. destruct (open_and_grow_cases path c h p [] Hg)
    as (k & pe & mbr & Hk & Hk' & Hpe & Hwf & Hmbr & Hwfm & [(p' & fs' & E & Hfs)|[]]); [|done].
  rewrite Hfs in E by done.
  epose proof (entry_cF c h Hg k pe mbr ltac:(done) ltac:(done) ltac:(done) ltac:(done)) as He.
  exists (grown_modifier path c h k pe), (grow_spec c h k pe mbr), p', k, pe.
  split; [exact E|]. split; [done|]. split.
  { rewrite <-Hk. apply used_ext. intros j Hj. unfold entry_used. rewrite He by lia.
    case_decide; [|done]. subst j. by rewrite Hpe. }
  split; [done|]. split; [by rewrite He, decide_True by done|]. split; [done|].
  intros i Hi Hik. by rewrite He, decide_False by done.
Qed.

(** C3: safety under I/O errors: whatever system calls the kernel fails, and
    however many bytes a failing write stores, growing never panics and changes
    no byte outside the partitioning metadata, so no partition data is lost. *)
Theorem grow_fault_safe path c h p fs :
  growable c h →
  (∀ why, (open_and_grow path (D c p fs)).1 ≠ Panic why) ∧
  same_outside (metadata c h) c (content (open_and_grow path (D c p fs)).2).
Proof.
  intros Hg. destruct (open_and_grow_cases path c h p fs Hg)
    as (k & pe & mbr & Hk & Hk' & Hpe & Hwf & Hmbr & Hwfm & [(p' & fs' & -> & Hfs)|(_ & e & d' & -> & Hs)]);
    [|done].
  split; [done|]. by eapply data_cF.
Qed.

(** A disk whose header already reaches its end is left alone. *)
Lemma open_and_grow_noop path c h q :
  header_at c 1 = Some h → 1024 ≤ Z.of_nat (length c) →
  needsResize (new_modifier path c h) = false →
  open_and_grow path (D c q []) = (Ret (new_modifier path c h), D c (Z.of_nat (length c)) []).
Proof.
  intros E Hl Hn. destruct (does_newGPTModifier path c q h E Hl) as [_ Hr].
  destruct (Hr []) as [(fs & Er & Hfs)|[[] _]]; [|done].
  rewrite Hfs in Er by done. unfold open_and_grow. rewrite Er.
  unfold grow, mbind, M_bind. cbn [mget gm]. rewrite Hn. reflexivity.
Qed.

(** C15: growing is idempotent: a second grow of the grown disk finds nothing to
    do and changes no byte. *)
Theorem grow_idempotent path c h p :
  growable c h →
  ∃ m c' p',
    open_and_grow path (D c p []) = (Ret m, D c' p' []) ∧
    ∀ q, ∃ m2 q', open_and_grow path (D c' q []) = (Ret m2, D c' q' []) ∧
                  needsResize m2 = false.
Proof.
  intros Hg. destruct (open_and_grow_cases path c h p [] Hg)
    as (k & pe & mbr & Hk & Hk' & Hpe & Hwf & Hmbr & Hwfm & [(p' & fs' & E & Hfs)|[]]); [|done].
  rewrite Hfs in E by done. do 3 eexists. split; [exact E|]. intros q.
  destruct (growable_sizes c h Hg) as (?&?&?&?&?). pose proof (nsect_bounds c).
  edestruct (headers_cF c h Hg k pe mbr) as [[Hh1 _] _]; [eassumption..|].
  assert (length (grow_spec c h k pe mbr) = length c) as Hl by (by eapply length_cF).
  assert (nsect (spec_entry c (set_LastLBA (nsect c - 34) pe) k) = nsect c) as Hn1
    by (by eapply nsect_c1).
  set (h1 := spec_primary _ h) in *.
  assert (needsResize (new_modifier path (grow_spec c h k pe mbr) h1) = false) as Hn.
  { unfold needsResize. cbn [new_modifier gptHeader gm_size]. rewrite Hl.
    change (LastUsableLBA h1) with
      (nsect (spec_entry c (set_LastLBA (nsect c - 34) pe) k) - 34). rewrite Hn1.
    rewrite (uwrap_small 64 (_ + 35)), !uwrap_small by (unfold sectorSize; lia).
    unfold sectorSize. apply Z.ltb_ge. lia. }
  do 2 eexists. split; [apply open_and_grow_noop; [exact Hh1|lia|exact Hn]|exact Hn].
Qed.

(** a GPT disk that should be grown but has no partition entry makes the
    init process panic: [extendFinalPartition] dereferences the nil
    [m.partitionEntry]. *)
Theorem grow_empty_table_panics path c h p :
  header_at c 1 = Some h → 17408 ≤ Z.of_nat (length c) →
  needsResize (new_modifier path c h) = true → entry_used c 0 = false →
  (open_and_grow path (D c p [])).1 = Panic NilDeref.
Proof.
  intros E Hl Hn Hu. destruct (does_newGPTModifier path c p h E ltac:(lia)) as [_ Hr].
  destruct (Hr []) as [(fs & Er & Hfs)|[[] _]]; [|done]. rewrite Hfs in Er by done.
  unfold open_and_grow. rewrite Er. clear Er Hr Hfs fs.
  set (m := new_modifier path c h) in *.
  change {| gdev := _; gm := m; gnew := _ |}
    with (mk c (Z.of_nat (length c)) m zero_GPTHeader []).
  unfold grow, mbind, M_bind at 1. cbn [mget gm mk]. rewrite Hn. cbn [negb].
  destruct (run_extend_scan nothing 128 0 0 c m zero_GPTHeader) as (q & Hs); [lia..|].
  cbn zeta in Hs. change (used_from c 128 0)
    with (if entry_used c 0 then used_from c 127 1 else 0%nat) in Hs.
  rewrite Hu, !decide_True in Hs by done.
  destruct (run_seek nothing c (Z.of_nat (length c)) m zero_GPTHeader tableOffset) as [_ H1];
    [unfold tableOffset, sectorSize; lia|].
  destruct (H1 []) as [(fs1 & E1 & Hf1)|[[] _]]; [|done]. rewrite Hf1 in E1 by done.
  destruct Hs as [_ H2]. destruct (H2 []) as [(fs2 & E2 & _)|[[] _]]; [|done].
  change (1024 + 128 * Z.of_nat 0) with tableOffset in E2. change (Z.of_nat 0) with 0 in E2.
  unfold extendFinalPartition, mbind, M_bind. rewrite E1, E2. reflexivity.
Qed.

(** the protective MBR records the size of the disk in its 32-bit field:
    the exact number of sectors after the first while that fits, and the number
    modulo 2^32 (not the all-ones value) on a larger disk. *)
Theorem grow_mbr_sectors path c h p :
  growable c h →
  ∃ m c' p' mbr,
    open_and_grow path (D c p []) = (Ret m, D c' p' []) ∧
    decode_MBR (sector c' 0) = Some mbr ∧
    NumberOfSectors mbr = (nsect c - 1) mod 2 ^ 32 ∧
    (nsect c ≤ 2 ^ 32 → NumberOfSectors mbr = nsect c - 1).
Proof.
  intros Hg. destruct (open_and_grow_cases path c h p [] Hg)
    as (k & pe & mbr & Hk & Hk' & Hpe & Hwf & Hmbr & Hwfm & [(p' & fs' & E & Hfs)|[]]); [|done].
  rewrite Hfs in E by done. destruct (growable_sizes c h Hg) as (?&?&?&?&?).
  assert (u32 (u32 (nsect c) - 1) = (nsect c - 1) mod 2 ^ 32) as En
    by (unfold uwrap; apply Zminus_mod_idemp_l).
  do 4 eexists. split; [exact E|]. split; [by eapply mbr_cF|]. split; [exact En|].
  intros Hle. etransitivity; [exact En|]. apply Z.mod_small. lia.
Qed.

(** ** A concrete disk

    Two partitions on a disk of 70 sectors, moved to a device of 80. *)

Definition ex_header : GPTHeader :=
  {| Signature := 0x5452415020494645; Revision := [x00; x00; x01; x00]; HeaderSize := 92;
     Crc := 0; Reserved0 := 0; CurrentLBA := 1; BackupLBA := 69; FirstUsableLBA := 34;
     LastUsableLBA := 36; GUID := replicate 16 x11; StartLBAParts := 2;
     NoOfParts := 128; SizePartEntry := 128; CrcParts := 0; Reserved1 := replicate 420 x00 |}.

Definition ex_entry (f l : Z) : PartitionEntry :=
  {| TypeGUID := replicate 16 x22; PartGUID := replicate 16 x33; FirstLBA := f;
     LastLBA := l; Attributes := 0; Name := replicate 72 x00 |}.

Definition ex_disk_with (entries : list byte) : list byte :=
  replicate 512 x01 ++ encode_GPTHeader ex_header ++ entries
  ++ replicate (32 * 512 - length entries) x00 ++ replicate (3 * 512) xaa
  ++ replicate (33 * 512) x55 ++ replicate (10 * 512) x00.

Definition ex_disk : list byte :=
  ex_disk_with (encode_PartitionEntry (ex_entry 34 34) ++ encode_PartitionEntry (ex_entry 35 36)).

Definition ex_empty_disk : list byte := ex_disk_with [].

Lemma ex_growable : growable ex_disk ex_header.
Proof. split; vm_compute; done. Qed.

Lemma grow_refines_spec_witness :
  ∃ k pe mbr p',
    used ex_disk = S k ∧ entry ex_disk k = Some pe ∧
    decode_MBR (sector ex_disk 0) = Some mbr ∧
    open_and_grow "/dev/sda" (D ex_disk 0 []) =
      (Ret (grown_modifier "/dev/sda" ex_disk ex_header k pe),
       D (grow_spec ex_disk ex_header k pe mbr) p' []).
Proof. exact (grow_refines_spec "/dev/sda" ex_disk ex_header 0 ex_growable). Defined.

Lemma grow_headers_valid_witness :
  ∃ m c' p' h1 h2,
    open_and_grow "/dev/sda" (D ex_disk 0 []) = (Ret m, D c' p' []) ∧
    length c' = length ex_disk ∧
    header_ok c' 1 h1 ∧ header_ok c' (nsect ex_disk - 1) h2 ∧
    BackupLBA h1 = nsect ex_disk - 1 ∧ BackupLBA h2 = 1 ∧
    StartLBAParts h1 = 2 ∧ StartLBAParts h2 = nsect ex_disk - 33 ∧
    LastUsableLBA h1 = nsect ex_disk - 34 ∧ LastUsableLBA h2 = nsect ex_disk - 34 ∧
    table_at c' (nsect ex_disk - 33) = table_at c' 2.
Proof. exact (grow_headers_valid "/dev/sda" ex_disk ex_header 0 ex_growable). Defined.

Lemma grow_extends_last_partition_witness :
  ∃ m c' p' k pe,
    open_and_grow "/dev/sda" (D ex_disk 0 []) = (Ret m, D c' p' []) ∧
    used ex_disk = S k ∧ used c' = S k ∧ entry ex_disk k = Some pe ∧
    entry c' k = Some (set_LastLBA (nsect ex_disk - 34) pe) ∧
    partitionEntry m = Some (set_LastLBA (nsect ex_disk - 34) pe) ∧
    (∀ i, (i < 128)%nat → i ≠ k → entry c' i = entry ex_disk i).
Proof. exact (grow_extends_last_partition "/dev/sda" ex_disk ex_header 0 ex_growable). Defined.

(** The write of the primary header stores 100 bytes and fails. *)
Definition ex_faults : list (option nat) := replicate 11 None ++ [Some 100%nat].

Lemma grow_fault_safe_witness :
  (∀ why, (open_and_grow "/dev/sda" (D ex_disk 0 ex_faults)).1 ≠ Panic why) ∧
  same_outside (metadata ex_disk ex_header) ex_disk
    (content (open_and_grow "/dev/sda" (D ex_disk 0 ex_faults)).2).
Proof. exact (grow_fault_safe "/dev/sda" ex_disk ex_header 0 ex_faults ex_growable). Defined.

Lemma grow_idempotent_witness :
  ∃ m c' p',
    open_and_grow "/dev/sda" (D ex_disk 0 []) = (Ret m, D c' p' []) ∧
    ∀ q, ∃ m2 q', open_and_grow "/dev/sda" (D c' q []) = (Ret m2, D c' q' []) ∧
                  needsResize m2 = false.
Proof. exact (grow_idempotent "/dev/sda" ex_disk ex_header 0 ex_growable). Defined.

Lemma grow_empty_table_panics_witness :
  (open_and_grow "/dev/sda" (D ex_empty_disk 0 [])).1 = Panic NilDeref.
Proof.
  apply (grow_empty_table_panics "/dev/sda" ex_empty_disk ex_header 0); vm_compute; done.
Defined.

Lemma grow_mbr_sectors_witness :
  ∃ m c' p' mbr,
    open_and_grow "/dev/sda" (D ex_disk 0 []) = (Ret m, D c' p' []) ∧
    decode_MBR (sector c' 0) = Some mbr ∧
    NumberOfSectors mbr = (nsect ex_disk - 1) mod 2 ^ 32 ∧
    (nsect ex_disk ≤ 2 ^ 32 → NumberOfSectors mbr = nsect ex_disk - 1).
Proof. exact (grow_mbr_sectors "/dev/sda" ex_disk ex_header 0 ex_growable). Defined.
