(* ===== verification/GoStrings.v ===== *)
(** * Go strings

    What the sources use of [strings], [strconv] and [fmt].  A Go string is a
    sequence of bytes; [String.string] is one, byte by byte.  Text that comes
    from the kernel (cmdline, sysctls, DMI) is ASCII, so [TrimSpace] and
    [Fields] know the ASCII white space only. *)

From S2P Require Import Prelude.
From stdpp Require pretty.
From Stdlib Require Import Ascii.
Local Open Scope string_scope.
#[global] Arguments String.append !_ _ : simpl nomatch.

(** ** Searching and cutting *)

Definition HasPrefix (s p : string) : bool := String.prefix p s.

(** [strings.Cut]: around the first occurrence of [sep]. *)
Fixpoint Cut (s sep : string) : option (string * string) :=
  if HasPrefix s sep then Some ("", String.substring (String.length sep) (String.length s) s)
  else
    match s with
    | "" => None
    | String a s' =>
        match Cut s' sep with
        | Some (l, r) => Some (String a l, r)
        | None => None
        end
    end.

Definition Contains (s sub : string) : bool :=
  match Cut s sub with Some _ => true | None => false end.

(** [strings.IndexByte]; -1 when absent. *)
Fixpoint IndexByte (s : string) (b : ascii) : Z :=
  match s with
  | "" => -1
  | String a s' =>
      if Ascii.eqb a b then 0
      else match IndexByte s' b with
           | Zneg _ => -1
           | i => i + 1
           end
  end%Z.

(** [strings.SplitN(s, sep, 2)] for a non-empty separator. *)
Definition SplitN2 (s sep : string) : list string :=
  match Cut s sep with
  | Some (l, r) => [l; r]
  | None => [s]
  end.

(** [strings.Split(s, sep)] for a non-empty separator.  Every round drops the
    separator, so [length s] rounds are enough. *)
Fixpoint split_fuel (fuel : nat) (s sep : string) : list string :=
  match fuel with
  | O => [s]
  | S fuel =>
      match Cut s sep with
      | Some (l, r) => l :: split_fuel fuel r sep
      | None => [s]
      end
  end.

Definition Split (s sep : string) : list string := split_fuel (String.length s) s sep.

(** [strings.ReplaceAll(s, old, new)] for a non-empty [old]. *)
Fixpoint replace_fuel (fuel : nat) (s old new : string) : string :=
  match fuel with
  | O => s
  | S fuel =>
      match Cut s old with
      | Some (l, r) => l +:+ new +:+ replace_fuel fuel r old new
      | None => s
      end
  end.

Definition ReplaceAll (s old new : string) : string :=
  replace_fuel (String.length s) s old new.

(** The width of the first rune ([utf8.DecodeRuneInString]); an invalid byte
    has width one. *)
Definition cont_in (lo hi : nat) (s : string) : bool :=
  match s with
  | String a _ => let n := nat_of_ascii a in ((lo <=? n) && (n <=? hi))%nat
  | "" => false
  end.

Definition tail_str (s : string) : string := match s with String _ s => s | "" => "" end.

Definition rune_width (s : string) : nat :=
  match s with
  | "" => 0
  | String a s1 =>
      let n := nat_of_ascii a in
      let s2 := tail_str s1 in
      let s3 := tail_str s2 in
      let c := cont_in 128 191 in
      if ((194 <=? n) && (n <=? 223))%nat && c s1 then 2
      else if ((n =? 224)%nat && cont_in 160 191 s1
               || ((225 <=? n) && (n <=? 239) && negb (n =? 237))%nat && c s1
               || (n =? 237)%nat && cont_in 128 159 s1) && c s2 then 3
      else if ((n =? 240)%nat && cont_in 144 191 s1
               || ((241 <=? n) && (n <=? 243))%nat && c s1
               || (n =? 244)%nat && cont_in 128 143 s1) && c s2 && c s3 then 4
      else 1
  end.

(** Replacing the empty string: [new] before every rune and at the end. *)
Fixpoint intersperse (fuel : nat) (s new : string) : string :=
  match fuel, s with
  | S fuel, String _ _ =>
      let w := rune_width s in
      new +:+ String.substring 0 w s
        +:+ intersperse fuel (String.substring w (String.length s) s) new
  | _, _ => new
  end.

(** [strings.Replace(s, old, new, -1)] *)
Definition Replace (s old new : string) : string :=
  if String.eqb old "" then intersperse (String.length s) s new else ReplaceAll s old new.

Example Replace_empty : Replace "abc" "" "-" = "-a-b-c-".
Proof. done. Qed.

Definition TrimPrefix (s p : string) : string :=
  if HasPrefix s p then String.substring (String.length p) (String.length s) s else s.

Fixpoint Join (l : list string) (sep : string) : string :=
  match l with
  | [] => ""
  | [s] => s
  | s :: l => s +:+ sep +:+ Join l sep
  end.

Fixpoint Repeat (s : string) (n : nat) : string :=
  match n with
  | O => ""
  | S n => s +:+ Repeat s n
  end.

(** [s[:n]], [s[n:]] within range. *)
Definition str_take (n : nat) (s : string) : string := String.substring 0 n s.
Definition str_drop (n : nat) (s : string) : string := String.substring n (String.length s) s.

Definition HasSuffix (s p : string) : bool :=
  (String.length p <=? String.length s)%nat &&
  String.eqb (str_drop (String.length s - String.length p) s) p.

Definition TrimSuffix (s p : string) : string :=
  if HasSuffix s p then str_take (String.length s - String.length p) s else s.

(** ** White space *)

Definition is_space (a : ascii) : bool :=
  let n := nat_of_ascii a in ((n =? 32) || ((9 <=? n) && (n <=? 13)))%nat.

Fixpoint trim_left (s : string) : string :=
  match s with
  | String a s' => if is_space a then trim_left s' else s
  | "" => ""
  end.

Fixpoint trim_right (s : string) : string :=
  match s with
  | "" => ""
  | String a s' =>
      match trim_right s' with
      | "" => if is_space a then "" else String a ""
      | r => String a r
      end
  end.

Definition TrimSpace (s : string) : string := trim_right (trim_left s).

(** [strings.Fields]: the maximal runs of non-space bytes. *)
Fixpoint fields_acc (s cur : string) : list string :=
  match s with
  | "" => if String.eqb cur "" then [] else [cur]
  | String a s' =>
      if is_space a then
        (if String.eqb cur "" then [] else [cur]) ++ fields_acc s' ""
      else fields_acc s' (cur +:+ String a "")
  end.

Definition Fields (s : string) : list string := fields_acc s "".

(** ** Numbers *)

Definition is_digit (a : ascii) : bool :=
  let n := nat_of_ascii a in ((48 <=? n) && (n <=? 57))%nat.

Fixpoint digits_val (s : string) (acc : Z) : option Z :=
  match s with
  | "" => Some acc
  | String a s' =>
      if is_digit a then digits_val s' (acc * 10 + (Z.of_nat (nat_of_ascii a) - 48))%Z
      else None
  end.

(** [strconv.Atoi]: an optional sign, decimal digits, within [int]. *)
Definition Atoi (s : string) : option Z :=
  let '(neg, body) :=
    match s with
    | String "-" r => (true, r)
    | String "+" r => (false, r)
    | _ => (false, s)
    end in
  match body with
  | "" => None
  | _ =>
      v ← digits_val body 0;
      let v := if (neg : bool) then (- v)%Z else v in
      if ((- 2 ^ 63 <=? v) && (v <? 2 ^ 63))%Z then Some v else None
  end.

(** [fmt.Sprintf("%d", n)] *)
Definition itoa (n : Z) : string := pretty.pretty n.

(** [fmt.Sprintf] with the verbs %s and %d, each given an argument of its type,
    and %%; the sources use no others where it matters. *)
Inductive fmt_arg := AStr (s : string) | ADec (n : Z).

Definition fmt_text (a : fmt_arg) : string := match a with AStr s => s | ADec n => itoa n end.

Fixpoint Sprintf (f : string) (args : list fmt_arg) : string :=
  match f with
  | "" => ""
  | String a f' =>
      if Ascii.eqb a "%" then
        match f', args with
        | String b f'', x :: args =>
            if Ascii.eqb b "%" then String "%" (Sprintf f'' (x :: args)) else fmt_text x +:+ Sprintf f'' args
        | String b f'', [] =>
            if Ascii.eqb b "%" then String "%" (Sprintf f'' [])
            else "%!" +:+ String b ("(MISSING)" +:+ Sprintf f'' [])
        | "", _ => "%!(NOVERB)"
        end
      else String a (Sprintf f' args)
  end.

(** ** Lemmas *)

Lemma str_app_nil_r s : s +:+ "" = s.
Proof. induction s as [|a s IH]; [done|]. cbn. by rewrite IH. Qed.

Lemma str_app_assoc s t u : (s +:+ t) +:+ u = s +:+ (t +:+ u).
Proof. induction s as [|a s IH]; [done|]. cbn. by rewrite IH. Qed.

Lemma str_length_app s t : String.length (s +:+ t) = (String.length s + String.length t)%nat.
Proof. induction s as [|a s IH]; [done|]. cbn. by rewrite IH. Qed.

Lemma prefix_app p s : String.prefix p s = true ↔ ∃ r, s = p +:+ r.
Proof.
  revert s. induction p as [|a p IH]; intros s; cbn [String.append].
  - split; [by exists s|]. by destruct s.
  - destruct s as [|b s]; [split; [done|by intros [r [=]]]|].
    cbn [String.prefix]. destruct (Ascii.ascii_dec a b) as [->|Hab].
    + rewrite IH. split; intros [r Hr]; exists r; [by rewrite Hr|by injection Hr].
    + split; [done|]. intros [r [=]]. congruence.
Qed.

Lemma substring_0_all s n : (String.length s ≤ n)%nat → String.substring 0 n s = s.
Proof.
  revert n. induction s as [|a s IH]; intros [|n] H; cbn in *; try done; [lia|].
  rewrite IH; [done|lia].
Qed.

Lemma substring_app_r p r n :
  (String.length r ≤ n)%nat → String.substring (String.length p) n (p +:+ r) = r.
Proof.
  intros H. induction p as [|a p IH]; cbn; [by apply substring_0_all|]. exact IH.
Qed.

(** [Cut] splits around an occurrence... *)
Lemma Cut_Some s sep l r : Cut s sep = Some (l, r) → s = l +:+ sep +:+ r.
Proof.
  revert l r. induction s as [|a s IH]; intros l r; cbn [Cut].
  - destruct (HasPrefix "" sep) eqn:Hp; [|done]. apply prefix_app in Hp as [t Ht].
    destruct sep; [|done]. by intros [= <- <-].
  - destruct (HasPrefix (String a s) sep) eqn:Hp.
    + apply prefix_app in Hp as [t Ht]. rewrite Ht.
      rewrite substring_app_r by (rewrite str_length_app; lia). by intros [= <- <-].
    + destruct (Cut s sep) as [[l' r']|] eqn:E; [|done]. intros [= <- <-].
      cbn. by rewrite <-(IH _ _ eq_refl).
Qed.

(** ...and finds one whenever there is one. *)
Lemma Cut_None s sep : Cut s sep = None → ∀ l r, s ≠ l +:+ sep +:+ r.
Proof.
  induction s as [|a s IH]; cbn [Cut]; intros H l r E.
  - destruct (HasPrefix "" sep) eqn:Hp; [done|]. destruct l; cbn in E; [|done].
    assert (HasPrefix "" sep = true); [|congruence]. apply prefix_app. eauto.
  - destruct (HasPrefix (String a s) sep) eqn:Hp; [done|].
    destruct (Cut s sep) as [[]|] eqn:Ec; [done|]. destruct l as [|b l]; cbn in E.
    + assert (HasPrefix (String a s) sep = true); [|congruence]. apply prefix_app. eauto.
    + injection E as -> E. by eapply IH.
Qed.

Lemma Contains_spec s sub : Contains s sub = true ↔ ∃ l r, s = l +:+ sub +:+ r.
Proof.
  unfold Contains. destruct (Cut s sub) as [[l r]|] eqn:E.
  - apply Cut_Some in E. split; eauto.
  - split; [done|]. intros (l & r & Hs). by apply Cut_None with (l := l) (r := r) in E.
Qed.

Lemma ReplaceAll_absent s old new : Contains s old = false → ReplaceAll s old new = s.
Proof.
  unfold Contains, ReplaceAll. intros H. destruct (String.length s); [done|].
  cbn. by destruct (Cut s old).
Qed.

(** Joining what [Split] gives restores the string. *)
Lemma Join_split_fuel n s sep :
  Join (split_fuel n s sep) sep = s.
Proof.
  revert s. induction n as [|n IH]; intros s; cbn [split_fuel]; [done|].
  destruct (Cut s sep) as [[l r]|] eqn:E; [|done].
  apply Cut_Some in E. rewrite E. specialize (IH r).
  destruct (split_fuel n r sep) as [|x xs] eqn:Es.
  - destruct n; cbn in Es; [done|]. by destruct (Cut r sep) as [[]|].
  - change (Join (l :: x :: xs) sep) with (l +:+ sep +:+ Join (x :: xs) sep). by rewrite IH.
Qed.

Lemma Join_Split s sep : Join (Split s sep) sep = s.
Proof. apply Join_split_fuel. Qed.

(** ** Single characters *)

Lemma Contains_char_cons (c a : ascii) s :
  Contains (String a s) (String c "") = Ascii.eqb a c || Contains s (String c "").
Proof.
  unfold Contains. cbn [Cut]. unfold HasPrefix. cbn [String.prefix].
  destruct (ascii_dec c a) as [->|Hne].
  - by rewrite Ascii.eqb_refl; destruct s.
  - destruct (Ascii.eqb_spec a c); [congruence|]. by destruct (Cut s _) as [[]|].
Qed.

(** [IndexByte] finds the first occurrence. *)
Lemma IndexByte_spec s b :
  (IndexByte s b = (-1)%Z ∧ Contains s (String b "") = false) ∨
  (∃ l r, s = l +:+ String b r ∧ IndexByte s b = Z.of_nat (String.length l) ∧
          Contains l (String b "") = false).
Proof.
  induction s as [|a s IH]; [by left|]. cbn [IndexByte]. rewrite Contains_char_cons.
  destruct (Ascii.eqb_spec a b) as [->|Hne]; [right; by exists "", s|].
  destruct IH as [[-> ->]|(l & r & -> & -> & Hl)]; [by left|]. right.
  exists (String a l), r. split; [done|]. split; [|rewrite Contains_char_cons, Hl, orb_false_r;
    by apply Ascii.eqb_neq].
  cbn [String.length]. destruct (Z.of_nat (String.length l)) eqn:E; lia.
Qed.

Lemma str_take_app l r : str_take (String.length l) (l +:+ r) = l.
Proof. unfold str_take. induction l as [|a l IH]; [by destruct r|]. cbn. by rewrite IH. Qed.

Lemma Cut_char l (c : ascii) r :
  Contains l (String c "") = false → Cut (l +:+ String c r) (String c "") = Some (l, r).
Proof.
  induction l as [|a l IH]; intros H; cbn [String.append Cut]; unfold HasPrefix; cbn [String.prefix].
  - destruct (ascii_dec c c); [|done]. destruct r; [done|]. cbn. by rewrite substring_0_all by (cbn; lia).
  - rewrite Contains_char_cons in H. apply orb_false_iff in H as [Ha H]. destruct (ascii_dec c a) as [->|_].
    + by rewrite Ascii.eqb_refl in Ha.
    + by rewrite IH.
Qed.

(** Splitting what was joined restores the parts, if they are free of the
    separator. *)
Lemma Split_Join (c : ascii) l :
  l ≠ [] → Forall (λ s, Contains s (String c "") = false) l →
  Split (Join l (String c "")) (String c "") = l.
Proof.
  intros Hne Hl. unfold Split.
  assert (∀ n, (String.length (Join l (String c "")) ≤ n)%nat →
    split_fuel n (Join l (String c "")) (String c "") = l) as H; [|by apply H].
  induction Hl as [|s l Hs Hl IH]; [done|]. intros n Hn. destruct l as [|t l].
  - cbn [Join] in *. unfold Contains in Hs. destruct n; [done|]. cbn [split_fuel].
    by destruct (Cut s (String c "")) as [[]|].
  - change (Join (s :: t :: l) (String c "")) with (s +:+ String c (Join (t :: l) (String c ""))) in *.
    rewrite str_length_app in Hn. cbn [String.length] in Hn. destruct n as [|n]; [lia|]. cbn [split_fuel].
    rewrite Cut_char by done. rewrite IH; [done|done|lia].
Qed.

(** ** Words *)

(** A text without white space. *)
Fixpoint no_space (s : string) : bool :=
  match s with "" => true | String a s => negb (is_space a) && no_space s end.

Definition is_word (s : string) : Prop := s ≠ "" ∧ no_space s = true.

Lemma fields_acc_word w rest cur :
  no_space w = true → cur +:+ w ≠ "" →
  fields_acc (w +:+ String " " rest) cur = (cur +:+ w) :: fields_acc rest "".
Proof.
  revert cur. induction w as [|a w IH]; intros cur Hw Hne; cbn [String.append fields_acc].
  - rewrite str_app_nil_r in *. destruct (String.eqb_spec cur ""); [done|]. done.
  - cbn in Hw. apply andb_true_iff in Hw as [Ha Hw]. apply negb_true_iff in Ha. rewrite Ha.
    rewrite IH by (done || by destruct cur). by rewrite str_app_assoc.
Qed.

Lemma Fields_word w rest : is_word w → Fields (w +:+ String " " rest) = w :: Fields rest.
Proof. intros [H1 H2]. by apply (fields_acc_word w rest ""). Qed.

Lemma no_space_free w (c : ascii) : is_space c = true → no_space w = true → Contains w (String c "") = false.
Proof.
  intros Hc. induction w as [|a w IH]; intros Hw; [done|]. cbn in Hw. apply andb_true_iff in Hw as [Ha Hw].
  rewrite Contains_char_cons, IH, orb_false_r by done. apply Ascii.eqb_neq. intros ->. by rewrite Hc in Ha.
Qed.

Lemma Contains_char_app l r (c : ascii) :
  Contains (l +:+ r) (String c "") = Contains l (String c "") || Contains r (String c "").
Proof.
  induction l as [|a l IH]; [done|]. cbn [String.append]. by rewrite !Contains_char_cons, IH, orb_assoc.
Qed.

Lemma TrimSuffix_app s p : TrimSuffix (s +:+ p) p = s.
Proof.
  assert (String.length (s +:+ p) - String.length p = String.length s)%nat as Hl by (rewrite str_length_app; lia).
  unfold TrimSuffix, HasSuffix. rewrite Hl, str_take_app. unfold str_drop.
  rewrite substring_app_r by (rewrite str_length_app; lia). rewrite String.eqb_refl, str_length_app.
  by rewrite (proj2 (Nat.leb_le _ _)) by lia.
Qed.

(** A text whose last character is another one does not end in [c]. *)
Lemma TrimSuffix_char s (a c : ascii) : a ≠ c → TrimSuffix (s +:+ String a "") (String c "") = s +:+ String a "".
Proof.
  intros Hne. unfold TrimSuffix, HasSuffix.
  assert (String.length (s +:+ String a "") - String.length (String c "") = String.length s)%nat as ->
    by (rewrite str_length_app; cbn; lia).
  unfold str_drop. rewrite substring_app_r by (rewrite str_length_app; cbn; lia).
  rewrite (proj2 (String.eqb_neq _ _)) by congruence. by rewrite andb_false_r.
Qed.
