(* ===== verification/GoPath.v ===== *)
(** * Paths: what the sources use of [path] and [path/filepath] *)

From S2P Require Import Prelude GoStrings.
From Stdlib Require Import Ascii.
Local Open Scope string_scope.

Definition IsAbs (p : string) : bool := HasPrefix p "/".

(** [filepath.Clean]: one pass over the elements with a stack (top first). *)
Fixpoint clean_elems (rooted : bool) (es stack : list string) : list string :=
  match es with
  | [] => reverse stack
  | e :: es =>
      let stack :=
        if String.eqb e "" || String.eqb e "." then stack
        else if String.eqb e ".." then
          match stack with
          | t :: st => if String.eqb t ".." then e :: stack else st
          | [] => if rooted then [] else [e]
          end
        else e :: stack in
      clean_elems rooted es stack
  end.

Definition Clean (p : string) : string :=
  let rooted := IsAbs p in
  let body := Join (clean_elems rooted (Split p "/") []) "/" in
  if rooted then "/" +:+ body else if String.eqb body "" then "." else body.

(** [filepath.Join] *)
Fixpoint PathJoin (es : list string) : string :=
  match es with
  | [] => ""
  | e :: es' => if String.eqb e "" then PathJoin es' else Clean (Join es "/")
  end.

(** The path a relative path stands for: init is started in "/" and no code
    changes its directory. *)
Definition abs_path (p : string) : string :=
  if IsAbs p then Clean p else PathJoin ["/"; p].

(** Up to and including the last slash. *)
Fixpoint dir_part (p : string) : string :=
  match p with
  | "" => ""
  | String a p' =>
      match dir_part p' with
      | "" => if Ascii.eqb a "/" then "/" else ""
      | d => String a d
      end
  end.

Definition PathDir (p : string) : string := Clean (dir_part p).

(** [filepath.Base] of a path without trailing slashes. *)
Definition PathBase (p : string) : string :=
  match p with
  | "" => "."
  | _ => str_drop (String.length (dir_part p)) p
  end.

(** A clean absolute path and the directories above it, outermost first. *)
Fixpoint prefixes_from (acc : string) (es : list string) : list string :=
  match es with
  | [] => []
  | e :: es => let p := acc +:+ "/" +:+ e in p :: prefixes_from p es
  end.

Definition path_prefixes (p : string) : list string :=
  prefixes_from "" (clean_elems true (Split p "/") []).

Example Clean_ex : Clean "/a//b/../c/./d/" = "/a/c/d".
Proof. done. Qed.

Example PathDir_ex : map PathDir ["/etc/hosts"; "/x"; "x"; ""] = ["/etc"; "/"; "."; "."].
Proof. done. Qed.

Example PathJoin_ex : PathJoin ["/usr/bin"; "ls"] = "/usr/bin/ls" ∧ PathJoin [""; "a"] = "a".
Proof. done. Qed.

Example path_prefixes_ex : path_prefixes "/a/b/c" = ["/a"; "/a/b"; "/a/b/c"].
Proof. done. Qed.
