(* ===== verification/GoNet.v ===== *)
(** * IP addresses: what the sources use of Go's package [net]

    A [net.IP] is a slice of bytes: 4 for an IPv4 address, 16 for an IPv6 or an
    embedded IPv4 address, none for nil.  Parsing and printing follow the
    package of Go 1.14, the version the module asks for (decimal octets may have
    leading zeros). *)

From S2P Require Import Prelude Bytes GoStrings.
From Stdlib Require Import Ascii.
Local Open Scope Z_scope.

Abbreviation IP := (list byte).

Definition v4InV6Prefix : IP := replicate 10 x00 ++ [xff; xff].

(** [net.IPv4(a, b, c, d)] *)
Definition IPv4 (a b c d : Z) : IP := v4InV6Prefix ++ [Zbyte a; Zbyte b; Zbyte c; Zbyte d].

Definition IPv4bcast : IP := IPv4 255 255 255 255.

Definition To4 (ip : IP) : IP :=
  if (length ip =? 4)%nat then ip
  else if (length ip =? 16)%nat && bool_decide (take 12 ip = v4InV6Prefix) then drop 12 ip
  else [].

Definition To16 (ip : IP) : IP :=
  if (length ip =? 4)%nat then v4InV6Prefix ++ ip
  else if (length ip =? 16)%nat then ip else [].

(** [ip.Equal(x)]: an IPv4 address equals its embedding. *)
Definition IPEqual (ip x : IP) : bool :=
  if (length ip =? length x)%nat then bool_decide (ip = x)
  else if (length ip =? 4)%nat && (length x =? 16)%nat then bool_decide (v4InV6Prefix ++ ip = x)
  else if (length ip =? 16)%nat && (length x =? 4)%nat then bool_decide (ip = v4InV6Prefix ++ x)
  else false.

(** ** Numbers in addresses *)

Definition is_hex (a : ascii) : option Z :=
  let n := Z.of_nat (nat_of_ascii a) in
  if (48 <=? n) && (n <=? 57) then Some (n - 48)
  else if (97 <=? n) && (n <=? 102) then Some (n - 97 + 10)
  else if (65 <=? n) && (n <=? 70) then Some (n - 65 + 10)
  else None.

Definition big : Z := 0xFFFFFF.

(** [dtoi] and [xtoi]: the digits at the start, and what follows them. *)
Fixpoint digits (base : Z) (s : string) (n : Z) : option (Z * string) :=
  match s with
  | EmptyString => Some (n, EmptyString)
  | String a s' =>
      match is_hex a with
      | Some d =>
          if d <? base then
            let n := n * base + d in
            if big <=? n then None else digits base s' n
          else Some (n, s)
      | None => Some (n, s)
      end
  end.

Definition toi (base : Z) (s : string) : option (Z * string) :=
  match digits base s 0 with
  | Some (n, r) => if (String.length r =? String.length s)%nat then None else Some (n, r)
  | None => None
  end.

Definition dtoi : string → option (Z * string) := toi 10.
Definition xtoi : string → option (Z * string) := toi 16.

Definition ch_dot : ascii := ascii_of_nat 46.
Definition ch_colon : ascii := ascii_of_nat 58.

(** ** Parsing *)

(** The octets from number [i] on. *)
Fixpoint octets (k : nat) (first : bool) (s : string) : option (list byte) :=
  match k with
  | O => match s with EmptyString => Some [] | _ => None end
  | S k =>
      body ← (if first then Some s
              else match s with
                   | String a s' => if Ascii.eqb a ch_dot then Some s' else None
                   | EmptyString => None
                   end);
      '(n, r) ← dtoi body;
      if 255 <? n then None else rest ← octets k false r; Some (Zbyte n :: rest)
  end.

Definition parseIPv4 (s : string) : IP :=
  match octets 4 true s with Some p => v4InV6Prefix ++ p | None => [] end.

(** The loop of [parseIPv6]: the bytes so far, where the ellipsis is, and the
    rest of the text.  Every round adds two bytes, so eight rounds fill the
    address. *)
Fixpoint groups (fuel : nat) (ip : list byte) (ellipsis : option nat) (s : string)
    : option (list byte * option nat * string) :=
  match fuel with
  | O => Some (ip, ellipsis, s)
  | S fuel =>
      '(n, r) ← xtoi s;
      if 0xFFFF <? n then None
      else
        match r with
        | EmptyString => Some (ip ++ [Zbyte (n / 256); Zbyte n], ellipsis, EmptyString)
        | String a r' =>
            if Ascii.eqb a ch_dot then
              if (match ellipsis with None => negb (length ip =? 12)%nat | Some _ => false end) then None
              else if (12 <? length ip)%nat then None
              else match octets 4 true s with
                   | None => None
                   | Some p => Some (ip ++ p, ellipsis, EmptyString)
                   end
            else
              let ip := ip ++ [Zbyte (n / 256); Zbyte n] in
              match r' with
              | EmptyString => None
              | String b r'' =>
                  if negb (Ascii.eqb a ch_colon) then None
                  else if Ascii.eqb b ch_colon then
                    match ellipsis with
                    | Some _ => None
                    | None =>
                        match r'' with
                        | EmptyString => Some (ip, Some (length ip), EmptyString)
                        | _ => groups fuel ip (Some (length ip)) r''
                        end
                    end
                  else groups fuel ip ellipsis r'
              end
        end
  end.

Definition expand (ip : list byte) (ellipsis : option nat) : IP :=
  if (length ip <? 16)%nat then
    match ellipsis with
    | None => []
    | Some e => take e ip ++ replicate (16 - length ip) x00 ++ drop e ip
    end
  else match ellipsis with Some _ => [] | None => ip end.

Definition parseIPv6 (s : string) : IP :=
  let leading := HasPrefix s "::" in
  let s := if leading then str_drop 2 s else s in
  match leading, s with
  | true, EmptyString => replicate 16 x00
  | _, _ =>
      match groups 8 [] (if leading then Some 0%nat else None) s with
      | Some (ip, ellipsis, EmptyString) => expand ip ellipsis
      | _ => []
      end
  end.

(** [net.ParseIP]: the first dot or colon decides. *)
Fixpoint ip_kind (s : string) : option bool :=
  match s with
  | EmptyString => None
  | String a s =>
      if Ascii.eqb a ch_dot then Some true else if Ascii.eqb a ch_colon then Some false else ip_kind s
  end.

Definition ParseIP (s : string) : IP :=
  match ip_kind s with
  | Some true => parseIPv4 s
  | Some false => parseIPv6 s
  | None => []
  end.

(** ** Printing *)

Definition hex_digit (d : Z) : ascii := ascii_of_nat (Z.to_nat (if d <? 10 then 48 + d else 87 + d)).

(** A 16-bit number in hexadecimal, without leading zeros. *)
Definition hex16 (n : Z) : string :=
  let d k := String (hex_digit (Z.shiftr n k mod 16)) EmptyString in
  (if n <? 0x1000 then "" else d 12) +:+ (if n <? 0x100 then "" else d 8)
  +:+ (if n <? 0x10 then "" else d 4) +:+ d 0.

Definition hex_byte (b : byte) : string :=
  String (hex_digit (byteZ b / 16)) (String (hex_digit (byteZ b mod 16)) EmptyString).

Definition hexString (bs : list byte) : string := Join (hex_byte <$> bs) "".

Fixpoint words (ip : list byte) : list Z :=
  match ip with
  | a :: b :: ip => byteZ a * 256 + byteZ b :: words ip
  | _ => []
  end.

Fixpoint zero_run (ws : list Z) : nat :=
  match ws with
  | w :: ws => if w =? 0 then S (zero_run ws) else 0
  | [] => 0
  end.

(** The longest run of zero words, the first of equal ones; [skip] words belong
    to the run found last. *)
Fixpoint longest_run (ws : list Z) (i skip : nat) (best : nat * nat) : nat * nat :=
  match ws with
  | [] => best
  | _ :: ws' =>
      match skip with
      | S skip => longest_run ws' (S i) skip best
      | O =>
          let n := zero_run ws in
          if (best.2 <? n)%nat then longest_run ws' (S i) n (i, n) else longest_run ws' (S i) 0 best
      end
  end.

Definition String6 (ws : list Z) : string :=
  let '(e0, n) := longest_run ws 0 0 (0, 0)%nat in
  let hexes := λ ws, Join (hex16 <$> ws) ":" in
  if (n <=? 1)%nat then hexes ws
  else hexes (take e0 ws) +:+ "::" +:+ hexes (drop (e0 + n) ws).

Definition dotted (p : list byte) : string := Join ((λ b, itoa (byteZ b)) <$> p) ".".

Definition IPString (ip : IP) : string :=
  if (length ip =? 0)%nat then "<nil>"
  else if (length (To4 ip) =? 4)%nat then dotted (To4 ip)
  else if negb (length ip =? 16)%nat then "?" +:+ hexString ip
  else String6 (words ip).

(** ** Networks *)

Record IPNet := mkIPNet { net_IP : IP; net_Mask : list byte }.

(** [simpleMaskLength]: the ones of a mask that starts with them. *)
Fixpoint byte_ones (n : nat) (b : Z) : nat :=
  match n with
  | O => 0
  | S n => if Z.testbit b (Z.of_nat n) then S (byte_ones n b) else 0
  end.

Fixpoint mask_ones (m : list byte) : option nat :=
  match m with
  | [] => Some 0%nat
  | b :: m =>
      if bool_decide (b = xff) then n ← mask_ones m; Some (8 + n)%nat
      else
        let n := byte_ones 8 (byteZ b) in
        if (byteZ b =? 256 - 2 ^ (8 - Z.of_nat n)) && forallb (λ b, bool_decide (b = x00)) m
        then Some n else None
  end.

Definition networkNumberAndMask (n : IPNet) : option (IP * list byte) :=
  let ip := if (length (To4 (net_IP n)) =? 0)%nat then net_IP n else To4 (net_IP n) in
  let m := net_Mask n in
  if negb ((length ip =? 4)%nat || (length ip =? 16)%nat) then None
  else if (length m =? 4)%nat then if (length ip =? 4)%nat then Some (ip, m) else None
  else if (length m =? 16)%nat then Some (ip, if (length ip =? 4)%nat then drop 12 m else m)
  else None.

Definition IPNetString (n : IPNet) : string :=
  match networkNumberAndMask n with
  | None => "<nil>"
  | Some (ip, m) =>
      IPString ip +:+ "/" +:+
        match mask_ones m with Some l => itoa (Z.of_nat l) | None => hexString m end
  end.

Definition and_bytes (a b : list byte) : list byte :=
  zip_with (λ x y, Zbyte (Z.land (byteZ x) (byteZ y))) a b.

Definition Contains_ip (n : IPNet) (ip : IP) : bool :=
  match networkNumberAndMask n with
  | None => (length ip =? 0)%nat
  | Some (nn, m) =>
      let ip := if (length (To4 ip) =? 0)%nat then ip else To4 ip in
      (length ip =? length nn)%nat && bool_decide (and_bytes nn m = and_bytes ip m)
  end.

(** [net.CIDRMask] *)
Fixpoint CIDRMask (ones : nat) (bytes : nat) : list byte :=
  match bytes with
  | O => []
  | S bytes => Zbyte (256 - 2 ^ (8 - Z.of_nat (Nat.min 8 ones))) :: CIDRMask (ones - 8) bytes
  end.

Definition MaskIP (ip mask : list byte) : IP :=
  let mask := if (length mask =? 16)%nat && (length ip =? 4)%nat && bool_decide (take 12 mask = replicate 12 xff)
              then drop 12 mask else mask in
  let ip := if (length mask =? 4)%nat && (length ip =? 16)%nat && bool_decide (take 12 ip = v4InV6Prefix)
            then drop 12 ip else ip in
  if (length ip =? length mask)%nat then and_bytes ip mask else [].

(** [net.ParseCIDR] *)
Definition ParseCIDR (s : string) : option (IP * IPNet) :=
  match Cut s "/" with
  | None => None
  | Some (addr, mask) =>
      let ip4 := parseIPv4 addr in
      let iplen := if (length ip4 =? 0)%nat then 16%nat else 4%nat in
      let ip := if (length ip4 =? 0)%nat then parseIPv6 addr else ip4 in
      match dtoi mask with
      | Some (n, EmptyString) =>
          if (length ip =? 0)%nat || (8 * Z.of_nat iplen <? n) then None
          else let m := CIDRMask (Z.to_nat n) iplen in Some (ip, mkIPNet (MaskIP ip m) m)
      | _ => None
      end
  end.

(** ** Reading back what is printed *)

(** The text does not go on with a decimal digit. *)
Definition stops (r : string) : Prop :=
  match r with EmptyString => True | String a _ => is_digit a = false end.

Lemma is_digit_hex a :
  is_digit a = true → is_hex a = Some (Z.of_nat (nat_of_ascii a) - 48) ∧
  0 ≤ Z.of_nat (nat_of_ascii a) - 48 < 10.
Proof.
  unfold is_digit, is_hex. intros [H1%Nat.leb_le H2%Nat.leb_le]%andb_true_iff.
  assert ((48 <=? Z.of_nat (nat_of_ascii a)) && (Z.of_nat (nat_of_ascii a) <=? 57) = true) as ->; [|split; [done|lia]].
  apply andb_true_iff. split; apply Z.leb_le; lia.
Qed.

Lemma stops_digits r n : stops r → digits 10 r n = Some (n, r).
Proof.
  destruct r as [|a r]; [done|]. unfold stops, is_digit. intros H. cbn [digits]. unfold is_hex.
  destruct ((48 <=? Z.of_nat (nat_of_ascii a)) && (Z.of_nat (nat_of_ascii a) <=? 57)) eqn:E.
  - apply andb_true_iff in E as [E1%Z.leb_le E2%Z.leb_le].
    apply andb_false_iff in H as [H%Nat.leb_gt|H%Nat.leb_gt]; lia.
  - destruct (andb (97 <=? _) _) eqn:E1.
    + apply andb_true_iff in E1 as [E1%Z.leb_le E2%Z.leb_le].
      by rewrite (proj2 (Z.ltb_ge _ _)) by lia.
    + destruct (andb (65 <=? _) _) eqn:E2; [|done].
      apply andb_true_iff in E2 as [E2%Z.leb_le E3%Z.leb_le].
      by rewrite (proj2 (Z.ltb_ge _ _)) by lia.
Qed.

Lemma digits_val_le s acc n : 0 ≤ acc → digits_val s acc = Some n → acc ≤ n.
Proof.
  revert acc. induction s as [|a s IH]; intros acc Hacc; cbn; [intros [= <-]; lia|].
  destruct (is_digit a) eqn:Ea; [|done]. apply is_digit_hex in Ea as [_ ?].
  intros Hs. apply IH in Hs; lia.
Qed.

Lemma digits_app s r acc n :
  0 ≤ acc → digits_val s acc = Some n → n < big → stops r → digits 10 (s +:+ r) acc = Some (n, r).
Proof.
  revert acc. induction s as [|a s IH]; intros acc Hacc Hs Hn Hr.
  - injection Hs as ->. by apply stops_digits.
  - cbn in Hs. destruct (is_digit a) eqn:Ea; [|done]. apply is_digit_hex in Ea as [Ea ?].
    cbn [String.append digits]. rewrite Ea, (proj2 (Z.ltb_lt _ _)) by lia.
    assert (acc * 10 + (Z.of_nat (nat_of_ascii a) - 48) ≤ n) by (apply (digits_val_le s); [lia|done]).
    rewrite (proj2 (Z.leb_gt _ _)) by lia. apply IH; [lia|done..].
Qed.

(** The decimal text of a byte, checked on all of them. *)
Lemma itoa_byte b : ∃ a s, itoa (byteZ b) = String a s ∧ digits_val (itoa (byteZ b)) 0 = Some (byteZ b) ∧
  ip_kind (itoa (byteZ b)) = None.
Proof. destruct b; vm_compute; eauto. Qed.

Lemma dtoi_byte b r : stops r → dtoi (itoa (byteZ b) +:+ r) = Some (byteZ b, r).
Proof.
  intros Hr. destruct (itoa_byte b) as (a & s & E & Hd & _). pose proof (byteZ_range b).
  unfold dtoi, toi. rewrite (digits_app (itoa (byteZ b)) r 0 (byteZ b)) by (unfold big; done || lia).
  destruct (Nat.eqb_spec (String.length r) (String.length (itoa (byteZ b) +:+ r))) as [Hl|]; [|done].
  rewrite str_length_app, E in Hl. cbn in Hl. lia.
Qed.

Lemma octets_first k b r :
  stops r → octets (S k) true (itoa (byteZ b) +:+ r) = (rest ← octets k false r; Some (b :: rest)).
Proof.
  intros Hr. pose proof (byteZ_range b). cbn [octets]. unfold mbind at 1, option_bind at 1.
  rewrite dtoi_byte by done. cbn. rewrite (proj2 (Z.ltb_ge _ _)) by lia. by rewrite Zbyte_byteZ.
Qed.

Lemma octets_next k b r :
  stops r → octets (S k) false ("." +:+ itoa (byteZ b) +:+ r) = (rest ← octets k false r; Some (b :: rest)).
Proof. exact (octets_first k b r). Qed.

Lemma octets_dotted a b c d : octets 4 true (dotted [a; b; c; d]) = Some [a; b; c; d].
Proof.
  unfold dotted. cbn [fmap list_fmap Join]. rewrite octets_first by done.
  do 2 rewrite octets_next by done. rewrite <-(str_app_nil_r (itoa (byteZ d))). by rewrite octets_next.
Qed.

Lemma ip_kind_app s r : ip_kind s = None → ip_kind (s +:+ r) = ip_kind r.
Proof.
  induction s as [|a s IH]; [done|]. cbn [ip_kind String.append].
  destruct (Ascii.eqb a ch_dot); [done|]. destruct (Ascii.eqb a ch_colon); [done|]. exact IH.
Qed.

Lemma ParseIP_dotted p : length p = 4%nat → ParseIP (dotted p) = v4InV6Prefix ++ p.
Proof.
  destruct p as [|a [|b [|c [|d []]]]]; try done. intros _. unfold ParseIP, parseIPv4.
  rewrite octets_dotted. destruct (itoa_byte a) as (x & y & _ & _ & Hk).
  replace (ip_kind (dotted [a; b; c; d])) with (Some true); [done|].
  unfold dotted. cbn [fmap list_fmap Join]. by rewrite ip_kind_app.
Qed.

Lemma To4_embed p : length p = 4%nat → To4 (v4InV6Prefix ++ p) = p.
Proof.
  intros Hp. unfold To4. rewrite length_app, Hp. cbn [v4InV6Prefix length app replicate Nat.add Nat.eqb].
  rewrite bool_decide_true by done. done.
Qed.

(** [ParseIP] undoes [String] on an IPv4 address. *)
Lemma ParseIP_String p : length p = 4%nat → ParseIP (IPString p) = v4InV6Prefix ++ p.
Proof.
  intros Hp. unfold IPString, To4. rewrite Hp. cbn [Nat.eqb]. rewrite Hp. by apply ParseIP_dotted.
Qed.

(** ** The sizes of what is parsed *)

Lemma length_octets k first s p : octets k first s = Some p → length p = k.
Proof.
  revert first s p. induction k as [|k IH]; intros first s p; cbn [octets].
  - destruct s; [|done]. by intros [= <-].
  - intros (body & _ & H)%bind_Some. apply bind_Some in H as ([n r] & _ & H).
    destruct (255 <? n); [done|]. apply bind_Some in H as (rest & Hr & [= <-]). cbn. by rewrite (IH _ _ _ Hr).
Qed.

Lemma length_parseIPv4 s : parseIPv4 s = [] ∨ length (parseIPv4 s) = 16%nat.
Proof.
  unfold parseIPv4. destruct (octets 4 true s) as [p|] eqn:E; [right|by left].
  by rewrite length_app, (length_octets _ _ _ _ E).
Qed.

Lemma groups_length fuel ip e s ip' e' r :
  (length ip + 2 * fuel ≤ 16)%nat → (∀ k, e = Some k → k ≤ length ip)%nat →
  groups fuel ip e s = Some (ip', e', r) →
  (length ip' ≤ 16)%nat ∧ (∀ k, e' = Some k → k ≤ length ip')%nat.
Proof.
  revert ip e s. induction fuel as [|fuel IH]; intros ip e s Hl He; cbn [groups].
  { intros [= <- <- <-]. split; [lia|done]. }
  intros ([n t] & _ & H)%bind_Some. destruct (0xFFFF <? n); [done|].
  assert (∀ x, (length ip + 2 ≤ length (ip ++ [x; Zbyte n]))%nat ∧
               (length (ip ++ [x; Zbyte n]) + 2 * fuel ≤ 16)%nat) as Hx.
  { intros x. rewrite length_app. cbn [length]. lia. }
  specialize (Hx (Zbyte (n / 256))) as [Hx1 Hx2]. set (ip2 := ip ++ _) in *.
  destruct t as [|a t].
  { injection H as <- <- <-. split; [lia|]. intros k Hk. specialize (He k Hk). lia. }
  destruct (Ascii.eqb a ch_dot).
  - destruct (match e with None => _ | Some _ => _ end); [done|].
    destruct (Nat.ltb_spec 12 (length ip)); [done|].
    destruct (octets 4 true s) as [p|] eqn:Ep; [|done]. apply length_octets in Ep.
    injection H as <- <- <-. rewrite length_app, Ep. split; [lia|]. intros k Hk. specialize (He k Hk). lia.
  - destruct t as [|b t]; [done|]. destruct (negb _); [done|]. destruct (Ascii.eqb b ch_colon).
    + destruct e; [done|]. destruct t as [|c t].
      * injection H as <- <- <-. split; [lia|]. by intros k [= <-].
      * apply IH in H; [done|lia|]. by intros k [= <-].
    + apply IH in H; [done|lia|]. intros k Hk. specialize (He k Hk). lia.
Qed.

Lemma length_parseIPv6 s : parseIPv6 s = [] ∨ length (parseIPv6 s) = 16%nat.
Proof.
  unfold parseIPv6. set (t := if HasPrefix s "::" then str_drop 2 s else s).
  assert (∀ e, (e = Some 0%nat ∨ e = None) →
    let r := match groups 8 [] e t with
             | Some (ip, ellipsis, EmptyString) => expand ip ellipsis | _ => [] end in
    r = [] ∨ length r = 16%nat) as H.
  { intros e He. cbn zeta. destruct (groups 8 [] e t) as [[[ip e'] r]|] eqn:E; [|by left].
    destruct r; [|by left]. apply groups_length in E as [E1 E2]; [|done|by intros k ->; destruct He; simplify_eq].
    unfold expand. destruct (Nat.ltb_spec (length ip) 16).
    - destruct e' as [k|]; [|by left]. right. specialize (E2 k eq_refl). autorewrite with vlen. lia.
    - destruct e'; [by left|]. right. lia. }
  destruct (HasPrefix s "::"); [destruct t; [by right|]|]; apply H; auto.
Qed.

Lemma length_ParseIP s : ParseIP s = [] ∨ length (ParseIP s) = 16%nat.
Proof.
  unfold ParseIP. destruct (ip_kind s) as [[]|]; [apply length_parseIPv4|apply length_parseIPv6|by left].
Qed.

Lemma length_CIDRMask ones n : length (CIDRMask ones n) = n.
Proof. revert ones. induction n as [|n IH]; intros ones; cbn; [done|]. by rewrite IH. Qed.

Lemma ParseCIDR_length s ip n :
  ParseCIDR s = Some (ip, n) →
  length ip = 16%nat ∧ (length (net_Mask n) = 4 ∨ length (net_Mask n) = 16)%nat.
Proof.
  unfold ParseCIDR. destruct (Cut s "/") as [[addr mask]|]; [|done].
  set (ip4 := parseIPv4 addr). set (x := if (length ip4 =? 0)%nat then parseIPv6 addr else ip4).
  destruct (dtoi mask) as [[k r]|]; [|done]. destruct r; [|done].
  destruct (orb _ _) eqn:E; [done|]. intros [= <- <-]. apply orb_false_iff in E as [E _].
  apply Nat.eqb_neq in E. cbn [net_Mask]. rewrite length_CIDRMask. split.
  - subst x. destruct (length ip4 =? 0)%nat eqn:E4.
    + by destruct (length_parseIPv6 addr) as [H|H]; [rewrite H in E|].
    + by destruct (length_parseIPv4 addr) as [H|H]; [unfold ip4 in E4; rewrite H in E4|].
  - destruct (length ip4 =? 0)%nat; auto.
Qed.

Lemma mask_ones_CIDRMask k : (k ≤ 32)%nat → mask_ones (CIDRMask k 4) = Some k.
Proof.
  intros H. do 33 (destruct k as [|k]; [vm_compute; done|]). lia.
Qed.

Example ParseIP_ex4 : ParseIP "10.0.0.5" = IPv4 10 0 0 5.
Proof. vm_compute. done. Qed.

Example ParseIP_bad :
  ParseIP <$> ["10.0.0"; "10.0.0.256"; "10.0.0.5."; ""; "host"; "1::2::3"; ":1"; "1:2:3:4:5:6:7:8:9"]%string
  = replicate 8 [].
Proof. vm_compute. done. Qed.

Example String_ex6 :
  (λ s, IPString (ParseIP s)) <$> ["fe80::0:1"; "::"; "1:0:0:2:0:0:0:3"; "::ffff:1.2.3.4"; "1:2:3:4:5:6:7:8"]%string
  = ["fe80::1"; "::"; "1:0:0:2::3"; "1.2.3.4"; "1:2:3:4:5:6:7:8"]%string.
Proof. vm_compute. done. Qed.

Example ParseCIDR_ex :
  (λ '(ip, n), (IPString ip, IPNetString n)) <$> ParseCIDR "192.168.7.9/20" = Some ("192.168.7.9", "192.168.0.0/20")%string.
Proof. vm_compute. done. Qed.
