(* ===== verification/Json.v ===== *)
(** * JSON: what the sources use of [encoding/json]

    [json.Unmarshal] first runs a scanner over the bytes, one byte at a time with
    a stack of open objects and arrays; the model is that scanner, which also
    builds the value.  A text that is not valid changes nothing.  Then the value
    goes into a [map[string]string] or a [map[string]interface{}], the two
    targets the sources have (the target [vcfg.VCFG] has its own decoding methods
    in another repository). *)

From S2P Require Import Prelude GoStrings.
From Stdlib Require Import Ascii.
Local Open Scope string_scope.

Inductive json :=
| JNull
| JBool (b : bool)
| JNumber (text : string)
| JString (s : string)
| JArray (l : list json)
| JObject (l : list (string * json)).

(** ** Strings *)

Definition chr (n : nat) : ascii := ascii_of_nat n.
Definition str1 (n : nat) : string := String (chr n) "".
Definition code (a : ascii) : nat := nat_of_ascii a.

(** The UTF-8 bytes of a rune below 2^21. *)
Definition utf8 (r : Z) : string :=
  let b z := String (chr (Z.to_nat z)) "" in
  if (r <? 0x80)%Z then b r
  else if (r <? 0x800)%Z then b (0xC0 + r / 64)%Z +:+ b (0x80 + r mod 64)%Z
  else if (r <? 0x10000)%Z
       then b (0xE0 + r / 4096)%Z +:+ b (0x80 + (r / 64) mod 64)%Z +:+ b (0x80 + r mod 64)%Z
  else b (0xF0 + r / 262144)%Z +:+ b (0x80 + (r / 4096) mod 64)%Z +:+ b (0x80 + (r / 64) mod 64)%Z
       +:+ b (0x80 + r mod 64)%Z.

Definition RuneError : Z := 0xFFFD.

Definition hex_val (a : ascii) : option Z :=
  let n := Z.of_nat (code a) in
  if ((48 <=? n) && (n <=? 57))%Z then Some (n - 48)%Z
  else if ((97 <=? n) && (n <=? 102))%Z then Some (n - 87)%Z
  else if ((65 <=? n) && (n <=? 70))%Z then Some (n - 55)%Z
  else None.

(** [getu4]: four hexadecimal digits, and what follows them. *)
Definition getu4 (s : string) : option (Z * string) :=
  match s with
  | String a (String b (String c (String d r))) =>
      a ← hex_val a; b ← hex_val b; c ← hex_val c; d ← hex_val d;
      Some (a * 4096 + b * 256 + c * 16 + d, r)%Z
  | _ => None
  end.

Definition is_surrogate (r : Z) : bool := ((0xD800 <=? r) && (r <? 0xE000))%Z.

(** [utf16.DecodeRune] *)
Definition decode_pair (r1 r2 : Z) : option Z :=
  if ((0xD800 <=? r1) && (r1 <? 0xDC00) && (0xDC00 <=? r2) && (r2 <? 0xE000))%Z
  then Some ((r1 - 0xD800) * 1024 + (r2 - 0xDC00) + 0x10000)%Z else None.

Definition simple_escape (a : ascii) : option ascii :=
  let n := code a in
  if (n =? 34)%nat || (n =? 92)%nat || (n =? 47)%nat then Some a
  else if (n =? 98)%nat then Some (chr 8)
  else if (n =? 102)%nat then Some (chr 12)
  else if (n =? 110)%nat then Some (chr 10)
  else if (n =? 114)%nat then Some (chr 13)
  else if (n =? 116)%nat then Some (chr 9)
  else None.

(** [unquote] of what is between the quotes.  Every round drops a byte, so the
    length is enough. *)
Fixpoint unquote (fuel : nat) (s : string) : string :=
  match fuel, s with
  | S fuel, String a s' =>
      if (code a =? 92)%nat then
        match s' with
        | String e r =>
            if (code e =? 117)%nat then
              match getu4 r with
              | Some (r1, rest) =>
                  if is_surrogate r1 then
                    match rest with
                    | String b (String u rest') =>
                        match (if (code b =? 92)%nat && (code u =? 117)%nat then getu4 rest' else None) with
                        | Some (r2, rest'') =>
                            match decode_pair r1 r2 with
                            | Some rune => utf8 rune +:+ unquote fuel rest''
                            | None => utf8 RuneError +:+ unquote fuel rest
                            end
                        | None => utf8 RuneError +:+ unquote fuel rest
                        end
                    | _ => utf8 RuneError +:+ unquote fuel rest
                    end
                  else utf8 r1 +:+ unquote fuel rest
              | None => ""
              end
            else match simple_escape e with
                 | Some c => String c (unquote fuel r)
                 | None => ""
                 end
        | "" => ""
        end
      else if (code a <? 128)%nat then String a (unquote fuel s')
      else
        let w := rune_width s in
        if (w =? 1)%nat then utf8 RuneError +:+ unquote fuel s'
        else str_take w s +:+ unquote fuel (str_drop w s)
  | _, _ => ""
  end.

Definition Unquote (s : string) : string := unquote (String.length s) s.

(** ** The scanner *)

Inductive frame :=
| FObj (members : list (string * json)) (key : option string)
| FArr (elems : list json).

(** [number]: the states of a number; [accepting] ones may end it. *)
Inductive numstate := NNeg | NZero | NInt | NDot | NFrac | NE | NESign | NExp.

Inductive mode :=
| BeginValue
| BeginValueOrEmpty
| BeginStringOrEmpty
| BeginString
| EndKey
| EndValue
| InString (raw : string)
| InEsc (raw : string)
| InEscU (left : nat) (raw : string)
| InNumber (st : numstate) (raw : string)
| InLiteral (rest : string) (v : json)
| EndTop (v : json)
| Bad.

Record scanner := mkScanner { s_mode : mode; s_stack : list frame }.

Definition bad : scanner := mkScanner Bad [].

(** A value is complete. *)
Definition put_value (v : json) (stack : list frame) : scanner :=
  match stack with
  | [] => mkScanner (EndTop v) []
  | FArr l :: st => mkScanner EndValue (FArr (l ++ [v]) :: st)
  | FObj l (Some k) :: st => mkScanner EndValue (FObj (l ++ [(k, v)]) None :: st)
  | FObj _ None :: _ => bad
  end.

(** A string is complete: a key or a value. *)
Definition put_string (raw : string) (stack : list frame) : scanner :=
  let s := Unquote raw in
  match stack with
  | FObj l None :: st => mkScanner EndKey (FObj l (Some s) :: st)
  | _ => put_value (JString s) stack
  end.

Definition is_ws (a : ascii) : bool :=
  let n := code a in ((n =? 32) || (n =? 9) || (n =? 10) || (n =? 13))%nat.

Definition close_object (stack : list frame) : scanner :=
  match stack with
  | FObj l None :: st => put_value (JObject l) st
  | _ => bad
  end.

Definition close_array (stack : list frame) : scanner :=
  match stack with
  | FArr l :: st => put_value (JArray l) st
  | _ => bad
  end.

Definition begin_value (a : ascii) (stack : list frame) : scanner :=
  let n := code a in
  if is_ws a then mkScanner BeginValue stack
  else if (n =? 123)%nat then mkScanner BeginStringOrEmpty (FObj [] None :: stack)
  else if (n =? 91)%nat then mkScanner BeginValueOrEmpty (FArr [] :: stack)
  else if (n =? 34)%nat then mkScanner (InString "") stack
  else if (n =? 45)%nat then mkScanner (InNumber NNeg "-") stack
  else if (n =? 48)%nat then mkScanner (InNumber NZero "0") stack
  else if is_digit a then mkScanner (InNumber NInt (String a "")) stack
  else if (n =? 116)%nat then mkScanner (InLiteral "rue" (JBool true)) stack
  else if (n =? 102)%nat then mkScanner (InLiteral "alse" (JBool false)) stack
  else if (n =? 110)%nat then mkScanner (InLiteral "ull" JNull) stack
  else bad.

Definition begin_string (a : ascii) (stack : list frame) : scanner :=
  if is_ws a then mkScanner BeginString stack
  else if (code a =? 34)%nat then mkScanner (InString "") stack
  else bad.

Definition end_value (a : ascii) (stack : list frame) : scanner :=
  let n := code a in
  if is_ws a then mkScanner EndValue stack
  else
    match stack with
    | FObj _ _ :: _ =>
        if (n =? 44)%nat then mkScanner BeginString stack
        else if (n =? 125)%nat then close_object stack else bad
    | FArr _ :: _ =>
        if (n =? 44)%nat then mkScanner BeginValue stack
        else if (n =? 93)%nat then close_array stack else bad
    | [] => bad
    end.

Definition num_next (st : numstate) (a : ascii) : option numstate :=
  let n := code a in
  let isE := ((n =? 101) || (n =? 69))%nat in
  match st with
  | NNeg => if (n =? 48)%nat then Some NZero else if is_digit a then Some NInt else None
  | NZero => if (n =? 46)%nat then Some NDot else if isE then Some NE else None
  | NInt => if is_digit a then Some NInt else if (n =? 46)%nat then Some NDot
            else if isE then Some NE else None
  | NDot => if is_digit a then Some NFrac else None
  | NFrac => if is_digit a then Some NFrac else if isE then Some NE else None
  | NE => if ((n =? 43) || (n =? 45))%nat then Some NESign else if is_digit a then Some NExp else None
  | NESign => if is_digit a then Some NExp else None
  | NExp => if is_digit a then Some NExp else None
  end.

Definition num_accepts (st : numstate) : bool :=
  match st with NZero | NInt | NFrac | NExp => true | _ => false end.

(** The byte after a complete value. *)
Definition after_value (a : ascii) (s : scanner) : scanner :=
  match s_mode s with
  | EndTop v => if is_ws a then s else bad
  | EndValue => end_value a (s_stack s)
  | _ => bad
  end.

Definition scan_step (s : scanner) (a : ascii) : scanner :=
  let stack := s_stack s in
  let n := code a in
  match s_mode s with
  | BeginValue => begin_value a stack
  | BeginValueOrEmpty =>
      if is_ws a then s
      else if (n =? 93)%nat then close_array stack else begin_value a stack
  | BeginStringOrEmpty =>
      if is_ws a then s
      else if (n =? 125)%nat then close_object stack else begin_string a stack
  | BeginString => begin_string a stack
  | EndKey =>
      if is_ws a then s else if (n =? 58)%nat then mkScanner BeginValue stack else bad
  | EndValue => end_value a stack
  | InString raw =>
      if (n =? 34)%nat then put_string raw stack
      else if (n =? 92)%nat then mkScanner (InEsc (raw +:+ String a "")) stack
      else if (n <? 32)%nat then bad
      else mkScanner (InString (raw +:+ String a "")) stack
  | InEsc raw =>
      if (n =? 117)%nat then mkScanner (InEscU 4 (raw +:+ String a "")) stack
      else match simple_escape a with
           | Some _ => mkScanner (InString (raw +:+ String a "")) stack
           | None => bad
           end
  | InEscU k raw =>
      match hex_val a, k with
      | Some _, S (S k) => mkScanner (InEscU (S k) (raw +:+ String a "")) stack
      | Some _, _ => mkScanner (InString (raw +:+ String a "")) stack
      | None, _ => bad
      end
  | InNumber st raw =>
      match num_next st a with
      | Some st' => mkScanner (InNumber st' (raw +:+ String a "")) stack
      | None => if num_accepts st then after_value a (put_value (JNumber raw) stack) else bad
      end
  | InLiteral (String c rest) v =>
      if Ascii.eqb a c then
        match rest with "" => put_value v stack | _ => mkScanner (InLiteral rest v) stack end
      else bad
  | InLiteral "" _ => bad
  | EndTop _ => after_value a s
  | Bad => bad
  end.

Fixpoint scan (s : string) (st : scanner) : scanner :=
  match s with
  | "" => st
  | String a s => scan s (scan_step st a)
  end.

(** The value of a valid text. *)
Definition Parse (text : string) : option json :=
  match s_mode (scan text (mkScanner BeginValue [])), s_stack (scan text (mkScanner BeginValue [])) with
  | EndTop v, _ => Some v
  | InNumber st raw, [] => if num_accepts st then Some (JNumber raw) else None
  | _, _ => None
  end.

(** ** The two targets *)

(** [map[string]string]: null leaves the empty string; another kind of value is
    an error in the end.  [None] is an error. *)
Definition string_of (v : json) : option string :=
  match v with JString s => Some s | JNull => Some "" | _ => None end.

Fixpoint unmarshal_members (l : list (string * json)) (m : gmap string string) : option (gmap string string) :=
  match l with
  | [] => Some m
  | (k, v) :: l => s ← string_of v; unmarshal_members l (<[k := s]> m)
  end.

Definition Unmarshal_strings (text : string) : option (gmap string string) :=
  match Parse text with
  | Some JNull => Some ∅
  | Some (JObject l) => unmarshal_members l ∅
  | _ => None
  end.

(** [map[string]interface{}]: what the map holds afterwards, errors or not. *)
Definition Unmarshal_any (text : string) : gmap string json :=
  match Parse text with
  | Some (JObject l) => fold_left (λ m '(k, v), <[k := v]> m) l ∅
  | _ => ∅
  end.

(** ** Reading back an object of strings *)

(** Text that needs no escape. *)
Definition plain_char (a : ascii) : bool :=
  let n := code a in (32 <=? n)%nat && (n <? 128)%nat && negb (n =? 34)%nat && negb (n =? 92)%nat.

Fixpoint plain_text (s : string) : bool :=
  match s with "" => true | String a s => plain_char a && plain_text s end.

Definition quoted (s : string) : string := str1 34 +:+ s +:+ str1 34.

Definition member_text (kv : string * string) : string := quoted kv.1 +:+ ":" +:+ quoted kv.2.

(** The text of an object whose values are strings. *)
Definition object_text (l : list (string * string)) : string :=
  "{" +:+ Join (member_text <$> l) "," +:+ "}".

Lemma unquote_plain s fuel : (String.length s ≤ fuel)%nat → plain_text s = true → unquote fuel s = s.
Proof.
  revert fuel. induction s as [|a s IH]; intros [|fuel] Hl Hp; cbn [unquote plain_text String.length] in *; try done; [lia|].
  apply andb_true_iff in Hp as [Ha Hp]. unfold plain_char in Ha. rewrite !andb_true_iff, !negb_true_iff in Ha.
  destruct Ha as [[[H1 H2] H3] H4]. rewrite H4, H2. f_equal. apply IH; [lia|done].
Qed.

Lemma Unquote_plain s : plain_text s = true → Unquote s = s.
Proof. by apply unquote_plain. Qed.

Lemma scan_plain s r raw st :
  plain_text s = true →
  scan (s +:+ r) (mkScanner (InString raw) st) = scan r (mkScanner (InString (raw +:+ s)) st).
Proof.
  revert raw. induction s as [|a s IH]; intros raw Hp; [by rewrite str_app_nil_r|].
  cbn [plain_text] in Hp. apply andb_true_iff in Hp as [Ha Hp].
  unfold plain_char in Ha. rewrite !andb_true_iff, !negb_true_iff in Ha. destruct Ha as [[[H1 H2] H3] H4].
  cbn [String.append scan scan_step s_mode s_stack]. rewrite H3, H4.
  apply Nat.leb_le in H1. rewrite (proj2 (Nat.ltb_ge _ _)) by lia.
  rewrite IH by done. by rewrite str_app_assoc.
Qed.

(** A quoted text where a key or a value is expected. *)
Lemma scan_quoted s r mode st :
  plain_text s = true → mode = BeginString ∨ mode = BeginStringOrEmpty ∨ mode = BeginValue →
  scan (quoted s +:+ r) (mkScanner mode st) = scan r (put_string s st).
Proof.
  intros Hp Hm. unfold quoted. rewrite str_app_assoc.
  transitivity (scan ((s +:+ str1 34) +:+ r) (mkScanner (InString "") st)); [by destruct Hm as [->|[->| ->]]|].
  rewrite str_app_assoc, scan_plain by done. done.
Qed.

Definition strings_of (l : list (string * string)) : list (string * json) :=
  (λ kv, (kv.1, JString kv.2)) <$> l.

Definition plain_member (kv : string * string) : Prop := plain_text kv.1 = true ∧ plain_text kv.2 = true.

Lemma scan_member kv acc r mode :
  plain_member kv → mode = BeginString ∨ mode = BeginStringOrEmpty →
  scan (member_text kv +:+ r) (mkScanner mode [FObj acc None]) =
    scan r (mkScanner EndValue [FObj (acc ++ [(kv.1, JString kv.2)])%list None]).
Proof.
  intros [Hk Hv] Hm. unfold member_text. rewrite str_app_assoc, scan_quoted by naive_solver.
  unfold put_string. rewrite (Unquote_plain _ Hk).
  change (scan ((":" +:+ quoted kv.2) +:+ r) (mkScanner EndKey [FObj acc (Some kv.1)]))
    with (scan (quoted kv.2 +:+ r) (mkScanner BeginValue [FObj acc (Some kv.1)])).
  rewrite scan_quoted by auto. unfold put_string. by rewrite (Unquote_plain _ Hv).
Qed.

Lemma scan_members l acc :
  Forall plain_member l →
  scan (foldr (λ kv r, "," +:+ member_text kv +:+ r) "}" l) (mkScanner EndValue [FObj acc None]) =
    mkScanner (EndTop (JObject (acc ++ strings_of l)%list)) [].
Proof.
  revert acc. induction l as [|kv l IH]; intros acc Hl; cbn [foldr].
  { cbn. by rewrite app_nil_r. }
  apply Forall_cons in Hl as [Hkv Hl].
  change (scan ("," +:+ ?x) (mkScanner EndValue [FObj acc None])) with (scan x (mkScanner BeginString [FObj acc None])).
  rewrite scan_member by auto. rewrite IH by done. cbn. by rewrite <-app_assoc.
Qed.

Lemma Join_members kv l :
  Join (member_text <$> kv :: l) "," +:+ "}" =
    member_text kv +:+ foldr (λ kv r, "," +:+ member_text kv +:+ r) "}" l.
Proof.
  revert kv. induction l as [|kv' l IH]; intros kv; [done|]. cbn [foldr]. rewrite <-(IH kv').
  change (Join (member_text <$> kv :: kv' :: l) ",")
    with (member_text kv +:+ "," +:+ Join (member_text <$> kv' :: l) ",").
  by rewrite !str_app_assoc.
Qed.

Lemma Parse_object l : Forall plain_member l → Parse (object_text l) = Some (JObject (strings_of l)).
Proof.
  intros Hl. unfold Parse, object_text.
  change (scan ("{" +:+ ?x) (mkScanner BeginValue [])) with (scan x (mkScanner BeginStringOrEmpty [FObj [] None])).
  destruct l as [|kv l]; [done|]. apply Forall_cons in Hl as [Hkv Hl].
  rewrite Join_members, scan_member by auto. by rewrite scan_members.
Qed.

(** The last of several members with the same name counts. *)
Definition map_of (l : list (string * string)) : gmap string string :=
  fold_left (λ m kv, <[kv.1 := kv.2]> m) l ∅.

Lemma Unmarshal_object l : Forall plain_member l → Unmarshal_strings (object_text l) = Some (map_of l).
Proof.
  intros Hl. unfold Unmarshal_strings. rewrite Parse_object by done. unfold map_of.
  generalize (∅ : gmap string string). clear Hl. induction l as [|[k v] l IH]; intros m; [done|]. cbn. apply IH.
Qed.

Example Parse_ex :
  Parse ("[ 1.5e-3, " +:+ quoted ("a" +:+ str1 92 +:+ "u00e9b") +:+ ", {" +:+ quoted "k" +:+ ": null}, true ]") =
    Some (JArray [JNumber "1.5e-3"; JString ("a" +:+ str1 195 +:+ str1 169 +:+ "b");
                  JObject [("k", JNull)]; JBool true]).
Proof. vm_compute. done. Qed.

Example Parse_bad :
  Parse <$> [""; "{"; "{}x"; "01"; "[1,]"; "{" +:+ quoted "a" +:+ "}"; "nul"; "-"; str1 34] = replicate 9 None.
Proof. vm_compute. done. Qed.
