(* ===== verification/Hostname.v ===== *)
(** * The hostname ([src/pkg/vorteil/network.go], [setHostname],
    [validateHostname], [trimString])

    The loops work on match positions as the source does; the reference
    definition [sanitize] says what they compute. *)

From S2P Require Import Prelude GoStrings.
From Stdlib Require Import Ascii.
Local Open Scope string_scope.

Definition hostnameSalt : string := "$SALT".

(** The character class of the regular expression, [a-z0-9-]. *)
Definition legal (a : ascii) : bool :=
  let n := nat_of_ascii a in
  ((97 <=? n) && (n <=? 122) || (48 <=? n) && (n <=? 57) || (n =? 45))%nat.

(** [elemRegex.FindAllIndex]: begin and end of every match; [n] is the offset
    of [s] in the element. *)
Fixpoint FindAllIndex (n : nat) (s : string) : list (nat * nat) :=
  match s with
  | "" => []
  | String a s' =>
      if legal a then (n, S n) :: FindAllIndex (S n) s' else FindAllIndex (S n) s'
  end.

(** The inner loop; [prev] is [indexes[i-1][1]], absent for [i = 0]. *)
Fixpoint elem_loop (e : string) (prev : option nat) (indexes : list (nat * nat))
    (validatedElem : string) : string :=
  match indexes with
  | [] => validatedElem
  | (b, en) :: indexes' =>
      let newElem := String.substring b (en - b) e in
      let validatedElem :=
        match prev with
        | Some endPrevMatch =>
            if (endPrevMatch <? b)%nat
            then validatedElem +:+ Repeat "-" (b - endPrevMatch) else validatedElem
        | None => validatedElem
        end in
      elem_loop e (Some en) indexes' (validatedElem +:+ newElem)
  end.

(** One round of the outer loop. *)
Definition validate_elem (k : nat) (e h : string) : outcome string :=
  if (String.length e =? 0)%nat then Ret h
  else
    let indexes := FindAllIndex 0 e in
    let validatedElem := if (k =? 0)%nat then "" else "." in
    let validatedElem := elem_loop e None indexes validatedElem in
    match last indexes with
    | None => Panic IndexOutOfRange
    | Some (_, en) =>
        Ret (h +:+ (validatedElem +:+ Repeat "-" (String.length e - en)))
    end.

Fixpoint validate_elems (k : nat) (elements : list string) (h : string) : outcome string :=
  match elements with
  | [] => Ret h
  | e :: elements => h' ← validate_elem k e h; validate_elems (S k) elements h'
  end.

Definition trimString (s : string) (n : nat) : string :=
  if (String.length s <=? n)%nat then s else str_take n s.

Definition validateHostname (hostname : string) : outcome string :=
  if (String.length hostname =? 0)%nat then Fail (Errorf "hostname can not be empty")
  else
    h ← validate_elems 0 (Split (TrimPrefix hostname "-") ".") "";
    mret (trimString h 64).

(** The salt: eight characters picked with [mrand.Int()]. *)
Definition runes : string := "abcdefghijklmnopqrstuvwxyz-0123456789".

Fixpoint salt_of (rnd : nat → nat) (n i : nat) : string :=
  match n with
  | O => ""
  | S n =>
      match String.get (rnd i mod String.length runes) runes with
      | Some c => String c (salt_of rnd n (S i))
      | None => ""
      end
  end.

Definition lower_ascii (a : ascii) : ascii :=
  let n := nat_of_ascii a in
  if ((65 <=? n) && (n <=? 90))%nat then ascii_of_nat (n + 32) else a.

Fixpoint map_string (f : ascii → ascii) (s : string) : string :=
  match s with
  | "" => ""
  | String a s => String (f a) (map_string f s)
  end.

Fixpoint is_ascii (s : string) : bool :=
  match s with
  | "" => true
  | String a s => (nat_of_ascii a <? 128)%nat && is_ascii s
  end.

(** [strings.ToLower]: its ASCII path; what Unicode case folding does with
    other text is the argument [unicode_lower]. *)
Definition ToLower (unicode_lower : string → string) (s : string) : string :=
  if is_ascii s then map_string lower_ascii s else unicode_lower s.

(** The name after the substitution of the salt. *)
Definition salted (rnd : nat → nat) (str : string) : string :=
  if Contains str hostnameSalt then ReplaceAll str hostnameSalt (salt_of rnd 8 0)
  else str.

Definition setHostname (unicode_lower : string → string) (rnd : nat → nat)
    (str : string) : outcome string :=
  validateHostname (ToLower unicode_lower (salted rnd str)).

(** ** The reference definition *)

Definition dash : ascii := "-".

Fixpoint skip_illegal (s : string) : string :=
  match s with
  | "" => ""
  | String a s' => if legal a then s else skip_illegal s'
  end.

Definition clean : string → string := map_string (λ a, if legal a then a else dash).

(** Leading illegal characters vanish, the others become dashes. *)
Definition sanitize (e : string) : string := clean (skip_illegal e).

Fixpoint all_chars (P : ascii → bool) (s : string) : bool :=
  match s with
  | "" => true
  | String a s => P a && all_chars P s
  end.

Definition no_legal (e : string) : bool := all_chars (λ a, negb (legal a)) e.

(** The text an element contributes. *)
Definition elem_text (k : nat) (e : string) : string :=
  if (String.length e =? 0)%nat then ""
  else (if (k =? 0)%nat then "" else ".") +:+ sanitize e.

Fixpoint elems_text (k : nat) (es : list string) : string :=
  match es with
  | [] => ""
  | e :: es => elem_text k e +:+ elems_text (S k) es
  end.

(** An element the code cannot index: not empty, without a legal character. *)
Definition bad_elem (e : string) : bool := negb (String.length e =? 0)%nat && no_legal e.

Definition legal_or_dot (a : ascii) : bool := legal a || Ascii.eqb a ".".

(** ** Lemmas *)

Lemma Repeat_dash n : Repeat "-" (S n) = String dash (Repeat "-" n).
Proof. done. Qed.

Lemma Repeat_snoc n s : Repeat "-" n +:+ String dash s = Repeat "-" (S n) +:+ s.
Proof.
  rewrite Repeat_dash. induction n as [|n IH]; [done|]. rewrite Repeat_dash.
  cbn. by rewrite IH.
Qed.

Lemma Repeat_clean n : Repeat "-" n = clean (Repeat "-" n).
Proof. induction n as [|n IH]; [done|]. rewrite Repeat_dash. cbn. by rewrite <-IH. Qed.

(** The end of the last match. *)
Definition last_end (d : nat) (ix : list (nat * nat)) : nat :=
  match last ix with Some (_, en) => en | None => d end.

Lemma last_end_cons d b en ix : last_end d ((b, en) :: ix) = last_end en ix.
Proof.
  unfold last_end. rewrite last_cons. by destruct (last ix) as [[]|].
Qed.

Lemma substring_one pre a s :
  String.substring (String.length pre) 1 (pre +:+ String a s) = String a "".
Proof. induction pre as [|b pre IH]; [by destruct s|exact IH]. Qed.

(** After a first match, the loop and the final padding write the gap since
    the last match and then the cleaned rest. *)
Lemma elem_loop_rest s e pre p acc :
  e = pre +:+ s → (p ≤ String.length pre)%nat →
  elem_loop e (Some p) (FindAllIndex (String.length pre) s) acc
    +:+ Repeat "-" (String.length e - last_end p (FindAllIndex (String.length pre) s))
  = acc +:+ Repeat "-" (String.length pre - p) +:+ clean s.
Proof.
  revert pre p acc. induction s as [|a s IH]; intros pre p acc He Hp.
  - cbn. rewrite He, str_app_nil_r. by rewrite !str_app_nil_r.
  - assert (He' : e = (pre +:+ String a "") +:+ s) by (rewrite He, str_app_assoc; done).
    assert (Hl : String.length (pre +:+ String a "") = S (String.length pre))
      by (rewrite str_length_app; cbn; lia).
    cbn [FindAllIndex clean map_string]. destruct (legal a).
    + rewrite last_end_cons. cbn [elem_loop].
      rewrite <-Hl, IH by (done || lia). rewrite Hl.
      replace (S (String.length pre) - String.length pre)%nat with 1%nat by lia.
      rewrite He, substring_one, Nat.sub_diag. cbn [Repeat].
      destruct (Nat.ltb_spec p (String.length pre)) as [Hlt|Hge].
      * rewrite !str_app_assoc. done.
      * replace (String.length pre - p)%nat with 0%nat by lia. by rewrite !str_app_assoc.
    + rewrite <-Hl, IH by (done || lia). rewrite Hl, Nat.sub_succ_l by done.
      by rewrite <-Repeat_snoc.
Qed.

Lemma elem_loop_first s e pre acc :
  e = pre +:+ s → no_legal s = false →
  elem_loop e None (FindAllIndex (String.length pre) s) acc
    +:+ Repeat "-" (String.length e - last_end 0 (FindAllIndex (String.length pre) s))
  = acc +:+ sanitize s
  ∧ last (FindAllIndex (String.length pre) s) ≠ None.
Proof.
  revert pre acc. induction s as [|a s IH]; intros pre acc He Hl; [done|].
  assert (He' : e = (pre +:+ String a "") +:+ s) by (rewrite He, str_app_assoc; done).
  assert (Hlen : String.length (pre +:+ String a "") = S (String.length pre))
    by (rewrite str_length_app; cbn; lia).
  unfold no_legal in Hl. cbn [all_chars] in Hl. unfold sanitize.
  cbn [FindAllIndex skip_illegal]. destruct (legal a) eqn:Ha.
  - split; [|rewrite last_cons; by destruct (last _)].
    rewrite last_end_cons. cbn [elem_loop]. rewrite <-Hlen, elem_loop_rest by (done || lia).
    rewrite Hlen, Nat.sub_diag, He.
    replace (S (String.length pre) - String.length pre)%nat with 1%nat by lia.
    rewrite substring_one, str_app_assoc. cbn. by rewrite Ha.
  - cbn in Hl. rewrite <-Hlen. by apply IH.
Qed.

Lemma FindAllIndex_no_legal n s : no_legal s = true → FindAllIndex n s = [].
Proof.
  revert n. induction s as [|a s IH]; intros n; [done|]. unfold no_legal. cbn.
  intros [H1 H2]%andb_true_iff. apply negb_true_iff in H1. rewrite H1. by apply IH.
Qed.

Lemma validate_elem_spec k e h :
  validate_elem k e h =
    if bad_elem e then Panic IndexOutOfRange else Ret (h +:+ elem_text k e).
Proof.
  unfold validate_elem, bad_elem, elem_text.
  destruct (String.length e =? 0)%nat; cbn [negb andb]; [by rewrite str_app_nil_r|].
  destruct (no_legal e) eqn:Hn; [by rewrite FindAllIndex_no_legal|].
  destruct (elem_loop_first e e "" (if (k =? 0)%nat then "" else ".") eq_refl Hn) as [H1 H2].
  cbn [String.length] in H1, H2. unfold last_end in H1.
  destruct (last (FindAllIndex 0 e)) as [[b en]|]; [|done]. by rewrite H1.
Qed.

Lemma validate_elems_spec k es h :
  validate_elems k es h =
    if existsb bad_elem es then Panic IndexOutOfRange else Ret (h +:+ elems_text k es).
Proof.
  revert k h. induction es as [|e es IH]; intros k h; cbn [validate_elems existsb elems_text].
  - by rewrite str_app_nil_r.
  - rewrite validate_elem_spec. destruct (bad_elem e); cbn; [done|].
    rewrite IH. by rewrite str_app_assoc.
Qed.

Lemma all_chars_app P s t : all_chars P (s +:+ t) = all_chars P s && all_chars P t.
Proof. induction s as [|a s IH]; [done|]. cbn. by rewrite IH, andb_assoc. Qed.

Lemma clean_legal s : all_chars legal (clean s) = true.
Proof.
  induction s as [|a s IH]; [done|]. cbn. rewrite IH, andb_true_r.
  by destruct (legal a) eqn:?.
Qed.

Lemma all_chars_impl (P Q : ascii → bool) s :
  (∀ a, P a = true → Q a = true) → all_chars P s = true → all_chars Q s = true.
Proof.
  intros H. induction s as [|a s IH]; [done|]. cbn. intros [Ha Hs]%andb_true_iff.
  by rewrite H, IH.
Qed.

Lemma elems_text_legal k es : all_chars legal_or_dot (elems_text k es) = true.
Proof.
  revert k. induction es as [|e es IH]; intros k; [done|].
  cbn [elems_text]. rewrite all_chars_app, IH, andb_true_r. unfold elem_text.
  destruct (String.length e =? 0)%nat; [done|]. rewrite all_chars_app.
  apply andb_true_iff. split; [by destruct k|].
  apply all_chars_impl with (P := legal); [|apply clean_legal].
  unfold legal_or_dot. by intros a ->.
Qed.

Lemma str_take_chars P n s : all_chars P s = true → all_chars P (str_take n s) = true.
Proof.
  unfold str_take. revert n. induction s as [|a s IH]; intros [|n]; try done. cbn.
  intros [Ha Hs]%andb_true_iff. by rewrite Ha, IH.
Qed.

Lemma str_take_length n s : (String.length (str_take n s) ≤ n)%nat.
Proof.
  unfold str_take. revert n. induction s as [|a s IH]; intros [|n]; cbn; try lia.
  specialize (IH n). lia.
Qed.

Lemma trimString_length s n : (String.length (trimString s n) ≤ n)%nat.
Proof.
  unfold trimString. destruct (Nat.leb_spec (String.length s) n); [done|apply str_take_length].
Qed.

Lemma trimString_chars P s n : all_chars P s = true → all_chars P (trimString s n) = true.
Proof. unfold trimString. destruct (_ <=? _)%nat; [done|apply str_take_chars]. Qed.

Lemma clean_id s : all_chars legal s = true → clean s = s.
Proof.
  induction s as [|a s IH]; [done|]. cbn. intros [Ha Hs]%andb_true_iff.
  rewrite Ha. f_equal. by apply IH.
Qed.

Lemma sanitize_id s : all_chars legal s = true → sanitize s = s.
Proof.
  intros H. unfold sanitize. destruct s as [|a s]; [done|]. cbn in H |- *.
  apply andb_true_iff in H as [Ha Hs]. rewrite Ha. cbn. rewrite Ha. f_equal. by apply clean_id.
Qed.

Lemma length_0_str s : (String.length s =? 0)%nat = true → s = "".
Proof. by destruct s. Qed.

(** Elements that are labels already: their text is the list joined again. *)
Definition label (e : string) : Prop := e ≠ "" ∧ all_chars legal e = true.

Lemma label_text k e :
  label e → bad_elem e = false ∧ elem_text k e = (if (k =? 0)%nat then "" else ".") +:+ e.
Proof.
  intros [He Hl]. unfold bad_elem, elem_text. destruct e as [|a e]; [done|].
  cbn [String.length Nat.eqb negb andb]. rewrite (sanitize_id _ Hl). split; [|done].
  unfold no_legal. cbn in Hl |- *. by apply andb_true_iff in Hl as [-> _].
Qed.

Lemma labels_text k es :
  Forall label es →
  existsb bad_elem es = false ∧
  elems_text k es = match es with [] => "" | _ => (if (k =? 0)%nat then "" else ".") +:+ Join es "." end.
Proof.
  intros H. revert k. induction H as [|e es He Hes IH]; intros k; [done|].
  destruct (label_text k e He) as [Hb Ht]. destruct (IH (S k)) as [IHb IHt].
  cbn [existsb elems_text]. rewrite Hb, Ht, IHt. split; [done|].
  destruct es as [|e' es]; [by rewrite str_app_nil_r|].
  change (Join (e :: e' :: es) ".") with (e +:+ "." +:+ Join (e' :: es) ".").
  by rewrite str_app_assoc.
Qed.

(** ** Theorems *)

(** C22: [validateHostname] computes the reference function on every input: an
    empty name is an error; an element between dots that is not empty and has
    no legal character makes it panic; every other name gives the elements
    with leading illegal characters dropped and the other illegal ones
    replaced by dashes, joined by dots and cut to 64 bytes. *)
Theorem validateHostname_spec h :
  validateHostname h =
    if (String.length h =? 0)%nat then Fail (Errorf "hostname can not be empty")
    else
      let es := Split (TrimPrefix h "-") "." in
      if existsb bad_elem es then Panic IndexOutOfRange
      else Ret (trimString (elems_text 0 es) 64).
Proof.
  unfold validateHostname. destruct (String.length h =? 0)%nat; [done|].
  rewrite validate_elems_spec. cbn zeta. by destruct (existsb bad_elem _).
Qed.

Lemma salt_of_spec rnd n i : String.length (salt_of rnd n i) = n ∧ all_chars legal (salt_of rnd n i) = true.
Proof.
  revert i. induction n as [|n IH]; intros i; [done|]. cbn [salt_of].
  assert (∀ k, (k < String.length runes)%nat → ∃ c, String.get k runes = Some c ∧ legal c = true) as Hr.
  { assert (forallb (λ k, match String.get k runes with Some c => legal c | None => false end)
      (seq 0 (String.length runes)) = true) as Hall by (vm_compute; done).
    intros k Hk. rewrite forallb_forall in Hall. specialize (Hall k).
    destruct (String.get k runes) as [c|]; [|exfalso; discriminate Hall; apply in_seq; lia].
    exists c. split; [done|]. apply Hall, in_seq. lia. }
  destruct (Hr (rnd i mod String.length runes)%nat) as (c & -> & Hc); [by apply Nat.mod_upper_bound|].
  destruct (IH (S i)) as [H1 H2]. cbn. by rewrite H1, H2, Hc.
Qed.

(** C23: Whatever salt the random source gives (always eight legal characters) and
    whatever Unicode case folding does, [setHostname] errs exactly on a name that
    is empty, panics exactly on a name that is not empty and has an element that is
    not empty and without a legal character, and otherwise returns a name of at
    most 64 bytes, all of them lower-case letters, digits, dashes or dots. *)
Theorem setHostname_safe unicode_lower rnd s :
  let name := ToLower unicode_lower (salted rnd s) in
  let elements := Split (TrimPrefix name "-") "." in
  (String.length (salt_of rnd 8 0) = 8%nat ∧ all_chars legal (salt_of rnd 8 0) = true) ∧
  (setHostname unicode_lower rnd s = Fail (Errorf "hostname can not be empty") ↔ name = "") ∧
  (setHostname unicode_lower rnd s = Panic IndexOutOfRange ↔
     name ≠ "" ∧ Exists (λ e, bad_elem e = true) elements) ∧
  (name ≠ "" → Forall (λ e, bad_elem e = false) elements →
     ∃ h, setHostname unicode_lower rnd s = Ret h ∧ (String.length h ≤ 64)%nat ∧ all_chars legal_or_dot h = true).
Proof.
  cbn zeta. split; [apply salt_of_spec|]. unfold setHostname. set (name := ToLower _ _).
  unfold validateHostname. destruct (String.length name =? 0)%nat eqn:H0.
  { apply length_0_str in H0. split_and!; [done|split; [done|by intros [? _]]|done]. }
  assert (name ≠ "") as Hne by (by intros Hn; rewrite Hn in H0).
  rewrite validate_elems_spec. set (es := Split _ _). clearbody es.
  assert (existsb bad_elem es = true ↔ Exists (λ e, bad_elem e = true) es) as Hex.
  { rewrite existsb_exists, Stdlib.Lists.List.Exists_exists. done. }
  destruct (existsb bad_elem es); cbn.
  - split_and!; [done|by split; [split; [done|by apply Hex]|]|].
    intros _ Hall. exfalso. destruct (proj1 (Exists_exists _ _) (proj1 Hex eq_refl)) as (e & He & Hb).
    rewrite Forall_forall in Hall. by rewrite (Hall e He) in Hb.
  - split_and!; [done|split; [done|by intros [_ H%Hex]]|]. intros _ _. eexists. split_and!; [done| |].
    + apply trimString_length.
    + apply trimString_chars, elems_text_legal.
Qed.

(** A name that is valid already (non-empty labels of legal characters
    joined by dots, no leading dash, at most 64 bytes) is returned unchanged. *)
Theorem validateHostname_valid h :
  HasPrefix h "-" = false → (String.length h ≤ 64)%nat → Forall label (Split h ".") →
  validateHostname h = Ret h.
Proof.
  intros Hd Hl Hf. unfold validateHostname. destruct (String.length h =? 0)%nat eqn:H0.
  { apply length_0_str in H0 as ->. exfalso. apply Forall_inv in Hf. by destruct Hf. }
  unfold TrimPrefix. rewrite Hd, validate_elems_spec.
  destruct (labels_text 0 _ Hf) as [-> ->].
  replace (match Split h "." with [] => _ | _ => _ end) with h.
  - cbn. unfold trimString. by apply Nat.leb_le in Hl as ->.
  - pose proof (Join_Split h ".") as HJ. destruct (Split h "."); by rewrite <-HJ at 1.
Qed.

Lemma validateHostname_valid_witness : validateHostname "web-01.example.com" = Ret "web-01.example.com".
Proof.
  apply validateHostname_valid; [done|cbn; lia|]. repeat constructor; done.
Defined.

(** The panic is reachable: a name made of one illegal character. *)
Example validateHostname_panics : validateHostname "_" = Panic IndexOutOfRange.
Proof. done. Qed.

(** Leading illegal characters are dropped, not replaced. *)
Example validateHostname_drops : validateHostname "__a_b.c" = Ret "a-b.c".
Proof. done. Qed.

Lemma setHostname_safe_witness :
  ∃ h, setHostname id (λ i, i) "Web_$SALT.lan" = Ret h ∧ (String.length h ≤ 64)%nat ∧ all_chars legal_or_dot h = true.
Proof.
  apply (proj2 (proj2 (proj2 (setHostname_safe id (λ i, i) "Web_$SALT.lan")))); [done|].
  apply (bool_decide_unpack _). vm_compute. exact I.
Defined.
