(* ===== verification/Types.v ===== *)
(** * The shared data of the program ([src/pkg/vorteil/types.go])

    Constants of the source are [iota] enumerations and become inductive types
    with the source's names.  Of [vcfg.VCFG], which belongs to another
    repository, the records keep the fields the sources read. *)

From S2P Require Import Prelude Bytes GoNet.
Local Open Scope string_scope.

Inductive status :=
| statusSetup
| statusRun
| statusLaunched
| statusPoweroff
| statusError.

#[global] Instance status_eq_dec : EqDecision status.
Proof. solve_decision. Defined.

Inductive hypervisor :=
| hvUnknown
| hvKVM
| hvVMWare
| hvHyperV
| hvVBox
| hvXen.

#[global] Instance hypervisor_eq_dec : EqDecision hypervisor.
Proof. solve_decision. Defined.

Inductive cloud :=
| cpUnknown
| cpNone
| cpGCP
| cpEC2
| cpAzure.

#[global] Instance cloud_eq_dec : EqDecision cloud.
Proof. solve_decision. Defined.

Definition hypervisorStrings (h : hypervisor) : string :=
  match h with
  | hvUnknown => "UNKNOWN"
  | hvKVM => "KVM"
  | hvVMWare => "VMWARE"
  | hvHyperV => "HYPERV"
  | hvVBox => "VIRTUALBOX"
  | hvXen => "XEN"
  end.

Definition cloudStrings (c : cloud) : string :=
  match c with
  | cpUnknown => "UNKNOWN"
  | cpNone => "NONE"
  | cpGCP => "GCP"
  | cpAzure => "AZURE"
  | cpEC2 => "EC2"
  end.

Definition bootstrapSleep := "SLEEP".
Definition bootstrapFandR := "FIND_AND_REPLACE".
Definition bootstrapDefine := "DEFINE_IF_NOT_DEFINED".
Definition bootstrapWaitFile := "WAIT_FILE".
Definition bootstrapWaitPort := "WAIT_PORT".
Definition bootstrapGet := "GET".

(** ** [vcfg]: the fields the sources read *)

(** [Privilege] is a string; the switch of [launch] has a default case. *)
Inductive privilege :=
| RootPrivilege
| SuperuserPrivilege
| UserPrivilege
| OtherPrivilege (s : string).

#[global] Instance privilege_eq_dec : EqDecision privilege.
Proof. solve_decision. Defined.

Record Program := mkProgram {
  Args : string;
  Env : list string;
  Cwd : string;
  Stdout : string;
  Stderr : string;
  Bootstrap : list string;
  Strace : bool;
  Privilege : privilege;
  Terminate : string;
  LogFiles : list string
}.

Record NetworkInterface := mkNet {
  cfg_IP : string;
  cfg_Mask : string;
  cfg_Gateway : string;
  MTU : Z;
  TCPDUMP : bool;
  DisableTCPSegmentationOffloading : bool
}.

Record Route := mkRoute { Destination : string; rt_Gateway : string; rt_Interface : string }.

Record NFSSettings := mkNFS { Server : string; MountPoint : string; Arguments : string }.

Record Logging := mkLogging { Config : list string; log_Type : string }.

(** [vcfg.StdoutMode], as far as [setupVtty] tells the modes apart. *)
Inductive stdoutMode :=
| StdoutModeScreenOnly
| StdoutModeSerialOnly
| StdoutModeDisabled
| StdoutModeOther.

Record System := mkSystem {
  DNS : list string;
  NTP : list string;
  User : string;
  MaxFDs : Z;
  StdoutMode : stdoutMode;
  TerminateWait : Z
}.

(** A nil slice of networks is [None]; [SaltedHostname] is what the method of
    that name returns. *)
Record VCFG := mkVCFG {
  Programs : list Program;
  Networks : option (list NetworkInterface);
  cfg_System : System;
  NFS : list NFSSettings;
  cfg_Logging : list Logging;
  Routing : list Route;
  Sysctl : gmap string string;
  SaltedHostname : string
}.

Definition set_Networks (x : option (list NetworkInterface)) (c : VCFG) : VCFG :=
  mkVCFG (Programs c) x (cfg_System c) (NFS c) (cfg_Logging c) (Routing c) (Sysctl c) (SaltedHostname c).
Definition add_NTP (x : list string) (c : VCFG) : VCFG :=
  let s := cfg_System c in
  mkVCFG (Programs c) (Networks c)
    (mkSystem (DNS s) (NTP s ++ x)%list (User s) (MaxFDs s) (StdoutMode s) (TerminateWait s))
    (NFS c) (cfg_Logging c) (Routing c) (Sysctl c) (SaltedHostname c).

(** ** [exec.Cmd], [os.ProcessState] and [program] *)

(** How a waited-for process ended.  [ExitCode] is -1 for a signal. *)
Inductive ProcessState :=
| ExitedWith (code : Z)
| SignaledBy (sig : Z).

#[global] Instance ProcessState_eq_dec : EqDecision ProcessState.
Proof. solve_decision. Defined.

Definition Exited (ps : ProcessState) : bool :=
  match ps with ExitedWith _ => true | SignaledBy _ => false end.

(** The method [ExitCode] also accepts a nil receiver. *)
Definition ExitCode (ps : option ProcessState) : Z :=
  match ps with
  | Some (ExitedWith c) => c
  | _ => -1
  end.

(** What [exec.Cmd] is told and what it learns: [Process] once started, the
    process state once waited for. *)
Record Cmd := mkCmd {
  cmd_Path : string;
  cmd_Args : list string;
  cmd_Env : list string;
  cmd_Dir : string;
  cmd_Uid : Z;
  cmd_Gid : Z;
  cmd_AmbientCaps : list Z;
  cmd_Stdout : string;
  cmd_Stderr : string;
  cmd_Process : option Z;
  cmd_ProcessState : option ProcessState
}.

Record program := mkprogram {
  p_path : string;
  p_vcfgProg : Program;
  p_progIndex : nat;
  p_exitClosed : bool;
  p_env : list string;
  p_args : list string;
  p_cmd : option Cmd;
  p_reaper : bool
}.

Definition set_path (x : string) (p : program) : program :=
  mkprogram x (p_vcfgProg p) (p_progIndex p) (p_exitClosed p) (p_env p) (p_args p) (p_cmd p) (p_reaper p).
Definition set_vcfgProg (x : Program) (p : program) : program :=
  mkprogram (p_path p) x (p_progIndex p) (p_exitClosed p) (p_env p) (p_args p) (p_cmd p) (p_reaper p).
Definition set_exitClosed (x : bool) (p : program) : program :=
  mkprogram (p_path p) (p_vcfgProg p) (p_progIndex p) x (p_env p) (p_args p) (p_cmd p) (p_reaper p).
Definition set_env (x : list string) (p : program) : program :=
  mkprogram (p_path p) (p_vcfgProg p) (p_progIndex p) (p_exitClosed p) x (p_args p) (p_cmd p) (p_reaper p).
Definition set_args (x : list string) (p : program) : program :=
  mkprogram (p_path p) (p_vcfgProg p) (p_progIndex p) (p_exitClosed p) (p_env p) x (p_cmd p) (p_reaper p).
Definition set_cmd (x : option Cmd) (p : program) : program :=
  mkprogram (p_path p) (p_vcfgProg p) (p_progIndex p) (p_exitClosed p) (p_env p) (p_args p) x (p_reaper p).
Definition set_reaper (x : bool) (p : program) : program :=
  mkprogram (p_path p) (p_vcfgProg p) (p_progIndex p) (p_exitClosed p) (p_env p) (p_args p) (p_cmd p) x.

(** ** [Vinitd] *)

(** [net.Interface], as far as the sources look at it. *)
Record Interface := mkInterface { ni_Name : string; HardwareAddr : list byte }.

Record ifc := mkIfc {
  if_name : string;
  if_idx : nat;
  netIfc : Interface;
  if_addr : option IPNet;
  if_gw : IP
}.

Definition set_addr (a : option IPNet) (gw : IP) (i : ifc) : ifc :=
  mkIfc (if_name i) (if_idx i) (netIfc i) a gw.

Record hv := mkHv { hv_hypervisor : hypervisor; hv_cloud : cloud; hv_envs : gmap string string }.

(** The list of programs is a field of the world; an open file is its path. *)
Record Vinitd := mkVinitd {
  diskname : string;
  hostname : string;
  user : string;
  hypervisorInfo : hv;
  vcfg : VCFG;
  ifcs : gmap string ifc;
  dns : list IP;
  tty : option string;
  ttyS : option string;
  ttyRedir : option string;
  readOnly : bool;
  searchDomains : list string
}.

Definition set_diskname (x : string) (v : Vinitd) : Vinitd :=
  mkVinitd x (hostname v) (user v) (hypervisorInfo v) (vcfg v) (ifcs v) (dns v) (tty v) (ttyS v) (ttyRedir v) (readOnly v) (searchDomains v).
Definition set_hostname (x : string) (v : Vinitd) : Vinitd :=
  mkVinitd (diskname v) x (user v) (hypervisorInfo v) (vcfg v) (ifcs v) (dns v) (tty v) (ttyS v) (ttyRedir v) (readOnly v) (searchDomains v).
Definition set_user (x : string) (v : Vinitd) : Vinitd :=
  mkVinitd (diskname v) (hostname v) x (hypervisorInfo v) (vcfg v) (ifcs v) (dns v) (tty v) (ttyS v) (ttyRedir v) (readOnly v) (searchDomains v).
Definition set_hypervisorInfo (x : hv) (v : Vinitd) : Vinitd :=
  mkVinitd (diskname v) (hostname v) (user v) x (vcfg v) (ifcs v) (dns v) (tty v) (ttyS v) (ttyRedir v) (readOnly v) (searchDomains v).
Definition set_vcfg (x : VCFG) (v : Vinitd) : Vinitd :=
  mkVinitd (diskname v) (hostname v) (user v) (hypervisorInfo v) x (ifcs v) (dns v) (tty v) (ttyS v) (ttyRedir v) (readOnly v) (searchDomains v).
Definition set_ifcs (x : gmap string ifc) (v : Vinitd) : Vinitd :=
  mkVinitd (diskname v) (hostname v) (user v) (hypervisorInfo v) (vcfg v) x (dns v) (tty v) (ttyS v) (ttyRedir v) (readOnly v) (searchDomains v).
Definition set_dns (x : list IP) (v : Vinitd) : Vinitd :=
  mkVinitd (diskname v) (hostname v) (user v) (hypervisorInfo v) (vcfg v) (ifcs v) x (tty v) (ttyS v) (ttyRedir v) (readOnly v) (searchDomains v).
Definition set_tty (x : option string) (v : Vinitd) : Vinitd :=
  mkVinitd (diskname v) (hostname v) (user v) (hypervisorInfo v) (vcfg v) (ifcs v) (dns v) x (ttyS v) (ttyRedir v) (readOnly v) (searchDomains v).
Definition set_ttyS (x : option string) (v : Vinitd) : Vinitd :=
  mkVinitd (diskname v) (hostname v) (user v) (hypervisorInfo v) (vcfg v) (ifcs v) (dns v) (tty v) x (ttyRedir v) (readOnly v) (searchDomains v).
Definition set_ttyRedir (x : option string) (v : Vinitd) : Vinitd :=
  mkVinitd (diskname v) (hostname v) (user v) (hypervisorInfo v) (vcfg v) (ifcs v) (dns v) (tty v) (ttyS v) x (readOnly v) (searchDomains v).
Definition set_readOnly (x : bool) (v : Vinitd) : Vinitd :=
  mkVinitd (diskname v) (hostname v) (user v) (hypervisorInfo v) (vcfg v) (ifcs v) (dns v) (tty v) (ttyS v) (ttyRedir v) x (searchDomains v).
Definition set_searchDomains (x : list string) (v : Vinitd) : Vinitd :=
  mkVinitd (diskname v) (hostname v) (user v) (hypervisorInfo v) (vcfg v) (ifcs v) (dns v) (tty v) (ttyS v) (ttyRedir v) (readOnly v) x.

Definition set_cloud (c : cloud) (v : Vinitd) : Vinitd :=
  set_hypervisorInfo (mkHv (hv_hypervisor (hypervisorInfo v)) c (hv_envs (hypervisorInfo v))) v.
Definition set_hypervisor (h : hypervisor) (c : cloud) (v : Vinitd) : Vinitd :=
  set_hypervisorInfo (mkHv h c (hv_envs (hypervisorInfo v))) v.
Definition set_envs (m : gmap string string) (v : Vinitd) : Vinitd :=
  set_hypervisorInfo (mkHv (hv_hypervisor (hypervisorInfo v)) (hv_cloud (hypervisorInfo v)) m) v.
Definition v_envs (v : Vinitd) : gmap string string := hv_envs (hypervisorInfo v).
Definition v_cloud (v : Vinitd) : cloud := hv_cloud (hypervisorInfo v).

(** [vcfg.VCFG{}] and [New()]: everything empty. *)
Definition zero_VCFG : VCFG :=
  mkVCFG [] None (mkSystem [] [] "" 0 StdoutModeOther 0) [] [] [] ∅ "".
Definition New : Vinitd :=
  mkVinitd "" "" "" (mkHv hvUnknown cpUnknown ∅) zero_VCFG ∅ [] None None None false [].
