(* ===== verification/Os.v ===== *)
(** * The operating system the program drives

    A [world] is the file system, the boot disk, the trace of system calls and
    the package-level variables of the program ([pkg_dns] is the variable [dns]
    of dns.go, [vinitd] the object [main] creates).  The kernel is a parameter: it
    decides which call fails (by call number), what a pseudo file system holds
    when it is mounted, which processes run, what a helper prints, what an HTTP
    request gets, which addresses an interface or a name has, which descriptors
    sockets get and what [epoll_wait] reports.  Every system call is recorded
    with its result, so a theorem can speak about the order of the calls.  The
    start of a goroutine that never ends ([SGo]) is recorded with them; a
    [time.Duration] such as [terminateWait] counts nanoseconds. *)

From stdpp Require Import sorting.
From S2P Require Import Prelude Bytes GoStrings GoPath GoNet Types BlockDev.
Local Open Scope string_scope.

Inductive node :=
| File (data : string)
| Dir
| Link (target : string).

(** An HTTP request: [http.Header] and [url.Values] are maps, here with one value
    for a key. *)
Record Request := mkRequest {
  rq_method : string;
  rq_url : string;
  rq_header : gmap string string;
  rq_query : gmap string string;
  rq_body : string
}.

Inductive syscall :=
| SStat (p : string)
| SOpen (p : string)
| SRead (p : string)
| SWrite (p data : string)
| SMkdirAll (p : string)
| SSymlink (target p : string)
| SRemove (p : string)
| SChmod (p : string) (mode : Z)
| SMount (src target fstype : string) (flags : Z) (opts : string)
| SIoctl (p : string) (req : Z) (arg : list Z)
| SFstatfs (p : string)
| SSyncfs (p : string)
| SSync
| SClose (p : string)
| SReboot (cmd : Z)
| SGetwd
| SPs
| SKill (pid sig : Z)
| SSleep (ms : Z)
| SAwait (wait : Z)
| SSetrlimit (k v : Z)
| SExec (c : Cmd)
| SRun (argv : list string)
| SDial (addr : string)
| SHttpGet (url : string)
| SNetlink (op name : string) (arg : list Z)
| SAddrAdd (name addr : string)
| SRoute (dst mask gw : Z) (dev : string) (flags : Z)
| SSocket (kind name : string)
| SCloseFd (fd : Z)
| SDhcp (kind name : string) (sfd rfd : Z) (cid : list byte)
| SLookup (host : string)
| SHttp (r : Request)
| SHttpRead (url : string)
| SMkdir (p : string)
| SReadDir (p : string)
| SChown (p : string) (uid gid : Z)
| SEpoll (p : string)
| SGo (fn : string).

(** The result recorded for a call. *)
Record event := mkEvent { ev_call : syscall; ev_err : option error }.

(** A process as [go-ps] lists it. *)
Record proc := mkProc { Pid : Z; PPid : Z; Executable : string }.

(** [k_fail n c] makes call number [n] fail with an errno, after the given
    number of bytes in the case of a write.  The errors the model produces
    itself (a missing file, say) are not among these.  [k_hangs n r] makes the
    server of an HTTP request accept it and never answer. *)
Class kernel := {
  k_fail : nat → syscall → option (nat * Z);
  k_pseudo : string → list (string * string);
  k_procs : nat → list proc;
  k_pid : nat → Z;
  k_bsize : Z;
  k_imaxpct : Z;
  k_output : list string → string;
  k_http : string → option string;
  k_uri_ok : string → bool;
  k_lookpath : string → option string;
  k_addrs : string → option (list string);
  k_fd : nat → Z;
  k_lookup : string → option (list IP);
  k_respond : nat → Request → option (Z * string);
  k_hangs : nat → Request → bool;
  k_epoll : nat → Z * bool;
  k_interfaces : list Interface
}.

Record world := mkWorld {
  fs : gmap string node;
  disk : dev;
  trace : list event;
  initStatus : status;
  instantShutdown : bool;
  isFirecracker : bool;
  terminateWait : Z;
  progs : list program;
  terminateSignals : list (nat * Z);
  vinitd : Vinitd;
  pkg_dns : list string
}.

Definition set_fs (x : gmap string node) (w : world) : world :=
  mkWorld x (disk w) (trace w) (initStatus w) (instantShutdown w) (isFirecracker w) (terminateWait w) (progs w) (terminateSignals w) (vinitd w) (pkg_dns w).
Definition set_disk (x : dev) (w : world) : world :=
  mkWorld (fs w) x (trace w) (initStatus w) (instantShutdown w) (isFirecracker w) (terminateWait w) (progs w) (terminateSignals w) (vinitd w) (pkg_dns w).
Definition set_trace (x : list event) (w : world) : world :=
  mkWorld (fs w) (disk w) x (initStatus w) (instantShutdown w) (isFirecracker w) (terminateWait w) (progs w) (terminateSignals w) (vinitd w) (pkg_dns w).
Definition set_initStatus (x : status) (w : world) : world :=
  mkWorld (fs w) (disk w) (trace w) x (instantShutdown w) (isFirecracker w) (terminateWait w) (progs w) (terminateSignals w) (vinitd w) (pkg_dns w).
Definition set_instantShutdown (x : bool) (w : world) : world :=
  mkWorld (fs w) (disk w) (trace w) (initStatus w) x (isFirecracker w) (terminateWait w) (progs w) (terminateSignals w) (vinitd w) (pkg_dns w).
Definition set_isFirecracker (x : bool) (w : world) : world :=
  mkWorld (fs w) (disk w) (trace w) (initStatus w) (instantShutdown w) x (terminateWait w) (progs w) (terminateSignals w) (vinitd w) (pkg_dns w).
Definition set_terminateWait (x : Z) (w : world) : world :=
  mkWorld (fs w) (disk w) (trace w) (initStatus w) (instantShutdown w) (isFirecracker w) x (progs w) (terminateSignals w) (vinitd w) (pkg_dns w).
Definition set_progs (x : list program) (w : world) : world :=
  mkWorld (fs w) (disk w) (trace w) (initStatus w) (instantShutdown w) (isFirecracker w) (terminateWait w) x (terminateSignals w) (vinitd w) (pkg_dns w).
Definition set_terminateSignals (x : list (nat * Z)) (w : world) : world :=
  mkWorld (fs w) (disk w) (trace w) (initStatus w) (instantShutdown w) (isFirecracker w) (terminateWait w) (progs w) x (vinitd w) (pkg_dns w).
Definition set_vinitd (x : Vinitd) (w : world) : world :=
  mkWorld (fs w) (disk w) (trace w) (initStatus w) (instantShutdown w) (isFirecracker w) (terminateWait w) (progs w) (terminateSignals w) x (pkg_dns w).
Definition set_pkg_dns (x : list string) (w : world) : world :=
  mkWorld (fs w) (disk w) (trace w) (initStatus w) (instantShutdown w) (isFirecracker w) (terminateWait w) (progs w) (terminateSignals w) (vinitd w) x.

Abbreviation OS := (M world).

(** Goroutines run in any order.  [overtakes]: do the goroutines that are left run
    before a caller that stopped waiting for them goes on? *)
Class schedule := {
  arrange : ∀ {A}, list A → list A;
  arrange_perm {A} (l : list A) : arrange l ≡ₚ l;
  overtakes : bool
}.

Definition in_order (late : bool) : schedule :=
  {| arrange := λ _ l, l; arrange_perm := λ A l, Permutation_refl l; overtakes := late |}.

(** ** System calls *)

Definition record (c : syscall) (e : option error) (w : world) : world :=
  set_trace (trace w ++ [mkEvent c e]) w.

(** The errors of the model. *)
Definition EISDIR : error := Errno 21.
Definition ENOTDIR : error := Errno 20.
Definition EEXIST : error := Errno 17.

Definition IsNotExist (e : error) : bool := bool_decide (e = ENOENT ∨ e = Errno 2).

(** [sort.Strings] *)
Definition string_le (a b : string) : Prop := String.leb a b = true.
#[global] Instance string_le_dec : RelDecision string_le.
Proof. intros a b. unfold string_le. apply _. Defined.

Section kernel.
Context `{K : kernel}.

(** A call whose effect on the world, when the kernel does not make it fail,
    is [f]; [part n] is the effect of a call that fails after [n] bytes. *)
Definition sys_with {A} (c : syscall) (part : nat → world → world)
    (f : world → (A * world) + error) : OS A := λ w,
  match k_fail (length (trace w)) c with
  | Some (n, e) => (Fail (Errno e), record c (Some (Errno e)) (part n w))
  | None =>
      match f w with
      | inl (a, w') => (Ret a, record c None w')
      | inr e => (Fail e, record c (Some e) w)
      end
  end.

Definition sys {A} (c : syscall) (f : world → (A * world) + error) : OS A :=
  sys_with c (λ _ w, w) f.

(** A call the program cannot see fail. *)
Definition quiet (c : syscall) : OS unit := λ w, (Ret tt, record c None w).

(** A call without an effect on the modelled state. *)
Definition plain (c : syscall) : OS unit := sys c (λ w, inl (tt, w)).

(** Links are followed at the last element of a path, at most 40 times. *)
Fixpoint follow (n : nat) (m : gmap string node) (p : string) : option string :=
  match m !! p with
  | Some (Link t) =>
      match n with
      | O => None
      | S n => follow n m (if IsAbs t then Clean t else PathJoin [PathDir p; t])
      end
  | _ => Some p
  end.

Definition resolve (m : gmap string node) (p : string) : option string := follow 40 m (abs_path p).

Definition lookup_node (m : gmap string node) (p : string) : option node :=
  q ← resolve m p; m !! q.

Definition Stat (p : string) : OS unit :=
  sys (SStat p) (λ w, match lookup_node (fs w) p with Some _ => inl (tt, w) | None => inr ENOENT end).

(** [os.Open] *)
Definition Open (p : string) : OS unit :=
  sys (SOpen p) (λ w, match lookup_node (fs w) p with Some _ => inl (tt, w) | None => inr ENOENT end).

Definition ReadAll (p : string) : OS string :=
  sys (SRead p) (λ w,
    match lookup_node (fs w) p with
    | Some (File d) => inl (d, w)
    | Some _ => inr EISDIR
    | None => inr ENOENT
    end).

Definition ReadFile (p : string) : OS string := Open p;; ReadAll p.

Definition is_dir (m : gmap string node) (p : string) : bool :=
  match lookup_node m p with Some Dir => true | _ => String.eqb p "/" end.

Definition set_file (q data : string) (w : world) : world := set_fs (<[q := File data]> (fs w)) w.

(** [os.OpenFile] for writing; [create] and [trunc] are the flags. *)
Definition OpenFile (create trunc : bool) (p : string) : OS string :=
  sys (SOpen p) (λ w,
    match resolve (fs w) p with
    | None => inr (Errno 40)
    | Some q =>
        match fs w !! q with
        | Some (File d) => inl (q, if trunc then set_file q "" w else w)
        | Some _ => inr EISDIR
        | None =>
            if create && is_dir (fs w) (PathDir q) then inl (q, set_file q "" w)
            else inr ENOENT
        end
    end).

(** A write to the open file [q] that was empty. *)
Definition Write (q data : string) : OS unit :=
  sys_with (SWrite q data) (λ n w, set_file q (str_take n data) w)
    (λ w, inl (tt, set_file q data w)).

Definition WriteFile (p data : string) : OS unit :=
  q ← OpenFile true true p; Write q data.

(** [os.MkdirAll] *)
Fixpoint mkdirs (ps : list string) (m : gmap string node) : gmap string node + error :=
  match ps with
  | [] => inl m
  | p :: ps =>
      match lookup_node m p with
      | Some Dir => mkdirs ps m
      | Some _ => inr ENOTDIR
      | None =>
          match m !! p with
          | Some _ => inr EEXIST
          | None => mkdirs ps (<[p := Dir]> m)
          end
      end
  end.

Definition MkdirAll (p : string) : OS unit :=
  sys (SMkdirAll p) (λ w,
    match mkdirs (path_prefixes p) (fs w) with
    | inl m => inl (tt, set_fs m w)
    | inr e => inr e
    end).

Definition Symlink (target p : string) : OS unit :=
  sys (SSymlink target p) (λ w,
    match fs w !! abs_path p with
    | Some _ => inr EEXIST
    | None =>
        if is_dir (fs w) (PathDir (abs_path p))
        then inl (tt, set_fs (<[abs_path p := Link target]> (fs w)) w) else inr ENOENT
    end).

Definition Remove (p : string) : OS unit :=
  sys (SRemove p) (λ w,
    match fs w !! abs_path p with
    | Some _ => inl (tt, set_fs (delete (abs_path p) (fs w)) w)
    | None => inr ENOENT
    end).

(** [mount(2)] of a pseudo file system makes its files appear. *)
Definition mount_files (target fstype : string) (m : gmap string node) : gmap string node :=
  fold_right (λ '(rel, d) m, <[target +:+ rel := File d]> m) m (k_pseudo fstype).

Definition Mount (src target fstype : string) (flags : Z) (opts : string) : OS unit :=
  sys (SMount src target fstype flags opts) (λ w,
    if is_dir (fs w) target
    then inl (tt, set_fs (mount_files (abs_path target) fstype (fs w)) w)
    else inr ENOENT).

Definition LINUX_REBOOT_CMD_POWER_OFF : Z := 0x4321fedc.
Definition LINUX_REBOOT_CMD_RESTART : Z := 0x1234567.
Definition LINUX_REBOOT_CMD_CAD_OFF : Z := 0.

(** [filepath.Abs] *)
Definition Abs (p : string) : OS string :=
  if IsAbs p then mret (Clean p) else plain SGetwd;; mret (abs_path p).

(** [os.Mkdir] *)
Definition Mkdir (p : string) : OS unit :=
  sys (SMkdir p) (λ w,
    match fs w !! abs_path p with
    | Some _ => inr EEXIST
    | None =>
        if is_dir (fs w) (PathDir (abs_path p)) then inl (tt, set_fs (<[abs_path p := Dir]> (fs w)) w)
        else inr ENOENT
    end).

(** [ioutil.ReadDir]: the names in a directory, sorted. *)
Definition children (m : gmap string node) (p : string) : list string :=
  PathBase <$> List.filter (λ q, String.eqb (PathDir q) p && negb (String.eqb q "/")) (map_to_list m).*1.

Definition ReadDir (p : string) : OS (list string) :=
  sys (SReadDir p) (λ w,
    match resolve (fs w) p with
    | Some q =>
        if is_dir (fs w) q then inl (merge_sort string_le (children (fs w) q), w) else inr ENOTDIR
    | None => inr ENOENT
    end).

(** [reboot(2)]: a power-off or a restart that succeeds does not return. *)
Definition Reboot (c : Z) : OS unit := λ w,
  match plain (SReboot c) w with
  | (Ret tt, w') =>
      (if bool_decide (c = LINUX_REBOOT_CMD_CAD_OFF) then Ret tt else Halted, w')
  | r => r
  end.

(** [ps.Processes] *)
Definition Processes : OS (list proc) := sys SPs (λ w, inl (k_procs (length (trace w)), w)).

(** A call whose error the program drops. *)
Definition ignore {A} (m : OS A) : OS unit := _ ← mtry m; mret tt.
End kernel.

Definition lift {A} (o : outcome A) : OS A := λ w, (o, w).

(** A goroutine that is still waiting when the rounds considered are used up:
    control has not come back. *)
Definition waiting {A} : OS A := λ w, (Halted, w).

(** The methods of [Vinitd] read and write its fields. *)
Definition vget : OS Vinitd := λ w, (Ret (vinitd w), w).
Definition vmodify (f : Vinitd → Vinitd) : OS unit := mmodify (λ w, set_vinitd (f (vinitd w)) w).

(** ** Reasoning

    [keeps R m]: whatever [m] returns, the world it leaves is related by [R] to
    the world it started from.  [R] is a preorder, so the rules follow the
    structure of the code. *)

Local Open Scope list_scope.

Definition keeps {A} (R : relation world) (m : OS A) : Prop := ∀ w, R w (m w).2.

(** Never a panic, in whatever world and whatever the kernel does. *)
Definition nopanic {A} (m : OS A) : Prop := ∀ w p, (m w).1 ≠ Panic p.

Section keeps.
Context (R : relation world) `{!PreOrder R}.

Lemma keeps_ret {A} (a : A) : keeps R (mret a).
Proof. intros w. reflexivity. Qed.

Lemma keeps_fail {A} e : keeps R (mfail (A := A) e).
Proof. intros w. reflexivity. Qed.

Lemma keeps_panic {A} p : keeps R (mpanic (A := A) p).
Proof. intros w. reflexivity. Qed.

Lemma keeps_get : keeps R mget.
Proof. intros w. reflexivity. Qed.

Lemma keeps_bind {A B} (m : OS A) (f : A → OS B) :
  keeps R m → (∀ a, keeps R (f a)) → keeps R (m ≫= f).
Proof.
  intros Hm Hf w. specialize (Hm w). unfold mbind, M_bind.
  destruct (m w) as [[a|e|p|] w1]; [|done..]. etransitivity; [exact Hm|]. apply Hf.
Qed.

Lemma keeps_try {A} (m : OS A) : keeps R m → keeps R (mtry m).
Proof.
  intros Hm w. specialize (Hm w). unfold mtry. by destruct (m w) as [[]].
Qed.

Lemma keeps_foreach {A} (f : A → OS unit) l :
  (∀ x, x ∈ l → keeps R (f x)) → keeps R (mforeach f l).
Proof.
  induction l as [|x l IH]; intros H; [apply keeps_ret|]. cbn [mforeach].
  apply keeps_bind; [apply H; left|]. intros _. apply IH. intros y Hy. apply H. by right.
Qed.

Lemma keeps_modify f : (∀ w, R w (f w)) → keeps R (mmodify f).
Proof. intros H w. apply H. Qed.

Lemma keeps_if {A} (b : bool) (m m' : OS A) :
  keeps R m → keeps R m' → keeps R (if b then m else m').
Proof. by destruct b. Qed.

Lemma keeps_ignore {A} (m : OS A) : keeps R m → keeps R (ignore m).
Proof. intros H. apply keeps_bind; [by apply keeps_try|]. intros a. apply keeps_ret. Qed.
End keeps.

Section nopanic.
Lemma nopanic_ret {A} (a : A) : nopanic (mret a).
Proof. done. Qed.

Lemma nopanic_fail {A} e : nopanic (mfail (A := A) e).
Proof. done. Qed.

Lemma nopanic_get : nopanic mget.
Proof. done. Qed.

Lemma nopanic_modify f : nopanic (mmodify f).
Proof. done. Qed.

Lemma nopanic_vget : nopanic vget.
Proof. done. Qed.

Lemma nopanic_bind {A B} (m : OS A) (f : A → OS B) :
  nopanic m → (∀ a, nopanic (f a)) → nopanic (m ≫= f).
Proof.
  intros Hm Hf w p. specialize (Hm w). unfold mbind, M_bind.
  destruct (m w) as [[a|e|q|] w1]; [apply Hf|done| |done]. cbn. intros _. by apply (Hm q).
Qed.

Lemma nopanic_try {A} (m : OS A) : nopanic m → nopanic (mtry m).
Proof.
  intros Hm w p. specialize (Hm w). unfold mtry.
  destruct (m w) as [[a|e|q|] w1]; cbn in *; try done. intros [= ->]. by eapply Hm.
Qed.

Lemma nopanic_foreach {A} (f : A → OS unit) l :
  (∀ x, nopanic (f x)) → nopanic (mforeach f l).
Proof.
  intros H. induction l as [|x l IH]; [done|]. cbn [mforeach]. by apply nopanic_bind.
Qed.

Lemma nopanic_ignore {A} (m : OS A) : nopanic m → nopanic (ignore m).
Proof. intros H. apply nopanic_bind; [by apply nopanic_try|done]. Qed.

Context `{K : kernel}.

Lemma nopanic_sys_with {A} c part (f : world → (A * world) + error) : nopanic (sys_with c part f).
Proof. intros w p. unfold sys_with. by destruct (k_fail _ _) as [[]|], (f w) as [[]|]. Qed.
End nopanic.

(** Running a sequence. *)
Lemma run_get {A} (f : world → OS A) w : (mget ≫= f) w = f w w.
Proof. done. Qed.

Lemma run_modify {A} g (f : unit → OS A) w : (mmodify g ≫= f) w = f tt (g w).
Proof. done. Qed.

Lemma run_vget {A} (f : Vinitd → OS A) w : (vget ≫= f) w = f (vinitd w) w.
Proof. done. Qed.

Lemma run_vmodify {A} g (f : unit → OS A) w :
  (vmodify g ≫= f) w = f tt (set_vinitd (g (vinitd w)) w).
Proof. done. Qed.

Lemma run_ret {A B} (m : OS A) (f : A → OS B) w a w' :
  m w = (Ret a, w') → (m ≫= f) w = f a w'.
Proof. unfold mbind, M_bind. by intros ->. Qed.

Lemma run_fail {A B} (m : OS A) (f : A → OS B) w e w' :
  m w = (Fail e, w') → (m ≫= f) w = (Fail e, w').
Proof. unfold mbind, M_bind. by intros ->. Qed.

Lemma run_assoc {A B C} (m : OS A) (f : A → OS B) (g : B → OS C) w :
  ((m ≫= f) ≫= g) w = (m ≫= (λ a, f a ≫= g)) w.
Proof. unfold mbind, M_bind. by destruct (m w) as [[]]. Qed.

(** The package-level variables, the fields of [Vinitd] and the disk. *)
Definition vars (w : world) :=
  (disk w, initStatus w, instantShutdown w, isFirecracker w, terminateWait w, progs w,
   terminateSignals w, vinitd w, pkg_dns w).

(** [tame P m]: [m] returns or errs, without touching the variables, and every
    system call it makes satisfies [P]. *)
Definition tame {A} (P : event → Prop) (m : OS A) : Prop := ∀ w,
  ∃ (o : A + error) w' evs,
    m w = (match o with inl a => Ret a | inr e => Fail e end, w') ∧
    trace w' = trace w ++ evs ∧ Forall P evs ∧ vars w' = vars w.

Section tame.
Context (P : event → Prop).

Lemma tame_ret {A} (a : A) : tame P (mret a).
Proof. intros w. exists (inl a), w, []. by rewrite app_nil_r. Qed.

Lemma tame_fail {A} e : tame P (mfail (A := A) e).
Proof. intros w. exists (inr e), w, []. by rewrite app_nil_r. Qed.

Lemma tame_get : tame P mget.
Proof. intros w. exists (inl w), w, []. by rewrite app_nil_r. Qed.

Lemma tame_bind {A B} (m : OS A) (f : A → OS B) :
  tame P m → (∀ a, tame P (f a)) → tame P (m ≫= f).
Proof.
  intros Hm Hf w. destruct (Hm w) as (o & w1 & e1 & E & T1 & F1 & V1).
  unfold mbind, M_bind. rewrite E. destruct o as [a|e]; [|by exists (inr e), w1, e1].
  destruct (Hf a w1) as (o2 & w2 & e2 & -> & T2 & F2 & V2).
  exists o2, w2, (e1 ++ e2). split_and!; [done| |by apply Forall_app|congruence].
  by rewrite T2, T1, app_assoc.
Qed.

Lemma tame_vget : tame P vget.
Proof. intros w. exists (inl (vinitd w)), w, []. by rewrite app_nil_r. Qed.

Lemma tame_foreach {A} (f : A → OS unit) l :
  (∀ x, x ∈ l → tame P (f x)) → tame P (mforeach f l).
Proof.
  induction l as [|x l IH]; intros H; [apply tame_ret|]. cbn [mforeach].
  apply tame_bind; [apply H; left|]. intros _. apply IH. intros y Hy. apply H. by right.
Qed.

Lemma tame_sys_with `{K : kernel} {A} c part (f : world → (A * world) + error) :
  (∀ e, P (mkEvent c e)) →
  (∀ n w, vars (part n w) = vars w ∧ trace (part n w) = trace w) →
  (∀ w a w', f w = inl (a, w') → vars w' = vars w ∧ trace w' = trace w) →
  tame P (sys_with c part f).
Proof.
  intros HP Hpart Hf w. unfold sys_with.
  destruct (k_fail _ c) as [[n e]|].
  - destruct (Hpart n w) as [V T]. exists (inr (Errno e)), (record c (Some (Errno e)) (part n w)), [mkEvent c (Some (Errno e))].
    split_and!; [done|cbn; by rewrite T|by constructor|exact V].
  - destruct (f w) as [[a w']|e] eqn:Ef.
    + destruct (Hf _ _ _ Ef) as [V T]. exists (inl a), (record c None w'), [mkEvent c None].
      split_and!; [done|cbn; by rewrite T|by constructor|exact V].
    + exists (inr e), (record c (Some e) w), [mkEvent c (Some e)]. split_and!; [done|done|by constructor|done].
Qed.

Lemma tame_quiet c : P (mkEvent c None) → tame P (quiet c).
Proof. intros H w. exists (inl tt), (record c None w), [mkEvent c None]. split_and!; [done|done|by constructor|done]. Qed.

(** [mtry] of a tame action returns. *)
Lemma tame_try {A} (m : OS A) : tame P m → tame P (mtry m).
Proof.
  intros Hm w. destruct (Hm w) as (o & w1 & e1 & E & ?). exists (inl o), w1, e1.
  unfold mtry. rewrite E. by destruct o.
Qed.

Lemma tame_ignore {A} (m : OS A) : tame P m → tame P (ignore m).
Proof. intros H. apply tame_bind; [by apply tame_try|intros; apply tame_ret]. Qed.
End tame.

Lemma tame_weaken {A} (P Q : event → Prop) (m : OS A) :
  (∀ e, P e → Q e) → tame P m → tame Q m.
Proof.
  intros H Hm w. destruct (Hm w) as (o & w' & evs & ? & ? & F & ?).
  exists o, w', evs. split_and!; [done..| |done]. by eapply Forall_impl.
Qed.

(** The calls of the model of [os] are tame. *)
Section tame_os.
Context `{K : kernel} (P : event → Prop).

Lemma tame_plain c : (∀ e, P (mkEvent c e)) → tame P (plain c).
Proof. intros H. apply tame_sys_with; [done|done|]. by intros w a w' [= _ <-]. Qed.

Lemma tame_Open p : (∀ e, P (mkEvent (SOpen p) e)) → tame P (Open p).
Proof.
  intros H. apply tame_sys_with; [done|done|]. intros w a w'.
  case_match; [|done]. by intros [= _ <-].
Qed.

Lemma tame_Stat p : (∀ e, P (mkEvent (SStat p) e)) → tame P (Stat p).
Proof.
  intros H. apply tame_sys_with; [done|done|]. intros w a w'.
  case_match; [|done]. by intros [= _ <-].
Qed.

Lemma tame_ReadFile p :
  (∀ e, P (mkEvent (SOpen p) e)) → (∀ e, P (mkEvent (SRead p) e)) → tame P (ReadFile p).
Proof.
  intros H1 H2. apply tame_bind; [by apply tame_Open|]. intros _.
  apply tame_sys_with; [done|done|]. intros w a w'.
  destruct (lookup_node _ _) as [[]|]; try done. by intros [= _ <-].
Qed.

Lemma tame_OpenFile create trunc p :
  (∀ e, P (mkEvent (SOpen p) e)) → tame P (OpenFile create trunc p).
Proof.
  intros H. apply tame_sys_with; [done|done|]. intros w a w'.
  destruct (resolve _ _) as [q|]; [|done]. destruct (fs w !! q) as [[]|]; try done.
  - intros [= _ <-]. by destruct trunc.
  - case_match; [|done]. by intros [= _ <-].
Qed.

Lemma tame_Write q d : (∀ e, P (mkEvent (SWrite q d) e)) → tame P (Write q d).
Proof. intros H. apply tame_sys_with; [done|done|]. by intros w a w' [= _ <-]. Qed.

Lemma tame_WriteFile p d :
  (∀ e, P (mkEvent (SOpen p) e)) → (∀ q e, P (mkEvent (SWrite q d) e)) →
  tame P (WriteFile p d).
Proof. intros H1 H2. apply tame_bind; [by apply tame_OpenFile|]. intros q. by apply tame_Write. Qed.

Lemma tame_MkdirAll p : (∀ e, P (mkEvent (SMkdirAll p) e)) → tame P (MkdirAll p).
Proof.
  intros H. apply tame_sys_with; [done|done|]. intros w a w'.
  case_match; [|done]. by intros [= _ <-].
Qed.

Lemma tame_Processes : (∀ e, P (mkEvent SPs e)) → tame P Processes.
Proof. intros H. apply tame_sys_with; [done|done|]. by intros w a w' [= _ <-]. Qed.

Lemma tame_Remove p : (∀ e, P (mkEvent (SRemove p) e)) → tame P (Remove p).
Proof.
  intros H. apply tame_sys_with; [done|done|]. intros w a w'.
  destruct (fs w !! _); [|done]. by intros [= _ <-].
Qed.

Lemma tame_Symlink target p : (∀ e, P (mkEvent (SSymlink target p) e)) → tame P (Symlink target p).
Proof.
  intros H. apply tame_sys_with; [done|done|]. intros w a w'. destruct (fs w !! _); [done|].
  destruct (is_dir _ _); [|done]. by intros [= _ <-].
Qed.

Lemma tame_Mkdir p : (∀ e, P (mkEvent (SMkdir p) e)) → tame P (Mkdir p).
Proof.
  intros H. apply tame_sys_with; [done|done|]. intros w a w'. destruct (fs w !! _); [done|].
  destruct (is_dir _ _); [|done]. by intros [= _ <-].
Qed.

Lemma tame_ReadDir p : (∀ e, P (mkEvent (SReadDir p) e)) → tame P (ReadDir p).
Proof.
  intros H. apply tame_sys_with; [done|done|]. intros w a w'. destruct (resolve _ _); [|done].
  destruct (is_dir _ _); [|done]. by intros [= _ <-].
Qed.

Lemma tame_Mount src target fstype flags opts :
  (∀ e, P (mkEvent (SMount src target fstype flags opts) e)) → tame P (Mount src target fstype flags opts).
Proof.
  intros H. apply tame_sys_with; [done|done|]. intros w a w'.
  destruct (is_dir _ _); [|done]. by intros [= _ <-].
Qed.
End tame_os.

(** [quietly P m]: tame, and it always returns. *)
Definition quietly {A} (P : event → Prop) (m : OS A) : Prop := ∀ w,
  ∃ a w' evs,
    m w = (Ret a, w') ∧ trace w' = trace w ++ evs ∧ Forall P evs ∧ vars w' = vars w.

Section quietly.
Context (P : event → Prop).

Lemma quietly_ret {A} (a : A) : quietly P (mret a).
Proof. intros w. exists a, w, []. by rewrite app_nil_r. Qed.

Lemma quietly_get : quietly P mget.
Proof. intros w. exists w, w, []. by rewrite app_nil_r. Qed.

Lemma quietly_bind {A B} (m : OS A) (f : A → OS B) :
  quietly P m → (∀ a, quietly P (f a)) → quietly P (m ≫= f).
Proof.
  intros Hm Hf w. destruct (Hm w) as (a & w1 & e1 & E & T1 & F1 & V1).
  unfold mbind, M_bind. rewrite E. destruct (Hf a w1) as (b & w2 & e2 & -> & T2 & F2 & V2).
  exists b, w2, (e1 ++ e2). split_and!; [done| |by apply Forall_app|congruence].
  by rewrite T2, T1, app_assoc.
Qed.

Lemma quietly_vget : quietly P vget.
Proof. intros w. exists (vinitd w), w, []. by rewrite app_nil_r. Qed.

Lemma quietly_foreach {A} (f : A → OS unit) l :
  (∀ x, x ∈ l → quietly P (f x)) → quietly P (mforeach f l).
Proof.
  induction l as [|x l IH]; intros H; [apply quietly_ret|]. cbn [mforeach].
  apply quietly_bind; [apply H; left|]. intros _. apply IH. intros y Hy. apply H. by right.
Qed.

Lemma quietly_quiet c : P (mkEvent c None) → quietly P (quiet c).
Proof. intros H w. exists tt, (record c None w), [mkEvent c None]. split_and!; [done|done|by constructor|done]. Qed.

Lemma quietly_try {A} (m : OS A) : tame P m → quietly P (mtry m).
Proof.
  intros Hm w. destruct (Hm w) as (o & w1 & e1 & E & ?). exists o, w1, e1.
  unfold mtry. rewrite E. by destruct o.
Qed.

Lemma quietly_ignore {A} (m : OS A) : tame P m → quietly P (ignore m).
Proof. intros H. apply quietly_bind; [by apply quietly_try|intros; apply quietly_ret]. Qed.

Lemma quietly_tame {A} (m : OS A) : quietly P m → tame P m.
Proof. intros H w. destruct (H w) as (a & w' & evs & ?). by exists (inl a), w', evs. Qed.
End quietly.

Lemma quietly_weaken {A} (P Q : event → Prop) (m : OS A) :
  (∀ e, P e → Q e) → quietly P m → quietly Q m.
Proof.
  intros H Hm w. destruct (Hm w) as (a & w' & evs & ? & ? & F & ?).
  exists a, w', evs. split_and!; [done..| |done]. by eapply Forall_impl.
Qed.

#[export] Hint Resolve tame_ret tame_fail tame_get tame_vget tame_bind tame_foreach tame_try tame_ignore
  tame_plain tame_quiet tame_Open tame_Stat tame_ReadFile tame_OpenFile tame_Write tame_WriteFile tame_MkdirAll
  tame_Processes tame_Remove tame_Symlink tame_Mkdir tame_ReadDir tame_Mount : tame.
#[export] Hint Extern 1 (tame _ (if ?b then _ else _)) => destruct b : tame.
#[export] Hint Extern 1 (tame _ (match ?r with inl _ => _ | inr _ => _ end)) => destruct r : tame.

(** ** Safety

    [safe I m]: from a world of [I], [m] does not panic and ends in [I]. *)

Definition safe {A} (I : world → Prop) (m : OS A) : Prop := ∀ w, I w →
  (∀ why, (m w).1 ≠ Panic why) ∧ I (m w).2.

Section safe.
Context (I : world → Prop).

Lemma safe_ret {A} (a : A) : safe I (mret a).
Proof. done. Qed.

Lemma safe_fail {A} e : safe I (mfail (A := A) e).
Proof. done. Qed.

Lemma safe_waiting {A} : safe I (waiting (A := A)).
Proof. done. Qed.

Lemma safe_bind {A B} (m : OS A) (f : A → OS B) :
  safe I m → (∀ a, safe I (f a)) → safe I (m ≫= f).
Proof.
  intros Hm Hf w Hw. destruct (Hm w Hw) as [Hp Hi]. unfold mbind, M_bind.
  destruct (m w) as [[a|e|why|] w1]; [by apply Hf|done|by destruct (Hp why)|done].
Qed.

(** The rest may use what is known of the value. *)
Lemma safe_bind_val {A B} (m : OS A) (f : A → OS B) :
  safe I m → (∀ w a w', I w → m w = (Ret a, w') → safe I (f a)) → safe I (m ≫= f).
Proof.
  intros Hm Hf w Hw. destruct (Hm w Hw) as [Hp Hi]. unfold mbind, M_bind.
  destruct (m w) as [[a|e|why|] w1] eqn:E; [by apply (Hf w a w1 Hw E)|done|by destruct (Hp why)|done].
Qed.

(** Reading the state: the rest may use the invariant of what it read. *)
Lemma safe_get {B} (f : world → OS B) : (∀ w0, I w0 → safe I (f w0)) → safe I (mget ≫= f).
Proof. intros Hf w Hw. rewrite run_get. by apply Hf. Qed.

Lemma safe_modify g : (∀ w, I w → I (g w)) → safe I (mmodify g).
Proof. intros H w Hw. split; [done|]. by apply H. Qed.

Lemma safe_lift {A} (o : outcome A) : (∀ why, o ≠ Panic why) → safe I (lift o).
Proof. done. Qed.

Lemma safe_lift_ret {A B} (a : A) (f : A → OS B) : safe I (f a) → safe I (lift (Ret a) ≫= f).
Proof. done. Qed.

Lemma safe_try {A} (m : OS A) : safe I m → safe I (mtry m).
Proof.
  intros Hm w Hw. destruct (Hm w Hw) as [Hp Hi]. unfold mtry.
  destruct (m w) as [[a|e|why|] w1]; [done|done|by destruct (Hp why)|done].
Qed.

Lemma safe_ignore {A} (m : OS A) : safe I m → safe I (ignore m).
Proof. intros H. apply safe_bind; [by apply safe_try|done]. Qed.

Lemma safe_foreach {A} (f : A → OS unit) l :
  (∀ x, x ∈ l → safe I (f x)) → safe I (mforeach f l).
Proof.
  induction l as [|x l IH]; intros H; [done|]. cbn [mforeach].
  apply safe_bind; [apply H; left|]. intros _. apply IH. intros y Hy. apply H. by right.
Qed.

(** Reading [Vinitd], with what the invariant says of it. *)
Lemma safe_vget {B} (f : Vinitd → OS B) :
  (∀ w0, I w0 → safe I (f (vinitd w0))) → safe I (vget ≫= f).
Proof. intros Hf w Hw. rewrite run_vget. by apply Hf. Qed.

Lemma safe_vmodify g : (∀ w, I w → I (set_vinitd (g (vinitd w)) w)) → safe I (vmodify g).
Proof. apply safe_modify. Qed.
End safe.

(** [dies I Q m]: from a world of [I], [m] ends in [I], and when it panics the
    reason and the world satisfy [Q]. *)
Definition dies {A} (I : world → Prop) (Q : panic → world → Prop) (m : OS A) : Prop := ∀ w, I w →
  I (m w).2 ∧ ∀ why, (m w).1 = Panic why → Q why (m w).2.

Section dies.
Context (I : world → Prop) (Q : panic → world → Prop).

Lemma dies_safe {A} (m : OS A) : safe I m → dies I Q m.
Proof. intros H w Hw. destruct (H w Hw) as [Hp Hi]. split; [done|]. intros why E. by destruct (Hp why). Qed.

Lemma dies_panic {A} why : (∀ w, I w → Q why w) → dies I Q (mpanic (A := A) why).
Proof. intros H w Hw. split; [done|]. intros why' [= <-]. by apply H. Qed.

Lemma dies_bind_val {A B} (m : OS A) (f : A → OS B) :
  dies I Q m → (∀ w a w', I w → m w = (Ret a, w') → dies I Q (f a)) → dies I Q (m ≫= f).
Proof.
  intros Hm Hf w Hw. destruct (Hm w Hw) as [Hi Hp]. unfold mbind, M_bind.
  destruct (m w) as [[a|e|why|] w1] eqn:E; [by apply (Hf w a w1 Hw E)|done| |done].
  split; [done|]. intros why' [= <-]. by apply Hp.
Qed.

Lemma dies_bind {A B} (m : OS A) (f : A → OS B) :
  dies I Q m → (∀ a, dies I Q (f a)) → dies I Q (m ≫= f).
Proof. intros Hm Hf. by apply dies_bind_val. Qed.

Lemma dies_vget {B} (f : Vinitd → OS B) :
  (∀ w0, I w0 → dies I Q (f (vinitd w0))) → dies I Q (vget ≫= f).
Proof. intros Hf w Hw. rewrite run_vget. by apply Hf. Qed.

Lemma dies_try {A} (m : OS A) : dies I Q m → dies I Q (mtry m).
Proof.
  intros Hm w Hw. destruct (Hm w Hw) as [Hi Hp]. unfold mtry.
  destruct (m w) as [[a|e|why|] w1]; try (split; done). split; [done|]. intros why' [= <-]. by apply Hp.
Qed.

Lemma dies_foreach {A} (f : A → OS unit) l :
  (∀ x, x ∈ l → dies I Q (f x)) → dies I Q (mforeach f l).
Proof.
  induction l as [|x l IH]; intros H; [by apply dies_safe|]. cbn [mforeach].
  apply dies_bind; [apply H; left|]. intros _. apply IH. intros y Hy. apply H. by right.
Qed.
End dies.

Lemma dies_weaken {A} I (Q Q' : panic → world → Prop) (m : OS A) :
  (∀ why w, Q why w → Q' why w) → dies I Q m → dies I Q' m.
Proof. intros H Hm w Hw. destruct (Hm w Hw) as [Hi Hp]. split; [done|]. intros why E. by apply H, Hp. Qed.

(** An invariant of the fields of [Vinitd], of the programs and of the disk:
    system calls keep it. *)
Class stable (I : world → Prop) : Prop :=
  is_stable w w' : vinitd w' = vinitd w → progs w' = progs w → disk w' = disk w → I w → I w'.

(** What the network goroutines change keeps the invariant too. *)
Definition upd (g : Vinitd → Vinitd) (w : world) : world := set_vinitd (g (vinitd w)) w.

Class net_stable (I : world → Prop) : Prop := {
  ns_stable :: stable I;
  ns_cloud c w : I w → I (upd (set_cloud c) w);
  ns_addr key a gw w : I w → I (upd (λ v, set_ifcs (alter (set_addr (Some a) gw) key (ifcs v)) v) w);
  ns_ntp l w : I w → I (upd (λ v, set_vcfg (add_NTP l (vcfg v)) v) w);
  ns_search l w : I w → I (upd (λ v, set_searchDomains (searchDomains v ++ l) v) w);
  ns_hostname h w : I w → I (upd (set_hostname h) w);
  ns_dns l w : I w → I (upd (λ v, set_dns (dns v ++ l) v) w)
}.

Lemma safe_tame {A} I `{!stable I} P (m : OS A) : tame P m → safe I m.
Proof.
  intros H w Hw. destruct (H w) as (o & w' & evs & -> & _ & _ & V).
  split; [by destruct o|]. injection V as Hd _ _ _ _ Hp _ Hv _. by apply (is_stable w).
Qed.

Lemma dies_tame I `{!stable I} Q {A} (m : OS A) : tame (λ _, True) m → dies I Q m.
Proof. intros Hm. by eapply dies_safe, safe_tame. Qed.

Lemma safe_quietly {A} I `{!stable I} P (m : OS A) : quietly P m → safe I m.
Proof. intros H. by eapply safe_tame, quietly_tame. Qed.

(** ** A kernel that refuses nothing *)

Definition calls (w : world) : list syscall := ev_call <$> trace w.

Lemma calls_record c e w : calls (record c e w) = calls w ++ [c].
Proof. unfold calls, record. cbn. by rewrite fmap_app. Qed.

Lemma resolve_file m p d : abs_path p = p → m !! p = Some (File d) → resolve m p = Some p.
Proof. intros Hc Hp. unfold resolve. rewrite Hc. unfold follow. by rewrite Hp. Qed.

Lemma lookup_node_file m p d : abs_path p = p → m !! p = Some (File d) → lookup_node m p = Some (File d).
Proof. intros Hc Hp. unfold lookup_node. by rewrite (resolve_file m p d). Qed.

Section healthy.
Context `{K : kernel} (Hok : ∀ n c, k_fail n c = None).

Lemma ok_sys_with {A} c part (f : world → (A * world) + error) w a w' :
  f w = inl (a, w') → sys_with c part f w = (Ret a, record c None w').
Proof. intros E. unfold sys_with. by rewrite Hok, E. Qed.

Lemma ok_sys_err {A} c part (f : world → (A * world) + error) w e :
  f w = inr e → sys_with c part f w = (Fail e, record c (Some e) w).
Proof. intros E. unfold sys_with. by rewrite Hok, E. Qed.

Lemma ok_plain c w : plain c w = (Ret tt, record c None w).
Proof. by apply ok_sys_with. Qed.

Lemma ok_ignore {A} (m : OS A) w a w' : m w = (Ret a, w') → ignore m w = (Ret tt, w').
Proof. intros E. unfold ignore, mtry, mbind, M_bind. by rewrite E. Qed.

Lemma ok_try {A} (m : OS A) w a w' : m w = (Ret a, w') → mtry m w = (Ret (inl a), w').
Proof. intros E. unfold mtry. by rewrite E. Qed.

Lemma ok_Open p d w :
  abs_path p = p → fs w !! p = Some (File d) → Open p w = (Ret tt, record (SOpen p) None w).
Proof. intros Hc Hp. apply ok_sys_with. by rewrite (lookup_node_file _ _ d). Qed.

Lemma ok_ReadFile p d w :
  abs_path p = p → fs w !! p = Some (File d) →
  ReadFile p w = (Ret d, record (SRead p) None (record (SOpen p) None w)).
Proof.
  intros Hc Hp. unfold ReadFile. rewrite (run_ret _ _ _ _ _ (ok_Open _ _ _ Hc Hp)).
  apply ok_sys_with. change (fs (record _ _ w)) with (fs w). by rewrite (lookup_node_file _ _ d).
Qed.

(** Overwriting a file. *)
Lemma ok_WriteFile p x data w :
  abs_path p = p → fs w !! p = Some (File x) →
  WriteFile p data w =
    (Ret tt, record (SWrite p data) None (set_file p data (record (SOpen p) None (set_file p "" w)))).
Proof.
  intros Hc Hp. unfold WriteFile, OpenFile.
  erewrite run_ret; [|apply ok_sys_with; by rewrite (resolve_file _ _ x), Hp].
  by apply ok_sys_with.
Qed.

(** Creating a file in an existing directory. *)
Lemma ok_WriteFile_new p data w :
  resolve (fs w) p = Some p → fs w !! p = None → is_dir (fs w) (PathDir p) = true →
  WriteFile p data w =
    (Ret tt, record (SWrite p data) None (set_file p data (record (SOpen p) None (set_file p "" w)))).
Proof.
  intros Hr Hp Hd. unfold WriteFile, OpenFile.
  erewrite run_ret; [|apply ok_sys_with; by rewrite Hr, Hp, Hd].
  by apply ok_sys_with.
Qed.
End healthy.

Definition SIGINT : Z := 2.
Definition SIGTERM : Z := 15.
Definition SIGPWR : Z := 30.

(** ** A small machine for the examples: no call fails, two user processes run *)

Definition calm : kernel := {|
  k_fail := λ _ _, None;
  k_pseudo := λ t, if String.eqb t "proc" then [("/cmdline", "root=/dev/sda2 ro quiet"); ("/bootdev", "/dev/sda");
                                                ("/sysrq-trigger", "")]%string else [];
  k_procs := λ _, [mkProc 1 0 "vinitd"; mkProc 2 0 "kthreadd"; mkProc 40 2 "kworker"; mkProc 101 1 "chronyd"];
  k_pid := λ n, (100 + Z.of_nat n)%Z;
  k_bsize := 4096;
  k_imaxpct := 25;
  k_output := λ _, ""%string;
  k_http := λ _, None;
  k_uri_ok := λ _, true;
  k_lookpath := λ _, None;
  k_addrs := λ i, if String.eqb i "eth0" then Some ["fe80::1"; "10.0.0.5"]%string else None;
  k_fd := λ n, Z.of_nat n;
  k_lookup := λ _, None;
  k_respond := λ _ _, None;
  k_hangs := λ _ _, false;
  k_epoll := λ _, (1%Z, true);
  k_interfaces := [mkInterface "lo" []; mkInterface "ens3" [x02; x00; x00; x00; x00; x01];
                   mkInterface "ens4" [x02; x00; x00; x00; x00; x02]]%string
|}.

Definition ex_fs : gmap string node :=
  list_to_map [("/", Dir); ("/proc", Dir); ("/sys", Dir); ("/dev", Dir); ("/etc", Dir);
    ("/dev/sda", File ""); ("/dev/vtty", File ""); ("/proc/bootdev", File "/dev/sda");
    ("/proc/sysrq-trigger", File ""); ("/proc/cmdline", File "root=/dev/sda2 ro quiet")]%string.

Definition ex_world : world :=
  mkWorld ex_fs {| content := []; pos := 0; faults := [] |} [] statusSetup false false 3000 [] [] New [].
