(* ===== verification/Process.v ===== *)
(** * Processes and shutdown ([src/pkg/vorteil/process.go], [SystemPanic] of
    [log.go], [bootDisk] of [conf.go], [flushDisk] of [disk.go],
    [waitForSignal] of [vinitd.go]) *)

From S2P Require Import Prelude Bytes GoStrings GoPath Types BlockDev Os.
Local Open Scope string_scope.

Definition bootdev : string := "/proc/bootdev".
Definition sysrq : string := "/proc/sysrq-trigger".

Definition BLKFLSBUF : Z := 0x1261.

Section process.
Context `{K : kernel}.

Definition bootDisk : OS string := ReadFile bootdev.

Definition flushDisk (p : string) : OS unit :=
  r ← mtry (Open p);
  match r with
  | inr _ => mret tt
  | inl _ =>
      ignore (plain (SIoctl p BLKFLSBUF []));;
      ignore (plain (SSyncfs p));;
      quiet (SClose p);;
      quiet SSync
  end.

Definition Kill (pid sig : Z) : OS unit := ignore (plain (SKill pid sig)).

(** Neither init and the kernel thread daemon nor a child of one of them; the
    programs are children of init. *)
Definition userspace (p : proc) : bool := ((2 <? Pid p) && (2 <? PPid p))%Z.

Definition killAll : OS unit :=
  r ← mtry Processes;
  match r with
  | inr _ => mret tt
  | inl pl =>
      mforeach (λ p,
        if userspace p then Kill (Pid p) SIGINT;; Kill (Pid p) SIGTERM else mret tt) pl
  end.

(** One goroutine of [sendTerminateSignals] up to its wait. *)
Definition sendTerminate (np : program) (sig : Z) : OS unit :=
  match p_cmd np with
  | None => mret tt
  | Some c =>
      match cmd_Process c with
      | None => mret tt
      | Some pid =>
          if (0 <=? ExitCode (cmd_ProcessState c))%Z then mret tt else Kill pid sig
      end
  end.

(** The goroutines send in the order the map is ranged over; then the caller
    waits for the exits, at most [terminateWait]. *)
Definition sendTerminateSignals : OS unit :=
  w ← mget;
  mforeach (λ '(i, sig),
    match progs w !! i with
    | Some np => sendTerminate np sig
    | None => mret tt
    end) (terminateSignals w);;
  quiet (SAwait (terminateWait w)).

Definition shutdown (cmd : Z) : OS unit :=
  w ← mget;
  if bool_decide (initStatus w = statusPoweroff) then mret tt
  else
    mmodify (set_initStatus statusPoweroff);;
    (if instantShutdown w then mret tt else sendTerminateSignals);;
    killAll;;
    (if isFirecracker w then mret tt else quiet (SSleep 250));;
    ignore (WriteFile sysrq "s");;
    ignore (WriteFile sysrq "u");;
    r ← mtry bootDisk;
    (match r with
     | inr _ => mret tt
     | inl p => flushDisk p
     end);;
    ignore (Reboot (if isFirecracker w then LINUX_REBOOT_CMD_RESTART else cmd)).

Definition SystemPanic : OS unit := shutdown LINUX_REBOOT_CMD_POWER_OFF.

(** What [waitForSignal] does with the signal it got. *)
Definition waitForSignal (sig : Z) : OS unit :=
  if (sig =? SIGPWR)%Z then shutdown LINUX_REBOOT_CMD_POWER_OFF
  else shutdown LINUX_REBOOT_CMD_RESTART.

(** The processes [handleExit] counts. *)
Definition counted (p : proc) : bool :=
  userspace p && negb (String.eqb (Executable p) "chronyd")
  && negb (String.eqb (Executable p) "fluent-bit").

(** The programs [handleExit] counts, with the order of its conditions. *)
Definition prog_counted (p : program) : bool :=
  match p_cmd p with
  | None => true
  | Some c =>
      match cmd_ProcessState c with
      | None => negb (p_reaper p)
      | Some ps => negb (Exited ps)
      end
  end.

Definition handleExit : OS unit :=
  r ← mtry Processes;
  let rpo := match r with inl l => l | inr _ => [] end in
  w ← mget;
  let count := (length (List.filter counted rpo)
                + length (List.filter prog_counted (progs w)))%nat in
  if (count =? 0)%nat then
    (if bool_decide (initStatus w = statusPoweroff) then mret tt
     else mmodify (set_instantShutdown true));;
    shutdown LINUX_REBOOT_CMD_POWER_OFF
  else mret tt.

(** [waitForApp] once [cmd.Wait] has returned the state [ps] (nil when the wait
    failed because the reaper was faster). *)
Definition update_prog (i : nat) (f : program → program) : OS unit :=
  mmodify (λ w, set_progs (alter f i (progs w)) w).

Definition set_ProcessState (ps : option ProcessState) (c : Cmd) : Cmd :=
  mkCmd (cmd_Path c) (cmd_Args c) (cmd_Env c) (cmd_Dir c) (cmd_Uid c) (cmd_Gid c)
    (cmd_AmbientCaps c) (cmd_Stdout c) (cmd_Stderr c) (cmd_Process c) ps.

Definition waitForApp (i : nat) (ps : option ProcessState) : OS unit :=
  w ← mget;
  match progs w !! i with
  | None => mret tt
  | Some p =>
      update_prog i (λ p, set_cmd (set_ProcessState ps <$> p_cmd p) p);;
      (if p_exitClosed p then mpanic CloseOfClosed
       else update_prog i (set_exitClosed true));;
      handleExit
  end.

(** [reapProcs] on the pid the reaper reports. *)
Definition has_pid (pid : Z) (p : program) : bool :=
  match p_cmd p with
  | Some c => bool_decide (cmd_Process c = Some pid)
  | None => false
  end.

Fixpoint mark_reaped (pid : Z) (l : list program) : list program :=
  match l with
  | [] => []
  | p :: l => if has_pid pid p then set_reaper true p :: l else p :: mark_reaped pid l
  end.

Definition reapProcs (pid : Z) : OS unit :=
  mmodify (λ w, set_progs (mark_reaped pid (progs w)) w);;
  handleExit.
End process.

(** ** What the calls of a shutdown are *)

Local Open Scope list_scope.

Section theorems.
Context `{K : kernel}.

(** A signal to a program that was started and has not exited, or the wait. *)
Definition term_event (w : world) (e : event) : Prop :=
  match ev_call e with
  | SKill pid sig => ∃ i np c,
      (i, sig) ∈ terminateSignals w ∧ progs w !! i = Some np ∧ p_cmd np = Some c ∧
      cmd_Process c = Some pid ∧ (ExitCode (cmd_ProcessState c) < 0)%Z
  | SAwait wait => wait = terminateWait w
  | _ => False
  end.

(** The process list, or a signal to a listed process above pid 2. *)
Definition kill_event (e : event) : Prop :=
  match ev_call e with
  | SPs => True
  | SKill pid sig => (sig = SIGINT ∨ sig = SIGTERM) ∧
      (2 < pid)%Z ∧ ∃ n p, p ∈ k_procs n ∧ Pid p = pid ∧ (2 < PPid p)%Z
  | _ => False
  end.

Definition writes_event (p data : string) (e : event) : Prop :=
  match ev_call e with
  | SOpen q => q = p
  | SWrite _ d => d = data
  | _ => False
  end.

(** Reading the name of the boot disk and flushing it. *)
Definition flush_event (e : event) : Prop :=
  match ev_call e with
  | SOpen _ | SRead _ | SIoctl _ _ _ | SSyncfs _ | SClose _ | SSync => True
  | _ => False
  end.

Lemma quietly_Kill P pid sig : (∀ e, P (mkEvent (SKill pid sig) e)) → quietly P (Kill pid sig).
Proof. intros H. by apply quietly_ignore, tame_plain. Qed.

Lemma quietly_killAll : quietly kill_event killAll.
Proof.
  intros w. unfold killAll, mtry, Processes, sys, sys_with, mbind, M_bind.
  destruct (k_fail _ SPs) as [[n e]|].
  { exists tt, (record SPs (Some (Errno e)) w), [mkEvent SPs (Some (Errno e))].
    split_and!; [done|done|by repeat constructor|done]. }
  edestruct (quietly_foreach kill_event (λ p,
    if userspace p then Kill (Pid p) SIGINT;; Kill (Pid p) SIGTERM else mret tt)
    (k_procs (length (trace w)))) as (a & w' & evs & -> & T & F & V).
  - intros p Hp. destruct (userspace p) eqn:Hu; [|apply quietly_ret].
    unfold userspace in Hu. apply andb_true_iff in Hu as [H1%Z.ltb_lt H2%Z.ltb_lt].
    apply quietly_bind; [|intros _]; apply quietly_Kill; intros e; (split; [auto|]; split; [done|]; eauto).
  - exists a, w', (mkEvent SPs None :: evs). split_and!; [done| |by constructor|done].
    rewrite T. cbn. by rewrite <-app_assoc.
Qed.

Lemma quietly_sendTerminateSignals w0 :
  ∃ a w' evs, sendTerminateSignals w0 = (Ret a, w') ∧ trace w' = trace w0 ++ evs ∧
    Forall (term_event w0) evs ∧ vars w' = vars w0.
Proof.
  unfold sendTerminateSignals. unfold mbind at 1. unfold M_bind at 1. cbn [mget].
  apply quietly_bind; [|intros _; by apply quietly_quiet].
  apply quietly_foreach. intros [i sig] Hin. destruct (progs w0 !! i) as [np|] eqn:Hi; [|apply quietly_ret].
  unfold sendTerminate. destruct (p_cmd np) as [c|] eqn:Hc; [|apply quietly_ret].
  destruct (cmd_Process c) as [pid|] eqn:Hp; [|apply quietly_ret].
  destruct (Z.leb_spec 0 (ExitCode (cmd_ProcessState c))); [apply quietly_ret|].
  apply quietly_Kill. intros e. exists i, np, c. done.
Qed.

Lemma quietly_flushDisk p : quietly flush_event (flushDisk p).
Proof.
  apply quietly_bind; [by apply quietly_try, tame_Open|]. intros [_|_]; [|apply quietly_ret].
  repeat first [by apply quietly_ignore, tame_plain | by apply quietly_quiet
    | apply quietly_bind; [|intros _]].
Qed.

Lemma quietly_flush :
  quietly flush_event (r ← mtry bootDisk; match r with inr _ => mret tt | inl p => flushDisk p end).
Proof.
  apply quietly_bind; [by apply quietly_try, tame_ReadFile|].
  intros [p|_]; [apply quietly_flushDisk|apply quietly_ret].
Qed.

Lemma quietly_sysrq d : quietly (writes_event sysrq d) (ignore (WriteFile sysrq d)).
Proof. apply quietly_ignore, tame_WriteFile; done. Qed.

Lemma shutdown_terms w w0 :
  w0 = set_initStatus statusPoweroff w →
  ∃ w1 evs, (if instantShutdown w then mret tt else sendTerminateSignals) w0 = (Ret tt, w1) ∧
    trace w1 = trace w ++ evs ∧ Forall (term_event w) evs ∧
    (instantShutdown w = true → evs = []) ∧ vars w1 = vars w0.
Proof.
  intros ->. destruct (instantShutdown w).
  - exists (set_initStatus statusPoweroff w), []. by rewrite app_nil_r.
  - destruct (quietly_sendTerminateSignals (set_initStatus statusPoweroff w))
      as ([] & w1 & evs & E & T & F & V). by exists w1, evs.
Qed.

Lemma shutdown_pause (b : bool) w :
  ∃ w1, (if b then mret tt else quiet (SSleep 250)) w = (Ret tt, w1) ∧
    trace w1 = trace w ++ (if b then [] else [mkEvent (SSleep 250) None]) ∧ vars w1 = vars w.
Proof.
  destruct b; [exists w; by rewrite app_nil_r|]. by exists (record (SSleep 250) None w).
Qed.

Lemma run_Reboot c w :
  c ≠ LINUX_REBOOT_CMD_CAD_OFF →
  ∃ err w', ignore (Reboot c) w = (match err with None => Halted | Some _ => Ret tt end, w') ∧
    trace w' = trace w ++ [mkEvent (SReboot c) err] ∧ vars w' = vars w.
Proof.
  intros Hc. unfold ignore, mtry, Reboot, plain, sys, sys_with, mbind, M_bind.
  destruct (k_fail _ _) as [[n e]|].
  - by exists (Some (Errno e)), (record (SReboot c) (Some (Errno e)) w).
  - exists None, (record (SReboot c) None w). by rewrite bool_decide_false.
Qed.

(** A shutdown does not panic and does not touch [Vinitd] or the programs. *)
Lemma safe_shutdown I `{!stable I} cmd : safe I (shutdown cmd).
Proof.
  apply safe_get. intros w0 Hw0. destruct (bool_decide _); [apply safe_ret|].
  apply safe_bind; [|intros _; apply safe_bind; [|intros _; apply safe_bind; [|intros _;
    apply safe_bind; [|intros _; apply safe_bind; [|intros _; apply safe_bind; [|intros _]]]]]].
  - apply safe_modify. intros w. by apply is_stable.
  - destruct (instantShutdown w0); [apply safe_ret|]. intros w Hw.
    destruct (quietly_sendTerminateSignals w) as (a & w' & evs & -> & _ & _ & V).
    split; [done|]. injection V as Hd _ _ _ _ Hp _ Hv _. by apply (is_stable w).
  - eapply safe_quietly; [apply _|apply quietly_killAll].
  - destruct (isFirecracker w0); [apply safe_ret|]. eapply safe_tame; [apply _|]. by apply (tame_quiet (λ _, True)).
  - eapply safe_quietly; [apply _|apply quietly_sysrq].
  - eapply safe_quietly; [apply _|apply quietly_sysrq].
  - apply safe_bind; [apply safe_try; eapply safe_tame; [apply _|]; by apply (tame_ReadFile (λ _, True))|].
    intros r. apply safe_bind.
    + destruct r; [eapply safe_quietly; [apply _|apply quietly_flushDisk]|apply safe_ret].
    + intros _. apply safe_ignore. intros w Hw. unfold Reboot, plain, sys, sys_with.
      destruct (k_fail _ _) as [[n e]|]; [split; [done|by apply (is_stable w)]|].
      split; [by case_bool_decide|]. by apply (is_stable w).
Qed.

(** *** The calls one by one *)

(** The signals to the programs that were started and have not exited, in the
    order of the map, and the wait for them. *)
Definition term_call (w : world) (s : nat * Z) : option syscall :=
  np ← progs w !! s.1;
  c ← p_cmd np;
  pid ← cmd_Process c;
  if (0 <=? ExitCode (cmd_ProcessState c))%Z then None else Some (SKill pid s.2).

Definition term_calls (w : world) : list syscall :=
  if instantShutdown w then [] else omap (term_call w) (terminateSignals w) ++ [SAwait (terminateWait w)].

(** Two signals to every process that is not a kernel thread. *)
Definition kill_calls (pl : list proc) : list syscall :=
  p ← pl; if userspace p then [SKill (Pid p) SIGINT; SKill (Pid p) SIGTERM] else [].

(** The list of the processes is call number [n]. *)
Definition kills_of (n : nat) (evs : list event) : Prop := ∃ err rest,
  evs = mkEvent SPs err :: rest ∧
  ev_call <$> rest = match err with None => kill_calls (k_procs n) | Some _ => [] end.

(** One [WriteFile]. *)
Definition write_of (p data : string) (evs : list event) : Prop :=
  (∃ e, evs = [mkEvent (SOpen p) (Some e)]) ∨
  (∃ q e, evs = [mkEvent (SOpen p) None; mkEvent (SWrite q data) e]).

(** [bootDisk] and, when the disk is known, [flushDisk]. *)
Definition flush_of (evs : list event) : Prop :=
  (∃ e, evs = [mkEvent (SOpen bootdev) (Some e)]) ∨
  (∃ e, evs = [mkEvent (SOpen bootdev) None; mkEvent (SRead bootdev) (Some e)]) ∨
  (∃ p rest, evs = mkEvent (SOpen bootdev) None :: mkEvent (SRead bootdev) None :: rest ∧
     ((∃ e, rest = [mkEvent (SOpen p) (Some e)]) ∨
      (∃ e1 e2, rest = [mkEvent (SOpen p) None; mkEvent (SIoctl p BLKFLSBUF []) e1; mkEvent (SSyncfs p) e2;
                        mkEvent (SClose p) None; mkEvent SSync None]))).

(** What a shutdown from [w] that ends with outcome [o] in [w'] has done. *)
Definition orderly (cmd : Z) (w : world) (o : outcome unit) (w' : world) : Prop :=
  ∃ terms kills sync remount flush err,
    trace w' = trace w ++ terms ++ kills
      ++ (if isFirecracker w then [] else [mkEvent (SSleep 250) None])
      ++ sync ++ remount ++ flush
      ++ [mkEvent (SReboot (if isFirecracker w then LINUX_REBOOT_CMD_RESTART else cmd)) err] ∧
    ev_call <$> terms = term_calls w ∧ kills_of (length (trace w) + length terms) kills ∧
    write_of sysrq "s" sync ∧ write_of sysrq "u" remount ∧ flush_of flush ∧
    initStatus w' = statusPoweroff ∧
    o = (match err with None => Halted | Some _ => Ret tt end).

(** [m] returns after exactly the calls [cs], some of which may have failed. *)
Definition issues (cs : list syscall) (m : OS unit) : Prop := ∀ w, ∃ w' evs,
  m w = (Ret tt, w') ∧ trace w' = trace w ++ evs ∧ ev_call <$> evs = cs.

Lemma issues_nil : issues [] (mret tt).
Proof. intros w. exists w, []. by rewrite app_nil_r. Qed.

Lemma issues_app c1 c2 m1 m2 : issues c1 m1 → issues c2 m2 → issues (c1 ++ c2) (m1;; m2).
Proof.
  intros H1 H2 w. destruct (H1 w) as (w1 & e1 & E1 & T1 & C1). destruct (H2 w1) as (w2 & e2 & E2 & T2 & C2).
  exists w2, (e1 ++ e2). rewrite (run_ret _ _ _ _ _ E1). split_and!; [done| |by rewrite fmap_app, C1, C2].
  by rewrite T2, T1, app_assoc.
Qed.

Lemma issues_foreach {A} (cs : A → list syscall) f l :
  (∀ x, issues (cs x) (f x)) → issues (l ≫= cs) (mforeach f l).
Proof. intros H. induction l as [|x l IH]; [apply issues_nil|]. cbn. by apply issues_app. Qed.

Lemma issues_quiet c : issues [c] (quiet c).
Proof. intros w. by exists (record c None w), [mkEvent c None]. Qed.

Lemma issues_call c : issues [c] (ignore (plain c)).
Proof.
  intros w. unfold ignore, mtry, plain, sys, sys_with, mbind, M_bind.
  destruct (k_fail _ c) as [[n e]|]; by do 2 eexists.
Qed.

Lemma issues_terms w0 :
  ∃ w' evs, (if instantShutdown w0 then mret tt else sendTerminateSignals) w0 = (Ret tt, w') ∧
    trace w' = trace w0 ++ evs ∧ ev_call <$> evs = term_calls w0.
Proof.
  unfold term_calls. destruct (instantShutdown w0); [apply issues_nil|]. unfold sendTerminateSignals. rewrite run_get.
  revert w0. assert (∀ w0, issues (omap (term_call w0) (terminateSignals w0) ++ [SAwait (terminateWait w0)])
    (mforeach (λ '(i, sig), match progs w0 !! i with Some np => sendTerminate np sig | None => mret tt end)
       (terminateSignals w0);; quiet (SAwait (terminateWait w0)))) as H; [|intros w0; apply H].
  intros w0. apply issues_app; [|apply issues_quiet].
  replace (omap (term_call w0) (terminateSignals w0)) with
    (terminateSignals w0 ≫= λ s, option_list (term_call w0 s)).
  - apply issues_foreach. intros [i sig]. unfold term_call, sendTerminate. cbn.
    destruct (progs w0 !! i) as [np|]; [|apply issues_nil]. cbn. destruct (p_cmd np) as [c|]; [|apply issues_nil].
    cbn. destruct (cmd_Process c); [|apply issues_nil]. cbn. case_match; [apply issues_nil|apply issues_call].
  - induction (terminateSignals w0) as [|s l IH]; [done|]. cbn. rewrite IH. by destruct (term_call w0 s).
Qed.

Lemma issues_kills w :
  ∃ w' evs, killAll w = (Ret tt, w') ∧ trace w' = trace w ++ evs ∧ kills_of (length (trace w)) evs.
Proof.
  unfold killAll, mtry, Processes, sys, sys_with, mbind at 1, M_bind at 1.
  destruct (k_fail _ SPs) as [[n e]|]; [do 2 eexists; split_and!; [done|done|]; by do 2 eexists|].
  assert (∀ pl, issues (kill_calls pl) (mforeach (λ p,
    if userspace p then Kill (Pid p) SIGINT;; Kill (Pid p) SIGTERM else mret tt) pl)) as H.
  { intros pl. apply issues_foreach. intros p. destruct (userspace p); [|apply issues_nil].
    apply (issues_app [_] [_]); apply issues_call. }
  destruct (H (k_procs (length (trace w))) (record SPs None w)) as (w' & evs & E & T & C).
  exists w', (mkEvent SPs None :: evs). split_and!; [done| |by do 2 eexists]. rewrite T. cbn. by rewrite <-app_assoc.
Qed.

(** A system call is one event, with the error it gives. *)
Lemma run_sys_with {A} c part (f : world → (A * world) + error) w :
  (∀ n, trace (part n w) = trace w) → (∀ a w', f w = inl (a, w') → trace w' = trace w) →
  ∃ r w', sys_with c part f w = (match r with inl a => Ret a | inr e => Fail e end, w') ∧
    trace w' = trace w ++ [mkEvent c (match r with inl _ => None | inr e => Some e end)].
Proof.
  intros Hpart Hf. unfold sys_with. destruct (k_fail _ c) as [[n e]|].
  - exists (inr (Errno e)). eexists. split; [done|]. cbn. by rewrite Hpart.
  - destruct (f w) as [[a w1]|e] eqn:E.
    + exists (inl a). eexists. split; [done|]. cbn. by rewrite (Hf a w1).
    + exists (inr e). by eexists.
Qed.

Lemma run_Open p w : ∃ r w', mtry (Open p) w = (Ret r, w') ∧
  trace w' = trace w ++ [mkEvent (SOpen p) (match r with inl _ => None | inr e => Some e end)].
Proof.
  destruct (run_sys_with (SOpen p) (λ _ w, w)
    (λ w, match lookup_node (fs w) p with Some _ => inl (tt, w) | None => inr ENOENT end) w)
    as (r & w' & E & T); [done|intros a w'; by destruct (lookup_node _ _); intros [=]; subst|].
  exists r, w'. split; [|done]. unfold mtry, Open, sys. rewrite E. by destruct r.
Qed.

Lemma issues_write p d w :
  ∃ w' evs, ignore (WriteFile p d) w = (Ret tt, w') ∧ trace w' = trace w ++ evs ∧ write_of p d evs.
Proof.
  unfold ignore, WriteFile, mtry, mbind, M_bind.
  assert (∃ r w1, OpenFile true true p w = (match r with inl a => Ret a | inr e => Fail e end, w1) ∧
    trace w1 = trace w ++ [mkEvent (SOpen p) (match r with inl _ => None | inr e => Some e end)])
    as ([q|e] & w1 & -> & T1).
  { apply run_sys_with; [done|]. intros a w'. by repeat case_match; intros [=]; subst. }
  2:{ do 2 eexists. split_and!; [done|exact T1|]. left. by eexists. }
  assert (∃ r w2, Write q d w1 = (match r with inl a => Ret a | inr e => Fail e end, w2) ∧
    trace w2 = trace w1 ++ [mkEvent (SWrite q d) (match r with inl _ => None | inr e => Some e end)])
    as (r & w2 & -> & T2).
  { apply run_sys_with; [done|]. by intros a w' [= _ <-]. }
  exists w2, [mkEvent (SOpen p) None; mkEvent (SWrite q d) (match r with inl _ => None | inr e => Some e end)].
  split_and!; [by destruct r|by rewrite T2, T1, <-app_assoc|]. right. by do 2 eexists.
Qed.

Lemma issues_flush w :
  ∃ w' evs, (r ← mtry bootDisk; match r with inr _ => mret tt | inl p => flushDisk p end) w = (Ret tt, w') ∧
    trace w' = trace w ++ evs ∧ flush_of evs.
Proof.
  assert (∃ r w1 evs, mtry bootDisk w = (Ret r, w1) ∧ trace w1 = trace w ++ evs ∧
    match r with
    | inl _ => evs = [mkEvent (SOpen bootdev) None; mkEvent (SRead bootdev) None]
    | inr _ => flush_of evs
    end) as ([p|e] & w1 & evs & E1 & T1 & Hevs).
  { unfold bootDisk, ReadFile. destruct (run_Open bootdev w) as ([[]|e] & w1 & E1 & T1); unfold mtry, mbind, M_bind in *;
      destruct (Open bootdev w) as [[] w1']; simplify_eq; [|eexists (inr _), _, _; split_and!; [done|exact T1|left; by eexists]].
    assert (∃ r w2, ReadAll bootdev w1 = (match r with inl a => Ret a | inr e => Fail e end, w2) ∧
      trace w2 = trace w1 ++ [mkEvent (SRead bootdev) (match r with inl _ => None | inr e => Some e end)])
      as (r & w2 & -> & T2).
    { apply run_sys_with; [done|]. intros a w'. by repeat case_match; intros [=]; subst. }
    rewrite T1, <-app_assoc in T2. exists r, w2. eexists. split_and!; [by destruct r|exact T2|].
    destruct r; [done|]. right. left. by eexists. }
  - subst evs. rewrite (run_ret _ _ _ _ _ E1). unfold flushDisk. destruct (run_Open p w1) as ([[]|e] & w2 & E2 & T2);
      rewrite (run_ret _ _ _ _ _ E2).
    + destruct (issues_call (SIoctl p BLKFLSBUF []) w2) as (w3 & e3 & E3 & T3 & C3). rewrite (run_ret _ _ _ _ _ E3).
      destruct (issues_call (SSyncfs p) w3) as (w4 & e4 & E4 & T4 & C4). rewrite (run_ret _ _ _ _ _ E4).
      destruct e3 as [|[c3 r3] [|]], e4 as [|[c4 r4] [|]]; simplify_eq/=.
      eexists _, _. split_and!; [done|cbn; rewrite T4, T3, T2, T1, <-!app_assoc; reflexivity|].
      right. right. exists p. eexists. split; [done|]. right. by do 2 eexists.
    + eexists _, _. split_and!; [done|rewrite T2, T1, <-app_assoc; reflexivity|].
      right. right. exists p. eexists. split; [done|]. left. by eexists.
  - rewrite (run_ret _ _ _ _ _ E1). by exists w1, evs.
Qed.

(** The command of the last call. *)
Definition reboot_cmd (w : world) (cmd : Z) : Z := if isFirecracker w then LINUX_REBOOT_CMD_RESTART else cmd.

(** Everything before the reboot call. *)
Lemma shutdown_steps cmd w :
  initStatus w ≠ statusPoweroff →
  ∃ w1 terms kills sync remount flush,
    shutdown cmd w = ignore (Reboot (reboot_cmd w cmd)) w1 ∧
    trace w1 = trace w ++ terms ++ kills
      ++ (if isFirecracker w then [] else [mkEvent (SSleep 250) None]) ++ sync ++ remount ++ flush ∧
    ev_call <$> terms = term_calls w ∧ kills_of (length (trace w) + length terms) kills ∧
    write_of sysrq "s" sync ∧ write_of sysrq "u" remount ∧ flush_of flush ∧
    initStatus w1 = statusPoweroff.
Proof.
  intros Hs. unfold shutdown. rewrite run_get, bool_decide_false by done.
  rewrite run_modify. set (w0 := set_initStatus statusPoweroff w).
  destruct (shutdown_terms w w0 eq_refl) as (w1 & _ & E1 & _ & _ & _ & V1).
  destruct (issues_terms w0) as (w1' & e1 & E1' & T1 & C1).
  change (instantShutdown w0) with (instantShutdown w) in E1'. rewrite E1 in E1'. injection E1' as <-.
  rewrite (run_ret _ _ _ _ _ E1).
  destruct (quietly_killAll w1) as ([] & w2 & _ & E2 & _ & _ & V2).
  destruct (issues_kills w1) as (w2' & e2 & E2' & T2 & C2). rewrite E2 in E2'. injection E2' as <-.
  rewrite (run_ret _ _ _ _ _ E2).
  destruct (shutdown_pause (isFirecracker w) w2) as (w3 & E3 & T3 & V3).
  rewrite (run_ret _ _ _ _ _ E3).
  destruct (quietly_sysrq "s" w3) as ([] & w4 & _ & E4 & _ & _ & V4).
  destruct (issues_write sysrq "s" w3) as (w4' & e4 & E4' & T4 & C4). rewrite E4 in E4'. injection E4' as <-.
  rewrite (run_ret _ _ _ _ _ E4).
  destruct (quietly_sysrq "u" w4) as ([] & w5 & _ & E5 & _ & _ & V5).
  destruct (issues_write sysrq "u" w4) as (w5' & e5 & E5' & T5 & C5). rewrite E5 in E5'. injection E5' as <-.
  rewrite (run_ret _ _ _ _ _ E5).
  destruct (quietly_flush w5) as ([] & w6 & _ & E6 & _ & _ & V6).
  destruct (issues_flush w5) as (w6' & e6 & E6' & T6 & C6). rewrite E6 in E6'. injection E6' as <-.
  rewrite <-run_assoc, (run_ret _ _ _ _ _ E6).
  exists w6, e1, e2, e4, e5, e6. split_and!; [done| |done| |done..|].
  - rewrite T6, T5, T4, T3, T2, T1. by rewrite <-!app_assoc.
  - by rewrite T1, length_app in C2.
  - assert (vars w6 = vars w0) as HV by congruence. by injection HV.
Qed.

Lemma reboot_cmd_down w cmd :
  cmd ≠ LINUX_REBOOT_CMD_CAD_OFF → reboot_cmd w cmd ≠ LINUX_REBOOT_CMD_CAD_OFF.
Proof. unfold reboot_cmd. by destruct (isFirecracker w). Qed.

Lemma shutdown_orderly cmd w :
  initStatus w ≠ statusPoweroff → cmd ≠ LINUX_REBOOT_CMD_CAD_OFF →
  orderly cmd w (shutdown cmd w).1 (shutdown cmd w).2.
Proof.
  intros Hs Hc. destruct (shutdown_steps cmd w Hs)
    as (w1 & e1 & e2 & e4 & e5 & e6 & -> & T & C1 & C2 & C4 & C5 & C6 & Hi).
  destruct (run_Reboot _ w1 (reboot_cmd_down w cmd Hc)) as (err & w7 & -> & T7 & V7).
  exists e1, e2, e4, e5, e6, err. cbn [fst snd]. split_and!; [|done..| |done].
  - rewrite T7, T. by rewrite <-!app_assoc.
  - by injection V7 as _ -> _ _ _ _ _ _ _.
Qed.

(** A machine that can be rebooted does not come back. *)
Lemma shutdown_halts cmd w :
  (∀ n c, k_fail n (SReboot c) = None) → initStatus w ≠ statusPoweroff → cmd ≠ LINUX_REBOOT_CMD_CAD_OFF →
  (shutdown cmd w).1 = Halted.
Proof.
  intros Hreb Hs Hc. destruct (shutdown_steps cmd w Hs) as (w1 & e1 & e2 & e4 & e5 & e6 & -> & _).
  unfold ignore, mtry, Reboot, plain, sys, sys_with, mbind, M_bind.
  rewrite Hreb, bool_decide_false; [done|]. by apply reboot_cmd_down.
Qed.

Lemma shutdown_again cmd w : initStatus w = statusPoweroff → shutdown cmd w = (Ret tt, w).
Proof. intros Hs. unfold shutdown. by rewrite run_get, bool_decide_true. Qed.

(** On a machine that can be rebooted an error shuts it down. *)
Lemma SystemPanic_halts (Hreb : ∀ n c, k_fail n (SReboot c) = None) w :
  initStatus w ≠ statusPoweroff →
  ∃ w', SystemPanic w = (Halted, w') ∧ orderly LINUX_REBOOT_CMD_POWER_OFF w Halted w'.
Proof.
  intros Hs. unfold SystemPanic.
  pose proof (shutdown_orderly LINUX_REBOOT_CMD_POWER_OFF w Hs ltac:(done)) as Ho.
  pose proof (shutdown_halts LINUX_REBOOT_CMD_POWER_OFF w Hreb Hs ltac:(done)) as Hh.
  destruct (shutdown _ w) as [o w']. cbn [fst snd] in *. subst o. eauto.
Qed.

Lemma SystemPanic_outcome w :
  (SystemPanic w).1 = Ret tt ∨ (SystemPanic w).1 = Halted.
Proof.
  unfold SystemPanic. destruct (decide (initStatus w = statusPoweroff)) as [H|H].
  { left. by rewrite shutdown_again. }
  destruct (shutdown_orderly LINUX_REBOOT_CMD_POWER_OFF w H ltac:(done))
    as (?&?&?&?&?&err&_&_&_&_&_&_&_&->). destruct err; auto.
Qed.

(** C5: A shutdown that starts runs its whole sequence whatever the kernel
    refuses on the way, call by call: its termination signal to every program
    that was started and has not exited, and the wait for them (both skipped when
    the shutdown is instant), the process list and two signals to every listed
    process whose number and whose parent's number are above 2 (so not to the
    children of init), the pause (not on Firecracker), the sysrq
    sync, the sysrq read-only remount, the flush of the boot disk, and last
    exactly one reboot call with the right command.  It never panics or errs, it
    returns only if that reboot call failed, and a later call does nothing. *)
Theorem shutdown_sequence cmd cmd' w :
  initStatus w ≠ statusPoweroff → cmd ≠ LINUX_REBOOT_CMD_CAD_OFF →
  let '(o, w') := shutdown cmd w in
  orderly cmd w o w' ∧ shutdown cmd' w' = (Ret tt, w').
Proof.
  intros Hs Hc. pose proof (shutdown_orderly cmd w Hs Hc) as H.
  destruct (shutdown cmd w) as [o w']. split; [done|]. apply shutdown_again.
  by destruct H as (?&?&?&?&?&?&_&_&_&_&_&_&H&_).
Qed.

(** ** The machine is asked to go down at most once

    Everything that can take the machine down goes through [shutdown]. *)

Inductive request :=
| ReqShutdown (cmd : Z)
| ReqPanic
| ReqSignal (sig : Z)
| ReqExit
| ReqReap (pid : Z)
| ReqWait (i : nat) (ps : option ProcessState).

Definition perform (r : request) : OS unit :=
  match r with
  | ReqShutdown cmd => shutdown cmd
  | ReqPanic => SystemPanic
  | ReqSignal sig => waitForSignal sig
  | ReqExit => handleExit
  | ReqReap pid => reapProcs pid
  | ReqWait i ps => waitForApp i ps
  end.

Definition is_reboot (e : event) : bool :=
  match ev_call e with SReboot _ => true | _ => false end.

Definition reboots (w : world) : nat := length (List.filter is_reboot (trace w)).

(** Reboot calls made, plus the one that may still come. *)
Definition budget (w : world) : nat :=
  (reboots w + if bool_decide (initStatus w = statusPoweroff) then 0 else 1)%nat.

Definition no_more : relation world := λ w w', (budget w' ≤ budget w)%nat.

#[local] Instance no_more_preorder : PreOrder no_more.
Proof. split; [intros w; unfold no_more; lia|intros w1 w2 w3; unfold no_more; lia]. Qed.

Lemma no_reboot_filter (P : event → Prop) evs :
  (∀ e, P e → is_reboot e = false) → Forall P evs → List.filter is_reboot evs = [].
Proof. intros H. induction 1 as [|e evs He _ IH]; [done|]. cbn. by rewrite H. Qed.

Lemma budget_add w w' evs :
  trace w' = trace w ++ evs → List.filter is_reboot evs = [] → vars w' = vars w →
  budget w' = budget w.
Proof.
  intros T F V. unfold budget, reboots. rewrite T, List.filter_app, F, app_nil_r.
  by injection V as _ -> _ _ _ _ _ _ _.
Qed.

Lemma keeps_tame {A} (P : event → Prop) (m : OS A) :
  (∀ e, P e → is_reboot e = false) → tame P m → keeps no_more m.
Proof.
  intros HP Hm w. destruct (Hm w) as (o & w' & evs & -> & T & F & V). unfold no_more. cbn [snd].
  rewrite (budget_add _ _ _ T (no_reboot_filter P evs HP F) V). reflexivity.
Qed.

Lemma no_reboot_calls evs :
  Forall (λ c, match c with SReboot _ => False | _ => True end) (ev_call <$> evs) → List.filter is_reboot evs = [].
Proof.
  induction evs as [|[[] e] evs IH]; cbn; [done|..]; intros H; apply Forall_cons in H as [? H]; by auto.
Qed.

Lemma term_calls_down w : Forall (λ c, match c with SReboot _ => False | _ => True end) (term_calls w).
Proof.
  unfold term_calls. destruct (instantShutdown w); [constructor|]. apply Forall_app. split; [|by repeat constructor].
  apply Forall_forall. intros c ([i sig] & _ & H)%list_elem_of_omap. unfold term_call in H.
  by repeat (case_match || apply bind_Some in H as (? & _ & H)); simplify_eq.
Qed.

Lemma kill_calls_down pl : Forall (λ c, match c with SReboot _ => False | _ => True end) (kill_calls pl).
Proof.
  apply Forall_forall. intros c (p & Hc & _)%list_elem_of_bind.
  destruct (userspace p); [|by apply elem_of_nil in Hc]. by repeat (apply elem_of_cons in Hc as [->|Hc]; [done|]); apply elem_of_nil in Hc.
Qed.

Lemma keeps_shutdown cmd : cmd ≠ LINUX_REBOOT_CMD_CAD_OFF → keeps no_more (shutdown cmd).
Proof.
  intros Hc w. destruct (decide (initStatus w = statusPoweroff)) as [Hs|Hs].
  { rewrite shutdown_again by done. reflexivity. }
  destruct (shutdown_orderly cmd w Hs Hc)
    as (e1 & e2 & e4 & e5 & e6 & err & T & C1 & C2 & C4 & C5 & C6 & Hs' & _).
  assert (List.filter is_reboot e1 = []) as F1.
  { apply no_reboot_calls. rewrite C1. apply term_calls_down. }
  assert (List.filter is_reboot e2 = []) as F2.
  { destruct C2 as (e & rest & -> & C2). cbn. apply no_reboot_calls. rewrite C2. destruct e; [constructor|apply kill_calls_down]. }
  assert (List.filter is_reboot e4 = [] ∧ List.filter is_reboot e5 = [] ∧ List.filter is_reboot e6 = []) as (F4 & F5 & F6).
  { unfold write_of, flush_of in *. by naive_solver. }
  unfold no_more, budget, reboots. rewrite T, Hs', !List.filter_app, F1, F2, F4, F5, F6.
  rewrite !length_app, (bool_decide_true (statusPoweroff = _)), bool_decide_false by done.
  destruct (isFirecracker w); cbn; lia.
Qed.

Lemma tame_Processes_exit :
  keeps no_more (mtry Processes).
Proof.
  apply (keeps_tame (λ e, ev_call e = SPs)).
  - unfold is_reboot. by intros e ->.
  - apply tame_try, tame_Processes. done.
Qed.

Lemma keeps_no_more_handleExit : keeps no_more handleExit.
Proof.
  apply keeps_bind; [apply _|apply tame_Processes_exit|]. intros r.
  apply keeps_bind; [apply _|apply keeps_get; apply _|]. intros w.
  apply keeps_if; [|apply keeps_ret; apply _].
  apply keeps_bind; [apply _| |intros _; by apply keeps_shutdown].
  apply keeps_if; [apply keeps_ret; apply _|].
  apply keeps_modify. intros w'. apply Nat.le_refl.
Qed.

Lemma keeps_no_more_progs f : keeps no_more (mmodify (λ w, set_progs (f w) w)).
Proof. apply keeps_modify. intros w. apply Nat.le_refl. Qed.

Lemma keeps_no_more_perform r :
  r ≠ ReqShutdown LINUX_REBOOT_CMD_CAD_OFF → keeps no_more (perform r).
Proof.
  intros Hr. destruct r as [cmd| |sig| |pid|i ps]; cbn [perform].
  - apply keeps_shutdown. congruence.
  - by apply keeps_shutdown.
  - unfold waitForSignal. apply keeps_if; by apply keeps_shutdown.
  - apply keeps_no_more_handleExit.
  - apply keeps_bind; [apply _|apply keeps_no_more_progs|]. intros _.
    apply keeps_no_more_handleExit.
  - apply keeps_bind; [apply _|apply keeps_get; apply _|]. intros w.
    destruct (progs w !! i) as [p|]; [|apply keeps_ret; apply _].
    apply keeps_bind; [apply _|apply keeps_no_more_progs|]. intros _.
    apply keeps_bind; [apply _| |intros _; apply keeps_no_more_handleExit].
    apply keeps_if; [apply keeps_panic; apply _|apply keeps_no_more_progs].
Qed.

(** C11: Whatever shutdown requests arrive one after the other (signals to init,
    exits seen by the reaper, by netlink or by a waiter, a system panic) and
    whatever the kernel refuses, reboot is called at most once. *)
Theorem at_most_one_reboot rs w :
  Forall (λ r, r ≠ ReqShutdown LINUX_REBOOT_CMD_CAD_OFF) rs → reboots w = 0%nat →
  (reboots (mforeach perform rs w).2 ≤ 1)%nat.
Proof.
  intros Hrs H0. assert (keeps no_more (mforeach perform rs)) as H.
  { apply keeps_foreach; [apply _|]. intros r Hr. apply keeps_no_more_perform.
    by apply (proj1 (Forall_forall _ _) Hrs). }
  specialize (H w). unfold no_more, budget in H. repeat case_bool_decide; lia.
Qed.

(** ** When the last program ends *)

Lemma negb_orb_count (a b : nat) : ((a =? 0) && (b =? 0) = (a + b =? 0))%nat.
Proof. by destruct a, b. Qed.

(** What listing the processes gives and records. *)
Definition listed (w : world) : list proc * option error :=
  match k_fail (length (trace w)) SPs with
  | None => (k_procs (length (trace w)), None)
  | Some (_, e) => ([], Some (Errno e))
  end.

(** Nothing is left to run: no user process but the helpers, and every program
    started and ended. *)
Definition idle (w : world) : bool :=
  negb (existsb counted (listed w).1 || existsb prog_counted (progs w)).

Lemma handleExit_run w :
  let w1 := record SPs (listed w).2 w in
  handleExit w =
    if idle w && negb (bool_decide (initStatus w = statusPoweroff))
    then shutdown LINUX_REBOOT_CMD_POWER_OFF (set_instantShutdown true w1)
    else (Ret tt, w1).
Proof.
  assert (∀ {A} (f : A → bool) l, (length (List.filter f l) =? 0)%nat = negb (existsb f l)) as Hf.
  { intros A f l. induction l as [|x l IH]; [done|]. cbn. by destruct (f x). }
  assert (∀ rpo w1, progs w1 = progs w → initStatus w1 = initStatus w →
    (if (length (List.filter counted rpo) + length (List.filter prog_counted (progs w1)) =? 0)%nat
     then ((if bool_decide (initStatus w1 = statusPoweroff) then mret tt
            else mmodify (set_instantShutdown true));; shutdown LINUX_REBOOT_CMD_POWER_OFF)
     else mret tt) w1 =
    if negb (existsb counted rpo || existsb prog_counted (progs w))
       && negb (bool_decide (initStatus w = statusPoweroff))
    then shutdown LINUX_REBOOT_CMD_POWER_OFF (set_instantShutdown true w1)
    else (Ret tt, w1)) as Hrest.
  { intros rpo w1 -> Hi. rewrite <-negb_orb_count, !Hf, <-Hi.
    destruct (existsb counted rpo), (existsb prog_counted (progs w)); try done.
    cbn [negb andb orb]. case_bool_decide as Hp; [|done]. by apply shutdown_again. }
  unfold handleExit, idle, listed, mtry, Processes, sys, sys_with.
  destruct (k_fail _ SPs) as [[n e]|] eqn:Ek; cbn zeta.
  - rewrite (run_ret _ _ _ (inr (Errno e)) (record SPs (Some (Errno e)) w)) by (by rewrite Ek).
    rewrite run_get. by apply Hrest.
  - rewrite (run_ret _ _ _ (inl (k_procs (length (trace w)))) (record SPs None w)) by (by rewrite Ek).
    rewrite run_get. by apply Hrest.
Qed.

(** [handleExit] powers the machine off exactly when no user process but
    chronyd and fluent-bit is listed, every program was started and has ended,
    and no shutdown runs yet; it is then the orderly power-off without signals
    to programs.  Otherwise it only lists the processes. *)
Theorem handleExit_decides w :
  let w1 := record SPs (listed w).2 w in
  let '(o, w') := handleExit w in
  if idle w && negb (bool_decide (initStatus w = statusPoweroff))
  then orderly LINUX_REBOOT_CMD_POWER_OFF (set_instantShutdown true w1) o w'
  else (o, w') = (Ret tt, w1).
Proof.
  cbn zeta. rewrite handleExit_run. destruct (idle w); cbn [andb]; [|done].
  case_bool_decide as Hs; cbn [negb]; [done|].
  pose proof (shutdown_orderly LINUX_REBOOT_CMD_POWER_OFF
    (set_instantShutdown true (record SPs (listed w).2 w)) Hs) as H.
  destruct (shutdown _ _) as [o w']. by apply H.
Qed.

(** A program that a signal ended (its wait gave a process state, which has
    no exit code) is counted as running: as long as it is in the list,
    [handleExit] does not power the machine off, whatever else has ended. *)
Theorem handleExit_signaled_stays_up w p c sig :
  p ∈ progs w → p_cmd p = Some c → cmd_ProcessState c = Some (SignaledBy sig) →
  handleExit w = (Ret tt, record SPs (listed w).2 w).
Proof.
  intros Hp Hc Hs. rewrite handleExit_run. unfold idle.
  replace (existsb prog_counted (progs w)) with true; [by rewrite orb_true_r|].
  symmetry. apply existsb_exists. exists p. split; [by apply list_elem_of_In|].
  unfold prog_counted. by rewrite Hc, Hs.
Qed.

(** ** The shutdown of a healthy machine *)

Definition same_fs : relation world := λ w w', fs w' = fs w.

#[local] Instance same_fs_preorder : PreOrder same_fs.
Proof. split; [done|]. intros w1 w2 w3. unfold same_fs. congruence. Qed.

Lemma same_fs_plain c : keeps same_fs (plain c).
Proof. intros w. unfold plain, sys, sys_with. by destruct (k_fail _ _) as [[]|]. Qed.

Lemma same_fs_Kill pid sig : keeps same_fs (Kill pid sig).
Proof. apply keeps_ignore; [apply _|apply same_fs_plain]. Qed.

Lemma same_fs_killAll : keeps same_fs killAll.
Proof.
  apply keeps_bind; [apply _| |].
  - apply keeps_try. intros w. unfold Processes, sys, sys_with. by destruct (k_fail _ _) as [[]|].
  - intros [pl|_]; [|apply keeps_ret; apply _]. apply keeps_foreach; [apply _|]. intros p _.
    apply keeps_if; [|apply keeps_ret; apply _].
    apply keeps_bind; [apply _|apply same_fs_Kill|intros _; apply same_fs_Kill].
Qed.

Lemma same_fs_sendTerminateSignals : keeps same_fs sendTerminateSignals.
Proof.
  apply keeps_bind; [apply _|apply keeps_get; apply _|]. intros w.
  apply keeps_bind; [apply _| |by intros _ w'].
  apply keeps_foreach; [apply _|]. intros [i sig] _.
  destruct (progs w !! i) as [np|]; [|apply keeps_ret; apply _]. unfold sendTerminate.
  destruct (p_cmd np) as [c|]; [|apply keeps_ret; apply _].
  destruct (cmd_Process c); [|apply keeps_ret; apply _].
  apply keeps_if; [apply keeps_ret; apply _|apply same_fs_Kill].
Qed.

(** The calls from the sysrq sync to the end. *)
Definition final_calls (d : string) (cmd : Z) : list syscall :=
  [SOpen sysrq; SWrite sysrq "s"; SOpen sysrq; SWrite sysrq "u";
   SOpen bootdev; SRead bootdev; SOpen d; SIoctl d BLKFLSBUF []; SSyncfs d; SClose d;
   SSync; SReboot cmd].

Section healthy.
Context (Hok : ∀ n c, k_fail n c = None).

Lemma ok_flushDisk d y w :
  abs_path d = d → fs w !! d = Some (File y) →
  ∃ w', flushDisk d w = (Ret tt, w') ∧ fs w' = fs w ∧
    calls w' = calls w ++ [SOpen d; SIoctl d BLKFLSBUF []; SSyncfs d; SClose d; SSync].
Proof.
  intros Hc Hd. unfold flushDisk.
  rewrite (run_ret _ _ _ _ _ (ok_try _ _ _ _ (ok_Open Hok _ _ _ Hc Hd))).
  rewrite (run_ret _ _ _ _ _ (ok_ignore _ _ _ _ (ok_plain Hok _ _))).
  rewrite (run_ret _ _ _ _ _ (ok_ignore _ _ _ _ (ok_plain Hok _ _))).
  eexists. split; [reflexivity|]. split; [done|]. by rewrite !calls_record, <-!app_assoc.
Qed.

Lemma ok_sysrq x data w :
  fs w !! sysrq = Some (File x) →
  ∃ w', ignore (WriteFile sysrq data) w = (Ret tt, w') ∧ fs w' = <[sysrq := File data]> (fs w) ∧
    calls w' = calls w ++ [SOpen sysrq; SWrite sysrq data].
Proof.
  intros Hx. rewrite (ok_ignore _ _ _ _ (ok_WriteFile Hok sysrq x data w eq_refl Hx)).
  eexists. split; [reflexivity|]. split.
  - cbn [record set_file set_fs set_trace fs]. apply insert_insert_eq.
  - rewrite calls_record. change (calls (set_file sysrq data ?w)) with (calls w).
    rewrite calls_record. change (calls (set_file sysrq "" w)) with (calls w). by rewrite <-app_assoc.
Qed.

(** The part of a shutdown after the signals. *)
Lemma ok_final d x y cmd w :
  fs w !! sysrq = Some (File x) → fs w !! bootdev = Some (File d) →
  abs_path d = d → d ≠ sysrq → fs w !! d = Some (File y) → cmd ≠ LINUX_REBOOT_CMD_CAD_OFF →
  ∃ w', (ignore (WriteFile sysrq "s");; ignore (WriteFile sysrq "u");;
         r ← mtry bootDisk;
         (match r with inr _ => mret tt | inl p => flushDisk p end);;
         ignore (Reboot cmd)) w = (Halted, w') ∧
    calls w' = calls w ++ final_calls d cmd.
Proof.
  intros Hx Hb Hc Hne Hd Hcmd.
  destruct (ok_sysrq x "s" w Hx) as (w1 & E1 & F1 & C1). rewrite (run_ret _ _ _ _ _ E1).
  destruct (ok_sysrq "s" "u" w1) as (w2 & E2 & F2 & C2); [by rewrite F1, lookup_insert_eq|].
  rewrite (run_ret _ _ _ _ _ E2).
  assert (∀ p n, p ≠ sysrq → fs w !! p = Some n → fs w2 !! p = Some n) as Hk.
  { intros p n Hp Hl. by rewrite F2, lookup_insert_ne, F1, lookup_insert_ne. }
  unfold bootDisk. rewrite (run_ret _ _ _ _ _ (ok_try _ _ _ _
    (ok_ReadFile Hok bootdev d w2 eq_refl (Hk bootdev _ ltac:(done) Hb)))).
  destruct (ok_flushDisk d y (record (SRead bootdev) None (record (SOpen bootdev) None w2)))
    as (w3 & E3 & F3 & C3); [done|by apply (Hk d)|].
  rewrite (run_ret _ _ _ _ _ E3).
  exists (record (SReboot cmd) None w3). split.
  - unfold ignore, mtry, Reboot, mbind, M_bind. rewrite (ok_plain Hok). by rewrite bool_decide_false.
  - rewrite calls_record, C3, !calls_record, C2, C1, <-!app_assoc. done.
Qed.

(** When the kernel refuses nothing and the boot device is known, a shutdown
    ends the machine, and its last calls are, in this order: sysrq sync, sysrq
    read-only remount, the flush and sync of the boot disk, the global sync,
    and the reboot. *)
Theorem shutdown_syncs_disk cmd d x y w :
  initStatus w ≠ statusPoweroff → cmd ≠ LINUX_REBOOT_CMD_CAD_OFF →
  fs w !! sysrq = Some (File x) → fs w !! bootdev = Some (File d) →
  abs_path d = d → d ≠ sysrq → fs w !! d = Some (File y) →
  ∃ before w', shutdown cmd w = (Halted, w') ∧
    calls w' = before ++ final_calls d (if isFirecracker w then LINUX_REBOOT_CMD_RESTART else cmd).
Proof.
  intros Hs Hcmd Hx Hb Hc Hne Hd. unfold shutdown. rewrite run_get, bool_decide_false by done.
  rewrite run_modify. set (w0 := set_initStatus statusPoweroff w).
  destruct (shutdown_terms w w0 eq_refl) as (w1 & e1 & E1 & _).
  assert (fs w1 = fs w) as F1.
  { pose proof (same_fs_sendTerminateSignals w0) as H. destruct (instantShutdown w);
      [by injection E1 as <-|]. unfold same_fs in H. by rewrite E1 in H. }
  rewrite (run_ret _ _ _ _ _ E1).
  destruct (quietly_killAll w1) as ([] & w2 & e2 & E2 & _).
  assert (fs w2 = fs w1) as F2.
  { pose proof (same_fs_killAll w1) as H. unfold same_fs in H. by rewrite E2 in H. }
  rewrite (run_ret _ _ _ _ _ E2).
  destruct (shutdown_pause (isFirecracker w) w2) as (w3 & E3 & _).
  assert (fs w3 = fs w) as F3.
  { rewrite <-F1, <-F2. destruct (isFirecracker w); by injection E3 as <-. }
  rewrite (run_ret _ _ _ _ _ E3).
  destruct (ok_final d x y (if isFirecracker w then LINUX_REBOOT_CMD_RESTART else cmd) w3)
    as (w4 & E4 & C4); rewrite ?F3; try done; [by destruct (isFirecracker w)|].
  exists (calls w3), w4. by rewrite E4.
Qed.
End healthy.
End theorems.

(** ** Witnesses *)

Lemma shutdown_sequence_witness :
  let '(o, w') := @shutdown calm LINUX_REBOOT_CMD_POWER_OFF ex_world in
  @orderly calm LINUX_REBOOT_CMD_POWER_OFF ex_world o w' ∧ @shutdown calm 0 w' = (Ret tt, w').
Proof. apply (@shutdown_sequence calm LINUX_REBOOT_CMD_POWER_OFF 0 ex_world); done. Defined.

Lemma at_most_one_reboot_witness :
  (reboots (mforeach (@perform calm) [ReqSignal SIGPWR; ReqExit; ReqPanic] ex_world).2 ≤ 1)%nat.
Proof. apply (@at_most_one_reboot calm); [by repeat constructor|done]. Defined.

(** A program killed by signal 9. *)
Definition ex_cmd : Cmd := mkCmd "/bin/app" [] [] "/" 0 0 [] "/dev/vtty" "/dev/vtty" (Some 103%Z) (Some (SignaledBy 9)).
Definition ex_killed : program :=
  mkprogram "/bin/app" (mkProgram "/bin/app" [] "/" "" "" [] false RootPrivilege "" []) 0 true [] [] (Some ex_cmd) true.

Lemma handleExit_signaled_stays_up_witness :
  @handleExit calm (set_progs [ex_killed] ex_world) =
    (Ret tt, record SPs None (set_progs [ex_killed] ex_world)).
Proof.
  apply (@handleExit_signaled_stays_up calm (set_progs [ex_killed] ex_world) ex_killed ex_cmd 9);
    [by left|done|done].
Defined.

Lemma shutdown_syncs_disk_witness :
  ∃ before w', @shutdown calm LINUX_REBOOT_CMD_RESTART ex_world = (Halted, w') ∧
    calls w' = before ++ final_calls "/dev/sda" LINUX_REBOOT_CMD_RESTART.
Proof.
  apply (@shutdown_syncs_disk calm (λ _ _, eq_refl) LINUX_REBOOT_CMD_RESTART "/dev/sda" "" "" ex_world);
    done.
Defined.
