(* ===== verification/Shutdown.v ===== *)
(** * Concurrent shutdowns ([shutdown] of [src/pkg/vorteil/process.go])

    The power button, the signals, the VMware tools, the exit of the last program
    and every [SystemPanic] call [shutdown] on goroutines of their own, while the
    main goroutine may still be booting and assigns [initStatus] at the end of
    [PostSetup] and of [Launch].  [initStatus] is a plain variable: the test at the
    beginning of [shutdown] and the assignment after it are two steps.  The step
    relation interleaves the goroutines; what a shutdown does between its
    assignment and its last call is one step on the [world] of [Process]. *)

From S2P Require Import Prelude GoStrings GoPath Types BlockDev Os Process.
Local Open Scope string_scope.

Section steps.
Context `{K : kernel}.

(** [shutdown] after its assignment, up to the last call. *)
Definition shutdown_work : OS unit :=
  w ← mget;
  (if instantShutdown w then mret tt else sendTerminateSignals);;
  killAll;;
  (if isFirecracker w then mret tt else quiet (SSleep 250));;
  ignore (WriteFile sysrq "s");;
  ignore (WriteFile sysrq "u");;
  r ← mtry bootDisk;
  match r with inr _ => mret tt | inl p => flushDisk p end.

(** The last call. *)
Definition shutdown_end (cmd : Z) : OS unit :=
  w ← mget;
  ignore (Reboot (reboot_cmd w cmd)).

(** Where a goroutine that was asked to shut down is. *)
Inductive pc :=
| AtCheck (cmd : Z)
| AtSet (cmd : Z)
| AtWork (cmd : Z)
| AtEnd (cmd : Z)
| Gone.

(** The world, the goroutines, the assignments of the boot that are still to
    come, and the command with which the machine went down. *)
Record machine := mkMachine {
  mw : world;
  threads : list pc;
  boot : list status;
  down : option Z
}.

Definition move (i : nat) (p : pc) (w : world) (s : machine) : machine :=
  mkMachine w (<[i := p]> (threads s)) (boot s) (down s).

Inductive sd_step (s : machine) : machine → Prop :=
| step_request cmd :
    down s = None → sd_step s (mkMachine (mw s) (threads s ++ [AtCheck cmd])%list (boot s) None)
| step_boot st l :
    down s = None → boot s = st :: l →
    sd_step s (mkMachine (set_initStatus st (mw s)) (threads s) l None)
| step_return i cmd :
    down s = None → threads s !! i = Some (AtCheck cmd) → initStatus (mw s) = statusPoweroff →
    sd_step s (move i Gone (mw s) s)
| step_enter i cmd :
    down s = None → threads s !! i = Some (AtCheck cmd) → initStatus (mw s) ≠ statusPoweroff →
    sd_step s (move i (AtSet cmd) (mw s) s)
| step_set i cmd :
    down s = None → threads s !! i = Some (AtSet cmd) →
    sd_step s (move i (AtWork cmd) (set_initStatus statusPoweroff (mw s)) s)
| step_work i cmd u w :
    down s = None → threads s !! i = Some (AtWork cmd) → shutdown_work (mw s) = (Ret u, w) →
    sd_step s (move i (AtEnd cmd) w s)
| step_end i cmd u w :
    down s = None → threads s !! i = Some (AtEnd cmd) → shutdown_end cmd (mw s) = (Ret u, w) →
    sd_step s (move i Gone w s)
| step_down i cmd w :
    down s = None → threads s !! i = Some (AtEnd cmd) → shutdown_end cmd (mw s) = (Halted, w) →
    sd_step s (mkMachine w (<[i := Gone]> (threads s)) (boot s) (Some (reboot_cmd (mw s) cmd))).

Abbreviation steps := (rtc sd_step).

(** ** One goroutine alone is [shutdown] *)

Lemma work_returns w :
  ∃ w' evs, shutdown_work w = (Ret tt, w') ∧ trace w' = (trace w ++ evs)%list ∧ vars w' = vars w.
Proof.
  unfold shutdown_work. rewrite run_get.
  assert (∃ w1 evs, (if instantShutdown w then mret tt else sendTerminateSignals) w = (Ret tt, w1) ∧
    trace w1 = (trace w ++ evs)%list ∧ vars w1 = vars w) as (w1 & e1 & E1 & T1 & V1).
  { destruct (instantShutdown w); [exists w, []; by rewrite app_nil_r|].
    destruct (quietly_sendTerminateSignals w) as ([] & w1 & evs & ? & ? & _ & ?). by exists w1, evs. }
  rewrite (run_ret _ _ _ _ _ E1).
  destruct (quietly_killAll w1) as ([] & w2 & e2 & E2 & T2 & _ & V2). rewrite (run_ret _ _ _ _ _ E2).
  destruct (shutdown_pause (isFirecracker w) w2) as (w3 & E3 & T3 & V3). rewrite (run_ret _ _ _ _ _ E3).
  destruct (quietly_sysrq "s" w3) as ([] & w4 & e4 & E4 & T4 & _ & V4). rewrite (run_ret _ _ _ _ _ E4).
  destruct (quietly_sysrq "u" w4) as ([] & w5 & e5 & E5 & T5 & _ & V5). rewrite (run_ret _ _ _ _ _ E5).
  destruct (quietly_flush w5) as ([] & w6 & e6 & E6 & T6 & _ & V6). rewrite E6.
  eexists w6, _. split_and!; [done| |congruence]. rewrite T6, T5, T4, T3, T2, T1. by rewrite <-!app_assoc.
Qed.

Lemma shutdown_split cmd w :
  initStatus w ≠ statusPoweroff →
  shutdown cmd w = (shutdown_work;; shutdown_end cmd) (set_initStatus statusPoweroff w).
Proof.
  intros Hs. destruct (work_returns (set_initStatus statusPoweroff w)) as (w' & evs & E & _ & V).
  rewrite (run_ret _ _ _ _ _ E). unfold shutdown_end. rewrite run_get.
  assert (reboot_cmd w' cmd = reboot_cmd w cmd) as ->.
  { unfold reboot_cmd. injection V as _ _ _ -> _ _ _ _ _. done. }
  unfold shutdown. rewrite run_get, bool_decide_false by done. rewrite run_modify.
  fold (reboot_cmd w cmd). unfold shutdown_work in E. rewrite run_get in E. cbn [instantShutdown isFirecracker set_initStatus] in E.
  revert E. generalize (set_initStatus statusPoweroff w). intros w0.
  unfold mbind, M_bind. set (m1 := if instantShutdown w then _ else _). destruct (m1 w0) as [[] w1]; try done.
  destruct (killAll w1) as [[] w2]; try done. set (m2 := if isFirecracker w then _ else _).
  destruct (m2 w2) as [[] w3]; try done.
  destruct (ignore _ w3) as [[] w4]; try done. destruct (ignore _ w4) as [[] w5]; try done.
  destruct (mtry bootDisk w5) as [[r| | |] w6]; try done. destruct r as [p|e]; [by intros ->|by intros [= ->]].
Qed.
(** A goroutine that is not disturbed between its test and its last call
    performs exactly the sequential [shutdown]: the same world, and the machine is
    down with its command exactly when [shutdown] does not come back. *)
Theorem undisturbed_is_shutdown s i cmd :
  down s = None → threads s !! i = Some (AtCheck cmd) → initStatus (mw s) ≠ statusPoweroff →
  cmd ≠ LINUX_REBOOT_CMD_CAD_OFF →
  ∃ s', steps s s' ∧ mw s' = (shutdown cmd (mw s)).2 ∧
    threads s' = <[i := Gone]> (threads s) ∧ boot s' = boot s ∧
    down s' = match (shutdown cmd (mw s)).1 with Halted => Some (reboot_cmd (mw s) cmd) | _ => None end.
Proof.
  intros Hd Hi Hs Hc. rewrite shutdown_split by done.
  set (w0 := set_initStatus statusPoweroff (mw s)).
  destruct (work_returns w0) as (w1 & evs & E & _ & V). rewrite (run_ret _ _ _ _ _ E).
  pose proof (lookup_lt_Some _ _ _ Hi) as Hl.
  set (s1 := move i (AtSet cmd) (mw s) s). set (s2 := move i (AtWork cmd) w0 s1). set (s3 := move i (AtEnd cmd) w1 s2).
  assert (steps s s3) as Hsteps.
  { eapply rtc_l; [by apply (step_enter _ i cmd)|]. eapply rtc_l; [apply (step_set _ i cmd); [done|]|].
    { cbn. by apply list_lookup_insert_eq. }
    eapply rtc_l; [apply (step_work _ i cmd tt w1); [done|..|done]|done].
    cbn. rewrite list_insert_insert_eq. by apply list_lookup_insert_eq. }
  assert (threads s3 = <[i := AtEnd cmd]> (threads s)) as Ht by (cbn; by rewrite !list_insert_insert_eq).
  assert (threads s3 !! i = Some (AtEnd cmd)) as Hi3 by (rewrite Ht; by apply list_lookup_insert_eq).
  assert (reboot_cmd w1 cmd = reboot_cmd (mw s) cmd) as Hr.
  { unfold reboot_cmd. injection V as _ _ _ -> _ _ _ _ _. done. }
  destruct (run_Reboot (reboot_cmd w1 cmd) w1 (reboot_cmd_down w1 cmd Hc)) as (err & w2 & E2 & _ & _).
  assert (shutdown_end cmd w1 = (match err with None => Halted | Some _ => Ret tt end, w2)) as E3.
  { unfold shutdown_end. by rewrite run_get. }
  rewrite E3. cbn [fst snd]. destruct err as [e|].
  - exists (move i Gone w2 s3). split; [eapply rtc_r; [exact Hsteps|by eapply step_end]|].
    split_and!; [done| |done|done]. unfold move. cbn [threads]. by rewrite Ht, list_insert_insert_eq.
  - exists (mkMachine w2 (<[i := Gone]> (threads s3)) (boot s3) (Some (reboot_cmd (mw s3) cmd))).
    split; [eapply rtc_r; [exact Hsteps|by eapply step_down]|].
    split_and!; [done| |done|cbn; by rewrite Hr]. cbn [threads]. by rewrite Ht, list_insert_insert_eq.
Qed.

(** ** The first shutdown decides *)

Definition inside (p : pc) : bool := match p with AtSet _ | AtWork _ | AtEnd _ => true | _ => false end.

(** Goroutine [i] is the only one in the sequence, and nothing will change the
    status any more. *)
Record owns (i : nat) (cmd : Z) (fire : bool) (s : machine) : Prop := {
  ow_boot : boot s = [];
  ow_status : initStatus (mw s) = statusPoweroff;
  ow_fire : isFirecracker (mw s) = fire;
  ow_inside j p : threads s !! j = Some p → inside p = true → j = i ∧ (p = AtWork cmd ∨ p = AtEnd cmd)
}.

Lemma owns_move i cmd fire s j p w :
  owns i cmd fire s → initStatus w = statusPoweroff → isFirecracker w = fire →
  (inside p = true → j = i ∧ (p = AtWork cmd ∨ p = AtEnd cmd)) →
  owns i cmd fire (move j p w s).
Proof.
  intros [H1 H2 H3 H4] Hs Hf Hp. split; [done..|]. cbn. intros k q Hk Hq.
  destruct (decide (j = k)) as [<-|Hne].
  - apply list_lookup_insert_Some in Hk as [(_ & <- & _)|(? & _)]; [|done]. by apply Hp.
  - rewrite list_lookup_insert_ne in Hk by done. by eapply H4.
Qed.

Lemma end_vars cmd w o w' : cmd ≠ LINUX_REBOOT_CMD_CAD_OFF → shutdown_end cmd w = (o, w') → vars w' = vars w.
Proof.
  intros Hc. unfold shutdown_end. rewrite run_get.
  destruct (run_Reboot (reboot_cmd w cmd) w (reboot_cmd_down w cmd Hc)) as (err & w1 & -> & _ & V). by intros [= _ <-].
Qed.

Lemma owns_step i cmd fire s s' :
  cmd ≠ LINUX_REBOOT_CMD_CAD_OFF → owns i cmd fire s → sd_step s s' →
  owns i cmd fire s' ∧ (down s' = None ∨ down s' = Some (if fire then LINUX_REBOOT_CMD_RESTART else cmd)).
Proof.
  intros Hc Ho Hstep. pose proof Ho as [H1 H2 H3 H4].
  destruct Hstep as [c Hd|st l Hd Hb|j c Hd Hj Hs|j c Hd Hj Hs|j c Hd Hj|j c u w Hd Hj E|j c u w Hd Hj E|j c w Hd Hj E].
  - split; [|by left]. split; [done..|]. cbn. intros j p [Hj|[_ Hj]]%lookup_app_Some; [by apply H4|].
    intros Hp. by apply list_lookup_singleton_Some in Hj as [_ <-].
  - by rewrite Hb in H1.
  - split; [by apply owns_move|by left].
  - by rewrite H2 in Hs.
  - destruct (H4 _ _ Hj eq_refl) as [_ [?|?]]; done.
  - destruct (H4 _ _ Hj eq_refl) as [-> [[= ->]|?]]; [|done]. split; [|by left].
    destruct (work_returns (mw s)) as (w' & evs & E' & _ & V). rewrite E in E'. injection E' as _ <-.
    injection V as _ V1 _ V2 _ _ _ _ _. apply owns_move; [done|congruence|congruence|by auto].
  - destruct (H4 _ _ Hj eq_refl) as [-> [?|[= ->]]]; [done|]. split; [|by left].
    pose proof (end_vars _ _ _ _ Hc E) as V. injection V as _ V1 _ V2 _ _ _ _ _. apply owns_move; congruence || done.
  - destruct (H4 _ _ Hj eq_refl) as [-> [?|[= ->]]]; [done|].
    pose proof (end_vars _ _ _ _ Hc E) as V. injection V as _ V1 _ V2 _ _ _ _ _.
    split; [|right; cbn; unfold reboot_cmd; by rewrite H3].
    destruct (owns_move i cmd fire s i Gone w Ho) as [G1 G2 G3 G4]; [congruence..|done|]. by split.
Qed.
Lemma owns_steps i cmd fire s s' :
  cmd ≠ LINUX_REBOOT_CMD_CAD_OFF → owns i cmd fire s → down s = None → steps s s' →
  owns i cmd fire s' ∧ (down s' = None ∨ down s' = Some (if fire then LINUX_REBOOT_CMD_RESTART else cmd)).
Proof.
  intros Hc Ho Hd. revert s'. apply rtc_ind_r; [by auto|]. intros s1 s2 _ H2 [Ho1 _]. by eapply owns_step.
Qed.

(** C10: Once the boot is over and one goroutine alone is past its assignment of
    [initStatus], that goroutine decides: however many further requests arrive and
    however the goroutines interleave, no other one enters the sequence, and the
    machine can go down only with the command of the first. *)
Theorem first_shutdown_decides i cmd s s' :
  cmd ≠ LINUX_REBOOT_CMD_CAD_OFF → owns i cmd (isFirecracker (mw s)) s → down s = None → steps s s' →
  (∀ c, down s' = Some c → c = reboot_cmd (mw s) cmd) ∧
  (∀ j p, threads s' !! j = Some p → inside p = true → j = i).
Proof.
  intros Hc Ho Hd Hs. destruct (owns_steps _ _ _ _ _ Hc Ho Hd Hs) as [[_ _ _ H] Hdown]. split.
  - intros c E. unfold reboot_cmd. destruct Hdown as [Hn|Hn]; congruence.
  - intros j p Hj Hp. by destruct (H j p Hj Hp).
Qed.

(** A goroutine past its assignment takes the machine down. *)
Lemma working_thread_downs (Hreb : ∀ n c, k_fail n (SReboot c) = None) s i cmd :
  down s = None → threads s !! i = Some (AtWork cmd) → cmd ≠ LINUX_REBOOT_CMD_CAD_OFF →
  ∃ s', steps s s' ∧ down s' = Some (reboot_cmd (mw s) cmd).
Proof.
  intros Hd Hi Hc. destruct (work_returns (mw s)) as (w1 & evs & E & _ & V).
  pose proof (lookup_lt_Some _ _ _ Hi) as Hl. set (s1 := move i (AtEnd cmd) w1 s).
  assert (∃ w2, shutdown_end cmd w1 = (Halted, w2)) as [w2 E2].
  { unfold shutdown_end, ignore, mtry, Reboot, plain, sys, sys_with, mbind, M_bind. cbn [mget].
    rewrite Hreb, bool_decide_false; [by eexists|]. by apply reboot_cmd_down. }
  eexists. split; [eapply rtc_l; [by eapply step_work|]; eapply rtc_l; [|done]; apply (step_down s1 i cmd w2)|].
  - done.
  - cbn. by apply list_lookup_insert_eq.
  - done.
  - cbn. unfold reboot_cmd. injection V as _ _ _ -> _ _ _ _ _. done.
Qed.

(** C21: The guard of [shutdown] is not enough while goroutines overlap or the
    boot is not over.  From any running machine: two requests at the same time can
    both pass the test, and a request that comes after another one has set the
    status passes it when [PostSetup] or [Launch] assigned the status in between.
    In both cases the machine can be powered off although the restart came first. *)
Theorem second_shutdown_possible w st :
  (∀ n c, k_fail n (SReboot c) = None) → isFirecracker w = false →
  initStatus w ≠ statusPoweroff → st ≠ statusPoweroff →
  (∃ s s', steps (mkMachine w [AtCheck LINUX_REBOOT_CMD_RESTART; AtCheck LINUX_REBOOT_CMD_POWER_OFF] [] None) s ∧
     threads s = [AtWork LINUX_REBOOT_CMD_RESTART; AtWork LINUX_REBOOT_CMD_POWER_OFF] ∧
     steps s s' ∧ down s' = Some LINUX_REBOOT_CMD_POWER_OFF) ∧
  (∃ s s1 s', steps (mkMachine w [AtCheck LINUX_REBOOT_CMD_RESTART] [st] None) s ∧
     threads s = [AtWork LINUX_REBOOT_CMD_RESTART] ∧ initStatus (mw s) = statusPoweroff ∧
     sd_step s s1 ∧ steps s1 s' ∧ down s' = Some LINUX_REBOOT_CMD_POWER_OFF).
Proof.
  intros Hreb Hf Hs Hst. set (R := LINUX_REBOOT_CMD_RESTART). set (P := LINUX_REBOOT_CMD_POWER_OFF).
  set (w' := set_initStatus statusPoweroff w).
  assert (∀ v, isFirecracker v = false → reboot_cmd v P = P) as Hcmd by (intros v Hv; unfold reboot_cmd; by rewrite Hv).
  split.
  - set (s := mkMachine (set_initStatus statusPoweroff w') [AtWork R; AtWork P] [] None).
    destruct (working_thread_downs Hreb s 1 P) as (s' & Hs' & Hd); [done..|].
    exists s, s'. split_and!; [|done|done|by rewrite Hcmd in Hd].
    eapply rtc_l; [by apply (step_enter _ 0 R)|]. eapply rtc_l; [by apply (step_enter _ 1 P)|].
    eapply rtc_l; [by apply (step_set _ 0 R)|]. eapply rtc_l; [by apply (step_set _ 1 P)|]. done.
  - set (s := mkMachine w' [AtWork R] [st] None).
    set (s1 := mkMachine (set_initStatus st w') [AtWork R] [] None).
    set (s2 := mkMachine (set_initStatus statusPoweroff (set_initStatus st w')) [AtWork R; AtWork P] [] None).
    destruct (working_thread_downs Hreb s2 1 P) as (s' & Hs' & Hd); [done..|].
    exists s, s1, s'. split_and!; [|done|done|by apply (step_boot s st [])| |by rewrite Hcmd in Hd].
    + eapply rtc_l; [by apply (step_enter _ 0 R)|]. eapply rtc_l; [by apply (step_set _ 0 R)|]. done.
    + eapply rtc_l; [by apply (step_request s1 P)|]. eapply rtc_l; [by apply (step_enter _ 1 P)|].
      eapply rtc_l; [by apply (step_set _ 1 P)|]. done.
Qed.
End steps.

(** ** Witnesses *)

Definition ex_owner : @machine :=
  mkMachine (set_initStatus statusPoweroff ex_world) [AtWork LINUX_REBOOT_CMD_RESTART] [] None.

Lemma ex_owner_owns : owns 0 LINUX_REBOOT_CMD_RESTART false ex_owner.
Proof.
  split; [done..|]. intros [|j] p; [|done]. intros [= <-] _. auto.
Qed.

(** A power-off request does not get through. *)
Lemma first_shutdown_decides_witness :
  let s' := mkMachine (mw ex_owner) [AtWork LINUX_REBOOT_CMD_RESTART; AtCheck LINUX_REBOOT_CMD_POWER_OFF] [] None in
  (∀ c, down s' = Some c → c = LINUX_REBOOT_CMD_RESTART) ∧
  (∀ j p, threads s' !! j = Some p → inside p = true → j = 0%nat).
Proof.
  refine (@first_shutdown_decides calm 0 LINUX_REBOOT_CMD_RESTART ex_owner _ _ ex_owner_owns eq_refl _).
  - done.
  - apply rtc_once. by apply (step_request ex_owner).
Defined.

Lemma second_shutdown_possible_witness :
  ∃ s s', rtc (@sd_step calm) (mkMachine ex_world
       [AtCheck LINUX_REBOOT_CMD_RESTART; AtCheck LINUX_REBOOT_CMD_POWER_OFF] [] None) s ∧
     threads s = [AtWork LINUX_REBOOT_CMD_RESTART; AtWork LINUX_REBOOT_CMD_POWER_OFF] ∧
     rtc (@sd_step calm) s s' ∧ down s' = Some LINUX_REBOOT_CMD_POWER_OFF.
Proof. by apply (proj1 (@second_shutdown_possible calm ex_world statusRun ltac:(done) eq_refl ltac:(done) ltac:(done))). Defined.

Lemma undisturbed_is_shutdown_witness :
  ∃ s', rtc (@sd_step calm) (mkMachine ex_world [AtCheck LINUX_REBOOT_CMD_RESTART] [] None) s' ∧
    mw s' = (@shutdown calm LINUX_REBOOT_CMD_RESTART ex_world).2 ∧
    threads s' = [Gone] ∧ boot s' = [] ∧ down s' = Some LINUX_REBOOT_CMD_RESTART.
Proof.
  destruct (@undisturbed_is_shutdown calm (mkMachine ex_world [AtCheck LINUX_REBOOT_CMD_RESTART] [] None) 0
    LINUX_REBOOT_CMD_RESTART eq_refl eq_refl ltac:(done) ltac:(done)) as (s' & H1 & H2 & H3 & H4 & H5).
  exists s'. split_and!; [exact H1|exact H2|exact H3|exact H4|rewrite H5; vm_compute; reflexivity].
Defined.
