(* ===== verification/Netlink.v ===== *)
(** * The process connector ([src/pkg/vorteil/process.go]: [send], [recv],
    [parseNetlinkMessage] and [listenToProcesses])

    Datagrams are byte lists; the records have the layout [encoding/binary]
    gives them.  [syscall.ParseNetlinkMessage] is part of Go's standard library
    and modelled here. *)

From S2P Require Import Prelude Bytes Types BlockDev Os Process.
Local Open Scope Z_scope.

Record CbID := { Idx : Z; Val : Z }.

Record CnMsg := { cn_ID : CbID; cn_Seq : Z; cn_Ack : Z; cn_Len : Z; cn_Flags : Z }.

Record ProcEventHeader := {
  What : Z; CPU : Z; Timestamp : Z; ProcessPid : Z; ProcessTgid : Z
}.

Record NlMsghdr := { nl_Len : Z; nl_Type : Z; nl_Flags : Z; nl_Seq : Z; nl_Pid : Z }.

Record NetlinkMessage := { nm_Header : NlMsghdr; nm_Data : list byte }.

Definition procCNMCASTListen : Z := 1.
Definition cnIDXProc : Z := 1.
Definition cnValProc : Z := 1.
Definition procEventExit : Z := 0x80000000.
Definition NLMSG_DONE : Z := 3.
Definition NLMSG_HDRLEN : Z := 16.

Definition encode_NlMsghdr (h : NlMsghdr) : list byte :=
  le_put 4 (nl_Len h) ++ le_put 2 (nl_Type h) ++ le_put 2 (nl_Flags h)
  ++ le_put 4 (nl_Seq h) ++ le_put 4 (nl_Pid h).

Definition encode_CnMsg (m : CnMsg) : list byte :=
  le_put 4 (Idx (cn_ID m)) ++ le_put 4 (Val (cn_ID m)) ++ le_put 4 (cn_Seq m)
  ++ le_put 4 (cn_Ack m) ++ le_put 2 (cn_Len m) ++ le_put 2 (cn_Flags m).

Definition encode_ProcEventHeader (h : ProcEventHeader) : list byte :=
  le_put 4 (What h) ++ le_put 4 (CPU h) ++ le_put 8 (Timestamp h)
  ++ le_put 4 (ProcessPid h) ++ le_put 4 (ProcessTgid h).

(** The datagram [send] hands to [Sendto]; [pid] is [os.Getpid()]. *)
Definition send (pid msg : Z) : list byte :=
  let cnMsg := {| cn_ID := {| Idx := cnIDXProc; Val := cnValProc |}; cn_Seq := 1; cn_Ack := 0;
                  cn_Len := u16 4; cn_Flags := 0 |} in
  let header := {| nl_Len := u32 (NLMSG_HDRLEN + u32 (20 + 4)); nl_Type := u16 NLMSG_DONE;
                   nl_Flags := 0; nl_Seq := 1; nl_Pid := u32 pid |} in
  encode_NlMsghdr header ++ encode_CnMsg cnMsg ++ le_put 4 msg.

(** [nlmAlignOf] *)
Definition nlmAlignOf (n : Z) : Z := Z.land (n + 3) (Z.lnot 3).

Definition decode_NlMsghdr (b : list byte) : NlMsghdr :=
  {| nl_Len := le_get (slice 0 4 b); nl_Type := le_get (slice 4 2 b);
     nl_Flags := le_get (slice 6 2 b); nl_Seq := le_get (slice 8 4 b);
     nl_Pid := le_get (slice 12 4 b) |}.

(** [syscall.ParseNetlinkMessage].  A message takes at least a header, so
    [length b] rounds are enough. *)
Fixpoint parse_messages (fuel : nat) (b : list byte) : outcome (list NetlinkMessage) :=
  if Z.of_nat (length b) <? NLMSG_HDRLEN then Ret []
  else
    match fuel with
    | O => Ret []
    | S fuel =>
        let h := decode_NlMsghdr b in
        let dlen := nlmAlignOf (nl_Len h) in
        if (nl_Len h <? NLMSG_HDRLEN) || (Z.of_nat (length b) <? dlen) then Fail EINVAL
        else
          let m := {| nm_Header := h; nm_Data := slice 16 (Z.to_nat (nl_Len h) - 16) b |} in
          rest ← parse_messages fuel (drop (Z.to_nat dlen) b);
          mret (m :: rest)
    end.

Definition ParseNetlinkMessage (b : list byte) : outcome (list NetlinkMessage) :=
  parse_messages (length b) b.

(** What waits at the socket: the datagram, the netlink pid of the sender ([None]
    when the address is not a netlink address) and the error. *)
Record received := { rc_bytes : list byte; rc_from : option Z; rc_err : option error }.

(** [Recvfrom] cuts a datagram off at the end of the buffer of [size] bytes. *)
Definition recv (size : nat) (r : received) : outcome (list NetlinkMessage) :=
  let p := take size (rc_bytes r) in
  match rc_from r with
  | Some 0 =>
      match rc_err r with
      | Some e => Fail e
      | None =>
          if Z.of_nat (length p) <? NLMSG_HDRLEN
          then Fail (Errorf "number of bytes too small")
          else ParseNetlinkMessage p
      end
  | _ => Fail (Errorf "can not create netlink sockaddr")
  end.

(** [hdr.What] after the two [binary.Read]s: a read that comes up short leaves
    its struct zero. *)
Definition event_What (data : list byte) : Z :=
  if (length data <? 44)%nat then 0 else le_get (slice 20 4 data).

Section netlink.
Context `{K : kernel}.

Definition parseNetlinkMessage (m : NetlinkMessage) : OS unit :=
  if nl_Type (nm_Header m) =? NLMSG_DONE then
    if event_What (nm_Data m) =? procEventExit then handleExit else mret tt
  else mret tt.

(** One round of the loop of [listenToProcesses]. *)
Definition listen_round (r : received) : OS unit :=
  match recv 1024 r with
  | Ret nlmessages => mforeach parseNetlinkMessage nlmessages
  | Panic p => mpanic p
  | _ => mret tt
  end.

(** The socket, its address and the subscription; then the loop, with what its
    rounds receive. *)
Definition subscribe (pid : Z) : OS unit :=
  plain (SSocket "netlink" "connector");;
  plain (SNetlink "bind" "connector" [cnIDXProc; u32 pid]);;
  plain (SNetlink "sendto" "connector" (byteZ <$> send pid procCNMCASTListen)).

Definition listenToProcesses (pid : Z) (rounds : list received) : OS unit :=
  r ← mtry (subscribe pid);
  match r with
  | inr _ => mret tt
  | inl _ => mforeach listen_round rounds;; waiting
  end.
End netlink.

(** ** Lemmas *)

Lemma length_encode_NlMsghdr h : length (encode_NlMsghdr h) = 16%nat.
Proof. unfold encode_NlMsghdr. by rewrite !length_app, !length_le_put. Qed.

Lemma length_encode_CnMsg m : length (encode_CnMsg m) = 20%nat.
Proof. unfold encode_CnMsg. by rewrite !length_app, !length_le_put. Qed.

Lemma length_encode_ProcEventHeader h : length (encode_ProcEventHeader h) = 24%nat.
Proof. unfold encode_ProcEventHeader. by rewrite !length_app, !length_le_put. Qed.

Lemma slice_app_at {A} (l1 l2 l3 : list A) o n :
  length l1 = o → length l2 = n → slice o n (l1 ++ l2 ++ l3) = l2.
Proof.
  intros <- <-. unfold slice. by rewrite drop_app_length, take_app_length.
Qed.

Lemma nlmAlignOf_bounds n : 0 ≤ n → n ≤ nlmAlignOf n < n + 4 ∧ nlmAlignOf n mod 4 = 0.
Proof.
  intros Hn. unfold nlmAlignOf. change (Z.lnot 3) with (- 2 ^ 2).
  replace (Z.land (n + 3) (- 2 ^ 2)) with (4 * ((n + 3) / 4)).
  - pose proof (Z.div_mod (n + 3) 4). pose proof (Z.mod_pos_bound (n + 3) 4).
    split; [lia|]. rewrite Z.mul_comm. by apply Z.mod_mul.
  - replace (- 2 ^ 2) with (Z.lnot (Z.ones 2)) by done.
    rewrite <-Z.ldiff_land, Z.ldiff_ones_r by lia.
    rewrite Z.shiftl_mul_pow2, Z.shiftr_div_pow2 by lia. change (2 ^ 2) with 4. lia.
Qed.

(** Rounds enough for the length are enough: the result does not depend on the
    fuel, so the loop of the source ends with it. *)
Lemma parse_messages_fuel n m b :
  (length b ≤ n)%nat → (length b ≤ m)%nat → parse_messages n b = parse_messages m b.
Proof.
  revert m b. induction n as [|n IH]; intros m b Hn Hm.
  - destruct b; [|cbn in Hn; lia]. by destruct m.
  - destruct m as [|m]; [destruct b; [done|cbn in Hm; lia]|]. cbn [parse_messages].
    destruct (Z.ltb_spec (Z.of_nat (length b)) NLMSG_HDRLEN); [done|].
    destruct (Z.ltb_spec (nl_Len (decode_NlMsghdr b)) NLMSG_HDRLEN) as [|Hl]; [done|].
    destruct (Z.ltb_spec (Z.of_nat (length b)) (nlmAlignOf (nl_Len (decode_NlMsghdr b)))); [done|].
    cbn [orb]. unfold NLMSG_HDRLEN in *.
    destruct (nlmAlignOf_bounds (nl_Len (decode_NlMsghdr b)) ltac:(lia)) as [? _].
    rewrite (IH m); [done|rewrite length_drop; lia..].
Qed.

Lemma parse_messages_total n b : ∃ r, parse_messages n b = r ∧ (r = Fail EINVAL ∨ ∃ l, r = Ret l).
Proof.
  eexists. split; [reflexivity|].
  revert b. induction n as [|n IH]; intros b; cbn [parse_messages]; (case_match; [by eauto|]); [by eauto|].
  case_match; [by eauto|]. by destruct (IH (drop (Z.to_nat (nlmAlignOf (nl_Len (decode_NlMsghdr b)))) b))
    as [->|[l ->]]; eauto.
Qed.

(** ** Messages on the wire *)

(** A message padded to the alignment. *)
Definition encode_message (m : NetlinkMessage) : list byte :=
  encode_NlMsghdr (nm_Header m) ++ nm_Data m
  ++ replicate (Z.to_nat (nlmAlignOf (nl_Len (nm_Header m)) - nl_Len (nm_Header m))) x00.

Record wf_message (m : NetlinkMessage) : Prop := {
  wfm_len : nl_Len (nm_Header m) = 16 + Z.of_nat (length (nm_Data m));
  wfm_len32 : nl_Len (nm_Header m) < 2 ^ 32;
  wfm_type : 0 ≤ nl_Type (nm_Header m) < 2 ^ 16;
  wfm_flags : 0 ≤ nl_Flags (nm_Header m) < 2 ^ 16;
  wfm_seq : 0 ≤ nl_Seq (nm_Header m) < 2 ^ 32;
  wfm_pid : 0 ≤ nl_Pid (nm_Header m) < 2 ^ 32
}.

Lemma decode_encode_NlMsghdr h rest :
  0 ≤ nl_Len h < 2 ^ 32 → 0 ≤ nl_Type h < 2 ^ 16 → 0 ≤ nl_Flags h < 2 ^ 16 →
  0 ≤ nl_Seq h < 2 ^ 32 → 0 ≤ nl_Pid h < 2 ^ 32 →
  decode_NlMsghdr (encode_NlMsghdr h ++ rest) = h.
Proof.
  intros H1 H2 H3 H4 H5. destruct h as [a b c d e].
  cbn [nl_Len nl_Type nl_Flags nl_Seq nl_Pid] in *.
  unfold decode_NlMsghdr, encode_NlMsghdr. cbn [nl_Len nl_Type nl_Flags nl_Seq nl_Pid].
  assert (∀ n z, 0 ≤ z < 256 ^ Z.of_nat n → le_get (le_put n z) = z) as Hput
    by (intros; by apply le_get_put_small).
  rewrite <-!app_assoc. f_equal.
  - change (slice 0 4 ?x) with (slice 0 4 ([] ++ x)).
    rewrite slice_app_at by (rewrite ?length_le_put; done). by apply Hput.
  - rewrite slice_app_at by (rewrite ?length_le_put; done). by apply Hput.
  - rewrite app_assoc, slice_app_at by (rewrite ?length_app, ?length_le_put; done). by apply Hput.
  - do 2 rewrite app_assoc. rewrite slice_app_at by (rewrite ?length_app, ?length_le_put; done). by apply Hput.
  - do 3 rewrite app_assoc. rewrite slice_app_at by (rewrite ?length_app, ?length_le_put; done). by apply Hput.
Qed.

Lemma length_encode_message m :
  wf_message m → Z.of_nat (length (encode_message m)) = nlmAlignOf (nl_Len (nm_Header m)).
Proof.
  intros [Hl _ _ _ _ _]. unfold encode_message.
  rewrite !length_app, length_encode_NlMsghdr, length_replicate.
  destruct (nlmAlignOf_bounds (nl_Len (nm_Header m)) ltac:(lia)) as [? _]. lia.
Qed.

Lemma parse_message m rest fuel :
  wf_message m →
  parse_messages (S fuel) (encode_message m ++ rest) =
    (ms ← parse_messages fuel rest; mret (m :: ms)).
Proof.
  intros Hwf. pose proof (length_encode_message m Hwf) as HL.
  destruct Hwf as [Hl Hl32 Ht Hf Hs Hp]. cbn [parse_messages].
  destruct (nlmAlignOf_bounds (nl_Len (nm_Header m)) ltac:(lia)) as [Ha _].
  assert (decode_NlMsghdr (encode_message m ++ rest) = nm_Header m) as ->.
  { unfold encode_message. rewrite <-!app_assoc. apply decode_encode_NlMsghdr; lia. }
  unfold NLMSG_HDRLEN. rewrite length_app.
  destruct (Z.ltb_spec (Z.of_nat (length (encode_message m) + length rest)) 16); [lia|].
  destruct (Z.ltb_spec (nl_Len (nm_Header m)) 16); [lia|]. cbn [orb].
  destruct (Z.ltb_spec (Z.of_nat (length (encode_message m) + length rest))
    (nlmAlignOf (nl_Len (nm_Header m)))); [lia|].
  replace (drop _ _) with rest by (rewrite <-HL, Nat2Z.id; by rewrite drop_app_length).
  replace {| nm_Header := _; nm_Data := _ |} with m; [done|].
  destruct m as [h d]. cbn [nm_Header nm_Data] in *. f_equal. unfold encode_message.
  cbn [nm_Header nm_Data]. rewrite <-!app_assoc.
  symmetry. apply slice_app_at; [apply length_encode_NlMsghdr|lia].
Qed.

Lemma parse_encoded ms fuel :
  Forall wf_message ms → (length (concat (encode_message <$> ms)) ≤ fuel)%nat →
  parse_messages fuel (concat (encode_message <$> ms)) = Ret ms.
Proof.
  intros Hms. revert fuel. induction Hms as [|m ms Hm Hms IH]; intros fuel Hf.
  - by destruct fuel.
  - cbn [fmap list_fmap concat] in Hf |- *. rewrite length_app in Hf.
    pose proof (length_encode_message m Hm) as HL. pose proof (wfm_len m Hm).
    destruct (nlmAlignOf_bounds (nl_Len (nm_Header m)) ltac:(lia)) as [Ha _].
    destruct fuel as [|fuel]; [lia|]. rewrite parse_message by done. rewrite IH by lia. done.
Qed.

(** The datagram of a process event. *)
Lemma event_What_encoded c h rest :
  0 ≤ What h < 2 ^ 32 →
  event_What (encode_CnMsg c ++ encode_ProcEventHeader h ++ rest) = What h.
Proof.
  intros Hw. unfold event_What.
  destruct (Nat.ltb_spec (length (encode_CnMsg c ++ encode_ProcEventHeader h ++ rest)) 44) as [Hl|_].
  { rewrite !length_app, length_encode_CnMsg, length_encode_ProcEventHeader in Hl. lia. }
  unfold encode_ProcEventHeader. rewrite <-app_assoc.
  rewrite slice_app_at by (apply length_encode_CnMsg || apply length_le_put).
  by apply le_get_put_small.
Qed.

(** A netlink message that carries a process event. *)
Definition event_message (hdr : NlMsghdr) (c : CnMsg) (h : ProcEventHeader) (rest : list byte) :
    NetlinkMessage :=
  {| nm_Header := hdr; nm_Data := encode_CnMsg c ++ encode_ProcEventHeader h ++ rest |}.

(** ** Theorems *)

(** C39: The datagram [send] builds to subscribe to process events is 40 bytes
    long, its length field says so, and the parser reads back one message of
    type NLMSG_DONE with the connector id of the process connector and the
    listen command. *)
Theorem send_wellformed pid :
  0 ≤ pid < 2 ^ 31 →
  Z.of_nat (length (send pid procCNMCASTListen)) = 40 ∧
  ParseNetlinkMessage (send pid procCNMCASTListen) =
    Ret [{| nm_Header := {| nl_Len := 40; nl_Type := NLMSG_DONE; nl_Flags := 0; nl_Seq := 1; nl_Pid := pid |};
            nm_Data := encode_CnMsg {| cn_ID := {| Idx := cnIDXProc; Val := cnValProc |}; cn_Seq := 1;
                                       cn_Ack := 0; cn_Len := 4; cn_Flags := 0 |}
                       ++ le_put 4 procCNMCASTListen |}].
Proof.
  intros Hpid. set (m := {| nm_Header := _; nm_Data := _ |}).
  assert (send pid procCNMCASTListen = concat (encode_message <$> [m])) as ->.
  { unfold send. rewrite (uwrap_small 32 pid) by lia. cbn [concat fmap list_fmap].
    rewrite app_nil_r. unfold encode_message, m.
    cbn [nm_Header nm_Data nl_Len]. by rewrite app_nil_r. }
  assert (wf_message m) as Hm.
  { unfold m, NLMSG_DONE. split; cbn [nl_Len nl_Type nl_Flags nl_Seq nl_Pid nm_Header nm_Data];
      rewrite ?length_app, ?length_encode_CnMsg, ?length_le_put; lia. }
  split; [|by apply parse_encoded; [constructor|]].
  cbn [concat fmap list_fmap]. rewrite app_nil_r. by rewrite length_encode_message.
Qed.

Lemma send_wellformed_witness : Z.of_nat (length (send 1 procCNMCASTListen)) = 40.
Proof. apply (send_wellformed 1). lia. Defined.

Section theorems.
Context `{K : kernel}.

Lemma parse_event_message hdr c h rest :
  nl_Type hdr = NLMSG_DONE → 0 ≤ What h < 2 ^ 32 →
  parseNetlinkMessage (event_message hdr c h rest) =
    if What h =? procEventExit then handleExit else mret tt.
Proof.
  intros Ht Hw. unfold parseNetlinkMessage, event_message. cbn [nm_Header nm_Data].
  by rewrite Ht, event_What_encoded.
Qed.

(** A datagram from the kernel that holds any number of process events and fits
    into the buffer is taken apart completely: [handleExit] runs once for every exit event, in
    order, and the other events do nothing. *)
Theorem listen_round_dispatches (evs : list (NlMsghdr * CnMsg * ProcEventHeader * list byte)) :
  evs ≠ [] →
  (∀ hdr c h rest, (hdr, c, h, rest) ∈ evs →
     nl_Type hdr = NLMSG_DONE ∧ 0 ≤ What h < 2 ^ 32 ∧ wf_message (event_message hdr c h rest)) →
  (length (concat ((λ '(hdr, c, h, rest), encode_message (event_message hdr c h rest)) <$> evs)) ≤ 1024)%nat →
  ∀ w,
    listen_round {| rc_bytes := concat ((λ '(hdr, c, h, rest),
                      encode_message (event_message hdr c h rest)) <$> evs);
                    rc_from := Some 0; rc_err := None |} w =
    mforeach (λ '(_, _, h, _), if What h =? procEventExit then handleExit else mret tt) evs w.
Proof.
  intros Hne Hev Hfit w.
  set (ms := (λ '(hdr, c, h, rest), event_message hdr c h rest) <$> evs).
  assert (Forall wf_message ms) as Hwf.
  { apply Forall_forall. intros m ([[[hdr c] h] rest] & -> & Hin)%list_elem_of_fmap.
    by apply Hev in Hin as (_ & _ & ?). }
  assert (concat ((λ '(hdr, c, h, rest), encode_message (event_message hdr c h rest)) <$> evs)
          = concat (encode_message <$> ms)) as Ems.
  { unfold ms. rewrite <-list_fmap_compose. f_equal. apply list_fmap_ext. by intros ? [[[??]?]?] _. }
  rewrite Ems in Hfit |- *. clear Ems.
  unfold listen_round, recv. cbn [rc_from rc_err rc_bytes]. cbn zeta. rewrite (take_ge _ 1024) by done.
  destruct (Z.ltb_spec (Z.of_nat (length (concat (encode_message <$> ms)))) NLMSG_HDRLEN) as [Hs|_].
  { exfalso. destruct evs as [|[[[hdr c] h] rest] evs]; [done|].
    apply Forall_cons in Hwf as [Hm _]. cbn in Hs. rewrite length_app in Hs.
    pose proof (length_encode_message _ Hm) as HL. pose proof (wfm_len _ Hm).
    destruct (nlmAlignOf_bounds (nl_Len hdr) ltac:(cbn in *; lia)) as [? _].
    unfold NLMSG_HDRLEN in Hs. cbn in *. lia. }
  unfold ParseNetlinkMessage. rewrite parse_encoded by done. clear Hwf Hne Hfit. subst ms.
  revert w. induction evs as [|[[[hdr c] h] rest] evs IH]; intros w; [done|].
  destruct (Hev hdr c h rest) as (Ht & Hw & _); [by left|].
  cbn [fmap list_fmap mforeach]. rewrite parse_event_message by done.
  destruct ((if What h =? procEventExit then handleExit else mret tt) w) as [[[]|e|p|] w1] eqn:E;
    unfold mbind, M_bind; rewrite E; [|done..].
  apply IH. intros hdr' c' h' rest' Hin. apply Hev. by right.
Qed.
(** The datagram of some events, as the kernel sends it. *)
Definition datagram (evs : list (NlMsghdr * CnMsg * ProcEventHeader * list byte)) : received :=
  {| rc_bytes := concat ((λ '(hdr, c, h, rest), encode_message (event_message hdr c h rest)) <$> evs);
     rc_from := Some 0; rc_err := None |}.

Definition wf_event (ev : NlMsghdr * CnMsg * ProcEventHeader * list byte) : Prop :=
  let '(hdr, c, h, rest) := ev in
  nl_Type hdr = NLMSG_DONE ∧ 0 ≤ What h < 2 ^ 32 ∧ wf_message (event_message hdr c h rest).

Definition exits (ev : NlMsghdr * CnMsg * ProcEventHeader * list byte) : bool :=
  let '(_, _, h, _) := ev in What h =? procEventExit.

Lemma datagram_round evs w :
  evs ≠ [] → Forall wf_event evs → (length (rc_bytes (datagram evs)) ≤ 1024)%nat →
  listen_round (datagram evs) w = mforeach (λ ev, if exits ev then handleExit else mret tt) evs w.
Proof.
  intros Hne Hev Hfit. unfold datagram. rewrite listen_round_dispatches; [|done| |done].
  - clear. revert w. induction evs as [|[[[hdr c] h] rest] evs IH]; intros w; [done|]. cbn [mforeach exits].
    unfold mbind, M_bind. destruct ((if What h =? procEventExit then handleExit else mret tt) w) as [[] w1]; [apply IH|done..].
  - intros hdr c h rest Hin. by apply (proj1 (Forall_forall _ _) Hev) in Hin.
Qed.

(** The world after the subscription. *)
Definition subscribed (pid : Z) (w : world) : world :=
  record (SNetlink "sendto" "connector" (byteZ <$> send pid procCNMCASTListen)) None
    (record (SNetlink "bind" "connector" [cnIDXProc; u32 pid]) None
      (record (SSocket "netlink" "connector") None w)).

Lemma ok_subscribe (Hok : ∀ n c, k_fail n c = None) pid w : subscribe pid w = (Ret tt, subscribed pid w).
Proof. unfold subscribe. do 2 (erewrite run_ret; [|by apply ok_plain]). by apply ok_plain. Qed.

(** C14: When init has subscribed to the process events and the last program ends,
    the machine goes down: a datagram that fits into the buffer, with an exit event before which nothing
    else exited, in a state in which no user process but the services is left and
    all programs have ended, leads to the orderly power-off; [listenToProcesses]
    does not come back. *)
Theorem last_exit_powers_off pid pre ev post more w :
  (∀ n c, k_fail n c = None) → Forall wf_event (pre ++ ev :: post) →
  (length (rc_bytes (datagram (pre ++ ev :: post))) ≤ 1024)%nat →
  forallb (negb ∘ exits) pre = true → exits ev = true →
  idle (subscribed pid w) = true → initStatus w ≠ statusPoweroff →
  ∃ w', listenToProcesses pid (datagram (pre ++ ev :: post) :: more) w = (Halted, w') ∧
    orderly LINUX_REBOOT_CMD_POWER_OFF
      (set_instantShutdown true (record SPs None (subscribed pid w))) Halted w'.
Proof.
  intros Hok Hwf Hfit Hpre Hev Hidle Hs. unfold listenToProcesses.
  rewrite (run_ret _ _ _ (inl tt) (subscribed pid w)) by (apply ok_try; by apply ok_subscribe).
  set (w1 := subscribed pid w) in *. cbn [mforeach]. rewrite run_assoc.
  assert (handleExit w1 = shutdown LINUX_REBOOT_CMD_POWER_OFF (set_instantShutdown true (record SPs None w1))) as Hh.
  { rewrite handleExit_run, Hidle. unfold listed. rewrite Hok. cbn [snd]. by case_bool_decide. }
  set (w2 := set_instantShutdown true (record SPs None w1)) in *.
  assert (initStatus w2 ≠ statusPoweroff) as Hs2 by done.
  pose proof (shutdown_orderly LINUX_REBOOT_CMD_POWER_OFF w2 Hs2 ltac:(done)) as Ho.
  pose proof (shutdown_halts LINUX_REBOOT_CMD_POWER_OFF w2 ltac:(done) Hs2 ltac:(done)) as Hd.
  destruct (shutdown _ w2) as [o w3] eqn:E. cbn [fst snd] in *. subst o. exists w3. split; [|done].
  unfold mbind, M_bind. rewrite datagram_round; [|by destruct pre|done..].
  assert (mforeach (λ ev, if exits ev then handleExit else mret tt) (pre ++ ev :: post) w1 = (Halted, w3)) as ->; [|done].
  clear Hwf Hfit. induction pre as [|x pre IH]; cbn [app mforeach].
  - rewrite Hev. unfold mbind, M_bind. by rewrite Hh.
  - cbn in Hpre. apply andb_true_iff in Hpre as [Hx Hpre]. destruct (exits x); [done|].
    erewrite run_ret by reflexivity. by apply IH.
Qed.
End theorems.

Definition ex_exit_event : NlMsghdr * CnMsg * ProcEventHeader * list byte :=
  ({| nl_Len := 76; nl_Type := 3; nl_Flags := 0; nl_Seq := 7; nl_Pid := 0 |},
   {| cn_ID := {| Idx := 1; Val := 1 |}; cn_Seq := 7; cn_Ack := 0; cn_Len := 40; cn_Flags := 0 |},
   {| What := procEventExit; CPU := 0; Timestamp := 12345; ProcessPid := 101; ProcessTgid := 101 |},
   replicate 16 x00).

Lemma listen_round_dispatches_witness :
  @listen_round calm {| rc_bytes := concat ((λ '(hdr, c, h, rest),
      encode_message (event_message hdr c h rest)) <$> [ex_exit_event]);
      rc_from := Some 0; rc_err := None |} ex_world
  = mforeach (λ '(_, _, h, _), if What h =? procEventExit then @handleExit calm else mret tt)
      [ex_exit_event] ex_world.
Proof.
  apply (@listen_round_dispatches calm); [done| |vm_compute; lia].
  intros hdr c h rest [= -> -> -> ->]%list_elem_of_singleton. split_and!; [done..|].
  split; cbn; lia.
Defined.

Definition ex_fork_event : NlMsghdr * CnMsg * ProcEventHeader * list byte :=
  ({| nl_Len := 76; nl_Type := 3; nl_Flags := 0; nl_Seq := 6; nl_Pid := 0 |},
   {| cn_ID := {| Idx := 1; Val := 1 |}; cn_Seq := 6; cn_Ack := 0; cn_Len := 40; cn_Flags := 0 |},
   {| What := 1; CPU := 0; Timestamp := 12000; ProcessPid := 101; ProcessTgid := 101 |},
   replicate 16 x00).

Lemma last_exit_powers_off_witness :
  ∃ w', @listenToProcesses calm 1 [datagram [ex_fork_event; ex_exit_event]] ex_world = (Halted, w') ∧
    @orderly calm LINUX_REBOOT_CMD_POWER_OFF
      (set_instantShutdown true (record SPs None (subscribed 1 ex_world))) Halted w'.
Proof.
  apply (@last_exit_powers_off calm 1 [ex_fork_event] ex_exit_event [] [] ex_world); try done; [|vm_compute; lia].
  constructor; [|constructor; [|done]]; (split_and!; [done|done|done|]); split; cbn; lia.
Defined.
