(* ===== verification/Disk.v ===== *)
(** * The boot disk at run time ([src/pkg/vorteil/disk.go])

    Growing the partition table, the kernel's view of the partition and the
    root file system; mounting the basic directories. *)

From S2P Require Import Prelude Bytes GptTypes BlockDev GptUtil Gpt GptSpec GptTheorems.
From S2P Require Import GoStrings GoPath Types Os Process.
Local Open Scope Z_scope.

Definition ext4IOCResizeFS : Z := 0x40086610.
Definition xfsGrowFS : Z := 0x4010586e.
Definition xfsGeom : Z := 0x8100587e.
Definition BLKPG : Z := 0x1269.

(** [gptGrower.grow()] on a modifier [newGPTModifier] built. *)
Definition grow_from (m : gptModifier) : M dev gptModifier := λ d,
  match grow {| gdev := d; gm := m; gnew := zero_GPTHeader |} with
  | (Ret _, s) => (Ret (gm s), gdev s)
  | (Fail e, s) => (Fail e, gdev s)
  | (Panic p, s) => (Panic p, gdev s)
  | (Halted, s) => (Halted, gdev s)
  end.

Section disk.
Context `{K : kernel}.

(** Work on the open boot disk. *)
Definition on_disk {A} (m : M dev A) : OS A := λ w,
  let '(o, d) := m (disk w) in (o, set_disk d w).

(** A failing ioctl becomes an error with this text. *)
Definition ioctl (p : string) (req : Z) (arg : list Z) (msg : string) : OS unit :=
  r ← mtry (plain (SIoctl p req arg));
  match r with
  | inl _ => mret tt
  | inr _ => mfail (Errorf msg)
  end.

Definition Fstatfs (p : string) : OS Z := sys (SFstatfs p) (λ w, inl (k_bsize, w)).

(** [blocks], and the byte range handed to BLKPG. *)
Definition fs_blocks (pe : PartitionEntry) (bsize : Z) : outcome Z :=
  if u64 bsize =? 0 then Panic DivideByZero
  else Ret (u64 (u64 (LastLBA pe - FirstLBA pe) * sectorSize) / u64 bsize).

Definition blkpg_Start (pe : PartitionEntry) : Z := i64 (u64 (FirstLBA pe * sectorSize)).
Definition blkpg_Length (pe : PartitionEntry) : Z :=
  i64 (u64 (u64 (LastLBA pe - FirstLBA pe) * sectorSize)).

(** The file system part: what the kernel is told about the new size. *)
Definition resize_fs (format : Format) (blocks : Z) : OS unit :=
  match format with
  | XFS =>
      ioctl "/" xfsGeom [] "error getting xfs geometry";;
      ioctl "/" xfsGrowFS [blocks; k_imaxpct] "error resizing xfs filesystem"
  | Ext2FS | Ext4FS => ioctl "/" ext4IOCResizeFS [blocks] "error resizing ext filesystem"
  | UnknownFS => mret tt
  end.

(** The second half of [growDisk], after the partition table was grown. *)
Definition resize_kernel (p : string) (m : gptModifier) : OS unit :=
  Open "/";;
  bsize ← Fstatfs "/";
  match partitionEntry m with
  | None => mpanic NilDeref
  | Some pe =>
      match fs_blocks pe bsize with
      | Ret blocks =>
          ioctl p BLKPG [blkpg_Start pe; blkpg_Length pe; 2] "error resizing gpt";;
          format ← on_disk (detectFormat (i64 (u64 (FirstLBA pe * sectorSize))));
          resize_fs format blocks
      | Panic why => mpanic why
      | _ => mret tt
      end
  end.

Definition growDisk (p : string) : OS unit :=
  m ← on_disk (newGPTModifier p);
  if negb (needsResize m) then mret tt
  else
    m ← on_disk (grow_from m);
    resize_kernel p m.

Definition growDisks : OS unit :=
  p ← bootDisk;
  Open p;;
  growDisk p;;
  plain (SClose p);;
  flushDisk p.

(** ** The basic directories *)

Definition mountFs (target fstype options : string) : OS unit :=
  r ← mtry (Stat target);
  (match r with
   | inr e =>
       if IsNotExist e then
         (if (String.eqb target "/proc" || String.eqb target "/sys")%string
          then SystemPanic else mret tt);;
         MkdirAll target
       else mret tt
   | inl _ => mret tt
   end);;
  Mount "none" target fstype 0 options.

Definition changeDiskScheduler (vdisk : string) : OS unit :=
  match Split vdisk "/" with
  | _ :: _ :: d :: rest =>
      ignore (WriteFile ("/sys/block/" +:+ Join (d :: rest) "/" +:+ "/queue/scheduler") "noop")
  | _ => mpanic IndexOutOfRange
  end.

Definition basic_dirs (base : string) : list (string * string) :=
  [(PathJoin [base; "/proc"], "proc"); (PathJoin [base; "/sys"], "sysfs");
   (PathJoin [base; "/dev/pts"], "devpts")]%string.

Definition setupBasicDirectories (base : string) : OS unit :=
  ignore (plain (SChmod (PathJoin [base; "/tmp"]) 511));;
  mforeach (λ '(path, fstype), mountFs path fstype "") (basic_dirs base);;
  ignore (Symlink "/proc/self/fd" "/dev/fd").
End disk.

(** ** Lemmas *)

(** The format [detectFormat] finds on a disk at a byte offset. *)
Definition format_at (c : list byte) (start : Z) : Format :=
  if decide (slice (Z.to_nat (start + 1080)) 2 c = ext2Signature) then Ext2FS
  else if decide (slice (Z.to_nat start) 4 c = xfsSignature) then XFS
  else UnknownFS.

Lemma does_detectFormat start c p :
  0 ≤ start → start + 1082 ≤ Z.of_nat (length c) → Z.of_nat (length c) < 2 ^ 63 →
  does nothing (detectFormat start) c p (format_at c start) c p.
Proof.
  intros H0 H1 H2. unfold detectFormat, format_at.
  rewrite (swrap_small 64 (start + 1080)) by lia.
  eapply does_bind; [apply does_read_at; lia|]. case_decide; [apply does_ret|].
  eapply does_bind; [apply does_read_at; lia|]. case_decide; apply does_ret.
Qed.

(** The calls [resize_fs] makes when none fails. *)
Definition resize_calls (imaxpct : Z) (format : Format) (blocks : Z) : list syscall :=
  match format with
  | XFS => [SIoctl "/" xfsGeom []; SIoctl "/" xfsGrowFS [blocks; imaxpct]]
  | Ext2FS | Ext4FS => [SIoctl "/" ext4IOCResizeFS [blocks]]
  | UnknownFS => []
  end.

Definition same_content : relation world := λ w w', content (disk w') = content (disk w).

#[local] Instance same_content_preorder : PreOrder same_content.
Proof. split; [done|]. intros w1 w2 w3. unfold same_content. congruence. Qed.

Section lemmas.
Context `{K : kernel}.

Lemma run_on_disk {A B} (m : M dev A) (f : A → OS B) w a d :
  m (disk w) = (Ret a, d) → (on_disk m ≫= f) w = f a (set_disk d w).
Proof. intros E. apply run_ret. unfold on_disk. by rewrite E. Qed.

Lemma run_on_disk_fail {A B} (m : M dev A) (f : A → OS B) w e d :
  m (disk w) = (Fail e, d) → (on_disk m ≫= f) w = (Fail e, set_disk d w).
Proof. intros E. unfold mbind, M_bind, on_disk. by rewrite E. Qed.

(** The part of [growDisk] that works on the device: either it goes on with the
    grown disk, or a fault was injected and only metadata changed. *)
Lemma growDisk_device p c h q fs w :
  growable c h → disk w = D c q fs →
  ∃ k pe mbr,
    used c = S k ∧ (k < 128)%nat ∧ entry c k = Some pe ∧
    wf_PartitionEntry pe ∧ decode_MBR (sector c 0) = Some mbr ∧ wf_MBR mbr ∧
    ((∃ q' fs', (fs = [] → fs' = []) ∧
        growDisk p w = resize_kernel p (grown_modifier p c h k pe)
                         (set_disk (D (grow_spec c h k pe mbr) q' fs') w)) ∨
     (fs ≠ [] ∧ ∃ e d', same_outside (metadata c h) c (content d') ∧
        growDisk p w = (Fail e, set_disk d' w))).
Proof.
  intros Hg Hd. destruct (open_and_grow_cases p c h q fs Hg)
    as (k & pe & mbr & H1 & H2 & H3 & H4 & H5 & H6 & Hcases).
  exists k, pe, mbr. split_and!; try done.
  destruct (growable_sizes c h Hg) as (_&_&_&Hlen&_).
  destruct (does_newGPTModifier p c q h (g_header _ _ Hg) ltac:(lia)) as [_ Hn].
  unfold open_and_grow in Hcases. unfold growDisk.
  destruct (Hn fs) as [(fs1 & E1 & Hf1)|(Hne & e & d' & E1 & Hs)]; rewrite E1 in Hcases.
  2:{ right. split; [done|]. exists e, d'. split; [by eapply same_outside_weaken; [|exact Hs]|].
      apply run_on_disk_fail. by rewrite Hd. }
  rewrite (run_on_disk _ _ _ (new_modifier p c h) (D c (Z.of_nat (length c)) fs1)) by (by rewrite Hd).
  rewrite (growable_needsResize c h Hg) by done. cbn [negb].
  change (match grow ?s with (Ret _, s') => _ | _ => _ end) with (grow_from (new_modifier p c h)
    (D c (Z.of_nat (length c)) fs1)) in Hcases.
  destruct Hcases as [(q' & fs' & E & Hf)|(Hne & e & d' & E & Hs)].
  - left. exists q', fs'. split; [done|].
    etransitivity; [apply run_on_disk, E|done].
  - right. split; [done|]. exists e, d'. split; [done|].
    etransitivity; [apply run_on_disk_fail, E|done].
Qed.

(** *** The partition the kernel is told about *)

Lemma growable_lba c h pe :
  growable c h → 0 ≤ FirstLBA pe ≤ nsect c - 34 →
  let pe' := set_LastLBA (nsect c - 34) pe in
  blkpg_Start pe' = FirstLBA pe * 512 ∧
  blkpg_Length pe' = (nsect c - 34 - FirstLBA pe) * 512 ∧
  ∀ b, 0 < b < 2 ^ 63 → fs_blocks pe' b = Ret ((nsect c - 34 - FirstLBA pe) * 512 / b).
Proof.
  intros Hg Hf. destruct (growable_sizes c h Hg) as (?&?&?&?&?). destruct Hg.
  pose proof (nsect_bounds c). unfold blkpg_Start, blkpg_Length, fs_blocks, sectorSize.
  cbn [set_LastLBA FirstLBA LastLBA].
  rewrite (uwrap_small 64 (nsect c - 34 - FirstLBA pe)) by lia.
  rewrite !(uwrap_small 64 (_ * 512)) by lia.
  rewrite !swrap_small by lia. split_and!; [done..|]. intros b Hb.
  rewrite (uwrap_small 64 b) by lia. destruct (Z.eqb_spec b 0); [lia|done].
Qed.

Lemma same_content_tame {A} P (m : OS A) : tame P m → keeps same_content m.
Proof.
  intros H w. destruct (H w) as (o & w' & evs & -> & _ & _ & V). unfold same_content.
  cbn [snd]. by injection V as ->.
Qed.

Lemma tame_ioctl P p req arg msg :
  (∀ e, P (mkEvent (SIoctl p req arg) e)) → tame P (ioctl p req arg msg).
Proof.
  intros H. apply tame_bind; [by apply tame_try, tame_plain|].
  intros [?|?]; [apply tame_ret|apply tame_fail].
Qed.

Lemma tame_resize_fs P format blocks :
  (∀ req arg e, P (mkEvent (SIoctl "/" req arg) e)) → tame P (resize_fs format blocks).
Proof.
  intros H. destruct format; cbn [resize_fs]; try by apply tame_ioctl; [apply tame_ret..|].
  - by apply tame_bind; [apply tame_ioctl|intros _; apply tame_ioctl].
  - apply tame_ret.
Qed.

(** *** Whatever the kernel and the device do *)

Definition looks {A} (m : M dev A) : Prop := ∀ d,
  (∀ why, (m d).1 ≠ Panic why) ∧ content (m d).2 = content d.

Lemma looks_ret {A} (a : A) : looks (mret a).
Proof. done. Qed.

Lemma looks_bind {A B} (m : M dev A) (f : A → M dev B) :
  looks m → (∀ a, looks (f a)) → looks (m ≫= f).
Proof.
  intros Hm Hf d. destruct (Hm d) as [Hp Hc]. unfold mbind, M_bind.
  destruct (m d) as [[a|e|why|] d1]; [|done|by destruct (Hp why)|done].
  destruct (Hf a d1) as [Hp' Hc']. split; [done|]. by rewrite Hc'.
Qed.

Lemma looks_read_at n off : looks (read_at n off).
Proof.
  intros d. unfold read_at, next_fault, mbind, M_bind, mget, mfail.
  destruct d as [c p [|[f|] fs]]; cbn; repeat case_match; done.
Qed.

Lemma looks_detectFormat start : looks (detectFormat start).
Proof.
  apply looks_bind; [apply looks_read_at|]. intros b. case_decide; [apply looks_ret|].
  apply looks_bind; [apply looks_read_at|]. intros b'. case_decide; apply looks_ret.
Qed.

Lemma nopanic_tame {A} P (m : OS A) : tame P m → nopanic m.
Proof. intros H w why. destruct (H w) as (o & w' & evs & -> & _). by destruct o. Qed.

Lemma nopanic_on_disk {A} (m : M dev A) : looks m → nopanic (on_disk m).
Proof. intros H w why. destruct (H (disk w)) as [Hp _]. unfold on_disk. by destruct (m (disk w)). Qed.

Lemma same_content_on_disk {A} (m : M dev A) : looks m → keeps same_content (on_disk m).
Proof. intros H w. destruct (H (disk w)) as [_ Hc]. unfold on_disk. by destruct (m (disk w)). Qed.

Lemma run_Fstatfs {B} p (f : Z → OS B) w :
  (Fstatfs p ≫= f) w = (plain (SFstatfs p) ≫= (λ _, f k_bsize)) w.
Proof. unfold Fstatfs, plain, sys, sys_with, mbind, M_bind. by destruct (k_fail _ _) as [[]|]. Qed.

Lemma fs_blocks_Ret pe b : 0 < b < 2 ^ 63 → ∃ n, fs_blocks pe b = Ret n.
Proof.
  intros Hb. unfold fs_blocks. rewrite (uwrap_small 64 b) by lia.
  destruct (Z.eqb_spec b 0); [lia|eauto].
Qed.

(** The second half never panics and leaves the device alone, if it has a
    partition entry and the kernel reports a block size. *)
Lemma resize_kernel_safe p m pe :
  partitionEntry m = Some pe → 0 < k_bsize < 2 ^ 63 →
  nopanic (resize_kernel p m) ∧ keeps same_content (resize_kernel p m).
Proof.
  intros Hpe Hb. destruct (fs_blocks_Ret pe k_bsize Hb) as [n Hn].
  assert (tame (λ _, True) (Open "/")) as H1 by (by apply tame_Open).
  assert (tame (λ _, True) (plain (SFstatfs "/"))) as H2 by (by apply tame_plain).
  assert (∀ q r x msg, tame (λ _, True) (ioctl q r x msg)) as H3 by (intros; by apply tame_ioctl).
  assert (∀ fmt, tame (λ _, True) (resize_fs fmt n)) as H4 by (intros; by apply tame_resize_fs).
  pose proof looks_detectFormat as H5. unfold resize_kernel. split.
  - apply nopanic_bind; [by eapply nopanic_tame|]. intros _ w. rewrite run_Fstatfs. revert w.
    apply (nopanic_bind (plain _)); [by eapply nopanic_tame|]. intros _. rewrite Hpe, Hn.
    apply nopanic_bind; [by eapply nopanic_tame|]. intros _.
    apply nopanic_bind; [by apply nopanic_on_disk|]. intros fmt. by eapply nopanic_tame.
  - apply keeps_bind; [apply _|by eapply same_content_tame|]. intros _ w. rewrite run_Fstatfs. revert w.
    apply (keeps_bind _ (plain _)); [by eapply same_content_tame|]. intros _. rewrite Hpe, Hn.
    apply keeps_bind; [apply _|by eapply same_content_tame|]. intros _.
    apply keeps_bind; [apply _|by apply same_content_on_disk|]. intros fmt. by eapply same_content_tame.
Qed.

(** *** When nothing fails *)

Lemma ok_ioctl (Hok : ∀ n c, k_fail n c = None) p req arg msg w :
  ioctl p req arg msg w = (Ret tt, record (SIoctl p req arg) None w).
Proof. unfold ioctl. by rewrite (run_ret _ _ _ _ _ (ok_try _ _ _ _ (ok_plain Hok _ _))). Qed.

Lemma ok_resize_fs (Hok : ∀ n c, k_fail n c = None) format blocks w :
  ∃ w', resize_fs format blocks w = (Ret tt, w') ∧ disk w' = disk w ∧
    calls w' = calls w ++ resize_calls k_imaxpct format blocks.
Proof.
  destruct format; cbn [resize_fs resize_calls].
  1,2: rewrite ok_ioctl by done; eexists; split_and!; [done|done|apply calls_record].
  - rewrite (run_ret _ _ _ _ _ (ok_ioctl Hok _ _ _ _ _)), ok_ioctl by done.
    eexists. split_and!; [done|done|]. by rewrite !calls_record, <-app_assoc.
  - eexists. split_and!; [done|done|]. by rewrite app_nil_r.
Qed.

Lemma ok_resize_kernel (Hok : ∀ n c, k_fail n c = None) p m c q w h pe :
  growable c h → 0 ≤ FirstLBA pe ≤ nsect c - 34 → 0 < k_bsize < 2 ^ 63 →
  partitionEntry m = Some (set_LastLBA (nsect c - 34) pe) →
  (∃ c', disk w = D c' q [] ∧ length c' = length c) → fs w !! "/"%string = Some Dir →
  let start := FirstLBA pe * 512 in
  let size := (nsect c - 34 - FirstLBA pe) * 512 in
  ∃ w', resize_kernel p m w = (Ret tt, w') ∧ disk w' = disk w ∧
    calls w' = calls w ++ [SOpen "/"; SFstatfs "/"; SIoctl p BLKPG [start; size; 2]]
      ++ resize_calls k_imaxpct (format_at (content (disk w)) start) (size / k_bsize).
Proof.
  intros Hg Hf Hb Hpe (c' & Hd & Hl) Hroot start size.
  destruct (growable_lba c h pe Hg Hf) as (Es & El & Eb).
  destruct (growable_sizes c h Hg) as (?&?&?&?&?). pose proof (nsect_bounds c).
  unfold resize_kernel.
  rewrite (run_ret _ _ _ tt (record (SOpen "/") None w)).
  2:{ apply (ok_sys_with Hok). unfold lookup_node, resolve. change (abs_path "/") with "/"%string.
      unfold follow. by rewrite Hroot; cbn; rewrite Hroot. }
  rewrite run_Fstatfs, (run_ret _ _ _ _ _ (ok_plain Hok _ _)), Hpe, Eb by done.
  rewrite (run_ret _ _ _ _ _ (ok_ioctl Hok _ _ _ _ _)), Es, El.
  assert (i64 (u64 (FirstLBA (set_LastLBA (nsect c - 34) pe) * sectorSize)) = start) as -> by exact Es.
  set (w1 := record (SIoctl p BLKPG _) None _).
  destruct (does_detectFormat start c' q) as [_ Hdet]; [lia..|].
  destruct (Hdet []) as [(fs' & E & Hfs)|[[] _]]; [|done]. rewrite Hfs in E by done.
  rewrite (run_on_disk _ _ w1 (format_at c' start) (D c' q [])) by (change (disk w1) with (disk w); by rewrite Hd).
  destruct (ok_resize_fs Hok (format_at c' start) (size / k_bsize) (set_disk (D c' q []) w1))
    as (w2 & E2 & D2 & C2).
  exists w2. split; [exact E2|]. rewrite D2, C2, Hd. split; [done|].
  change (calls (set_disk _ w1)) with (calls w1). subst w1. by rewrite !calls_record, <-!app_assoc.
Qed.
End lemmas.

(** ** Theorems *)

Section theorems.
Context `{K : kernel}.

(** C9: Growing a disk on a machine where nothing fails: the partition table
    becomes the specified one, and the kernel is then told, in this order, the
    start and length of the last partition and the new size of the file system
    found there, in blocks that fit into the partition.  The announced length is
    one sector short of the partition [FirstLBA..LastLBA]. *)
Theorem growDisk_resizes (Hok : ∀ n c, k_fail n c = None) p c h k pe q w :
  growable c h → disk w = D c q [] → used c = S k → entry c k = Some pe →
  0 ≤ FirstLBA pe ≤ nsect c - 34 → 0 < k_bsize < 2 ^ 63 → fs w !! "/"%string = Some Dir →
  let start := FirstLBA pe * 512 in
  let size := (nsect c - 34 - FirstLBA pe) * 512 in
  let blocks := size / k_bsize in
  ∃ w' mbr,
    growDisk p w = (Ret tt, w') ∧ decode_MBR (sector c 0) = Some mbr ∧
    content (disk w') = grow_spec c h k pe mbr ∧
    entry (content (disk w')) k = Some (set_LastLBA (nsect c - 34) pe) ∧
    calls w' = calls w ++ [SOpen "/"; SFstatfs "/"; SIoctl p BLKPG [start; size; 2]]
      ++ resize_calls k_imaxpct (format_at (content (disk w')) start) blocks ∧
    blocks * k_bsize ≤ size ∧ size = (nsect c - 34 - FirstLBA pe + 1) * 512 - 512.
Proof.
  intros Hg Hd Hk Hpe Hf Hb Hroot start size blocks.
  destruct (growDisk_device p c h q [] w Hg Hd)
    as (k' & pe' & mbr & Hk' & Hlt & Hpe' & Hwf & Hmbr & Hwfm & [(q' & fs' & Hfs & E)|[[] _]]); [|done].
  assert (k' = k) as -> by congruence. assert (pe' = pe) as -> by congruence. rewrite Hfs in E by done.
  destruct (ok_resize_kernel Hok p (grown_modifier p c h k pe) c q'
    (set_disk (D (grow_spec c h k pe mbr) q' []) w) h pe) as (w' & E' & D' & C'); try done.
  { exists (grow_spec c h k pe mbr). split; [done|]. by apply length_cF. }
  exists w', mbr. rewrite E, E', D', C'. cbn [disk set_disk content D]. split_and!; try done.
  - rewrite entry_cF by done. by rewrite decide_True.
  - subst blocks. rewrite Z.mul_comm. apply Z.mul_div_le. lia.
  - subst size. lia.
Qed.

(** C16: Whatever system call or disk operation fails, [growDisk] on a growable
    disk does not panic and changes no byte outside the partitioning metadata. *)
Theorem growDisk_safe p c h q faults w :
  growable c h → disk w = D c q faults → 0 < k_bsize < 2 ^ 63 →
  (∀ why, (growDisk p w).1 ≠ Panic why) ∧
  same_outside (metadata c h) c (content (disk (growDisk p w).2)).
Proof.
  intros Hg Hd Hb.
  destruct (growDisk_device p c h q faults w Hg Hd)
    as (k & pe & mbr & Hk & Hlt & Hpe & Hwf & Hmbr & Hwfm & [(q' & fs' & Hfs & E)|(_ & e & d' & Hs & E)]).
  - rewrite E. destruct (resize_kernel_safe p (grown_modifier p c h k pe) _ eq_refl Hb) as [Hp Hc].
    split; [intros why; apply Hp|]. rewrite (Hc _). cbn [disk set_disk content D]. by apply data_cF.
  - rewrite E. done.
Qed.
End theorems.

(** ** Witnesses: the example disk of 80 sectors in a calm and in a failing machine *)

Definition ex_disk_world : world :=
  set_disk (D ex_disk 0 []) (set_fs (<["/"%string := Dir]> (fs ex_world)) ex_world).

Lemma growDisk_resizes_witness :
  let c := ex_disk in
  ∃ w' mbr,
    @growDisk calm "/dev/sda" ex_disk_world = (Ret tt, w') ∧ decode_MBR (sector c 0) = Some mbr ∧
    content (disk w') = grow_spec c ex_header 1 (ex_entry 35 36) mbr ∧
    entry (content (disk w')) 1 = Some (set_LastLBA (nsect c - 34) (ex_entry 35 36)) ∧
    calls w' = calls ex_disk_world ++ [SOpen "/"; SFstatfs "/"; SIoctl "/dev/sda" BLKPG [35 * 512; (nsect c - 34 - 35) * 512; 2]]
      ++ resize_calls 25 (format_at (content (disk w')) (35 * 512)) ((nsect c - 34 - 35) * 512 / 4096) ∧
    (nsect c - 34 - 35) * 512 / 4096 * 4096 ≤ (nsect c - 34 - 35) * 512 ∧
    (nsect c - 34 - 35) * 512 = (nsect c - 34 - 35 + 1) * 512 - 512.
Proof.
  apply (@growDisk_resizes calm (λ _ _, eq_refl) "/dev/sda" ex_disk ex_header 1 (ex_entry 35 36) 0 ex_disk_world);
    [exact ex_growable|reflexivity|vm_compute; reflexivity..|vm_compute; split; discriminate|cbn; lia|reflexivity].
Defined.

Definition failing : kernel := {|
  k_fail := λ n c, match c with SIoctl _ _ _ => Some (0%nat, 5) | _ => None end;
  k_pseudo := λ _, []; k_procs := λ _, []; k_pid := λ _, 1; k_bsize := 4096; k_imaxpct := 25;
  k_output := λ _, ""%string; k_http := λ _, None; k_uri_ok := λ _, true;
  k_lookpath := λ _, None; k_addrs := λ _, None; k_fd := λ _, 0%Z; k_lookup := λ _, None;
  k_respond := λ _ _, None; k_hangs := λ _ _, false; k_epoll := λ _, (0%Z, false); k_interfaces := []
|}.

Lemma growDisk_safe_witness :
  (∀ why, (@growDisk failing "/dev/sda" ex_disk_world).1 ≠ Panic why) ∧
  same_outside (metadata ex_disk ex_header) ex_disk
    (content (disk (@growDisk failing "/dev/sda" ex_disk_world).2)).
Proof.
  apply (@growDisk_safe failing "/dev/sda" ex_disk ex_header 0 []); [exact ex_growable|done|cbn; lia].
Defined.
