(* ===== verification/Launch.v ===== *)
(** * Starting the programs ([src/pkg/vorteil/launch.go])

    Environment and argument substitution, the search for the executable, the
    bootstrap commands, and the launch itself.  Two libraries are parameters:
    the shell word parser and the [vcfg] methods that split a command line and
    name a signal.  Go ranges over a map in any order; the order is a parameter
    too. *)

From S2P Require Import Prelude GoStrings GoPath Types BlockDev Os Process.
Local Open Scope string_scope.

Definition pathEnvName : string := "PATH".
Definition pathSeperator : string := ":".
Definition rootID : Z := 0.
Definition userID : Z := 1000.
Definition defaultTTY : string := "/dev/vtty".
Definition defaultCWD : string := "/".

(** [fmt.Sprintf("$%s", k)] and [fmt.Sprintf("%s=%s", k, v)] *)
Definition replaceString (k : string) : string := "$" +:+ k.
Definition environString (k v : string) : string := k +:+ "=" +:+ v.

(** A run of the program ranges over a map in some order, which may differ from
    one range statement to the next (the index). *)
Class map_order := {
  range : nat → gmap string string → list (string * string);
  range_perm n m : range n m ≡ₚ map_to_list m
}.

(** [Parse] of go-shellwords with [ParseEnv]: the words of a value, variables
    taken from the function; no words on an error. *)
Class launch_libs := {
  shellwords : (string → string) → string → list string;
  ProgramArgs : Program → list string + error;
  Signal : string → option Z
}.

(** [k, v := SplitN(s, "=", 2)] where the code uses both elements. *)
Definition key_value (s : string) : outcome (string * string) :=
  match SplitN2 s "=" with
  | [k; v] => Ret (k, v)
  | _ => Panic IndexOutOfRange
  end.

(** ** Environment and arguments *)

Section pure.
Context `{MO : map_order} `{L : launch_libs}.

Fixpoint pickFromEnv (env : string) (l : list string) : outcome string :=
  match l with
  | [] => Ret ""
  | e :: l =>
      match SplitN2 e "=" with
      | k :: rest =>
          if String.eqb k env
          then match rest with v :: _ => Ret v | [] => Panic IndexOutOfRange end
          else pickFromEnv env l
      | [] => Panic IndexOutOfRange
      end
  end.

(** The map [ee] of [args]. *)
Fixpoint env_map (envs : list string) (ee : gmap string string) : outcome (gmap string string) :=
  match envs with
  | [] => Ret ee
  | s :: envs => '(k, v) ← key_value s; env_map envs (<[k := v]> ee)
  end.

Definition substitute (kvs : list (string * string)) (e : string) : string :=
  fold_left (λ e '(k, v), ReplaceAll e (replaceString k) v) kvs e.

Definition args (progArgs envs : list string) : outcome (list string) :=
  ee ← env_map envs ∅;
  mret (imap (λ i e, substitute (range i ee) e) progArgs).

(** The loop of [envs]; [acc] is the map the parser looks variables up in. *)
Fixpoint envs_loop (l : list string) (acc : gmap string string) : list string :=
  match l with
  | [] => []
  | s :: l =>
      match SplitN2 s "=" with
      | [k; v] =>
          match shellwords (λ key, default "" (acc !! key)) v with
          | [] => envs_loop l acc
          | words =>
              let v := Join words " " in
              environString k v :: envs_loop l (<[k := v]> acc)
          end
      | _ => envs_loop l acc
      end
  end.

Definition envs (progValues : list string) (hyperVisorEnvs : gmap string string) : list string :=
  let newEnvs := (((λ '(k, v), environString k v) <$> range 0 hyperVisorEnvs) ++ progValues)%list in
  envs_loop newEnvs ∅.

Definition bootstrapNotdefined (args : list string) (penv : list string)
    (hvEnvs : gmap string string) : outcome string :=
  match args with
  | [] => Panic SliceBounds
  | _ :: [a0; a1] =>
      if existsb (λ val, HasPrefix val (a0 +:+ "=")) penv then Ret ""
      else Ret (environString a0 (substitute (range 0 hvEnvs) a1))
  | _ => Ret ""
  end.

(** The three [key=value] words of FIND_AND_REPLACE. *)
Definition replace_map (args : list string) : outcome (gmap string string) := env_map args ∅.

(** [m["replace"]] after the substitution of the environment. *)
Fixpoint replace_env (penv : list string) (r : string) : outcome string :=
  match penv with
  | [] => Ret r
  | val :: penv => '(k, v) ← key_value val; replace_env penv (ReplaceAll r (replaceString k) v)
  end.
End pure.

Definition fixDefaults (p : Program) : Program :=
  mkProgram (Args p) (Env p)
    (if String.eqb (Cwd p) "" then defaultCWD else Cwd p)
    (if String.eqb (Stdout p) "" then defaultTTY else Stdout p)
    (if String.eqb (Stderr p) "" then defaultTTY else Stderr p)
    (Bootstrap p) (Strace p) (Privilege p) (Terminate p) (LogFiles p).

(** The strace override: append, shift by one with [copy], overwrite. *)
Definition strace_args (path : string) (args : list string) : list string :=
  let a := (args ++ [""])%list in
  let a := (take 1 a ++ take (length a - 1) a)%list in
  <[0%nat := path]> a.

(** CAP_CHOWN, DAC_OVERRIDE, DAC_READ_SEARCH, FOWNER, IPC_OWNER, NET_ADMIN, MKNOD,
    NET_BIND_SERVICE, NET_RAW, SYS_ADMIN *)
Definition superuser_caps : list Z := [0; 1; 2; 3; 15; 12; 27; 10; 13; 21]%Z.

Definition privilege_id (p : privilege) : Z :=
  match p with
  | SuperuserPrivilege => userID
  | UserPrivilege => userID
  | _ => rootID
  end.

Definition is_superuser (p : privilege) : bool :=
  match p with
  | SuperuserPrivilege => true
  | _ => false
  end.

(** ** Effects *)

Section os.
Context `{K : kernel} `{MO : map_order} `{L : launch_libs}.

Fixpoint search_path (ppath : string) (pathEnv : list string) : OS string :=
  match pathEnv with
  | [] => mret ""
  | c :: pathEnv =>
      r ← mtry (Stat (PathJoin [c; ppath]));
      match r with
      | inl _ => mret (PathJoin [c; ppath])
      | inr _ => search_path ppath pathEnv
      end
  end.

Definition calculatePath (ppath : string) (p : Program) : OS string :=
  if IsAbs ppath then mret ppath
  else
    r ← mtry (Stat (PathJoin [Cwd p; ppath]));
    match r with
    | inl _ =>
        a ← mtry (Abs (PathJoin [Cwd p; ppath]));
        match a with
        | inl path => mret path
        | inr _ => mret ("/" +:+ ppath)
        end
    | inr _ =>
        v ← lift (pickFromEnv pathEnvName (Env p));
        search_path ppath (Split v pathSeperator)
    end.

(** [exec.Command]: the path it will run, if it found one. *)
Definition command_path (name : string) : option string :=
  if String.eqb (PathBase name) name then k_lookpath name else Some name.

(** [cmd.Start()] *)
Definition Start (c : Cmd) : OS Z :=
  sys (SExec c) (λ w,
    match command_path (cmd_Path c) with
    | None => inr (Errorf "executable file not found in $PATH")
    | Some p =>
        match lookup_node (fs w) p with
        | Some (File _) => if is_dir (fs w) (cmd_Dir c) then inl (k_pid (length (trace w)), w) else inr ENOENT
        | Some _ => inr (Errno 13)
        | None => inr ENOENT
        end
    end).

Definition set_Process (pid : Z) (c : Cmd) : Cmd :=
  mkCmd (cmd_Path c) (cmd_Args c) (cmd_Env c) (cmd_Dir c) (cmd_Uid c) (cmd_Gid c)
    (cmd_AmbientCaps c) (cmd_Stdout c) (cmd_Stderr c) (Some pid) (cmd_ProcessState c).

(** Create the directory of an output file if it does not exist. *)
Definition output_dir (file : string) : OS unit :=
  r ← mtry (Stat (PathDir file));
  match r with
  | inr e => if IsNotExist e then ignore (MkdirAll (PathDir file)) else mret tt
  | inl _ => mret tt
  end.

(** The command [launch] builds. *)
Definition launch_cmd (p : program) (prog : Program) : Cmd :=
  let '(path, args) :=
    if Strace prog then ("/vorteil/strace", strace_args (p_path p) (p_args p))
    else (p_path p, p_args p) in
  mkCmd path (path :: args) (p_env p) (Cwd prog)
    (u32 (privilege_id (Privilege prog))) (u32 (privilege_id (Privilege prog)))
    (if is_superuser (Privilege prog) then superuser_caps else [])
    (Stdout prog) (Stderr prog) None None.

Definition launch (i : nat) : OS unit :=
  w ← mget;
  match progs w !! i with
  | None => mpanic NilDeref
  | Some p =>
      let prog := fixDefaults (p_vcfgProg p) in
      let c := launch_cmd p prog in
      update_prog i (λ p, set_args (tail (cmd_Args c)) (set_path (cmd_Path c) (set_vcfgProg prog p)));;
      output_dir (Stderr prog);;
      OpenFile false false (Stderr prog);;
      output_dir (Stdout prog);;
      OpenFile true false (Stdout prog);;
      update_prog i (set_cmd (Some c));;
      pid ← Start c;
      update_prog i (set_cmd (Some (set_Process pid c)))
  end.

(** ** The bootstrap commands *)

(** A loop that tries once a second. *)
Fixpoint poll (fuel : nat) (m : OS unit) : OS unit :=
  match fuel with
  | O => waiting
  | S fuel =>
      r ← mtry m;
      match r with
      | inl _ => mret tt
      | inr _ => quiet (SSleep 1000);; poll fuel m
      end
  end.

Definition bootstrapWaitForFile (fuel : nat) (args : list string) : OS unit :=
  match args with
  | [] => mpanic SliceBounds
  | _ :: [a0] => poll fuel (Stat a0)
  | _ => mret tt
  end.

Definition bootstrapGetRequest (args : list string) : OS unit :=
  match args with
  | _ :: a1 :: a2 :: _ =>
      if k_uri_ok a1 then
        r ← mtry (sys (SHttpGet a1) (λ w, match k_http a1 with Some b => inl (b, w) | None => inr EIO end));
        match r with
        | inr _ => mret tt
        | inl body =>
            r ← mtry (MkdirAll (PathDir a2));
            match r with
            | inr _ => mret tt
            | inl _ =>
                r ← mtry (OpenFile true true a2);
                match r with
                | inr _ => mret tt
                | inl out => ignore (Write out body)
                end
            end
        end
      else mret tt
  | _ => mret tt
  end.

(** [checkIfIPV4] on an address the kernel lists. *)
Definition count_colon (s : string) : nat := (length (Split s ":") - 1)%nat.

Definition checkIfIPV4 (ip : string) : string * bool := (ip, (count_colon ip <? 2)%nat).

Fixpoint first_ipv4 (ip : string) (addrs : list string) : string :=
  match addrs with
  | [] => ip
  | a :: addrs => let '(ip, isIpv4) := checkIfIPV4 a in if isIpv4 then ip else first_ipv4 ip addrs
  end.

Definition listenForPort (fuel : nat) (addrToCheck : string) : OS unit :=
  poll fuel (plain (SDial addrToCheck)).

(** The goroutines of the ports only dial; the caller waits for all of them. *)
Definition wait_ports (fuel : nat) (ief : string) (ports : list string) : OS unit :=
  match k_addrs ief with
  | None => mret tt
  | Some addrs =>
      let ip := first_ipv4 "" addrs in
      mforeach (λ arg, listenForPort fuel (ip +:+ ":" +:+ arg))
        (Split (TrimSpace (Join ports " ")) " ")
  end.

Definition bootstrapWaitForPort (fuel : nat) (args : list string) : OS unit :=
  match args with
  | [] => mpanic SliceBounds
  | _ :: args =>
      if (length args <? 2)%nat then mret tt
      else
        match args with
        | a0 :: rest =>
            if Contains a0 "if="
            then match Split a0 "=" with
                 | _ :: ief :: _ => wait_ports fuel ief rest
                 | _ => mpanic IndexOutOfRange
                 end
            else wait_ports fuel "eth0" args
        | [] => mret tt
        end
  end.

Definition bootstrapReplace (args : list string) (penv : list string) : OS unit :=
  match args with
  | [] => mpanic SliceBounds
  | _ :: args =>
      if negb (length args =? 3)%nat then mret tt
      else
        m ← lift (replace_map args);
        let file := default "" (m !! "file") in
        r ← mtry (ReadFile file);
        match r with
        | inr _ => mret tt
        | inl txt =>
            rep ← lift (replace_env penv (default "" (m !! "replace")));
            ignore (WriteFile file (Replace txt (default "" (m !! "find")) rep))
        end
  end.

(** DEFINE_IF_NOT_DEFINED: the environment grows, the arguments are rewritten. *)
Definition bootstrap_define (i : nat) (bs : list string) (hvEnvs : gmap string string) : OS unit :=
  w ← mget;
  match progs w !! i with
  | None => mpanic NilDeref
  | Some p =>
      s ← lift (bootstrapNotdefined bs (p_env p) hvEnvs);
      let env' := if String.eqb s "" then p_env p else (p_env p ++ [s])%list in
      update_prog i (set_env env');;
      if (1 <? length (p_args p))%nat then
        a ← lift (args (tail (p_args p)) env');
        update_prog i (set_args a)
      else mret tt
  end.

Definition bootstrap_one (fuel i : nat) (hvEnvs : gmap string string) (b : string) : OS unit :=
  let bs := Split b " " in
  match bs with
  | [] => mret tt
  | b0 :: _ =>
      if String.eqb b0 bootstrapSleep then
        match bs with
        | _ :: b1 :: _ =>
            match Atoi b1 with
            | Some n => quiet (SSleep n)
            | None => mret tt
            end
        | _ => mpanic IndexOutOfRange
        end
      else if String.eqb b0 bootstrapWaitFile then bootstrapWaitForFile fuel bs
      else if String.eqb b0 bootstrapWaitPort then bootstrapWaitForPort fuel bs
      else if String.eqb b0 bootstrapGet then bootstrapGetRequest bs
      else if String.eqb b0 bootstrapFandR then
        w ← mget;
        match progs w !! i with
        | Some p => bootstrapReplace bs (p_env p)
        | None => mpanic NilDeref
        end
      else if String.eqb b0 bootstrapDefine then bootstrap_define i bs hvEnvs
      else mret tt
  end.

Definition bootstrap (fuel i : nat) (hvEnvs : gmap string string) (p : Program) : OS unit :=
  mforeach (bootstrap_one fuel i hvEnvs) (Bootstrap p).

(** ** Launching one program *)

Definition prepProgram (p : Program) (pIndex : nat) : OS unit :=
  mmodify (λ w, set_progs (progs w ++ [mkprogram "" p pIndex false [] [] None false])%list w).

(** A better error for a missing file. *)
Definition explain_launch_error (i : nat) (e : error) : OS unit :=
  if IsNotExist e then
    w ← mget;
    let path := default "" (p_path <$> progs w !! i) in
    r ← mtry (Stat path);
    match r with
    | inl _ => mfail (Errorf ("ld linker missing for " +:+ path))
    | inr _ => mfail (Errorf (path +:+ " application missing"))
    end
  else mfail e.

Definition register_signal (i : nat) (terminate : string) : OS unit :=
  mmodify (λ w, set_terminateSignals
    (terminateSignals w ++ [(i, default SIGTERM (Signal terminate))])%list w).

(** [launchProgram] up to the started process. *)
Definition start_program (fuel i : nat) (hvEnvs : gmap string string) (p : Program) : OS unit :=
  let pEnvs := envs (Env p) hvEnvs in
  update_prog i (set_env pEnvs);;
  match ProgramArgs p with
  | inr err => mfail err
  | inl [] => mpanic SliceBounds
  | inl (pArg0 :: pArgs) =>
      a ← lift (args pArgs pEnvs);
      update_prog i (set_args a);;
      path ← calculatePath pArg0 p;
      update_prog i (set_path path);;
      if String.eqb path "" then mfail (Errorf ("program " +:+ pArg0 +:+ " can not be found"))
      else
        bootstrap fuel i hvEnvs p;;
        r ← mtry (launch i);
        match r with
        | inr err => explain_launch_error i err
        | inl _ => mret tt
        end
  end.

Definition launchProgram (fuel i : nat) (hvEnvs : gmap string string) : OS unit :=
  w ← mget;
  match progs w !! i with
  | None => mpanic NilDeref
  | Some np =>
      let p := p_vcfgProg np in
      start_program fuel i hvEnvs p;;
      register_signal i (Terminate p)
  end.
End os.
