(* ===== verification/LaunchTheorems.v ===== *)
(** * Correctness of launching programs

    Substitution in arguments and environments, the safety of a launch for
    well-formed programs, and the bookkeeping between a started program and its
    termination signal. *)

From S2P Require Import Prelude GoStrings GoPath Types BlockDev Os Process Launch.
Local Open Scope string_scope.

(** ** Keys and values *)

Definition has_eq (s : string) : Prop := is_Some (Cut s "=").

Lemma key_value_has_eq s : has_eq s → ∃ k v, key_value s = Ret (k, v).
Proof.
  intros [[k v] E]. exists k, v. unfold key_value, SplitN2. by rewrite E.
Qed.

Lemma has_eq_app k v : has_eq (environString k v).
Proof.
  unfold has_eq. destruct (Cut (environString k v) "=") eqn:E; [by eexists|].
  by apply Cut_None with (l := k) (r := v) in E.
Qed.

Lemma env_map_total l m : Forall has_eq l → ∃ m', env_map l m = Ret m'.
Proof.
  intros H. revert m. induction H as [|s l Hs _ IH]; intros m; [by eexists|].
  destruct (key_value_has_eq s Hs) as (k & v & E). cbn. rewrite E. apply IH.
Qed.

Lemma replace_env_total l r : Forall has_eq l → ∃ r', replace_env l r = Ret r'.
Proof.
  intros H. revert r. induction H as [|s l Hs _ IH]; intros r; [by eexists|].
  destruct (key_value_has_eq s Hs) as (k & v & E). cbn. rewrite E. apply IH.
Qed.

Section pure.
Context `{MO : map_order} `{L : launch_libs}.

Lemma envs_loop_has_eq l acc : Forall has_eq (envs_loop l acc).
Proof.
  revert acc. induction l as [|s l IH]; intros acc; [constructor|]. cbn [envs_loop].
  unfold SplitN2. destruct (Cut s "=") as [[k v]|]; [|apply IH].
  destruct (shellwords _ v) as [|w0 ws]; [apply IH|].
  constructor; [apply has_eq_app|apply IH].
Qed.

Lemma args_total progArgs l :
  Forall has_eq l → ∃ a, args progArgs l = Ret a ∧ length a = length progArgs.
Proof.
  intros H. destruct (env_map_total l ∅ H) as [m E]. unfold args. rewrite E. eexists.
  split; [done|]. apply length_imap.
Qed.

(** ** Substitution *)

Lemma ReplaceAll_no_dollar e k v :
  Contains e "$" = false → ReplaceAll e (replaceString k) v = e.
Proof.
  intros H. apply ReplaceAll_absent. apply not_true_iff_false. intros (l & r & ->)%Contains_spec.
  apply not_true_iff_false in H. apply H. apply Contains_spec.
  exists l, (k +:+ r). unfold replaceString. by rewrite str_app_assoc.
Qed.

Lemma substitute_no_dollar kvs e : Contains e "$" = false → substitute kvs e = e.
Proof.
  intros H. unfold substitute. induction kvs as [|[k v] kvs IH]; [done|]. cbn.
  by rewrite ReplaceAll_no_dollar.
Qed.

(** A reference to [key], among variables no name of which is a proper prefix of [key]. *)
Lemma Cut_self p : p ≠ "" → Cut p p = Some ("", "").
Proof.
  intros Hp. destruct p as [|a p]; [done|]. cbn [Cut].
  assert (HasPrefix (String a p) (String a p) = true) as ->.
  { apply prefix_app. exists "". by rewrite str_app_nil_r. }
  do 2 f_equal. pose proof (substring_app_r (String a p) "" (String.length (String a p))) as H.
  rewrite str_app_nil_r in H. apply H. cbn. lia.
Qed.

Lemma ReplaceAll_self p v : p ≠ "" → ReplaceAll p p v = v.
Proof.
  intros Hp. unfold ReplaceAll. destruct p as [|a p]; [done|]. cbn [String.length replace_fuel].
  rewrite Cut_self by done. destruct (String.length p) as [|n]; cbn.
  - by rewrite str_app_nil_r.
  - by rewrite str_app_nil_r.
Qed.

Lemma Contains_ref key k :
  Contains key "$" = false → Contains (replaceString key) (replaceString k) = true →
  String.prefix k key = true.
Proof.
  intros Hk (l & r & E)%Contains_spec. unfold replaceString in E. apply prefix_app.
  destruct l as [|a l]; cbn in E; [exists r; by injection E|].
  injection E as _ E. exfalso. apply not_true_iff_false in Hk. apply Hk, Contains_spec.
  exists l, (k +:+ r). by rewrite E.
Qed.

Lemma substitute_ref key v kvs :
  Contains key "$" = false → Contains v "$" = false → (key, v) ∈ kvs → NoDup kvs.*1 →
  (∀ k, k ∈ kvs.*1 → String.prefix k key = true → k = key) →
  substitute kvs (replaceString key) = v.
Proof.
  intros Hk Hv. induction kvs as [|[k' v'] kvs IH]; intros Hin Hnd Hpre; [by apply elem_of_nil in Hin|].
  apply NoDup_cons in Hnd as [Hni Hnd]. unfold substitute. cbn [fold_left].
  destruct (decide (k' = key)) as [->|Hne].
  - assert (v' = v) as ->.
    { apply elem_of_cons in Hin as [[= ->]|Hin]; [done|]. exfalso. apply Hni.
      apply list_elem_of_fmap. by exists (key, v). }
    rewrite ReplaceAll_self by done. by apply substitute_no_dollar.
  - rewrite ReplaceAll_absent.
    + apply IH; [|done|intros k Hk'; apply Hpre; by right].
      apply elem_of_cons in Hin as [[= -> ->]|Hin]; done.
    + apply not_true_iff_false. intros Hc. apply Hne. apply Hpre; [by left|].
      by apply Contains_ref.
Qed.
End pure.

(** ** Safety *)

Lemma safe_poll I fuel m : safe I m → safe I (quiet (SSleep 1000)) → safe I (poll fuel m).
Proof.
  intros Hm Hs. induction fuel as [|fuel IH]; [done|]. cbn [poll].
  apply safe_bind; [by apply safe_try|]. intros [?|?]; [done|]. by apply safe_bind.
Qed.

(** The invariant of a launch: the program is there and its environment consists
    of assignments. *)
Definition prog_ok (i : nat) (w : world) : Prop :=
  ∃ p, progs w !! i = Some p ∧ Forall has_eq (p_env p).

#[local] Instance prog_ok_stable i : stable (prog_ok i).
Proof. intros w w' _ Hp _ (p & Hi & He). exists p. by rewrite Hp. Qed.

(** A program the code can start without running into an index out of range. *)
Definition bootstrap_ok (b : string) : bool :=
  match Split b " " with
  | b0 :: rest =>
      if String.eqb b0 bootstrapSleep then negb (length rest =? 0)%nat
      else if String.eqb b0 bootstrapFandR then
        (negb (length rest =? 3)%nat) || forallb (λ a, Contains a "=") rest
      else true
  | [] => false
  end.

Definition program_ok (p : Program) : bool :=
  forallb bootstrap_ok (Bootstrap p) && forallb (λ e, Contains e "=") (Env p).

Lemma Contains_has_eq s : Contains s "=" = true → has_eq s.
Proof. unfold Contains, has_eq. destruct (Cut s "="); [by eexists|done]. Qed.

Lemma forallb_has_eq l : forallb (λ a, Contains a "=") l = true → Forall has_eq l.
Proof.
  intros H. apply Forall_forall. intros x Hx. apply Contains_has_eq.
  rewrite forallb_forall in H. apply H. by apply list_elem_of_In.
Qed.

Lemma pickFromEnv_total env l : Forall has_eq l → ∀ why, pickFromEnv env l ≠ Panic why.
Proof.
  induction 1 as [|e l He _ IH]; [done|]. cbn. destruct He as [[k v] E].
  unfold SplitN2. rewrite E. by destruct (String.eqb k env).
Qed.

Section launch_safe.
Context `{K : kernel} `{MO : map_order} `{L : launch_libs} (i : nat).

Lemma launch_tame {A} P (m : OS A) : tame P m → safe (prog_ok i) m.
Proof. apply safe_tame. apply _. Qed.

Lemma safe_update f :
  (∀ p, Forall has_eq (p_env p) → Forall has_eq (p_env (f p))) →
  safe (prog_ok i) (update_prog i f).
Proof.
  intros Hf. apply safe_modify. intros w (p & Hp & He). exists (f p). split; [|by apply Hf].
  cbn. by rewrite list_lookup_alter_eq, Hp.
Qed.

Lemma tame_Abs p : tame (λ _, True) (Abs p).
Proof.
  unfold Abs. destruct (IsAbs p); [apply tame_ret|].
  apply tame_bind; [by apply tame_plain|intros _; apply tame_ret].
Qed.

Lemma tame_Start c : tame (λ _, True) (Start c).
Proof.
  apply tame_sys_with; [done|done|]. intros w a w'.
  destruct (command_path _) as [q|]; [|done].
  destruct (lookup_node _ _) as [[]|]; try done. case_match; [|done]. by intros [= _ <-].
Qed.

Lemma tame_search_path P ppath l :
  (∀ p e, P (mkEvent (SStat p) e)) → tame P (search_path ppath l).
Proof.
  intros H. induction l as [|c l IH]; [apply tame_ret|]. cbn [search_path].
  apply tame_bind; [apply tame_try, tame_Stat; auto|].
  intros [?|?]; [apply tame_ret|apply IH].
Qed.

Lemma tame_output_dir P f :
  (∀ p e, P (mkEvent (SStat p) e)) → (∀ p e, P (mkEvent (SMkdirAll p) e)) →
  tame P (output_dir f).
Proof.
  intros H1 H2. apply tame_bind; [apply tame_try, tame_Stat; auto|].
  intros [?|e]; [apply tame_ret|]. destruct (IsNotExist e); [|apply tame_ret].
  apply tame_ignore, tame_MkdirAll; auto.
Qed.

Lemma safe_calculatePath ppath p :
  Forall has_eq (Env p) → safe (prog_ok i) (calculatePath ppath p).
Proof.
  intros He. unfold calculatePath. destruct (IsAbs ppath); [apply safe_ret|].
  apply safe_bind; [by eapply launch_tame, tame_try, (tame_Stat (λ _, True))|]. intros [?|?].
  - apply safe_bind; [eapply launch_tame, tame_try, tame_Abs|]. intros [?|?]; apply safe_ret.
  - apply safe_bind; [by apply safe_lift, pickFromEnv_total|]. intros v.
    by eapply launch_tame, (tame_search_path (λ _, True)).
Qed.

Lemma tame_get_request P args :
  (∀ u e, P (mkEvent (SHttpGet u) e)) → (∀ p e, P (mkEvent (SMkdirAll p) e)) →
  (∀ p e, P (mkEvent (SOpen p) e)) → (∀ p d e, P (mkEvent (SWrite p d) e)) →
  tame P (bootstrapGetRequest args).
Proof.
  intros H1 H2 H3 H4. destruct args as [|a0 [|a1 [|a2 rest]]]; try apply tame_ret.
  cbn [bootstrapGetRequest]. destruct (k_uri_ok a1); [|apply tame_ret].
  apply tame_bind.
  { apply tame_try, tame_sys_with; [done|done|]. intros w a w'.
    destruct (k_http a1); [|done]. by intros [= _ <-]. }
  intros [body|?]; [|apply tame_ret].
  apply tame_bind; [apply tame_try, tame_MkdirAll; auto|]. intros [?|?]; [|apply tame_ret].
  apply tame_bind; [apply tame_try, tame_OpenFile; auto|]. intros [out|?]; [|apply tame_ret].
  apply tame_ignore, tame_Write; auto.
Qed.

Lemma safe_sleep n : safe (prog_ok i) (quiet (SSleep n)).
Proof. by eapply launch_tame, (tame_quiet (λ _, True)). Qed.

Lemma safe_wait_ports fuel ief ports : safe (prog_ok i) (wait_ports fuel ief ports).
Proof.
  unfold wait_ports. destruct (k_addrs ief); [|apply safe_ret]. apply safe_foreach. intros arg _.
  apply safe_poll; [by eapply launch_tame, (tame_plain (λ _, True))|apply safe_sleep].
Qed.

(** [Split] at "=" of a word that holds "if=" has a second element. *)
Lemma Split_if a : Contains a "if=" = true → ∃ x y l, Split a "=" = x :: y :: l.
Proof.
  intros (l & r & ->)%Contains_spec. unfold Split.
  destruct (String.length (l +:+ "if=" +:+ r)) as [|n] eqn:Hn.
  { rewrite !str_length_app in Hn. cbn in Hn. lia. }
  cbn [split_fuel]. destruct (Cut (l +:+ "if=" +:+ r) "=") as [[x rest]|] eqn:E.
  - destruct n as [|n]; cbn [split_fuel]; [eauto|].
    destruct (Cut rest "=") as [[y rest']|]; eauto.
  - exfalso. apply Cut_None with (l := l +:+ "if") (r := r) in E. apply E.
    by rewrite str_app_assoc.
Qed.

Lemma safe_wait_port fuel args : args ≠ [] → safe (prog_ok i) (bootstrapWaitForPort fuel args).
Proof.
  destruct args as [|x args]; [done|]. intros _. unfold bootstrapWaitForPort.
  destruct (length args <? 2)%nat; [apply safe_ret|].
  destruct args as [|a0 rest]; [apply safe_ret|].
  destruct (Contains a0 "if=") eqn:Hc; [|apply safe_wait_ports].
  destruct (Split_if a0 Hc) as (y & ief & l & ->). apply safe_wait_ports.
Qed.

Lemma safe_replace x args penv :
  Forall has_eq penv → (length args = 3%nat → Forall has_eq args) →
  safe (prog_ok i) (bootstrapReplace (x :: args) penv).
Proof.
  intros Hp Ha. unfold bootstrapReplace.
  destruct (Nat.eqb_spec (length args) 3) as [Hl|]; cbn [negb]; [|apply safe_ret].
  destruct (env_map_total args ∅ (Ha Hl)) as [m Em].
  apply safe_bind; [apply safe_lift; unfold replace_map; by rewrite Em|]. intros m'.
  apply safe_bind; [by eapply launch_tame, tame_try, (tame_ReadFile (λ _, True))|].
  intros [txt|?]; [|apply safe_ret].
  destruct (replace_env_total penv (default "" (m' !! "replace")) Hp) as [r' Er].
  apply safe_bind; [apply safe_lift; by rewrite Er|]. intros rep.
  by eapply launch_tame, tame_ignore, (tame_WriteFile (λ _, True)).
Qed.

Lemma bootstrapNotdefined_result bs penv hvEnvs :
  bs ≠ [] → ∃ s, bootstrapNotdefined bs penv hvEnvs = Ret s ∧ (s = "" ∨ has_eq s).
Proof.
  intros Hb. destruct bs as [|x [|a0 [|a1 [|? ?]]]]; try done; cbn; eauto.
  destruct (existsb _ _); eauto using has_eq_app.
Qed.

Lemma safe_define bs hvEnvs : bs ≠ [] → safe (prog_ok i) (bootstrap_define i bs hvEnvs).
Proof.
  intros Hb. apply safe_get. intros w (p & Hp & He). rewrite Hp.
  destruct (bootstrapNotdefined_result bs (p_env p) hvEnvs Hb) as (s & -> & Hs).
  apply safe_lift_ret. set (env' := if String.eqb s "" then _ else _).
  assert (Forall has_eq env') as He'.
  { subst env'. destruct (String.eqb_spec s "") as [|Hne]; [done|].
    apply Forall_app. split; [done|]. constructor; [by destruct Hs|done]. }
  apply safe_bind; [by apply safe_update|]. intros _.
  destruct (1 <? length (p_args p))%nat; [|apply safe_ret].
  destruct (args_total (tail (p_args p)) env' He') as (a & -> & _).
  apply safe_lift_ret, safe_update. done.
Qed.

Lemma safe_bootstrap_one fuel hvEnvs b :
  bootstrap_ok b = true → safe (prog_ok i) (bootstrap_one fuel i hvEnvs b).
Proof.
  unfold bootstrap_ok, bootstrap_one. destruct (Split b " ") as [|b0 rest]; [done|].
  destruct (String.eqb b0 bootstrapSleep).
  { destruct rest as [|b1 rest]; [done|]. intros _. destruct (Atoi b1); [apply safe_sleep|apply safe_ret]. }
  intros Hok. destruct (String.eqb b0 bootstrapWaitFile).
  { destruct rest as [|a0 [|? ?]]; try apply safe_ret.
    apply safe_poll; [by eapply launch_tame, (tame_Stat (λ _, True))|apply safe_sleep]. }
  destruct (String.eqb b0 bootstrapWaitPort); [by apply safe_wait_port|].
  destruct (String.eqb b0 bootstrapGet); [by eapply launch_tame, (tame_get_request (λ _, True))|].
  destruct (String.eqb b0 bootstrapFandR).
  { apply safe_get. intros w (p & Hp & He). rewrite Hp. apply safe_replace; [done|].
    intros Hl. rewrite Hl in Hok. by apply forallb_has_eq. }
  destruct (String.eqb b0 bootstrapDefine); [by apply safe_define|apply safe_ret].
Qed.

Lemma safe_launch : safe (prog_ok i) (launch i).
Proof.
  apply safe_get. intros w (p & Hp & He). rewrite Hp.
  apply safe_bind; [by apply safe_update|]. intros _.
  do 2 (apply safe_bind; [by eapply launch_tame, (tame_output_dir (λ _, True))|]; intros _;
        apply safe_bind; [by eapply launch_tame, (tame_OpenFile (λ _, True))|]; intros _).
  apply safe_bind; [by apply safe_update|]. intros _.
  apply safe_bind; [eapply launch_tame, tame_Start|]. intros pid. by apply safe_update.
Qed.

Lemma safe_explain e : safe (prog_ok i) (explain_launch_error i e).
Proof.
  unfold explain_launch_error. destruct (IsNotExist e); [|apply safe_fail].
  apply safe_get. intros w _.
  apply safe_bind; [by eapply launch_tame, tame_try, (tame_Stat (λ _, True))|].
  intros [?|?]; apply safe_fail.
Qed.

Lemma nopanic_start_program fuel hvEnvs np w :
  progs w !! i = Some np → program_ok (p_vcfgProg np) = true →
  ProgramArgs (p_vcfgProg np) ≠ inl [] →
  ∀ why, (start_program fuel i hvEnvs (p_vcfgProg np) w).1 ≠ Panic why.
Proof.
  intros Hnp Hok Hargs. apply andb_true_iff in Hok as [Hboot Henv].
  unfold start_program. set (p := p_vcfgProg np) in *. set (pEnvs := envs _ _).
  assert (Forall has_eq pEnvs) as HpE by apply envs_loop_has_eq.
  set (w1 := set_progs (alter (set_env pEnvs) i (progs w)) w).
  rewrite (run_ret _ _ _ tt w1) by done. assert (prog_ok i w1) as Hw1.
  { exists (set_env pEnvs np). split; [|done]. cbn. by rewrite list_lookup_alter_eq, Hnp. }
  destruct (ProgramArgs p) as [[|pArg0 pArgs]|err]; [done| |done].
  destruct (args_total pArgs pEnvs HpE) as (a & -> & _).
  match goal with |- ∀ why, (?m w1).1 ≠ _ => assert (safe (prog_ok i) m) as Hs end.
  { apply safe_lift_ret. apply safe_bind; [by apply safe_update|]. intros _.
    apply safe_bind; [by apply safe_calculatePath, forallb_has_eq|]. intros path.
    apply safe_bind; [by apply safe_update|]. intros _.
    destruct (String.eqb path ""); [apply safe_fail|].
    apply safe_bind.
    { apply safe_foreach. intros b Hb. apply safe_bootstrap_one.
      rewrite forallb_forall in Hboot. apply Hboot. by apply list_elem_of_In. }
    intros _. apply safe_bind; [apply safe_try, safe_launch|]. intros [?|err]; [apply safe_ret|apply safe_explain]. }
  by apply (Hs w1 Hw1).
Qed.

(** Launching a program whose environment and FIND_AND_REPLACE words are
    assignments, whose SLEEP commands have a number word and whose command line
    is not empty never panics, whatever the kernel, the shell word parser and
    the map order do.  In particular the environment [envs] builds consists of
    assignments, which [args] and the bootstrap commands rely on. *)
Theorem launchProgram_safe fuel hvEnvs np w :
  progs w !! i = Some np → program_ok (p_vcfgProg np) = true →
  ProgramArgs (p_vcfgProg np) ≠ inl [] →
  ∀ why, (launchProgram fuel i hvEnvs w).1 ≠ Panic why.
Proof.
  intros Hnp Hok Hargs why. pose proof (nopanic_start_program fuel hvEnvs np w Hnp Hok Hargs why) as H.
  unfold launchProgram. rewrite run_get, Hnp. unfold mbind, M_bind.
  by destruct (start_program _ _ _ _ w) as [[] ?].
Qed.
End launch_safe.

(** ** Started programs and their termination signals *)

(** The commands that were executed, in order. *)
Definition executed (e : event) : option Cmd :=
  match ev_call e, ev_err e with SExec c, None => Some c | _, _ => None end.

Definition started (w : world) : list Cmd := omap executed (trace w).

Definition not_exec (e : event) : Prop :=
  match ev_call e with SExec _ => False | _ => True end.

Definition priv (i : nat) (w : world) : option privilege :=
  Privilege ∘ p_vcfgProg <$> progs w !! i.

(** Nothing but program [i] changed. *)
Definition others (i : nat) : relation world := λ w w',
  (∀ j, j ≠ i → progs w' !! j = progs w !! j) ∧ length (progs w') = length (progs w) ∧
  initStatus w' = initStatus w ∧ vinitd w' = vinitd w.

#[global] Instance others_preorder i : PreOrder (others i).
Proof.
  split; [done|]. intros w1 w2 w3 (Ha&?&?&?) (Hb&?&?&?).
  split_and!; [|congruence..]. intros j Hj. by rewrite Hb, Ha.
Qed.

(** Nothing was started, nothing registered. *)
Definition unstarted (i : nat) : relation world := λ w w',
  started w' = started w ∧ terminateSignals w' = terminateSignals w ∧ priv i w' = priv i w ∧ others i w w'.

#[global] Instance unstarted_preorder i : PreOrder (unstarted i).
Proof.
  split; [done|]. intros w1 w2 w3 (?&?&?&?) (?&?&?&?). unfold unstarted. by split_and!; etransitivity.
Qed.

(** User and superuser programs run as uid 1000, all others as root; only a
    superuser program has ambient capabilities. *)
Definition credentials (pr : privilege) (c : Cmd) : Prop :=
  let id := match pr with UserPrivilege | SuperuserPrivilege => 1000%Z | _ => 0%Z end in
  cmd_Uid c = id ∧ cmd_Gid c = id ∧
  cmd_AmbientCaps c = match pr with SuperuserPrivilege => superuser_caps | _ => [] end.

(** From [w] to [w'] the program was started once, as it should be. *)
Definition starts (i : nat) (pr : privilege) (w w' : world) : Prop := ∃ c pid p,
  started w' = (started w ++ [c])%list ∧ credentials pr c ∧
  progs w' !! i = Some p ∧ p_cmd p = Some (set_Process pid c).

Section bookkeeping.
Context `{K : kernel} `{MO : map_order} `{L : launch_libs} (i : nat).

Lemma started_app w w' evs :
  trace w' = (trace w ++ evs)%list → Forall not_exec evs → started w' = started w.
Proof.
  intros T F. unfold started. rewrite T, omap_app.
  assert (omap executed evs = []) as ->.
  { clear T. induction F as [|e evs He _ IH]; [done|].
    change (omap executed (e :: evs)) with
      (match executed e with Some c => c :: omap executed evs | None => omap executed evs end).
    unfold not_exec, executed in *. by destruct (ev_call e). }
  by rewrite app_nil_r.
Qed.

Lemma unstarted_tame {A} (m : OS A) : tame not_exec m → keeps (unstarted i) m.
Proof.
  intros H w. destruct (H w) as (o & w' & evs & -> & T & F & V). cbn [snd].
  unfold unstarted, others, priv. rewrite (started_app _ _ _ T F). injection V as _ -> _ _ _ -> -> -> _. done.
Qed.

Lemma others_update f w : others i w (set_progs (alter f i (progs w)) w).
Proof.
  split_and!; [|apply length_alter|done..]. intros j Hj. cbn. by apply list_lookup_alter_ne.
Qed.

Lemma unstarted_update f :
  (∀ p, Privilege (p_vcfgProg (f p)) = Privilege (p_vcfgProg p)) →
  keeps (unstarted i) (update_prog i f).
Proof.
  intros Hf. apply keeps_modify. intros w. split; [done|]. split; [done|].
  split; [|apply others_update]. unfold priv. cbn. rewrite list_lookup_alter_eq. destruct (progs w !! i) as [p|]; [|done]. cbn. by rewrite Hf.
Qed.

Lemma unstarted_lift {A} (o : outcome A) : keeps (unstarted i) (lift o).
Proof. intros w. reflexivity. Qed.

Lemma unstarted_poll fuel m : keeps (unstarted i) m → keeps (unstarted i) (poll fuel m).
Proof.
  intros Hm. induction fuel as [|fuel IH]; [intros w; reflexivity|]. cbn [poll].
  apply keeps_bind; [apply _|by apply keeps_try|]. intros [?|?]; [apply keeps_ret; apply _|].
  apply keeps_bind; [apply _|by apply unstarted_tame, tame_quiet|done].
Qed.

Lemma unstarted_define bs hvEnvs : keeps (unstarted i) (bootstrap_define i bs hvEnvs).
Proof.
  apply keeps_bind; [apply _|apply keeps_get; apply _|]. intros w.
  destruct (progs w !! i) as [p|]; [|apply keeps_panic; apply _].
  apply keeps_bind; [apply _|apply unstarted_lift|]. intros s.
  apply keeps_bind; [apply _|by apply unstarted_update|]. intros _.
  apply keeps_if; [|apply keeps_ret; apply _].
  apply keeps_bind; [apply _|apply unstarted_lift|]. intros a. by apply unstarted_update.
Qed.

Lemma unstarted_replace args penv : keeps (unstarted i) (bootstrapReplace args penv).
Proof.
  destruct args as [|x args]; [apply keeps_panic; apply _|]. unfold bootstrapReplace.
  apply keeps_if; [apply keeps_ret; apply _|].
  apply keeps_bind; [apply _|apply unstarted_lift|]. intros m.
  apply keeps_bind; [apply _|by apply unstarted_tame, tame_try, tame_ReadFile|].
  intros [txt|?]; [|apply keeps_ret; apply _].
  apply keeps_bind; [apply _|apply unstarted_lift|]. intros rep.
  by apply unstarted_tame, tame_ignore, tame_WriteFile.
Qed.

Lemma unstarted_wait_port fuel args : keeps (unstarted i) (bootstrapWaitForPort fuel args).
Proof.
  assert (∀ ief ports, keeps (unstarted i) (wait_ports fuel ief ports)) as Hp.
  { intros ief ports. unfold wait_ports. destruct (k_addrs ief); [|apply keeps_ret; apply _].
    apply keeps_foreach; [apply _|]. intros arg _. by apply unstarted_poll, unstarted_tame, tame_plain. }
  destruct args as [|x args]; [apply keeps_panic; apply _|]. unfold bootstrapWaitForPort.
  apply keeps_if; [apply keeps_ret; apply _|]. destruct args as [|a0 rest]; [apply keeps_ret; apply _|].
  apply keeps_if; [|apply Hp]. destruct (Split a0 "=") as [|? [|? ?]]; [apply keeps_panic; apply _..|apply Hp].
Qed.

Lemma unstarted_bootstrap_one fuel hvEnvs b : keeps (unstarted i) (bootstrap_one fuel i hvEnvs b).
Proof.
  unfold bootstrap_one. destruct (Split b " ") as [|b0 rest]; [apply keeps_ret; apply _|].
  apply keeps_if.
  { destruct rest as [|b1 rest]; [apply keeps_panic; apply _|].
    destruct (Atoi b1); [by apply unstarted_tame, tame_quiet|apply keeps_ret; apply _]. }
  apply keeps_if.
  { destruct rest as [|a0 [|? ?]]; try (apply keeps_ret; apply _).
    by apply unstarted_poll, unstarted_tame, tame_Stat. }
  apply keeps_if; [apply unstarted_wait_port|].
  apply keeps_if; [by apply unstarted_tame, tame_get_request|].
  apply keeps_if.
  { apply keeps_bind; [apply _|apply keeps_get; apply _|]. intros w.
    destruct (progs w !! i); [apply unstarted_replace|apply keeps_panic; apply _]. }
  apply keeps_if; [apply unstarted_define|apply keeps_ret; apply _].
Qed.

Lemma unstarted_calculatePath ppath p : keeps (unstarted i) (calculatePath ppath p).
Proof.
  unfold calculatePath. apply keeps_if; [apply keeps_ret; apply _|].
  apply keeps_bind; [apply _|by apply unstarted_tame, tame_try, tame_Stat|]. intros [?|?].
  - apply keeps_bind; [apply _| |intros [?|?]; apply keeps_ret; apply _].
    apply keeps_try. unfold Abs. apply keeps_if; [apply keeps_ret; apply _|].
    apply keeps_bind; [apply _|by apply unstarted_tame, tame_plain|intros _; apply keeps_ret; apply _].
  - apply keeps_bind; [apply _|apply unstarted_lift|]. intros v.
    by apply unstarted_tame, tame_search_path.
Qed.

(** [m] starts the program exactly when it returns. *)
Definition launches {A} (pr : privilege) (m : OS A) : Prop := ∀ w, priv i w = Some pr →
  others i w (m w).2 ∧
  match (m w).1 with
  | Ret _ => starts i pr w (m w).2 ∧ terminateSignals (m w).2 = terminateSignals w
  | _ => started (m w).2 = started w ∧ terminateSignals (m w).2 = terminateSignals w
  end.

Lemma launches_after {A B} pr (m : OS A) (f : A → OS B) :
  (∀ w, priv i w = Some pr → unstarted i w (m w).2) →
  (∀ a, launches pr (f a)) → launches pr (m ≫= f).
Proof.
  intros Hm Hf w Hw. destruct (Hm w Hw) as (Hs & Ht & Hp & Ho). unfold mbind, M_bind.
  destruct (m w) as [[a|e|why|] w1]; [|done..]. cbn [snd] in *.
  destruct (Hf a w1 ltac:(congruence)) as [Ho' Hf']. split; [by etransitivity|].
  unfold starts in *. by rewrite Hs, Ht in Hf'.
Qed.

Lemma launches_get {B} pr (f : world → OS B) :
  (∀ w0, priv i w0 = Some pr → launches pr (f w0)) → launches pr (mget ≫= f).
Proof. intros Hf w Hw. rewrite run_get. by apply Hf. Qed.

Lemma launches_panic {A} pr why : launches pr (mpanic (A := A) why).
Proof. done. Qed.

Lemma launches_fail {A} pr e : launches pr (mfail (A := A) e).
Proof. done. Qed.

Lemma Start_cases c w :
  (∃ pid, Start c w = (Ret pid, record (SExec c) None w)) ∨
  (∃ e, Start c w = (Fail e, record (SExec c) (Some e) w)).
Proof.
  unfold Start, sys, sys_with. destruct (k_fail _ (SExec c)) as [[n e]|]; [eauto|].
  destruct (command_path _) as [q|]; [|eauto].
  destruct (lookup_node _ _) as [[]|]; eauto. destruct (is_dir _ _); eauto.
Qed.

(** The last steps: the exec and the new pid. *)
Lemma launches_Start pr c :
  credentials pr c →
  launches pr (pid ← Start c; update_prog i (set_cmd (Some (set_Process pid c)))).
Proof.
  intros Hc w Hw. unfold mbind, M_bind.
  destruct (Start_cases c w) as [[pid ->]|[e ->]]; cbn [fst snd].
  - split; [exact (others_update _ w)|]. split; [|done]. unfold priv in Hw.
    destruct (progs w !! i) as [p|] eqn:Hp; [|done]. exists c, pid, (set_cmd (Some (set_Process pid c)) p). split_and!; [|done| |done].
    + unfold started. cbn [trace record set_trace set_progs update_prog mmodify snd].
      by rewrite omap_app.
    + cbn. by rewrite list_lookup_alter_eq, Hp.
  - split; [done|]. split; [|done]. unfold started. cbn [trace record set_trace]. rewrite omap_app. apply app_nil_r.
Qed.

Lemma launch_cmd_credentials p :
  credentials (Privilege (p_vcfgProg p)) (launch_cmd p (fixDefaults (p_vcfgProg p))).
Proof.
  unfold credentials, launch_cmd. cbn [fixDefaults Strace Privilege Cwd].
  destruct (Strace (p_vcfgProg p)), (Privilege (p_vcfgProg p)); done.
Qed.

Lemma launches_launch pr : launches pr (launch i).
Proof.
  apply launches_get. intros w0 Hw0. unfold priv in Hw0.
  destruct (progs w0 !! i) as [p|]; [|done]. injection Hw0 as <-.
  apply launches_after; [|intros _].
  { intros w Hw. split; [done|]. split; [done|]. split; [|apply others_update]. unfold priv in *. cbn.
    rewrite list_lookup_alter_eq. destruct (progs w !! i) as [p'|]; [|done]. by rewrite Hw. }
  do 2 (apply launches_after; [intros w _; by apply unstarted_tame, tame_output_dir|]; intros _;
        apply launches_after; [intros w _; by apply unstarted_tame, tame_OpenFile|]; intros _).
  apply launches_after; [intros w _; by apply unstarted_update|]. intros _.
  apply launches_Start, launch_cmd_credentials.
Qed.

Lemma unstarted_explain e : keeps (unstarted i) (explain_launch_error i e).
Proof.
  unfold explain_launch_error. apply keeps_if; [|apply keeps_fail; apply _].
  apply keeps_bind; [apply _|apply keeps_get; apply _|]. intros w.
  apply keeps_bind; [apply _|by apply unstarted_tame, tame_try, tame_Stat|].
  intros [?|?]; apply keeps_fail; apply _.
Qed.

Lemma explain_fails e w : ∃ e', (explain_launch_error i e w).1 = Fail e'.
Proof.
  unfold explain_launch_error. destruct (IsNotExist e); [|by eexists]. rewrite run_get.
  destruct (tame_try (λ _, True) (Stat (default "" (p_path <$> progs w !! i)))
    ltac:(by apply tame_Stat) w) as (o & w' & evs & E & _).
  unfold mbind, M_bind. rewrite E. destruct o as [[?|?]|?]; by eexists.
Qed.

Lemma launches_explained pr :
  launches pr (r ← mtry (launch i); match r with inr err => explain_launch_error i err | inl _ => mret tt end).
Proof.
  intros w Hw. pose proof (launches_launch pr w Hw) as H. unfold mbind, M_bind, mtry.
  destruct (launch i w) as [[[]|e|why|] w1]; cbn [fst snd] in *; [done|destruct H as (H0 & H1 & H2)|done..].
  destruct (explain_fails e w1) as [e' ->]. destruct (unstarted_explain e w1) as (-> & -> & _ & Ho).
  split; [by etransitivity|done].
Qed.

(** A program is started exactly when [start_program] returns; nothing else changes. *)
Lemma launches_start_program pr fuel hvEnvs p : launches pr (start_program fuel i hvEnvs p).
Proof.
  unfold start_program.
  apply launches_after; [intros w _; by apply unstarted_update|]. intros _.
  destruct (ProgramArgs _) as [[|pArg0 pArgs]|err]; [done| |done].
  apply launches_after; [intros w _; apply unstarted_lift|]. intros a.
  apply launches_after; [intros w _; by apply unstarted_update|]. intros _.
  apply launches_after; [intros w _; apply unstarted_calculatePath|]. intros path.
  apply launches_after; [intros w _; by apply unstarted_update|]. intros _.
  destruct (String.eqb path ""); [done|].
  apply launches_after; [intros w _; revert w|intros _; apply launches_explained].
  change (keeps (unstarted i) (bootstrap fuel i hvEnvs p)).
  apply keeps_foreach; [apply _|]. intros b _. apply unstarted_bootstrap_one.
Qed.

(** C17: A program is registered for termination exactly when it was started:
    [launchProgram] returns after one successful exec, with the uid, gid and
    capabilities of the program's privilege, with the pid recorded and with the
    configured signal (or SIGTERM) registered; if it errs or panics, nothing was
    started and nothing registered. *)
Theorem launchProgram_registers fuel hvEnvs np w :
  progs w !! i = Some np →
  let '(o, w') := launchProgram fuel i hvEnvs w in
  match o with
  | Ret _ =>
      starts i (Privilege (p_vcfgProg np)) w w' ∧
      terminateSignals w' =
        (terminateSignals w ++ [(i, default SIGTERM (Signal (Terminate (p_vcfgProg np))))])%list
  | _ => started w' = started w ∧ terminateSignals w' = terminateSignals w
  end.
Proof.
  intros Hnp. destruct (launches_start_program (Privilege (p_vcfgProg np)) fuel hvEnvs (p_vcfgProg np) w) as [_ Hr];
    [unfold priv; by rewrite Hnp|].
  unfold launchProgram. rewrite run_get, Hnp. unfold mbind, M_bind.
  destruct (start_program _ _ _ _ w) as [[] w1]; cbn in *; [|done..].
  destruct Hr as [Hs Ht]. split; [done|]. by rewrite Ht.
Qed.
End bookkeeping.

(** ** Substitution, waiting and the outputs *)

Section theorems.
Context `{K : kernel} `{MO : map_order} `{L : launch_libs}.

(** A reference to a defined variable is replaced by its value, in whatever
    order the map is ranged over, when no other defined name is a prefix of the
    name and neither holds a dollar sign; arguments without a dollar sign are
    unchanged. *)
Theorem args_reference progArgs envl ee i key v :
  env_map envl ∅ = Ret ee → ee !! key = Some v →
  Contains key "$" = false → Contains v "$" = false →
  (∀ k, is_Some (ee !! k) → String.prefix k key = true → k = key) →
  progArgs !! i = Some (replaceString key) →
  ∃ a, args progArgs envl = Ret a ∧ a !! i = Some v ∧
    ∀ j e, progArgs !! j = Some e → Contains e "$" = false → a !! j = Some e.
Proof.
  intros Hee Hv Hk Hv' Hpre Hi. unfold args. rewrite Hee. eexists. split; [reflexivity|].
  split.
  - rewrite list_lookup_imap, Hi. cbn. f_equal. pose proof (range_perm i ee) as Hp.
    apply substitute_ref; [done|done|rewrite Hp; by apply elem_of_map_to_list| |].
    + rewrite Hp. apply NoDup_fst_map_to_list.
    + intros k. rewrite Hp. intros ([k' v'] & -> & Hin)%list_elem_of_fmap.
      apply elem_of_map_to_list in Hin. apply Hpre. by eexists.
  - intros j e Hj He. rewrite list_lookup_imap, Hj. cbn. by rewrite substitute_no_dollar.
Qed.

(** [DEFINE_IF_NOT_DEFINED] on a program with at least two arguments drops
    the first of them (the program name was removed before). *)
Theorem define_drops_argument i bs hvEnvs p w :
  progs w !! i = Some p → Forall has_eq (p_env p) → bs ≠ [] → (1 < length (p_args p))%nat →
  ∃ w' p', bootstrap_define i bs hvEnvs w = (Ret tt, w') ∧ progs w' !! i = Some p' ∧
    S (length (p_args p')) = length (p_args p).
Proof.
  intros Hp He Hb Hl. unfold bootstrap_define. rewrite run_get, Hp.
  destruct (bootstrapNotdefined_result bs (p_env p) hvEnvs Hb) as (s & -> & Hs).
  rewrite (run_ret _ _ _ s w) by done. set (env' := if String.eqb s "" then _ else _).
  assert (Forall has_eq env') as He'.
  { subst env'. destruct (String.eqb_spec s ""); [done|].
    apply Forall_app. split; [done|]. constructor; [by destruct Hs|done]. }
  erewrite run_ret by reflexivity. apply Nat.ltb_lt in Hl as Hl'. rewrite Hl'.
  destruct (args_total (tail (p_args p)) env' He') as (a & -> & Ha).
  erewrite run_ret by reflexivity. do 2 eexists. split; [reflexivity|]. split.
  - cbn. rewrite !list_lookup_alter_eq, Hp. reflexivity.
  - cbn. rewrite Ha. destruct (p_args p); cbn in *; lia.
Qed.

Lemma poll_round n m w :
  poll (S n) m w =
    match m w with
    | (Ret _, w1) => (Ret tt, w1)
    | (Fail _, w1) => poll n m (record (SSleep 1000) None w1)
    | (Panic p, w1) => (Panic p, w1)
    | (Halted, w1) => (Halted, w1)
    end.
Proof. cbn [poll]. unfold mtry, mbind, M_bind. by destruct (m w) as [[]]. Qed.

Lemma Stat_cases f w :
  Stat f w = (Ret tt, record (SStat f) None w) ∨
  (∃ e, Stat f w = (Fail e, record (SStat f) (Some e) w)).
Proof.
  unfold Stat, sys, sys_with. destruct (k_fail _ _) as [[n e]|]; [eauto|].
  destruct (lookup_node _ _); eauto.
Qed.

(** WAIT_FILE waits exactly for the file: when the file can be found from
    call number [T] on, [T] polls are enough for it to return, and when it
    returns its last call found the file. *)
Theorem wait_file_returns x f T w :
  lookup_node (fs w) f ≠ None → (∀ n, (T ≤ n)%nat → k_fail n (SStat f) = None) →
  (∃ w', bootstrapWaitForFile (S T) [x; f] w = (Ret tt, w')) ∧
  ∀ fuel w', bootstrapWaitForFile fuel [x; f] w = (Ret tt, w') →
    last (trace w') = Some (mkEvent (SStat f) None).
Proof.
  intros Hf HT. cbn [bootstrapWaitForFile]. split.
  - assert (∀ n w, lookup_node (fs w) f ≠ None → (T ≤ length (trace w) + n)%nat →
      ∃ w', poll (S n) (Stat f) w = (Ret tt, w')) as H; [|apply H; [done|lia]].
    clear w Hf. induction n as [|n IH]; intros w Hf Hn; rewrite poll_round.
    + unfold Stat, sys, sys_with. rewrite HT by lia. destruct (lookup_node _ _); [|done]. by eexists.
    + destruct (Stat_cases f w) as [->|[e ->]]; [by eexists|].
      apply IH; [done|]. cbn. rewrite !length_app. cbn. lia.
  - clear HT Hf. intros fuel. revert w. induction fuel as [|fuel IH]; intros w w'; [done|].
    rewrite poll_round. destruct (Stat_cases f w) as [->|[e ->]]; [|apply IH].
    intros [= <-]. cbn. by rewrite last_snoc.
Qed.

(** A stderr file is opened but never created: with the directory there and
    the file missing, the launch fails and nothing is executed, although stdout
    in the same situation would be created. *)
Theorem launch_needs_stderr i p w :
  (∀ n c, k_fail n c = None) → progs w !! i = Some p →
  let f := Stderr (fixDefaults (p_vcfgProg p)) in
  resolve (fs w) f = Some f → fs w !! f = None → lookup_node (fs w) (PathDir f) = Some Dir →
  (launch i w).1 = Fail ENOENT ∧ started (launch i w).2 = started w.
Proof.
  intros Hok Hp f Hr Hf Hd. unfold launch. rewrite run_get, Hp.
  erewrite run_ret by reflexivity. set (w1 := set_progs _ w).
  rewrite (run_ret _ _ _ tt (record (SStat (PathDir f)) None w1)).
  2:{ unfold output_dir. rewrite (run_ret _ _ _ (inl tt) (record (SStat (PathDir f)) None w1)); [done|].
      apply ok_try. unfold Stat. apply (ok_sys_with Hok).
      change (fs w1) with (fs w). subst f. by rewrite Hd. }
  rewrite (run_fail _ _ _ ENOENT (record (SOpen f) (Some ENOENT) (record (SStat (PathDir f)) None w1))).
  - split; [done|]. apply (started_app _ _ [mkEvent (SStat (PathDir f)) None; mkEvent (SOpen f) (Some ENOENT)]);
      [cbn; by rewrite <-app_assoc|repeat constructor].
  - unfold OpenFile. apply (ok_sys_err Hok).
    change (fs (record _ _ w1)) with (fs w). subst f. by rewrite Hr, Hf.
Qed.
End theorems.

(** ** Examples and witnesses *)

Definition forward : map_order := {|
  range := λ _ m, map_to_list m;
  range_perm := λ _ m, Permutation_refl (map_to_list m)
|}.

Lemma backward_perm (n : nat) (m : gmap string string) : reverse (map_to_list m) ≡ₚ map_to_list m.
Proof. apply reverse_Permutation. Qed.

Definition backward : map_order := {|
  range := λ _ m, reverse (map_to_list m);
  range_perm := backward_perm
|}.

(** The result of the substitution depends on the order in which Go ranges
    over the map when one variable name is a prefix of another: the same
    argument gives the value of the longer name in one run and a spliced text
    in another. *)
Theorem args_order_matters :
  @args forward ["$IP10"] ["IP1=192.168.0.1"; "IP10=10.0.0.9"] ≠
  @args backward ["$IP10"] ["IP1=192.168.0.1"; "IP10=10.0.0.9"].
Proof. vm_compute. discriminate. Qed.

Definition plain_libs : launch_libs := {|
  shellwords := λ _ v, if String.eqb v "" then [] else [v];
  ProgramArgs := λ p, inl (Fields (Args p));
  Signal := λ s, if String.eqb s "SIGINT" then Some SIGINT else None
|}.

Definition ex_program : Program :=
  mkProgram "app --host $HOSTNAME" ["PATH=/usr/bin:/bin"; "MODE=fast"] "" "" "" 
    ["WAIT_FILE /etc"; "SLEEP 10"] false SuperuserPrivilege "SIGINT" [].

Definition ex_launch_world : world :=
  set_progs [mkprogram "" ex_program 0 false [] [] None false]
    (set_fs (<["/bin/app" := File "ELF"]> (<["/bin" := Dir]> (fs ex_world))) ex_world).

Lemma launchProgram_safe_witness :
  (@launchProgram calm forward plain_libs 3 0 (<["HOSTNAME" := "vm"]> ∅) ex_launch_world).1 ≠ Panic IndexOutOfRange.
Proof.
  apply (@launchProgram_safe calm forward plain_libs 0 3 (<["HOSTNAME" := "vm"]> ∅)
    (mkprogram "" ex_program 0 false [] [] None false) ex_launch_world); [done|vm_compute; done..].
Defined.

(** The run of the example: the executable is found through PATH and gets the
    substituted arguments and the capabilities of a superuser program. *)
Example ex_launch_runs :
  let '(o, w) := @launchProgram calm forward plain_libs 3 0 (<["HOSTNAME" := "vm"]> ∅) ex_launch_world in
  o = Ret tt ∧ cmd_Args <$> started w = [["/bin/app"; "--host"; "vm"]] ∧
  cmd_Uid <$> started w = [1000%Z] ∧ terminateSignals w = [(0%nat, SIGINT)].
Proof. vm_compute. done. Qed.

Lemma launchProgram_registers_witness :
  let '(o, w') := @launchProgram calm forward plain_libs 3 0 ∅ ex_launch_world in
  match o with
  | Ret _ => starts 0 SuperuserPrivilege ex_launch_world w' ∧
             terminateSignals w' = (terminateSignals ex_launch_world ++ [(0%nat, SIGINT)])%list
  | _ => started w' = started ex_launch_world ∧ terminateSignals w' = terminateSignals ex_launch_world
  end.
Proof.
  apply (@launchProgram_registers calm forward plain_libs 0 3 ∅
    (mkprogram "" ex_program 0 false [] [] None false) ex_launch_world). done.
Defined.

Lemma args_reference_witness :
  ∃ a, @args backward ["$IP0"; "-v"] ["IP0=10.0.0.5"; "MODE=x"] = Ret a ∧ a !! 0%nat = Some "10.0.0.5" ∧
    ∀ j e, ["$IP0"; "-v"] !! j = Some e → Contains e "$" = false → a !! j = Some e.
Proof.
  apply (@args_reference backward ["$IP0"; "-v"] ["IP0=10.0.0.5"; "MODE=x"]
    (<["MODE" := "x"]> (<["IP0" := "10.0.0.5"]> ∅)) 0 "IP0" "10.0.0.5"); try (vm_compute; done).
  intros k [v Hk]. destruct (decide (k = "IP0")) as [|Hne]; [done|].
  destruct (decide (k = "MODE")) as [->|Hne']; [vm_compute; discriminate|].
  exfalso. rewrite !lookup_insert_ne, lookup_empty in Hk by done. discriminate.
Defined.

Definition ex_two_args : program :=
  mkprogram "/bin/app" ex_program 0 false ["A=1"] ["-x"; "-y"] None false.

Lemma define_drops_argument_witness :
  ∃ w' p', @bootstrap_define forward 0 ["DEFINE_IF_NOT_DEFINED"; "B"; "2"] ∅
             (set_progs [ex_two_args] ex_world) = (Ret tt, w') ∧
    progs w' !! 0%nat = Some p' ∧ S (length (p_args p')) = length (p_args ex_two_args).
Proof.
  apply (@define_drops_argument forward 0 ["DEFINE_IF_NOT_DEFINED"; "B"; "2"] ∅ ex_two_args);
    [done|constructor; [by eexists|constructor]|done|cbn; lia].
Defined.

(** A kernel in which a file appears after five calls. *)
Definition late : kernel := {|
  k_fail := λ n c, if (n <? 5)%nat then Some (0%nat, 2%Z) else None;
  k_pseudo := λ _, []; k_procs := λ _, []; k_pid := λ _, 1%Z; k_bsize := 4096; k_imaxpct := 25;
  k_output := λ _, ""; k_http := λ _, None; k_uri_ok := λ _, true;
  k_lookpath := λ _, None; k_addrs := λ _, None; k_fd := λ _, 0%Z; k_lookup := λ _, None;
  k_respond := λ _ _, None; k_hangs := λ _ _, false; k_epoll := λ _, (0%Z, false); k_interfaces := []
|}.

Lemma wait_file_returns_witness :
  (∃ w', @bootstrapWaitForFile late 6 ["WAIT_FILE"; "/etc"] ex_world = (Ret tt, w')) ∧
  ∀ fuel w', @bootstrapWaitForFile late fuel ["WAIT_FILE"; "/etc"] ex_world = (Ret tt, w') →
    last (trace w') = Some (mkEvent (SStat "/etc") None).
Proof.
  apply (@wait_file_returns late "WAIT_FILE" "/etc" 5 ex_world); [vm_compute; discriminate|].
  intros n Hn. unfold k_fail, late. by rewrite (proj2 (Nat.ltb_ge n 5) Hn).
Defined.

Definition ex_stderr : program :=
  mkprogram "/bin/app" (mkProgram "/bin/app" [] "/" "/etc/out.log" "/etc/err.log" [] false RootPrivilege "" [])
    0 false [] [] None false.

Lemma launch_needs_stderr_witness :
  (@launch calm 0 (set_progs [ex_stderr] ex_launch_world)).1 = Fail ENOENT ∧
  started (@launch calm 0 (set_progs [ex_stderr] ex_launch_world)).2 =
    started (set_progs [ex_stderr] ex_launch_world).
Proof. apply (@launch_needs_stderr calm 0 ex_stderr); vm_compute; done. Defined.

(** WAIT_PORT with one port and no interface does nothing, although the
    interface is documented to default to eth0. *)
Example wait_port_single :
  @bootstrapWaitForPort calm 5 ["WAIT_PORT"; "8080"] ex_world = (Ret tt, ex_world).
Proof. done. Qed.

(** Programs the safety theorem excludes do panic. *)
Example bootstrap_panics :
  (@bootstrap_one calm forward 1 0 ∅ "SLEEP" ex_launch_world).1 = Panic IndexOutOfRange ∧
  (@bootstrap_one calm forward 1 0 ∅ "FIND_AND_REPLACE file find replace" ex_launch_world).1
    = Panic IndexOutOfRange ∧
  pickFromEnv "PATH" ["PATH"] = Panic IndexOutOfRange.
Proof. done. Qed.
