(* ===== verification/LaunchSteps.v ===== *)
(** * The goroutines of [Launch] ([src/pkg/vorteil/launch.go])

    [Launch] starts one goroutine for every program.  What a goroutine does until
    its process runs is one step here; its write to the map [terminateSignals],
    which all of them share, has a beginning and an end; then it counts itself as
    done.  A goroutine whose program cannot be started offers its error to the
    [select] of the starter.  The steps of all goroutines interleave freely. *)

From S2P Require Import Prelude GoStrings GoPath Types BlockDev Os Process Launch LaunchTheorems.
Local Open Scope list_scope.

(** Where the goroutine of a program is.  [PWaiting]: it still waited for its file
    or port when its rounds were used up. *)
Inductive pc :=
| PReady
| PStarted (terminate : string)
| PWriting (terminate : string)
| PRegistered
| PFailing (e : error)
| PReported
| PWaiting.

Inductive starter := Selecting | Received.

Record state := mkState {
  lw : world;
  pcs : list pc;
  lmain : starter
}.

(** [Joined]: all goroutines were done, and [Launch] returns.  [Stopped]: an error
    was received and [SystemPanic] ended with [o]; the goroutines that are left
    are not followed.  [Crashed]: process 1 is gone. *)
Inductive config :=
| Running (s : state)
| Joined (w : world)
| Stopped (o : outcome unit) (w : world)
| Crashed (why : panic) (w : world).

Definition move (i : nat) (p : pc) (w : world) (s : state) : state := mkState w (<[i := p]> (pcs s)) (lmain s).

Definition finished (p : pc) : bool := match p with PRegistered | PReported => true | _ => false end.

Section steps.
Context `{K : kernel} `{MO : map_order} `{LL : launch_libs} (fuel : nat).

(** What the goroutine of program [i] does until its process runs. *)
Definition launch_program (i : nat) (np : program) (w : world) : outcome unit * world :=
  start_program fuel i (v_envs (vinitd w)) (p_vcfgProg np) w.

(** A write to a map that another goroutine is writing to ends the process. *)
Inductive step (s : state) : config → Prop :=
| step_start i np u w :
    pcs s !! i = Some PReady → progs (lw s) !! i = Some np → launch_program i np (lw s) = (Ret u, w) →
    step s (Running (move i (PStarted (Terminate (p_vcfgProg np))) w s))
| step_fail i np e w :
    pcs s !! i = Some PReady → progs (lw s) !! i = Some np → launch_program i np (lw s) = (Fail e, w) →
    step s (Running (move i (PFailing e) w s))
| step_wait i np w :
    pcs s !! i = Some PReady → progs (lw s) !! i = Some np → launch_program i np (lw s) = (Halted, w) →
    step s (Running (move i PWaiting w s))
| step_panic i np why w :
    pcs s !! i = Some PReady → progs (lw s) !! i = Some np → launch_program i np (lw s) = (Panic why, w) →
    step s (Crashed why w)
| step_write i t :
    pcs s !! i = Some (PStarted t) → (∀ j t', pcs s !! j ≠ Some (PWriting t')) →
    step s (Running (move i (PWriting t) (lw s) s))
| step_race i j t t' :
    pcs s !! i = Some (PStarted t) → pcs s !! j = Some (PWriting t') →
    step s (Crashed ConcurrentMapWrites (lw s))
| step_registered i t :
    pcs s !! i = Some (PWriting t) → step s (Running (move i PRegistered (register_signal i t (lw s)).2 s))
| step_report i e :
    pcs s !! i = Some (PFailing e) → lmain s = Selecting →
    step s (Running (mkState (lw s) (<[i := PReported]> (pcs s)) Received))
| step_join :
    lmain s = Selecting → Forall (λ p, finished p = true) (pcs s) →
    step s (Joined (set_initStatus statusLaunched (lw s)))
| step_stop :
    lmain s = Received → step s (Stopped (SystemPanic (lw s)).1 (SystemPanic (lw s)).2).

Inductive reach (s0 : state) : config → Prop :=
| reach_init : reach s0 (Running s0)
| reach_step s c : reach s0 (Running s) → step s c → reach s0 c.

(** Every run is finite. *)
Inductive halts : config → Prop :=
| halts_joined w : halts (Joined w)
| halts_stopped o w : halts (Stopped o w)
| halts_crashed why w : halts (Crashed why w)
| halts_step s : (∀ c, step s c → halts c) → halts (Running s).

(** [Launch] up to its [select]. *)
Definition launch_init (w : world) : state :=
  mkState (record (SGo "listenToProcesses") None (record (SGo "reapProcs") None w))
    (replicate (length (progs w)) PReady) Selecting.

(** ** Runs are finite *)

Definition weight (p : pc) : nat :=
  match p with
  | PReady => 4
  | PStarted _ => 3
  | PWriting _ => 2
  | PFailing _ => 1
  | PRegistered | PReported | PWaiting => 0
  end.

Definition measure (s : state) : nat := sum_list (weight <$> pcs s).

Lemma measure_move i p q l :
  l !! i = Some p → (weight q < weight p)%nat →
  (sum_list (weight <$> <[i := q]> l) < sum_list (weight <$> l))%nat.
Proof.
  revert i. induction l as [|x l IH]; intros [|i] Hi Hw; try done; csimpl in *.
  - injection Hi as ->. lia.
  - specialize (IH i Hi Hw). lia.
Qed.

Lemma step_measure s s' : step s (Running s') → (measure s' < measure s)%nat.
Proof.
  intros H. inversion H; subst; unfold measure; cbn [pcs move]; (eapply measure_move; [done|cbn; lia]).
Qed.

Lemma all_halt s : halts (Running s).
Proof.
  remember (measure s) as n eqn:En. revert s En. induction (lt_wf n) as [n _ IH]. intros s ->.
  constructor. intros c Hc. destruct c as [s'|w|o w|why w]; [|constructor..].
  by eapply IH; [eapply step_measure|].
Qed.

(** ** What the programs are *)

(** The condition under which a program can be launched without a panic. *)
Definition launchable (np : program) : Prop :=
  program_ok (p_vcfgProg np) = true ∧ ProgramArgs (p_vcfgProg np) ≠ inl [].

Definition term_signal (w : world) (i : nat) : Z :=
  default SIGTERM (np ← progs w !! i; Signal (Terminate (p_vcfgProg np))).

(** Program [i] runs in [w'] as the command [c], with the credentials of its
    privilege. *)
Definition runs_as (w w' : world) (i : nat) (c : Cmd) : Prop := ∃ np p pid,
  progs w !! i = Some np ∧ credentials (Privilege (p_vcfgProg np)) c ∧
  progs w' !! i = Some p ∧ p_cmd p = Some (set_Process pid c).

(** The programs [l] were started, in this order and nothing else. *)
Definition were_started (l : list nat) (w w' : world) : Prop :=
  ∃ cs, started w' = started w ++ cs ∧ Forall2 (runs_as w w') l cs.

(** The signals of the programs [l] were registered, in this order and nothing else. *)
Definition were_registered (l : list nat) (w w' : world) : Prop :=
  terminateSignals w' = terminateSignals w ++ ((λ i, (i, term_signal w i)) <$> l).

(** Program [i] could not be started. *)
Definition cannot_start (w : world) (i : nat) : Prop := ∃ np w1 e,
  progs w !! i = Some np ∧ progs w1 !! i = Some np ∧ vinitd w1 = vinitd w ∧ (launch_program i np w1).1 = Fail e.

(** ** The invariant *)

Definition is_started (p : pc) : bool :=
  match p with PStarted _ | PWriting _ | PRegistered => true | _ => false end.
Definition is_registered (p : pc) : bool := match p with PRegistered => true | _ => false end.
Definition is_writing (p : pc) : bool := match p with PWriting _ => true | _ => false end.
Definition is_failed (p : pc) : bool := match p with PFailing _ | PReported => true | _ => false end.
Definition signal_of (p : pc) : option string := match p with PStarted t | PWriting t => Some t | _ => None end.

(** The programs that are at a place [f]. *)
Definition at_place (f : pc → bool) (s : state) (i : nat) : Prop := ∃ p, pcs s !! i = Some p ∧ f p = true.

Record linv (w0 : world) (s : state) : Prop := {
  li_length : length (pcs s) = length (progs w0);
  li_ready i : pcs s !! i = Some PReady → progs (lw s) !! i = progs w0 !! i;
  li_status : initStatus (lw s) = initStatus w0;
  li_vinitd : vinitd (lw s) = vinitd w0;
  li_started : ∃ l, NoDup l ∧ (∀ i, i ∈ l ↔ at_place is_started s i) ∧ were_started l w0 (lw s);
  li_registered : ∃ l, NoDup l ∧ (∀ i, i ∈ l ↔ at_place is_registered s i) ∧
    were_registered l w0 (lw s);
  li_signal i p t : pcs s !! i = Some p → signal_of p = Some t →
    ∃ np, progs w0 !! i = Some np ∧ t = Terminate (p_vcfgProg np);
  li_failed i : at_place is_failed s i → cannot_start w0 i;
  li_main : match lmain s with
            | Selecting => ∀ i, pcs s !! i ≠ Some PReported
            | Received => ∃ i, cannot_start w0 i
            end
}.

Lemma at_place_move f i p w s j :
  (i < length (pcs s))%nat → at_place f (move i p w s) j ↔ if decide (i = j) then f p = true else at_place f s j.
Proof.
  intros Hi. unfold at_place. cbn [move pcs]. destruct (decide (i = j)) as [<-|Hne].
  - rewrite list_lookup_insert_eq by done. split; [by intros (? & [= <-] & ?)|]. intros ?. by exists p.
  - by rewrite list_lookup_insert_ne.
Qed.

Lemma at_place_lookup f s i p : pcs s !! i = Some p → at_place f s i ↔ f p = true.
Proof. intros Hi. unfold at_place. rewrite Hi. split; [by intros (? & [= <-] & ?)|]. intros ?. by exists p. Qed.

(** A set of programs whose place does not change by a move. *)
Lemma at_place_same f i p q w s :
  pcs s !! i = Some q → f p = f q → ∀ j, at_place f (move i p w s) j ↔ at_place f s j.
Proof.
  intros Hi Hf j. rewrite at_place_move by (by eapply lookup_lt_Some).
  destruct (decide (i = j)) as [<-|]; [|done]. by rewrite (at_place_lookup _ _ _ _ Hi), Hf.
Qed.

Lemma were_started_others i l w0 w w' :
  i ∉ l → others i w w' → started w' = started w → were_started l w0 w → were_started l w0 w'.
Proof.
  intros Hi (Ho & _) Hs (cs & H1 & H2). exists cs. split; [by rewrite Hs|].
  apply Forall2_same_length_lookup_2; [by eapply Forall2_length|]. intros k j c Hj Hc.
  destruct (Forall2_lookup_lr _ _ _ _ _ _ H2 Hj Hc) as (np & p & pid & ? & ? & ? & ?). exists np, p, pid.
  rewrite Ho; [done|]. intros ->. apply Hi. by eapply list_elem_of_lookup_2.
Qed.

Lemma were_started_snoc i np l w0 w w' :
  i ∉ l → progs w0 !! i = Some np → others i w w' → starts i (Privilege (p_vcfgProg np)) w w' →
  were_started l w0 w → were_started (l ++ [i]) w0 w'.
Proof.
  intros Hi Hnp (Ho & _) (c & pid & p & Hs & Hc & Hp & Hcmd) (cs & H1 & H2).
  exists (cs ++ [c]). split; [by rewrite Hs, H1, app_assoc|]. apply Forall2_app.
  - apply Forall2_same_length_lookup_2; [by eapply Forall2_length|]. intros k j c' Hj Hc'.
    destruct (Forall2_lookup_lr _ _ _ _ _ _ H2 Hj Hc') as (np' & p' & pid' & ? & ? & ? & ?). exists np', p', pid'.
    rewrite Ho; [done|]. intros ->. apply Hi. by eapply list_elem_of_lookup_2.
  - constructor; [|done]. by exists np, p, pid.
Qed.

Lemma started_record c e w : (∀ c', c ≠ SExec c') → started (record c e w) = started w.
Proof.
  intros Hc. apply (started_app _ _ [mkEvent c e]); [done|]. constructor; [|done].
  unfold not_exec. cbn. by destruct c; try done; destruct (Hc c).
Qed.

Lemma linv_init w0 : linv w0 (launch_init w0).
Proof.
  assert (∀ f i, at_place f (launch_init w0) i → f PReady = true) as Hp.
  { intros f i (p & (-> & _)%lookup_replicate & ?). done. }
  split; cbn [launch_init pcs lw lmain].
  - apply length_replicate.
  - done.
  - done.
  - done.
  - exists []. split_and!; [constructor|intros i; split; [by intros ?%elem_of_nil|by intros ?%Hp]|].
    exists []. split; [|constructor]. by rewrite app_nil_r, !started_record.
  - exists []. split_and!; [constructor|intros i; split; [by intros ?%elem_of_nil|by intros ?%Hp]|].
    unfold were_registered. by rewrite app_nil_r.
  - intros i p t (-> & _)%lookup_replicate. done.
  - by intros i ?%Hp.
  - intros i. by intros [? _]%lookup_replicate.
Qed.

(** The end of a launch that started nothing. *)
Lemma linv_unstarted w0 s i w' p :
  linv w0 s → pcs s !! i = Some PReady → others i (lw s) w' → started w' = started (lw s) →
  terminateSignals w' = terminateSignals (lw s) →
  is_started p = false → is_registered p = false → signal_of p = None → p ≠ PReady → p ≠ PReported →
  (is_failed p = true → cannot_start w0 i) → linv w0 (move i p w' s).
Proof.
  intros [Hlen Hready Hst Hv (l & Hnd & Hl & Hs) (r & Hndr & Hr & Hreg) Hsig Hf Hm] Hi Ho Hstarted Hts H1 H2 H3 H4 H5 H6.
  pose proof (lookup_lt_Some _ _ _ Hi) as Hlt. destruct Ho as (Hoth & Hol & Hos & Hov).
  split; cbn [move pcs lw lmain].
  - by rewrite length_insert.
  - intros j [(<- & ? & _)|(? & ?)]%list_lookup_insert_Some; [done|]. by rewrite Hoth, Hready.
  - congruence.
  - congruence.
  - exists l. split_and!; [done| |].
    + intros j. rewrite Hl. symmetry. by apply (at_place_same _ _ _ PReady).
    + eapply (were_started_others i); [|split_and!; done|done|done].
      rewrite Hl. by intros ?%(at_place_lookup _ _ _ _ Hi).
  - exists r. split_and!; [done| |].
    + intros j. rewrite Hr. symmetry. by apply (at_place_same _ _ _ PReady).
    + unfold were_registered. by rewrite Hts.
  - intros j q t [(<- & <- & _)|(? & ?)]%list_lookup_insert_Some; [congruence|by apply Hsig].
  - intros j Hj. apply at_place_move in Hj; [|done]. destruct (decide (i = j)) as [<-|]; auto.
  - destruct (lmain s); [|done]. intros j [(<- & ? & _)|(? & ?)]%list_lookup_insert_Some; [done|]. by eapply Hm.
Qed.

(** The end of a launch that started the program. *)
Lemma linv_launched w0 s i np w' :
  linv w0 s → pcs s !! i = Some PReady → progs (lw s) !! i = Some np → others i (lw s) w' →
  starts i (Privilege (p_vcfgProg np)) (lw s) w' → terminateSignals w' = terminateSignals (lw s) →
  linv w0 (move i (PStarted (Terminate (p_vcfgProg np))) w' s).
Proof.
  intros [Hlen Hready Hst Hv (l & Hnd & Hl & Hs) (r & Hndr & Hr & Hreg) Hsig Hf Hm] Hi Hnp Ho Hstarts Hts.
  pose proof (lookup_lt_Some _ _ _ Hi) as Hlt. pose proof (Hready i Hi) as Hnp0. rewrite Hnp in Hnp0.
  assert (i ∉ l) as Hil by (rewrite Hl; by intros ?%(at_place_lookup _ _ _ _ Hi)).
  split; cbn [move pcs lw lmain].
  - by rewrite length_insert.
  - destruct Ho as [Hoth _]. intros j [(<- & ? & _)|(? & ?)]%list_lookup_insert_Some; [done|]. by rewrite Hoth, Hready.
  - destruct Ho as (_ & _ & ? & _). congruence.
  - destruct Ho as (_ & _ & _ & ?). congruence.
  - exists (l ++ [i]). split_and!.
    + apply NoDup_app. split_and!; [done|by intros j Hj ->%list_elem_of_singleton|apply NoDup_singleton].
    + intros j. rewrite elem_of_app, list_elem_of_singleton, at_place_move, Hl by done.
      destruct (decide (i = j)) as [<-|]; [tauto|]. split; [by intros [?| ->]|by left].
    + by eapply were_started_snoc.
  - exists r. split_and!; [done| |].
    + intros j. rewrite Hr. symmetry. by apply (at_place_same _ _ _ PReady).
    + unfold were_registered. by rewrite Hts.
  - intros j q t [(<- & <- & _)|(? & ?)]%list_lookup_insert_Some; [intros [= <-]; by exists np|by apply Hsig].
  - intros j Hj. apply at_place_move in Hj; [|done]. destruct (decide (i = j)) as [<-|]; [done|auto].
  - destruct (lmain s); [|done]. intros j [(<- & ? & _)|(? & ?)]%list_lookup_insert_Some; [done|]. by eapply Hm.
Qed.

(** The beginning of the write. *)
Lemma linv_write w0 s i t :
  linv w0 s → pcs s !! i = Some (PStarted t) → linv w0 (move i (PWriting t) (lw s) s).
Proof.
  intros [Hlen Hready Hst Hv (l & Hnd & Hl & Hs) (r & Hndr & Hr & Hreg) Hsig Hf Hm] Hi.
  split; cbn [move pcs lw lmain]; try done.
  - by rewrite length_insert.
  - intros j [(<- & ? & _)|(? & ?)]%list_lookup_insert_Some; [done|by apply Hready].
  - exists l. split_and!; [done| |done]. intros j. rewrite Hl. symmetry. by apply (at_place_same _ _ _ (PStarted t)).
  - exists r. split_and!; [done| |done]. intros j. rewrite Hr. symmetry. by apply (at_place_same _ _ _ (PStarted t)).
  - intros j q t' [(<- & <- & _)|(? & ?)]%list_lookup_insert_Some; [intros [= <-]; by eapply Hsig|by apply Hsig].
  - intros j Hj. apply Hf. revert Hj. by apply (at_place_same is_failed i (PWriting t) (PStarted t)).
  - destruct (lmain s); [|done]. intros j [(<- & ? & _)|(? & ?)]%list_lookup_insert_Some; [done|]. by eapply Hm.
Qed.

Lemma linv_registered w0 s i t :
  linv w0 s → pcs s !! i = Some (PWriting t) → linv w0 (move i PRegistered (register_signal i t (lw s)).2 s).
Proof.
  intros [Hlen Hready Hst Hv (l & Hnd & Hl & Hs) (r & Hndr & Hr & Hreg) Hsig Hf Hm] Hi.
  pose proof (lookup_lt_Some _ _ _ Hi) as Hlt. destruct (Hsig i _ t Hi eq_refl) as (np & Hnp & ->).
  assert (i ∉ r) as Hir by (rewrite Hr; by intros ?%(at_place_lookup _ _ _ _ Hi)).
  split; cbn [move pcs lw lmain]; try done.
  - by rewrite length_insert.
  - intros j [(<- & ? & _)|(? & ?)]%list_lookup_insert_Some; [done|by apply Hready].
  - exists l. split_and!; [done| |done]. intros j. rewrite Hl. symmetry. by eapply (at_place_same _ _ _ (PWriting _)).
  - exists (r ++ [i]). split_and!.
    + apply NoDup_app. split_and!; [done|by intros j Hj ->%list_elem_of_singleton|apply NoDup_singleton].
    + intros j. rewrite elem_of_app, list_elem_of_singleton, at_place_move, Hr by done.
      destruct (decide (i = j)) as [<-|]; [tauto|]. split; [by intros [?| ->]|by left].
    + assert (default SIGTERM (Signal (Terminate (p_vcfgProg np))) = term_signal w0 i) as Et
        by (unfold term_signal; by rewrite Hnp).
      unfold were_registered in *. cbn. by rewrite Et, Hreg, fmap_app, <-app_assoc.
  - intros j q t' [(<- & <- & _)|(? & ?)]%list_lookup_insert_Some; [done|by apply Hsig].
  - intros j Hj. apply at_place_move in Hj; [|done]. destruct (decide (i = j)) as [<-|]; [done|auto].
  - destruct (lmain s); [|done]. intros j [(<- & ? & _)|(? & ?)]%list_lookup_insert_Some; [done|]. by eapply Hm.
Qed.

Lemma linv_report w0 s i e :
  linv w0 s → pcs s !! i = Some (PFailing e) → linv w0 (mkState (lw s) (<[i := PReported]> (pcs s)) Received).
Proof.
  intros [Hlen Hready Hst Hv (l & Hnd & Hl & Hs) (r & Hndr & Hr & Hreg) Hsig Hf Hm] Hi.
  assert (∀ f j, f PReported = f (PFailing e) →
    at_place f (mkState (lw s) (<[i := PReported]> (pcs s)) Received) j ↔ at_place f s j) as Hp.
  { intros f j Hfp. by apply (at_place_same f i PReported (PFailing e) (lw s) s). }
  split; cbn [pcs lw lmain]; try done.
  - by rewrite length_insert.
  - intros j [(<- & ? & _)|(? & ?)]%list_lookup_insert_Some; [done|by apply Hready].
  - exists l. split_and!; [done| |done]. intros j. by rewrite Hl, Hp.
  - exists r. split_and!; [done| |done]. intros j. by rewrite Hr, Hp.
  - intros j q t' [(<- & <- & _)|(? & ?)]%list_lookup_insert_Some; [done|by apply Hsig].
  - intros j Hj. apply Hf. by rewrite Hp in Hj.
  - exists i. apply Hf. by exists (PFailing e).
Qed.

Lemma launch_program_effect i np w :
  progs w !! i = Some np → others i w (launch_program i np w).2 ∧
  match (launch_program i np w).1 with
  | Ret _ => starts i (Privilege (p_vcfgProg np)) w (launch_program i np w).2 ∧
             terminateSignals (launch_program i np w).2 = terminateSignals w
  | _ => started (launch_program i np w).2 = started w ∧ terminateSignals (launch_program i np w).2 = terminateSignals w
  end.
Proof. intros Hnp. apply launches_start_program. unfold priv. by rewrite Hnp. Qed.

Lemma linv_step w0 s s' : linv w0 s → step s (Running s') → linv w0 s'.
Proof.
  intros Hinv Hstep. inversion Hstep as
    [i np u w Hi Hnp E|i np e w Hi Hnp E|i np w Hi Hnp E| |i t Hi| |i t Hi|i e Hi Hm| |]; subst.
  - destruct (launch_program_effect i np (lw s) Hnp) as [Ho Hr]. rewrite E in Ho, Hr. destruct Hr.
    by apply linv_launched.
  - destruct (launch_program_effect i np (lw s) Hnp) as [Ho Hr]. rewrite E in Ho, Hr. destruct Hr.
    apply linv_unstarted; try done. intros _. exists np, (lw s), e.
    rewrite <-(li_ready _ _ Hinv i Hi), E. split_and!; [done|done|apply (li_vinitd _ _ Hinv)|done].
  - destruct (launch_program_effect i np (lw s) Hnp) as [Ho Hr]. rewrite E in Ho, Hr. destruct Hr.
    by apply linv_unstarted.
  - by apply linv_write.
  - by apply linv_registered.
  - by eapply linv_report.
Qed.

Lemma linv_reach w0 s : reach (launch_init w0) (Running s) → linv w0 s.
Proof.
  remember (Running s) as c eqn:Ec. intros H. revert s Ec.
  induction H as [|s1 c H IH Hs]; intros s Ec; [injection Ec as <-; apply linv_init|]. subst c.
  eapply linv_step; [by apply IH|done].
Qed.

(** ** Theorems *)

(** All programs were started once each and all signals registered once each, in
    whatever order. *)
Definition all_started (w w' : world) : Prop :=
  ∃ l r, l ≡ₚ seq 0 (length (progs w)) ∧ were_started l w w' ∧
         r ≡ₚ seq 0 (length (progs w)) ∧ were_registered r w w'.

(** Two programs run. *)
Definition two_run (w w' : world) : Prop := ∃ i j ci cj,
  i ≠ j ∧ runs_as w w' i ci ∧ ci ∈ started w' ∧ runs_as w w' j cj ∧ cj ∈ started w'.

Lemma joined_all w0 s :
  linv w0 s → lmain s = Selecting → Forall (λ p, finished p = true) (pcs s) → all_started w0 (lw s).
Proof.
  intros [Hlen _ _ _ (l & Hnd & Hl & Hs) (r & Hndr & Hr & Hreg) _ _ Hm] Hsel Hall. rewrite Hsel in Hm.
  assert (∀ f, f PRegistered = true → ∀ i, at_place f s i ↔ i ∈ seq 0 (length (progs w0))) as Hp.
  { intros f Hf i. rewrite elem_of_seq, <-Hlen. split.
    - intros (p & ?%lookup_lt_Some & _). lia.
    - intros [_ Hi]. destruct (lookup_lt_is_Some_2 (pcs s) i) as [p Hp]; [lia|]. exists p. split; [done|].
      rewrite Forall_lookup in Hall. specialize (Hall i p Hp). destruct p; try done. by destruct (Hm i). }
  exists l, r. split_and!; try done; (apply NoDup_Permutation; [done|apply NoDup_seq|]); intros i;
    rewrite ?Hl, ?Hr; by apply Hp.
Qed.

Lemma runs_of w0 s i : linv w0 s → at_place is_started s i → ∃ c, runs_as w0 (lw s) i c ∧ c ∈ started (lw s).
Proof.
  intros Hinv Hi. destruct (li_started _ _ Hinv) as (l & _ & Hl & cs & Hs & Hall). apply Hl in Hi.
  apply list_elem_of_lookup in Hi as [k Hk]. destruct (Forall2_lookup_l _ _ _ _ _ Hall Hk) as (c & Hc & Hr).
  exists c. split; [done|]. rewrite Hs. apply elem_of_app. right. by eapply list_elem_of_lookup_2.
Qed.

(** A goroutine that is not done and does not wait makes a step, or lets the
    starter make one. *)
Lemma launch_progress w0 s :
  linv w0 s → (∃ c, step s c) ∨ ∃ i, pcs s !! i = Some PWaiting.
Proof.
  intros Hinv. destruct (lmain s) eqn:Em; [|left; eexists; by apply step_stop].
  destruct (decide (Forall (λ p, finished p = true) (pcs s))) as [Hall|Hnot]; [left; eexists; by apply step_join|].
  apply not_Forall_Exists in Hnot; [|apply _]. apply Exists_exists in Hnot as (p & Hin & Hp).
  apply list_elem_of_lookup in Hin as [i Hi]. destruct p as [|t|t| |e| |]; try (by destruct Hp).
  - left. destruct (progs (lw s) !! i) as [np|] eqn:Hnp.
    + destruct (launch_program i np (lw s)) as [[u|e|why|] w] eqn:E; eexists;
        [by eapply step_start|by eapply step_fail|by eapply step_panic|by eapply step_wait].
    + rewrite (li_ready _ _ Hinv i Hi) in Hnp. apply lookup_ge_None in Hnp.
      apply lookup_lt_Some in Hi. rewrite (li_length _ _ Hinv) in Hi. lia.
  - left. destruct (decide (Exists (λ p, is_writing p = true) (pcs s))) as [Hw|Hno].
    + apply Exists_exists in Hw as (q & Hin & Hq). apply list_elem_of_lookup in Hin as [j Hj].
      destruct q; try done. eexists. by eapply step_race.
    + eexists. eapply step_write; [done|]. intros j t' Hj. apply Hno, Exists_exists.
      exists (PWriting t'). split; [by eapply list_elem_of_lookup_2|done].
  - left. eexists. by eapply step_registered.
  - left. eexists. by eapply step_report.
  - right. by exists i.
Qed.

(** The panic happens: whenever two programs can be started one after the other,
    there is a run in which their goroutines write to [terminateSignals] at the same
    time, and init dies although both programs run. *)
Lemma launch_race w0 i j npi npj u v w1 w2 :
  i ≠ j → progs w0 !! i = Some npi → progs w0 !! j = Some npj →
  launch_program i npi (lw (launch_init w0)) = (Ret u, w1) → launch_program j npj w1 = (Ret v, w2) →
  reach (launch_init w0) (Crashed ConcurrentMapWrites w2) ∧ two_run w0 w2.
Proof.
  intros Hne Hi Hj E1 E2. pose proof (reach_init (launch_init w0)) as H0.
  pose proof (launch_program_effect i npi (lw (launch_init w0)) Hi) as [(Ho & _) _]. rewrite E1 in Ho. cbn [snd] in Ho.
  eapply reach_step in H0; [|eapply (step_start _ i npi u w1); [|exact Hi|exact E1]; by apply lookup_replicate_2, lookup_lt_Some with npi].
  eapply reach_step in H0; [|eapply (step_start _ j npj v w2); [|by cbn; rewrite Ho|exact E2]].
  2:{ cbn [move pcs]. rewrite list_lookup_insert_ne by done. by apply lookup_replicate_2, lookup_lt_Some with npj. }
  set (s := move j _ w2 _) in H0. assert (pcs s !! i = Some (PStarted (Terminate (p_vcfgProg npi)))) as Hpi.
  { cbn. rewrite list_lookup_insert_ne, list_lookup_insert_eq; [done| |done].
    rewrite length_replicate. by eapply lookup_lt_Some. }
  assert (pcs s !! j = Some (PStarted (Terminate (p_vcfgProg npj)))) as Hpj.
  { cbn. apply list_lookup_insert_eq. rewrite length_insert, length_replicate. by eapply lookup_lt_Some. }
  pose proof (linv_reach _ _ H0) as Hinv. split.
  - eapply reach_step; [eapply reach_step; [exact H0|apply (step_write s i _ Hpi)]|].
    + intros k t [(<- & ? & _)|(_ & Hk)]%list_lookup_insert_Some; [done|].
      apply list_lookup_insert_Some in Hk as [(<- & ? & _)|(_ & Hk)]; [done|]. by apply lookup_replicate in Hk as [? _].
    + apply (step_race (move i (PWriting (Terminate (p_vcfgProg npi))) w2 s) j i (Terminate (p_vcfgProg npj)) (Terminate (p_vcfgProg npi))).
      * cbn [move pcs]. by rewrite list_lookup_insert_ne.
      * cbn [move pcs]. apply list_lookup_insert_eq. by eapply lookup_lt_Some.
  - destruct (runs_of w0 s i Hinv) as (ci & ? & ?); [by eexists|].
    destruct (runs_of w0 s j Hinv) as (cj & ? & ?); [by eexists|]. exists i, j, ci, cj. done.
Qed.

End steps.

(** ** Witnesses *)

Definition ex_two_programs : world :=
  set_progs [mkprogram "" ex_program 0 false [] [] None false; mkprogram "" ex_program 1 false [] [] None false]
    ex_launch_world.

Definition ex_np (i : nat) : program := mkprogram "" ex_program i false [] [] None false.

Definition ex_step (i : nat) (w : world) : outcome unit * world :=
  @launch_program calm forward plain_libs 3 i (ex_np i) w.

Lemma run_unit (p : outcome unit * world) : p.1 = Ret tt → p = (Ret tt, p.2).
Proof. destruct p as [o w]. cbn. by intros ->. Qed.

Lemma ex_steps :
  let w1 := (ex_step 0 (lw (launch_init ex_two_programs))).2 in
  ex_step 0 (lw (launch_init ex_two_programs)) = (Ret tt, w1) ∧ ex_step 1 w1 = (Ret tt, (ex_step 1 w1).2).
Proof.
  cbv zeta. split; apply run_unit; vm_compute; reflexivity.
Qed.


(** With one program [Launch] returns. *)
Example ex_launch_joins :
  ∃ w, @reach calm forward plain_libs 3 (launch_init ex_launch_world) (Joined w) ∧ terminateSignals w = [(0%nat, SIGINT)].
Proof.
  pose proof (@reach_init calm forward plain_libs 3 (launch_init ex_launch_world)) as H.
  eapply reach_step in H; [|eapply (step_start _ _ 0 (ex_np 0)); [done|done|apply run_unit; vm_compute; reflexivity]].
  eapply reach_step in H; [|eapply (step_write _ _ 0); [done|by intros [|?]]].
  eapply reach_step in H; [|eapply (step_registered _ _ 0); done].
  eapply reach_step in H; [|eapply step_join; [done|by repeat constructor]].
  eexists. split; [exact H|]. vm_compute. reflexivity.
Qed.
