(* ===== verification/Etc.v ===== *)
(** * The files of /etc ([src/pkg/vorteil/etc.go])

    The embedded assets are generated code and an argument, as is the random
    machine id.  Go ranges over a map of two entries in either order. *)

From S2P Require Import Prelude GoStrings GoPath Types BlockDev Os.
Local Open Scope string_scope.

Definition nl : string := String (Ascii.ascii_of_nat 10) "".
Definition tab : string := String (Ascii.ascii_of_nat 9) "".

Definition dot : Ascii.ascii := Ascii.ascii_of_nat 46.

Definition pathMachineID : string := "/etc/machine-id".
Definition etcFiles : list string := ["group"; "localtime"; "nsswitch.conf"; "passwd"; "resolv.conf"].

Section etc.
Context `{K : kernel} (asset : string → option string).

Definition writeEtcFile (baseName fullName : string) : OS unit :=
  match asset ("/" +:+ baseName +:+ ".dat") with
  | None => mfail ENOENT
  | Some contents => WriteFile fullName contents
  end.

Definition hosts_text (hostname : string) : string :=
  "127.0.0.1" +:+ tab +:+ "localhost" +:+ nl +:+
  "127.0.0.1" +:+ tab +:+ hostname +:+ nl +:+
  "::1" +:+ tab +:+ "ip6-localhost ip6-loopback" +:+ nl +:+
  "fe00::0" +:+ tab +:+ "ip6-localnet" +:+ nl +:+
  "ff00::0" +:+ tab +:+ "ip6-mcastprefix" +:+ nl +:+
  "ff02::1" +:+ tab +:+ "ip6-allnodes" +:+ nl +:+
  "ff02::2" +:+ tab +:+ "ip6-allrouters" +:+ nl.

Definition generateEtcHosts (hostname : string) : OS unit :=
  r ← mtry (Stat "/etc/hosts");
  match r with
  | inr e => if IsNotExist e then ignore (WriteFile "/etc/hosts" (hosts_text hostname)) else mret tt
  | inl _ => mret tt
  end.

Definition user_mark (user : string) : string := user +:+ ":x:1000".

Definition appendUserFile (k v user : string) : OS unit :=
  r ← mtry (ReadFile k);
  match r with
  | inr _ => mret tt
  | inl e =>
      if negb (Contains e (user_mark user)) then ignore (WriteFile k (e +:+ v +:+ nl)) else mret tt
  end.

Definition createUserFile (k v user : string) : OS unit := ignore (WriteFile k (v +:+ nl)).

Definition generateEtcMachineID (uuid : string + error) : OS unit :=
  r ← mtry (Stat pathMachineID);
  match r with
  | inr e =>
      if IsNotExist e then
        match uuid with
        | inl id => ignore (WriteFile pathMachineID id)
        | inr _ => mret tt
        end
      else mret tt
  | inl _ => mret tt
  end.

(** The two lines for each file. *)
Definition passwd_lines (user : string) : string :=
  "root:x:0:0:root:/:/bin/false" +:+ nl +:+ user +:+ ":x:1000:1000:" +:+ user +:+ ":/:/bin/false".
Definition group_lines (user : string) : string :=
  "root:x:0:root" +:+ nl +:+ user +:+ ":x:1000:" +:+ user.

(** One round of the loop. *)
Definition user_file (user : string) (kv : string * string) : OS unit :=
  let '(k, v) := kv in
  r ← mtry (Stat k);
  match r with
  | inl _ => appendUserFile k v user
  | inr e => if IsNotExist e then createUserFile k v user else mret tt
  end.

Definition default_user (user : string) : string := if String.eqb user "" then "vorteil" else user.

(** [flip] is the order in which the map is ranged over. *)
Definition addVorteilUserGroup (flip : bool) (user : string) : OS unit :=
  let user := default_user user in
  let etc := [("/etc/passwd", passwd_lines user); ("/etc/group", group_lines user)] in
  mforeach (user_file user) (if flip then reverse etc else etc).

(** The part of a name before the first dot, if that is not empty. *)
Definition short_hostname (hostname : string) : string :=
  if (0 <? IndexByte hostname dot)%Z
  then str_take (Z.to_nat (IndexByte hostname dot)) hostname else hostname.

Definition genHostnameFile (hostname : string) : OS unit :=
  let hostname := short_hostname hostname in
  f ← OpenFile true true "/etc/hostname";
  Write f hostname;;
  generateEtcHosts hostname.

(** The machine id is generated by a goroutine; it runs when the rest is done. *)
Definition etcGenerateFiles (flip : bool) (uuid : string + error) (hostname user : string) : OS unit :=
  ignore (MkdirAll "/etc");;
  addVorteilUserGroup flip user;;
  mforeach (λ f,
    let fullName := PathJoin ["/etc"; f] in
    r ← mtry (Stat fullName);
    match r with
    | inr e => if IsNotExist e then ignore (writeEtcFile f fullName) else mret tt
    | inl _ => mret tt
    end) etcFiles;;
  genHostnameFile hostname;;
  generateEtcMachineID uuid.
End etc.

(** ** What the user entries should be *)

(** The file after one round, when no call fails: an entry is added unless
    there is one. *)
Definition user_content (user v : string) (o : option node) : option node :=
  match o with
  | Some (File e) => Some (File (if Contains e (user_mark user) then e else e +:+ v +:+ nl))
  | Some n => Some n
  | None => Some (File (v +:+ nl))
  end.

Definition user_file_spec (user : string) (kv : string * string) (m : gmap string node) : gmap string node :=
  partial_alter (user_content user kv.2) kv.1 m.

Definition user_entries (user : string) : list (string * string) :=
  let user := default_user user in
  [("/etc/passwd", passwd_lines user); ("/etc/group", group_lines user)].

Definition users_spec (user : string) (m : gmap string node) : gmap string node :=
  fold_left (λ m kv, user_file_spec (default_user user) kv m) (user_entries user) m.

(** The file system has /etc, and no link where the files are. *)
Record etc_ready (m : gmap string node) : Prop := {
  er_dir : m !! "/etc" = Some Dir;
  er_passwd t : m !! "/etc/passwd" ≠ Some (Link t);
  er_group t : m !! "/etc/group" ≠ Some (Link t)
}.

(** ** Lemmas *)

Lemma Contains_app_l s t u : Contains t u = true → Contains (s +:+ t) u = true.
Proof.
  intros (l & r & ->)%Contains_spec. apply Contains_spec. exists (s +:+ l), r. by rewrite str_app_assoc.
Qed.

Lemma Contains_app_r s t u : Contains s u = true → Contains (s +:+ t) u = true.
Proof.
  intros (l & r & ->)%Contains_spec. apply Contains_spec. exists l, (r +:+ t). by rewrite !str_app_assoc.
Qed.

Lemma Contains_prefix u t : Contains (u +:+ t) u = true.
Proof. apply Contains_spec. by exists "", t. Qed.

Lemma passwd_marked user : Contains (passwd_lines user) (user_mark user) = true.
Proof.
  unfold passwd_lines. apply Contains_app_l, Contains_app_l.
  change (":x:1000:1000:" +:+ ?x) with (":x:1000" +:+ ":1000:" +:+ x).
  rewrite <-str_app_assoc. apply Contains_prefix.
Qed.

Lemma group_marked user : Contains (group_lines user) (user_mark user) = true.
Proof.
  unfold group_lines. apply Contains_app_l, Contains_app_l.
  change (":x:1000:" +:+ ?x) with (":x:1000" +:+ ":" +:+ x).
  rewrite <-str_app_assoc. apply Contains_prefix.
Qed.

Lemma user_content_idemp user v o :
  Contains v (user_mark user) = true →
  user_content user v (user_content user v o) = user_content user v o.
Proof.
  intros Hv. assert (∀ e, Contains (e +:+ v +:+ nl) (user_mark user) = true) as H
    by (intros; by apply Contains_app_l, Contains_app_r).
  destruct o as [[e| |]|]; cbn; try done.
  - destruct (Contains e _) eqn:Ec; [by rewrite Ec|]. by rewrite H.
  - by rewrite (H "" : Contains (v +:+ nl) _ = true).
Qed.

Lemma user_file_spec_idemp user kv m :
  Contains kv.2 (user_mark user) = true →
  user_file_spec user kv (user_file_spec user kv m) = user_file_spec user kv m.
Proof.
  intros Hv. unfold user_file_spec. apply map_eq. intros j.
  destruct (decide (kv.1 = j)) as [<-|Hne]; [|by rewrite !lookup_partial_alter_ne].
  rewrite !lookup_partial_alter_eq. by apply user_content_idemp.
Qed.

Lemma user_file_spec_comm user kv kv' m :
  kv.1 ≠ kv'.1 →
  user_file_spec user kv (user_file_spec user kv' m) =
  user_file_spec user kv' (user_file_spec user kv m).
Proof.
  intros Hne. unfold user_file_spec. apply map_eq. intros j.
  destruct (decide (kv.1 = j)) as [H1|H1]; destruct (decide (kv'.1 = j)) as [H2|H2]; try congruence.
  - rewrite <-H1. by rewrite lookup_partial_alter_eq, !lookup_partial_alter_ne, lookup_partial_alter_eq by congruence.
  - rewrite <-H2. by rewrite lookup_partial_alter_ne, !lookup_partial_alter_eq, lookup_partial_alter_ne by congruence.
  - by rewrite !lookup_partial_alter_ne by congruence.
Qed.

Lemma user_file_spec_ready user kv m :
  kv.1 ∈ ["/etc/passwd"; "/etc/group"] → etc_ready m → etc_ready (user_file_spec user kv m).
Proof.
  intros Hk [Hd Hp Hg]. unfold user_file_spec.
  assert (∀ k t, m !! k ≠ Some (Link t) →
    partial_alter (user_content user kv.2) kv.1 m !! k ≠ Some (Link t)) as H.
  { intros k t Hn. destruct (decide (kv.1 = k)) as [<-|Hne]; [|by rewrite lookup_partial_alter_ne].
    rewrite lookup_partial_alter_eq. destruct (m !! kv.1) as [[]|]; cbn; congruence. }
  split; [|intros t; apply H; auto..]. rewrite lookup_partial_alter_ne; [done|].
  intros E. rewrite E in Hk. apply elem_of_cons in Hk as [|Hk]; [done|]. by apply list_elem_of_singleton in Hk.
Qed.

Lemma alter_to n (f : option node → option node) k (m : gmap string node) :
  m !! k = Some n → f (m !! k) = Some n → partial_alter f k m = m.
Proof.
  intros E Hf. apply map_eq. intros j.
  destruct (decide (k = j)) as [<-|Hne]; [|by rewrite lookup_partial_alter_ne].
  rewrite lookup_partial_alter_eq. congruence.
Qed.

Lemma alter_insert n (f : option node → option node) k (m : gmap string node) :
  f (m !! k) = Some n → partial_alter f k m = <[k := n]> m.
Proof.
  intros Hf. apply map_eq. intros j.
  destruct (decide (k = j)) as [<-|Hne]; [|by rewrite lookup_partial_alter_ne, lookup_insert_ne].
  by rewrite lookup_partial_alter_eq, lookup_insert_eq.
Qed.

Section run.
Context `{K : kernel} (Hok : ∀ n c, k_fail n c = None).

Lemma resolve_not_link m p :
  abs_path p = p → (∀ t, m !! p ≠ Some (Link t)) → resolve m p = Some p.
Proof.
  intros Hp Hn. unfold resolve. rewrite Hp. unfold follow.
  destruct (m !! p) as [[]|]; try done. by destruct (Hn target).
Qed.

Lemma ok_ReadFile_dir p w :
  lookup_node (fs w) p = Some Dir →
  ReadFile p w = (Fail EISDIR, record (SRead p) (Some EISDIR) (record (SOpen p) None w)).
Proof.
  intros H. unfold ReadFile. rewrite (run_ret _ _ _ tt (record (SOpen p) None w)).
  - apply (ok_sys_err Hok). change (fs (record _ _ w)) with (fs w). by rewrite H.
  - apply (ok_sys_with Hok). by rewrite H.
Qed.

Lemma fs_written p d w : 
  fs (record (SWrite p d) None (set_file p d (record (SOpen p) None (set_file p "" w)))) =
  <[p := File d]> (fs w).
Proof. cbn. apply insert_insert_eq. Qed.

Lemma etc_is_dir w : fs w !! "/etc" = Some Dir → is_dir (fs w) "/etc" = true.
Proof.
  intros Hd. unfold is_dir, lookup_node. rewrite resolve_not_link; [by cbn; rewrite Hd|done|].
  intros t. by rewrite Hd.
Qed.

Lemma ok_user_file user k v w :
  k ∈ ["/etc/passwd"; "/etc/group"] → etc_ready (fs w) →
  ∃ w', user_file user (k, v) w = (Ret tt, w') ∧ fs w' = user_file_spec user (k, v) (fs w).
Proof.
  intros Hk Hr.
  assert (abs_path k = k ∧ PathDir k = "/etc" ∧ ∀ t, fs w !! k ≠ Some (Link t)) as (Ha & Hdir & Hl).
  { destruct Hr. set_unfold in Hk. destruct Hk as [->|[->|[]]]; done. }
  pose proof (resolve_not_link _ _ Ha Hl) as Hres.
  assert (lookup_node (fs w) k = fs w !! k) as Hnode by (unfold lookup_node; by rewrite Hres).
  unfold user_file, user_file_spec. cbn [fst snd].
  destruct (fs w !! k) as [n|] eqn:E; rewrite ?E in Hnode.
  - rewrite (run_ret _ _ _ (inl tt) (record (SStat k) None w)).
    2:{ apply ok_try. unfold Stat. apply (ok_sys_with Hok). by rewrite Hnode. }
    set (w1 := record (SStat k) None w). destruct n as [e| |t]; [| |by destruct (Hl t)].
    + unfold appendUserFile. erewrite run_ret by (apply ok_try, (ok_ReadFile Hok k e w1 Ha E)).
      cbn match. destruct (Contains e (user_mark user)) eqn:Ec; cbn [negb].
      * eexists. split; [reflexivity|].
        transitivity (fs w); [done|]. symmetry. apply (alter_to (File e)); [done|].
        unfold user_content. by rewrite E, Ec.
      * eexists. split; [by eapply ok_ignore, (ok_WriteFile Hok)|]. rewrite fs_written.
        transitivity (<[k := File (e +:+ v +:+ nl)]> (fs w)); [done|]. symmetry. apply alter_insert. unfold user_content. by rewrite E, Ec.
    + unfold appendUserFile. erewrite run_ret.
      2:{ unfold mtry. by rewrite ok_ReadFile_dir. }
      eexists. split; [reflexivity|].
        transitivity (fs w); [done|]. symmetry. apply (alter_to Dir); [done|]. by rewrite E.
  - rewrite (run_ret _ _ _ (inr ENOENT) (record (SStat k) (Some ENOENT) w)).
    2:{ unfold mtry, Stat, sys. rewrite (ok_sys_err Hok _ _ _ _ ENOENT); [done|]. by rewrite Hnode. }
    eexists. split.
    + eapply ok_ignore, (ok_WriteFile_new Hok); [exact Hres|exact E|].
      rewrite Hdir. apply etc_is_dir, (er_dir _ Hr).
    + rewrite fs_written. transitivity (<[k := File (v +:+ nl)]> (fs w)); [done|].
      symmetry. apply alter_insert. unfold user_content. by rewrite E.
Qed.

Lemma ok_user_files user kvs w :
  Forall (λ kv, kv.1 ∈ ["/etc/passwd"; "/etc/group"]) kvs → etc_ready (fs w) →
  ∃ w', mforeach (user_file user) kvs w = (Ret tt, w') ∧ etc_ready (fs w') ∧
    fs w' = fold_left (λ m kv, user_file_spec user kv m) kvs (fs w).
Proof.
  intros H. revert w. induction H as [|[k v] kvs Hk _ IH]; intros w Hr; [by exists w|].
  destruct (ok_user_file user k v w Hk Hr) as (w1 & E1 & F1).
  assert (etc_ready (fs w1)) as Hr1 by (rewrite F1; by apply user_file_spec_ready).
  destruct (IH w1 Hr1) as (w2 & E2 & Hr2 & F2). exists w2.
  cbn [mforeach fold_left]. rewrite (run_ret _ _ _ _ _ E1).
  split_and!; [exact E2|done|]. by rewrite F2, F1.
Qed.

Lemma ok_addVorteilUserGroup flip user w :
  etc_ready (fs w) →
  ∃ w', addVorteilUserGroup flip user w = (Ret tt, w') ∧ etc_ready (fs w') ∧
    fs w' = users_spec user (fs w).
Proof.
  intros Hr. unfold addVorteilUserGroup, users_spec. fold (user_entries user).
  destruct (ok_user_files (default_user user)
    (if flip then reverse (user_entries user) else user_entries user) w) as (w' & E & Hr' & F); [|done|].
  - destruct flip; repeat constructor; set_solver.
  - exists w'. split; [exact E|]. split; [done|]. rewrite F. destruct flip; [|done].
    cbn [user_entries reverse rev_append fold_left]. by apply user_file_spec_comm.
Qed.
End run.

(** A second round changes nothing. *)
Lemma users_spec_idemp user m : users_spec user (users_spec user m) = users_spec user m.
Proof.
  unfold users_spec, user_entries. cbn [fold_left].
  set (u := default_user user). set (p := ("/etc/passwd", passwd_lines u)).
  set (g := ("/etc/group", group_lines u)).
  rewrite (user_file_spec_comm u p g) by done.
  rewrite (user_file_spec_idemp u g) by apply group_marked.
  by rewrite (user_file_spec_idemp u p) by apply passwd_marked.
Qed.

(** ** Theorems *)

(** The files [etc.go] may touch. *)
Definition etc_targets : list string :=
  ["/etc"; "/etc/passwd"; "/etc/group"; "/etc/localtime"; "/etc/nsswitch.conf"; "/etc/resolv.conf";
   "/etc/hostname"; "/etc/hosts"; "/etc/machine-id"].

Definition no_links (m : gmap string node) : Prop := ∀ p t, p ∈ etc_targets → m !! p ≠ Some (Link t).

(** From a file system without links among the targets, only targets change. *)
Definition etc_frame : relation world := λ w w',
  no_links (fs w) → no_links (fs w') ∧ ∀ p, p ∉ etc_targets → fs w' !! p = fs w !! p.

#[global] Instance etc_frame_preorder : PreOrder etc_frame.
Proof.
  split; [by intros w H|]. intros w1 w2 w3 H12 H23 H1. destruct (H12 H1) as [H2 E2].
  destruct (H23 H2) as [H3 E3]. split; [done|]. intros p Hp. by rewrite E3, E2.
Qed.

Section theorems.
Context `{K : kernel} (asset : string → option string).

(** C26: When no call fails, [addVorteilUserGroup] adds the entries of the user to
    /etc/passwd and /etc/group, in whatever order the map is ranged over, and
    running it again (in either order) changes nothing. *)
Theorem addVorteilUserGroup_idempotent flip flip' user w :
  (∀ n c, k_fail n c = None) → etc_ready (fs w) →
  ∃ w1 w2,
    addVorteilUserGroup flip user w = (Ret tt, w1) ∧ fs w1 = users_spec user (fs w) ∧
    addVorteilUserGroup flip' user w1 = (Ret tt, w2) ∧ fs w2 = fs w1.
Proof.
  intros Hok Hr. destruct (ok_addVorteilUserGroup Hok flip user w Hr) as (w1 & E1 & Hr1 & F1).
  destruct (ok_addVorteilUserGroup Hok flip' user w1 Hr1) as (w2 & E2 & _ & F2).
  exists w1, w2. split_and!; try done. by rewrite F2, F1, users_spec_idemp.
Qed.

(** *** Only files of /etc change *)

Lemma frame_same {A} (m : OS A) : (∀ w, fs (m w).2 = fs w) → keeps etc_frame m.
Proof. intros H w Hw. by rewrite H. Qed.

Lemma frame_Stat p : keeps etc_frame (Stat p).
Proof.
  apply frame_same. intros w. unfold Stat, sys, sys_with. destruct (k_fail _ _) as [[]|]; [done|].
  by destruct (lookup_node _ _).
Qed.

Lemma frame_ReadFile p : keeps etc_frame (ReadFile p).
Proof.
  apply keeps_bind; [apply _| |intros _]; apply frame_same; intros w;
    unfold Open, ReadAll, sys, sys_with; (destruct (k_fail _ _) as [[]|]; [done|]);
    by destruct (lookup_node _ _) as [[]|].
Qed.

Lemma frame_insert p d w w' :
  p ∈ etc_targets → fs w' = <[p := File d]> (fs w) → etc_frame w w'.
Proof.
  intros Hp E Hw. rewrite E. split.
  - intros q t Hq. destruct (decide (p = q)) as [<-|Hne]; [by rewrite lookup_insert_eq|].
    rewrite lookup_insert_ne by done. by apply Hw.
  - intros q Hq. rewrite lookup_insert_ne; [done|]. by intros <-.
Qed.

Lemma targets_abs p : p ∈ etc_targets → abs_path p = p.
Proof. revert p. apply (Forall_forall (λ p, abs_path p = p)). by repeat constructor. Qed.

Lemma frame_OpenFile p w :
  p ∈ etc_targets → no_links (fs w) →
  etc_frame w (OpenFile true true p w).2 ∧ ∀ q, (OpenFile true true p w).1 = Ret q → q = p.
Proof.
  intros Hp Hw. unfold OpenFile, sys, sys_with. destruct (k_fail _ _) as [[]|]; [done|].
  rewrite resolve_not_link; [|by apply targets_abs|by intros t; apply Hw].
  destruct (fs w !! p) as [[]|]; [|done..|].
  - split; [by apply (frame_insert p "")|]. by intros q [= <-].
  - destruct (true && _); [|done]. split; [by apply (frame_insert p "")|]. by intros q [= <-].
Qed.

Lemma frame_Write p d : p ∈ etc_targets → keeps etc_frame (Write p d).
Proof.
  intros Hp w. unfold Write, sys_with.
  destruct (k_fail _ _) as [[n e]|]; by eapply frame_insert.
Qed.

Lemma frame_open_then {B} p (f : string → OS B) :
  p ∈ etc_targets → keeps etc_frame (f p) → keeps etc_frame (OpenFile true true p ≫= f).
Proof.
  intros Hp Hf w Hw. destruct (frame_OpenFile p w Hp Hw) as [H1 H2]. unfold mbind, M_bind.
  destruct (OpenFile true true p w) as [[q|e|why|] w1]; [|by apply H1..].
  rewrite (H2 q) by done. revert Hw. change (etc_frame w (f p w1).2). etransitivity; [exact H1|apply Hf].
Qed.

Lemma frame_WriteFile p d : p ∈ etc_targets → keeps etc_frame (WriteFile p d).
Proof. intros Hp. apply frame_open_then; [done|]. by apply frame_Write. Qed.

Lemma frame_ignore_WriteFile p d : p ∈ etc_targets → keeps etc_frame (ignore (WriteFile p d)).
Proof. intros Hp. apply keeps_ignore; [apply _|]. by apply frame_WriteFile. Qed.

(** Guarded by a [Stat]: what the sources do if the file does not exist. *)
Lemma frame_if_missing {A} p (m n : OS A) (f : error → bool) :
  keeps etc_frame m → keeps etc_frame n →
  keeps etc_frame (r ← mtry (Stat p);
    match r with inr e => if f e then m else n | inl _ => n end).
Proof.
  intros Hm Hn. apply keeps_bind; [apply _|apply keeps_try, frame_Stat|].
  intros [?|e]; [done|]. by apply keeps_if.
Qed.

Lemma frame_ret : keeps etc_frame (mret tt).
Proof. apply keeps_ret; apply _. Qed.

Lemma frame_hosts h : keeps etc_frame (generateEtcHosts h).
Proof. apply frame_if_missing; [by apply frame_ignore_WriteFile; set_solver|apply frame_ret]. Qed.

Lemma frame_hostname h : keeps etc_frame (genHostnameFile h).
Proof.
  apply frame_open_then; [set_solver|].
  apply keeps_bind; [apply _|by apply frame_Write; set_solver|]. intros _. apply frame_hosts.
Qed.

Lemma frame_machine_id uuid : keeps etc_frame (generateEtcMachineID uuid).
Proof.
  apply frame_if_missing; [|apply frame_ret]. destruct uuid; [|apply frame_ret].
  by apply frame_ignore_WriteFile; set_solver.
Qed.

Lemma frame_user_file user k v : k ∈ etc_targets → keeps etc_frame (user_file user (k, v)).
Proof.
  intros Hk. apply keeps_bind; [apply _|apply keeps_try, frame_Stat|]. intros [?|e].
  - apply keeps_bind; [apply _|apply keeps_try, frame_ReadFile|]. intros [e|?]; [|apply frame_ret].
    apply keeps_if; [by apply frame_ignore_WriteFile|apply frame_ret].
  - apply keeps_if; [by apply frame_ignore_WriteFile|apply frame_ret].
Qed.

Lemma frame_mkdir_etc : keeps etc_frame (ignore (MkdirAll "/etc")).
Proof.
  apply keeps_ignore; [apply _|]. intros w Hw. unfold MkdirAll, sys, sys_with.
  destruct (k_fail _ _) as [[]|]; [done|]. cbn [path_prefixes].
  change (path_prefixes "/etc") with ["/etc"]. cbn [mkdirs].
  destruct (lookup_node (fs w) "/etc") as [[]|]; [done..|].
  destruct (fs w !! "/etc") as [n|]; [done|]. cbn [snd]. split.
  - intros p t Hp. cbn. destruct (decide ("/etc" = p)) as [<-|Hne]; [by rewrite lookup_insert_eq|].
    rewrite lookup_insert_ne by done. by apply Hw.
  - intros p Hp. cbn. rewrite lookup_insert_ne; [done|]. intros <-. apply Hp. by left.
Qed.

Lemma frame_assets : keeps etc_frame (mforeach (λ f,
    let fullName := PathJoin ["/etc"; f] in
    r ← mtry (Stat fullName);
    match r with
    | inr e => if IsNotExist e then ignore (writeEtcFile asset f fullName) else mret tt
    | inl _ => mret tt
    end) etcFiles).
Proof.
  apply keeps_foreach; [apply _|]. intros f Hf. apply frame_if_missing; [|apply frame_ret].
  apply keeps_ignore; [apply _|]. unfold writeEtcFile. destruct (asset _); [|apply keeps_fail; apply _].
  apply frame_WriteFile. revert f Hf. apply (Forall_forall (λ f, PathJoin ["/etc"; f] ∈ etc_targets)).
  repeat constructor; vm_compute PathJoin; set_solver.
Qed.

(** C25: [etcGenerateFiles], with any assets, any machine id and a kernel that
    fails any call after any number of bytes, never changes a file outside the
    nine it is responsible for. *)
Theorem etcGenerateFiles_frame flip uuid hostname user w p :
  no_links (fs w) → p ∉ etc_targets →
  fs (etcGenerateFiles asset flip uuid hostname user w).2 !! p = fs w !! p.
Proof.
  intros Hw Hp. assert (keeps etc_frame (etcGenerateFiles asset flip uuid hostname user)) as H.
  { apply keeps_bind; [apply _|apply frame_mkdir_etc|]. intros _.
    apply keeps_bind; [apply _| |intros _].
    { apply keeps_foreach; [apply _|]. intros [k v] Hk. apply frame_user_file.
      destruct flip; set_unfold in Hk; destruct Hk as [[= -> ->]|[[= -> ->]|[]]]; set_solver. }
    apply keeps_bind; [apply _|apply frame_assets|]. intros _.
    apply keeps_bind; [apply _|apply frame_hostname|]. intros _. apply frame_machine_id. }
  by apply (H w Hw).
Qed.

(** *** The hostname *)

Lemma short_hostname_no_dot h :
  HasPrefix h "." = false → Contains (short_hostname h) "." = false.
Proof.
  intros Hp. unfold short_hostname. change "." with (String dot "") in *.
  destruct (IndexByte_spec h dot) as [[-> H]|(l & r & -> & -> & Hl)]; [done|].
  destruct l as [|a l].
  - exfalso. revert Hp. cbn. by destruct r.
  - cbn [String.length]. replace (0 <? Z.of_nat (S (String.length l)))%Z with true by (symmetry; apply Z.ltb_lt; lia).
    rewrite Nat2Z.id. change (S (String.length l)) with (String.length (String a l)).
    by rewrite str_take_app.
Qed.

(** A regular file or nothing: what a write replaces. *)
Definition writable (p : string) (m : gmap string node) : Prop :=
  match m !! p with Some (File _) | None => True | _ => False end.

Lemma ok_write (Hok : ∀ n c, k_fail n c = None) p d w :
  abs_path p = p → PathDir p = "/etc" → fs w !! "/etc" = Some Dir → writable p (fs w) →
  ∃ w', WriteFile p d w = (Ret tt, w') ∧ fs w' = <[p := File d]> (fs w).
Proof.
  intros Ha Hd Hdir Hp. unfold writable in Hp. destruct (fs w !! p) as [[x| |]|] eqn:E; try done.
  - eexists. split; [by apply (ok_WriteFile Hok p x)|apply fs_written].
  - eexists. split; [|apply fs_written]. apply (ok_WriteFile_new Hok); [|done|].
    + apply resolve_not_link; [done|]. by rewrite E.
    + rewrite Hd. by apply etc_is_dir.
Qed.

(** On a healthy machine [genHostnameFile] puts the host part of the name
    (no dot, unless the name starts with one) into /etc/hostname, writes
    /etc/hosts with it if there is none, keeps an existing /etc/hosts, and
    changes nothing else. *)
Theorem genHostnameFile_writes h w :
  (∀ n c, k_fail n c = None) → fs w !! "/etc" = Some Dir →
  writable "/etc/hostname" (fs w) → writable "/etc/hosts" (fs w) →
  (HasPrefix h "." = false → Contains (short_hostname h) "." = false) ∧
  ∃ w', genHostnameFile h w = (Ret tt, w') ∧
    fs w' =
      let m := <["/etc/hostname" := File (short_hostname h)]> (fs w) in
      match fs w !! "/etc/hosts" with
      | Some _ => m
      | None => <["/etc/hosts" := File (hosts_text (short_hostname h))]> m
      end.
Proof.
  intros Hok Hd Hhn Hh. split; [apply short_hostname_no_dot|].
  destruct (ok_write Hok "/etc/hostname" (short_hostname h) w eq_refl eq_refl Hd Hhn) as (w1 & E1 & F1).
  unfold genHostnameFile. rewrite <-run_assoc. fold (WriteFile "/etc/hostname" (short_hostname h)).
  rewrite (run_ret _ _ _ _ _ E1).
  assert (fs w1 !! "/etc/hosts" = fs w !! "/etc/hosts") as Eh by (by rewrite F1, lookup_insert_ne).
  assert (lookup_node (fs w1) "/etc/hosts" = fs w1 !! "/etc/hosts") as Hn.
  { unfold lookup_node. rewrite resolve_not_link; [done|done|]. intros t Hl. unfold writable in Hh.
    by rewrite <-Eh, Hl in Hh. }
  unfold generateEtcHosts. destruct (fs w !! "/etc/hosts") as [n|] eqn:E.
  - exists (record (SStat "/etc/hosts") None w1). split; [|exact F1].
    rewrite (run_ret _ _ _ (inl tt) (record (SStat "/etc/hosts") None w1)); [done|].
    apply ok_try. unfold Stat. apply (ok_sys_with Hok). by rewrite Hn, Eh.
  - rewrite (run_ret _ _ _ (inr ENOENT) (record (SStat "/etc/hosts") (Some ENOENT) w1)).
    2:{ unfold mtry, Stat, sys. by rewrite (ok_sys_err Hok _ _ _ _ ENOENT) by (by rewrite Hn, Eh). }
    destruct (ok_write Hok "/etc/hosts" (hosts_text (short_hostname h))
      (record (SStat "/etc/hosts") (Some ENOENT) w1)) as (w2 & E2 & F2); [done|done| | |].
    + change (fs (record _ _ w1)) with (fs w1). by rewrite F1, lookup_insert_ne.
    + unfold writable. change (fs (record _ _ w1)) with (fs w1). by rewrite Eh.
    + exists w2. split; [by eapply ok_ignore|]. rewrite F2. cbn zeta. by rewrite <-F1.
Qed.
End theorems.

(** ** Witnesses *)

Lemma addVorteilUserGroup_idempotent_witness :
  ∃ w1 w2,
    @addVorteilUserGroup calm false "" ex_world = (Ret tt, w1) ∧ fs w1 = users_spec "" (fs ex_world) ∧
    @addVorteilUserGroup calm true "" w1 = (Ret tt, w2) ∧ fs w2 = fs w1.
Proof.
  apply (@addVorteilUserGroup_idempotent calm false true "" ex_world); [done|].
  by split; [vm_compute|intros t; vm_compute..].
Defined.

Lemma ex_no_links : no_links (fs ex_world).
Proof.
  intros p t Hp. revert p Hp. apply (Forall_forall (λ p, fs ex_world !! p ≠ Some (Link t))).
  repeat constructor; vm_compute; discriminate.
Qed.

Lemma etcGenerateFiles_frame_witness :
  fs (@etcGenerateFiles calm (λ _, Some "x") true (inl "id") "vm.local" "app" ex_world).2 !! "/dev/sda"
  = fs ex_world !! "/dev/sda".
Proof.
  apply (@etcGenerateFiles_frame calm (λ _, Some "x") true (inl "id") "vm.local" "app" ex_world "/dev/sda");
    [exact ex_no_links|apply (bool_decide_unpack ("/dev/sda" ∉ etc_targets)); vm_compute; exact I].
Defined.

Lemma genHostnameFile_writes_witness :
  (HasPrefix "vm.local" "." = false → Contains (short_hostname "vm.local") "." = false) ∧
  ∃ w', @genHostnameFile calm "vm.local" ex_world = (Ret tt, w') ∧
    fs w' = <["/etc/hosts" := File (hosts_text (short_hostname "vm.local"))]>
              (<["/etc/hostname" := File (short_hostname "vm.local")]> (fs ex_world)).
Proof. apply (@genHostnameFile_writes calm "vm.local" ex_world); vm_compute; done. Defined.

(** An existing passwd file without the user gets a second line for root. *)
Example duplicate_root :
  user_content "app" (passwd_lines "app") (Some (File ("root:x:0:0:root:/root:/bin/sh" +:+ nl))) =
    Some (File ("root:x:0:0:root:/root:/bin/sh" +:+ nl +:+ "root:x:0:0:root:/:/bin/false" +:+ nl +:+
                "app:x:1000:1000:app:/:/bin/false" +:+ nl)).
Proof. done. Qed.
