(* ===== verification/Join.v ===== *)
(** * Goroutines that are started together and waited for

    [PostSetup], [networkSetup] and [Launch] have the same skeleton:
    count the workers in a [WaitGroup], start them, let one goroutine close a
    channel when the group is done, and [select] between that channel and an
    unbuffered channel of errors.  The model keeps of a goroutine its actions on
    the group and on the channels, in order; the work between them is not seen
    by the others.  Steps interleave freely.  [Setup] has the skeleton too; its
    goroutines also share a variable, and are the subject of [SetupRace]. *)

From S2P Require Import Prelude.
Local Open Scope Z_scope.

(** What a worker does: send its error, receive or send on [cread], [wg.Done()]. *)
Inductive act :=
| SendErr
| RecvCread
| SendCread
| Done.

#[global] Instance act_eq_dec : EqDecision act.
Proof. solve_decision. Defined.

(** What the starting goroutine does before its [select]. *)
Inductive pact :=
| PAdd (n : Z)
| PSpawn (p : list act)
| PSendErr
| PDone
| PSpawnWaiter.

Inductive main_state :=
| MPre (l : list pact)
| Select
| Got
| Failed
| Returned.

#[global] Instance pact_eq_dec : EqDecision pact.
Proof. solve_decision. Defined.
#[global] Instance main_state_eq_dec : EqDecision main_state.
Proof. solve_decision. Defined.

Record state := mkState {
  main : main_state;
  workers : list (list act);
  wg : Z;
  waiter : bool;
  done_closed : bool;
  errors_closed : bool
}.

(** [inl]: the program runs on; [inr]: a goroutine panicked and the process,
    which is init, is gone. *)
Definition config : Type := state + panic.

Definition advance (i : nat) (k : list act) (s : state) : state :=
  mkState (main s) (<[i := k]> (workers s)) (wg s) (waiter s) (done_closed s) (errors_closed s).
Definition set_main (m : main_state) (s : state) : state :=
  mkState m (workers s) (wg s) (waiter s) (done_closed s) (errors_closed s).
Definition add_wg (n : Z) (s : state) : state :=
  mkState (main s) (workers s) (wg s + n) (waiter s) (done_closed s) (errors_closed s).
Definition spawn (p : list act) (s : state) : state :=
  mkState (main s) (workers s ++ [p]) (wg s) (waiter s) (done_closed s) (errors_closed s).
Definition start_waiter (s : state) : state :=
  mkState (main s) (workers s) (wg s) true (done_closed s) (errors_closed s).
Definition close_done (s : state) : state :=
  mkState (main s) (workers s) (wg s) (waiter s) true (errors_closed s).
Definition close_errors (s : state) : state :=
  mkState (main s) (workers s) (wg s) (waiter s) (done_closed s) true.

(** [wg.Done()]: a negative counter panics. *)
Definition wg_done (s : state) : config :=
  if wg s - 1 <? 0 then inr NegativeWaitGroup else inl (add_wg (-1) s).

(** [closes]: whether the main goroutine closes the error channel after it
    received from it. *)
Inductive step (closes : bool) : state → config → Prop :=
| step_add s n l : main s = MPre (PAdd n :: l) → step closes s (inl (add_wg n (set_main (MPre l) s)))
| step_spawn s p l : main s = MPre (PSpawn p :: l) → step closes s (inl (spawn p (set_main (MPre l) s)))
| step_pdone s l : main s = MPre (PDone :: l) → step closes s (wg_done (set_main (MPre l) s))
| step_psend_closed s l :
    main s = MPre (PSendErr :: l) → errors_closed s = true → step closes s (inr SendOnClosed)
| step_waiter s l :
    main s = MPre (PSpawnWaiter :: l) → step closes s (inl (start_waiter (set_main (MPre l) s)))
| step_select s : main s = MPre [] → step closes s (inl (set_main Select s))
| step_done s i k : workers s !! i = Some (Done :: k) → step closes s (wg_done (advance i k s))
| step_send s i k :
    workers s !! i = Some (SendErr :: k) → main s = Select → errors_closed s = false →
    step closes s (inl (advance i k (set_main Got s)))
| step_send_closed s i k :
    workers s !! i = Some (SendErr :: k) → errors_closed s = true → step closes s (inr SendOnClosed)
| step_cread s i j k l :
    workers s !! i = Some (SendCread :: k) → workers s !! j = Some (RecvCread :: l) →
    step closes s (inl (advance j l (advance i k s)))
| step_wait s : waiter s = true → wg s = 0 → done_closed s = false → step closes s (inl (close_done s))
| step_return s : main s = Select → done_closed s = true → step closes s (inl (set_main Returned s))
| step_got s :
    main s = Got → step closes s (inl (set_main Failed (if closes then close_errors s else s))).

Definition init (l : list pact) : state := mkState (MPre l) [] 0 false false false.

Inductive reach (closes : bool) (l : list pact) : config → Prop :=
| reach_init : reach closes l (inl (init l))
| reach_step s c : reach closes l (inl s) → step closes s c → reach closes l c.

(** ** The groups *)

Definition worker (err : bool) : list act := (if err then [SendErr] else []) ++ [Done].

(** [PostSetup]: NFS, logging (waits for the cloud metadata), cloud, busybox, chrony. *)
Definition postsetup_group (logging readOnly busybox_err chrony_err : bool) : list pact :=
  [PAdd 5; PSpawn (worker false);
   PSpawn ((if logging && negb readOnly then [RecvCread] else []) ++ [Done]);
   PSpawn [Done; SendCread]; PSpawn (worker busybox_err); PSpawn (worker chrony_err); PSpawnWaiter].

(** [Launch]: one goroutine for every program. *)
Definition launch_group (errs : list bool) : list pact :=
  PAdd (Z.of_nat (length errs)) :: ((λ e, PSpawn (worker e)) <$> errs) ++ [PSpawnWaiter].

(** [networkSetup]: for every configured card tcpdump, on the starting goroutine
    itself, and a goroutine that gets the address. *)
Definition network_group (cards : list (bool * bool)) : list pact :=
  ('(dump_err, link_err) ← cards;
   [PAdd 2] ++ (if (dump_err : bool) then [PSendErr] else []) ++ [PDone; PSpawn (worker link_err)])
  ++ [PSpawnWaiter].

(** ** Counting what is left to do *)

Definition act_eqb (x a : act) : bool :=
  match x, a with
  | SendErr, SendErr | RecvCread, RecvCread | SendCread, SendCread | Done, Done => true
  | _, _ => false
  end.

Fixpoint cnt (a : act) (p : list act) : Z :=
  match p with
  | [] => 0
  | x :: p => (if act_eqb x a then 1 else 0) + cnt a p
  end.

Fixpoint total (a : act) (ws : list (list act)) : Z :=
  match ws with
  | [] => 0
  | p :: ws => cnt a p + total a ws
  end.

Definition pcnt1 (a : act) (x : pact) : Z :=
  match x with
  | PSpawn p => cnt a p
  | PDone => if act_eqb a Done then 1 else 0
  | PSendErr => if act_eqb a SendErr then 1 else 0
  | _ => 0
  end.

Fixpoint pcnt (a : act) (l : list pact) : Z :=
  match l with
  | [] => 0
  | x :: l => pcnt1 a x + pcnt a l
  end.

Fixpoint adds (l : list pact) : Z :=
  match l with
  | [] => 0
  | PAdd n :: l => n + adds l
  | _ :: l => adds l
  end.

Definition pre (s : state) : list pact := match main s with MPre l => l | _ => [] end.

(** What workers and starter together still have to do. *)
Definition left_to (a : act) (s : state) : Z := total a (workers s) + pcnt a (pre s).

(** Every remaining part of the script counts at least what it adds. *)
Fixpoint balanced (l : list pact) : Prop :=
  match l with
  | [] => True
  | _ :: l' => adds l ≤ pcnt Done l ∧ balanced l'
  end.

(** The forms a worker takes: an error is sent before [Done], and [cread] is
    sent by a goroutine that does not wait for anything. *)
Definition shape (p : list act) : Prop :=
  p ∈ [[]; [Done]; [SendErr; Done]; [RecvCread; Done]; [Done; SendCread]; [SendCread]].

Definition pshape (x : pact) : Prop := match x with PSpawn p => shape p | _ => True end.

Fixpoint waiter_last (l : list pact) : Prop :=
  match l with
  | [] => False
  | [PSpawnWaiter] => True
  | PSpawnWaiter :: _ => False
  | _ :: l => waiter_last l
  end.

Record wf_script (l : list pact) : Prop := {
  ws_balanced : balanced l;
  ws_adds : adds l = pcnt Done l;
  ws_shape : Forall pshape l;
  ws_waiter : waiter_last l;
  ws_cread : pcnt RecvCread l ≤ pcnt SendCread l
}.

Lemma cnt_nonneg a p : 0 ≤ cnt a p.
Proof. induction p as [|x p IH]; cbn; [lia|]. destruct (act_eqb x a); lia. Qed.

Lemma total_nonneg a ws : 0 ≤ total a ws.
Proof. induction ws as [|p ws IH]; cbn; [lia|]. pose proof (cnt_nonneg a p). lia. Qed.

Lemma pcnt_nonneg a l : 0 ≤ pcnt a l.
Proof.
  induction l as [|x l IH]; cbn; [lia|]. destruct x; cbn; try (destruct (act_eqb a _)); try lia.
  pose proof (cnt_nonneg a p). lia.
Qed.

Lemma total_app a ws p : total a (ws ++ [p]) = total a ws + cnt a p.
Proof. induction ws as [|q ws IH]; cbn; [lia|]. rewrite IH. lia. Qed.

Lemma total_advance a ws i x k :
  ws !! i = Some (x :: k) →
  total a (<[i := k]> ws) = total a ws - (if act_eqb x a then 1 else 0).
Proof.
  revert i. induction ws as [|p ws IH]; intros [|i] H; try done.
  - injection H as ->. cbn. lia.
  - change (cnt a p + total a (<[i := k]> ws) = cnt a p + total a ws - (if act_eqb x a then 1 else 0)).
    rewrite (IH i) by done. lia.
Qed.

(** A worker that still has an action makes the total positive. *)
Lemma total_lookup a ws i p : ws !! i = Some p → cnt a p ≤ total a ws.
Proof.
  revert i. induction ws as [|q ws IH]; intros [|i] H; try done; cbn in *.
  - simplify_eq. pose proof (total_nonneg a ws). lia.
  - pose proof (IH i H). pose proof (cnt_nonneg a q). lia.
Qed.

Lemma total_pos a ws : 0 < total a ws → ∃ i p, ws !! i = Some p ∧ 0 < cnt a p.
Proof.
  induction ws as [|p ws IH]; cbn; [lia|]. intros H.
  destruct (decide (0 < cnt a p)) as [Hp|Hp]; [by exists 0%nat, p|].
  destruct IH as (i & q & ? & ?); [lia|]. by exists (S i), q.
Qed.

Lemma shape_tail x k : shape (x :: k) → shape k.
Proof.
  unfold shape. intros H. repeat (apply elem_of_cons in H as [H|H]; [simplify_eq; set_solver|]).
  by apply elem_of_nil in H.
Qed.

(** ** The invariant; [E] is the number of errors the workers will send *)

Record inv (E : Z) (s : state) : Prop := {
  inv_wg : wg s = left_to Done s - adds (pre s);
  inv_balanced : balanced (pre s);
  inv_shape : Forall shape (workers s);
  inv_pshape : Forall pshape (pre s);
  inv_err : left_to SendErr s = E - match main s with Got | Failed => 1 | _ => 0 end;
  inv_closed : errors_closed s = true → main s = Failed;
  inv_waiter : if waiter s then pre s = [] else waiter_last (pre s);
  inv_done : done_closed s = true → waiter s = true ∧ total Done (workers s) = 0;
  inv_ret : main s = Returned → done_closed s = true;
  inv_cread : left_to RecvCread s ≤ left_to SendCread s
}.

Lemma inv_init l : wf_script l → inv (pcnt SendErr l) (init l).
Proof.
  intros [Hb Ha Hs Hw Hc]. split; cbn; unfold left_to; cbn; try done; lia.
Qed.

Ltac invs := unfold left_to, pre in *; cbn [main workers wg waiter done_closed errors_closed
  advance set_main add_wg spawn start_waiter close_done close_errors] in *.

Lemma waiter_last_cons x l : waiter_last (x :: l) → x ≠ PSpawnWaiter → waiter_last l.
Proof. destruct x, l; try done. Qed.

Lemma waiter_last_end l : waiter_last (PSpawnWaiter :: l) → l = [].
Proof. by destruct l. Qed.

(** The steps of the starter before its [select]. *)
Lemma inv_pre E s x l s' :
  inv E s → main s = MPre (x :: l) → x ≠ PSendErr →
  (match x with
   | PAdd n => s' = add_wg n (set_main (MPre l) s)
   | PSpawn p => s' = spawn p (set_main (MPre l) s)
   | PDone => s' = add_wg (-1) (set_main (MPre l) s)
   | PSpawnWaiter => s' = start_waiter (set_main (MPre l) s)
   | PSendErr => False
   end) → inv E s'.
Proof.
  intros [Hwg Hb Hsh Hps He Hc Hw Hd Hr Hcr] Hm Hx Hs'.
  assert (waiter s = false) as Hwf.
  { destruct (waiter s); [|done]. unfold pre in Hw. by rewrite Hm in Hw. }
  assert (done_closed s = false) as Hdf.
  { destruct (done_closed s); [|done]. destruct Hd; congruence. }
  assert (errors_closed s = false) as Hcf.
  { destruct (errors_closed s); [|done]. rewrite Hm in Hc. by specialize (Hc eq_refl). }
  rewrite Hwf in Hw. unfold left_to, pre in *. rewrite Hm in *. cbn in *.
  destruct Hb as [Hb1 Hb2]. apply Forall_cons in Hps as [Hp1 Hps].
  destruct x; try done; subst s'; split; invs; rewrite ?Hwf, ?Hdf, ?Hcf in *; cbn in *;
    rewrite ?total_app; try done; try lia.
  all: try (by eapply waiter_last_cons).
  - apply Forall_app. split; [done|]. by constructor.
  - by apply waiter_last_end.
Qed.

Lemma inv_advance E s i x k :
  inv E s → workers s !! i = Some (x :: k) → x = Done →
  inv E (add_wg (-1) (advance i k s)).
Proof.
  intros [Hwg Hb Hsh Hps He Hc Hw Hd Hr Hcr] Hi ->.
  assert (shape k) as Hk.
  { apply shape_tail with Done. by eapply Forall_lookup_1 in Hi. }
  assert (∀ a, total a (<[i := k]> (workers s)) = total a (workers s) - (if act_eqb Done a then 1 else 0))
    as HT by (intros a; by apply total_advance).
  pose proof (total_lookup Done _ _ _ Hi) as Hpos. cbn in Hpos. pose proof (cnt_nonneg Done k).
  split; invs; rewrite ?HT; cbn; try done; try lia.
  - by apply Forall_insert.
  - intros HD. destruct (Hd HD). lia.
Qed.

Lemma inv_send E s i k :
  inv E s → workers s !! i = Some (SendErr :: k) → main s = Select →
  inv E (advance i k (set_main Got s)).
Proof.
  intros [Hwg Hb Hsh Hps He Hc Hw Hd Hr Hcr] Hi Hm.
  assert (shape k) as Hk.
  { apply shape_tail with SendErr. by eapply Forall_lookup_1 in Hi. }
  assert (∀ a, total a (<[i := k]> (workers s)) = total a (workers s) - (if act_eqb SendErr a then 1 else 0))
    as HT by (intros a; by apply total_advance).
  unfold left_to, pre in *. rewrite Hm in *.
  split; invs; rewrite ?HT; cbn in *; try done; try lia.
  - by apply Forall_insert.
  - intros Hcl. by specialize (Hc Hcl).
  - intros HD. destruct (Hd HD). split; [done|lia].
Qed.

Lemma inv_cread_step E s i j k l :
  inv E s → workers s !! i = Some (SendCread :: k) → workers s !! j = Some (RecvCread :: l) →
  inv E (advance j l (advance i k s)).
Proof.
  intros [Hwg Hb Hsh Hps He Hc Hw Hd Hr Hcr] Hi Hj.
  assert (i ≠ j) as Hij by congruence.
  assert (shape k) as Hk by (apply shape_tail with SendCread; by eapply Forall_lookup_1 in Hi).
  assert (shape l) as Hl by (apply shape_tail with RecvCread; by eapply Forall_lookup_1 in Hj).
  assert (∀ a, total a (<[j := l]> (<[i := k]> (workers s))) =
    total a (workers s) - (if act_eqb SendCread a then 1 else 0) - (if act_eqb RecvCread a then 1 else 0)) as HT.
  { intros a. rewrite (total_advance a _ j RecvCread l) by (by rewrite list_lookup_insert_ne).
    by rewrite (total_advance a _ i SendCread k). }
  split; invs; rewrite ?HT; cbn in *; try done; try lia.
  - by repeat apply Forall_insert.
  - intros HD. destruct (Hd HD). split; [done|lia].
Qed.

Lemma wg_done_nonneg s : 0 < wg s → wg_done s = inl (add_wg (-1) s).
Proof. intros H. unfold wg_done. destruct (Z.ltb_spec (wg s - 1) 0); [lia|done]. Qed.

(** The counter covers every [Done] that is still to come. *)
Lemma inv_wg_pos E s : inv E s → total Done (workers s) ≤ wg s.
Proof.
  intros H. pose proof (inv_wg _ _ H) as Hwg. pose proof (inv_balanced _ _ H) as Hb.
  unfold left_to in Hwg. destruct (pre s) as [|x l] eqn:Hp; [cbn in *; lia|].
  destruct Hb as [Hb _]. lia.
Qed.

Lemma inv_pdone_pos E s l : inv E s → main s = MPre (PDone :: l) → 0 < wg s.
Proof.
  intros [Hwg Hb _ _ _ _ _ _ _ _] Hm. unfold left_to, pre in *. rewrite Hm in *. cbn in *.
  pose proof (total_nonneg Done (workers s)).
  assert (adds l ≤ pcnt Done l); [|lia]. destruct Hb as [_ Hb].
  destruct l; cbn in *; [lia|]. by destruct Hb.
Qed.

(** A step keeps the invariant, or sends a second error on the closed channel. *)
Lemma inv_step closes E s c :
  inv E s → step closes s c →
  (∃ s', c = inl s' ∧ inv E s') ∨
  (c = inr SendOnClosed ∧ errors_closed s = true ∧ 0 < left_to SendErr s).
Proof.
  intros Hinv Hstep. destruct Hstep as
    [s n l Hm|s p l Hm|s l Hm|s l Hm Hc|s l Hm|s Hm|s i k Hi|s i k Hi Hm Hc|s i k Hi Hc|s i j k l Hi Hj|s Hw H0 Hd|s Hm Hd|s Hm].
  - left. eexists. split; [done|]. by eapply inv_pre.
  - left. eexists. split; [done|]. by eapply inv_pre.
  - left. rewrite wg_done_nonneg by (change (0 < wg s); by eapply inv_pdone_pos).
    eexists. split; [done|]. by eapply (inv_pre _ _ PDone).
  - apply (inv_closed _ _ Hinv) in Hc. congruence.
  - left. eexists. split; [done|]. by eapply inv_pre.
  - left. eexists. split; [done|]. destruct Hinv. unfold left_to, pre in *. rewrite Hm in *.
    split; invs; try done; by intros ?%inv_closed0.
  - left. pose proof (inv_wg_pos _ _ Hinv). pose proof (total_lookup Done _ _ _ Hi) as Hp.
    cbn in Hp. pose proof (cnt_nonneg Done k).
    rewrite wg_done_nonneg by (change (0 < wg s); lia).
    eexists. split; [done|]. by eapply inv_advance.
  - left. eexists. split; [done|]. by apply inv_send.
  - right. split_and!; [done|done|]. pose proof (total_lookup SendErr _ _ _ Hi) as Hp. cbn in Hp.
    pose proof (cnt_nonneg SendErr k). unfold left_to. pose proof (pcnt_nonneg SendErr (pre s)). lia.
  - left. eexists. split; [done|]. by apply inv_cread_step.
  - left. eexists. split; [done|]. pose proof (inv_wg_pos _ _ Hinv). pose proof (total_nonneg Done (workers s)).
    destruct Hinv. split; invs; try done. intros _. split; [done|lia].
  - left. eexists. split; [done|]. destruct Hinv. unfold left_to, pre in *. rewrite Hm in *.
    split; invs; try done. by intros ?%inv_closed0.
  - left. eexists. split; [done|]. destruct Hinv. unfold left_to, pre in *. rewrite Hm in *.
    destruct closes; split; invs; done.
Qed.

Lemma inv_reach closes l s : wf_script l → reach closes l (inl s) → inv (pcnt SendErr l) s.
Proof.
  intros Hwf. remember (inl s) as c eqn:Hc. intros Hr. revert s Hc.
  induction Hr as [|s0 c Hr IH Hstep]; intros s Hc.
  - injection Hc as <-. by apply inv_init.
  - destruct (inv_step closes _ s0 _ (IH s0 eq_refl) Hstep) as [(s' & -> & ?)|[-> _]];
      [by injection Hc as <-|done].
Qed.

Lemma never_closed l s : reach false l (inl s) → errors_closed s = false.
Proof.
  remember (inl s) as c eqn:Hc. intros Hr. revert s Hc.
  induction Hr as [|s0 c Hr IH Hstep]; intros s Hc; [by injection Hc as <-|].
  specialize (IH s0 eq_refl).
  destruct Hstep; try done; try (injection Hc as <-; exact IH);
    unfold wg_done in Hc; destruct (_ <? 0); try done; injection Hc as <-; exact IH.
Qed.

(** Every step uses something up, so runs are finite. *)
Fixpoint plen (l : list pact) : nat :=
  match l with
  | [] => 0
  | PSpawn p :: l => S (length p + plen l)
  | _ :: l => S (plen l)
  end.

Fixpoint wlen (ws : list (list act)) : nat :=
  match ws with
  | [] => 0
  | p :: ws => length p + wlen ws
  end.

Definition measure (s : state) : nat :=
  (wlen (workers s)
   + match main s with MPre l => 3 + plen l | Select => 2 | Got => 1 | _ => 0 end
   + if done_closed s then 0 else 1)%nat.

Lemma wlen_app ws p : wlen (ws ++ [p]) = (wlen ws + length p)%nat.
Proof. induction ws as [|q ws IH]; cbn; [lia|]. rewrite IH. lia. Qed.

Lemma wlen_advance ws i x k : ws !! i = Some (x :: k) → wlen ws = S (wlen (<[i := k]> ws)).
Proof.
  revert i. induction ws as [|p ws IH]; intros [|i] H; try done.
  - injection H as ->. done.
  - change (length p + wlen ws = S (length p + wlen (<[i := k]> ws)))%nat. rewrite (IH i) by done. lia.
Qed.

Lemma measure_step closes s s' : step closes s (inl s') → (measure s' < measure s)%nat.
Proof.
  remember (inl s') as c eqn:Hc. intros Hs. unfold measure.
  destruct Hs as
    [s n l Hm|s p l Hm|s l Hm|s l Hm H|s l Hm|s Hm|s i k Hi|s i k Hi Hm H|s i k Hi H|s i j k l Hi Hj|s Hw H0 Hd|s Hm Hd|s Hm];
    try done;
    try (unfold wg_done in Hc; destruct (_ <? 0); [done|]); injection Hc as <-; invs;
    try rewrite Hm; rewrite ?wlen_app; cbn [plen length]; try lia.
  - rewrite (wlen_advance _ _ _ _ Hi). lia.
  - rewrite (wlen_advance _ _ _ _ Hi). lia.
  - rewrite (wlen_advance _ _ _ _ Hi).
    rewrite (wlen_advance (<[i := k]> (workers s)) j RecvCread l); [lia|].
    rewrite list_lookup_insert_ne; [done|congruence].
  - rewrite Hd. lia.
  - destruct closes; invs; lia.
Qed.

(** ** Progress *)

Lemma reach_pre_suffix closes l s x :
  reach closes l (inl s) → x ∈ pre s → x ∈ l.
Proof.
  remember (inl s) as c eqn:Hc. intros Hr. revert s Hc.
  induction Hr as [|s0 c Hr IH Hstep]; intros s Hc; [by injection Hc as <-|].
  specialize (IH s0 eq_refl). intros Hx. apply IH. clear IH Hr.
  destruct Hstep; try done; try (unfold wg_done in Hc; destruct (_ <? 0); [done|]);
    injection Hc as <-; unfold pre in *; cbn in *;
    try match goal with H : main _ = _ |- _ => rewrite H in * end; try done; by right.
Qed.

Lemma shape_done p :
  shape p → 0 < cnt Done p →
  (∃ k, p = Done :: k) ∨ (∃ k, p = SendErr :: k) ∨ (∃ k, p = RecvCread :: k).
Proof.
  unfold shape. intros H Hc.
  repeat (apply elem_of_cons in H as [H|H]; [subst p; cbn in Hc; by eauto || lia|]).
  by apply elem_of_nil in H.
Qed.

Lemma shape_cread p :
  shape p → 0 < cnt SendCread p → (∃ k, p = Done :: k) ∨ (∃ k, p = SendCread :: k).
Proof.
  unfold shape. intros H Hc.
  repeat (apply elem_of_cons in H as [H|H]; [subst p; cbn in Hc; by eauto || lia|]).
  by apply elem_of_nil in H.
Qed.

Lemma shape_err p : shape p → 0 < cnt SendErr p → ∃ k, p = SendErr :: k.
Proof.
  unfold shape. intros H Hc.
  repeat (apply elem_of_cons in H as [H|H]; [subst p; cbn in Hc; by eauto || lia|]).
  by apply elem_of_nil in H.
Qed.

(** While a worker of the group is not done, some goroutine can go on. *)
Lemma progress_workers closes E s :
  inv E s → main s = Select → 0 < total Done (workers s) → ∃ c, step closes s c.
Proof.
  intros Hinv Hm Hpos. destruct (total_pos _ _ Hpos) as (i & p & Hi & Hp).
  assert (shape p) as Hsh by (eapply Forall_lookup_1; [apply (inv_shape _ _ Hinv)|done]).
  destruct (shape_done p Hsh Hp) as [[k ->]|[[k ->]|[k ->]]].
  - eexists. by eapply step_done.
  - eexists. eapply step_send; [done|done|].
    destruct (errors_closed s) eqn:Hc; [|done]. apply (inv_closed _ _ Hinv) in Hc. congruence.
  - pose proof (inv_cread _ _ Hinv) as Hcr. unfold left_to, pre in Hcr. rewrite Hm in Hcr. cbn in Hcr.
    pose proof (total_lookup RecvCread _ _ _ Hi) as Hr. cbn in Hr. pose proof (cnt_nonneg RecvCread k).
    destruct (total_pos SendCread (workers s)) as (j & q & Hj & Hq); [lia|].
    assert (shape q) as Hsq by (eapply Forall_lookup_1; [apply (inv_shape _ _ Hinv)|done]).
    destruct (shape_cread q Hsq Hq) as [[k' ->]|[k' ->]]; eexists; [by eapply step_done|by eapply step_cread].
Qed.

Lemma progress closes E s :
  inv E s → PSendErr ∉ pre s →
  (∃ c, step closes s c) ∨ main s = Returned ∨ main s = Failed.
Proof.
  intros Hinv Hps. destruct (main s) as [[|x l]| | | |] eqn:Hm; try tauto.
  - left. eexists. by apply step_select.
  - left. unfold pre in Hps. rewrite Hm in Hps.
    destruct x;
      [eexists; by eapply step_add|eexists; by eapply step_spawn|exfalso; apply Hps; by left
      |eexists; by eapply step_pdone|eexists; by eapply step_waiter].
  - left. destruct (done_closed s) eqn:Hd; [eexists; by apply step_return|].
    pose proof (inv_waiter _ _ Hinv) as Hw. unfold pre in Hw. rewrite Hm in Hw.
    destruct (waiter s) eqn:Hwt; [|done].
    pose proof (inv_wg _ _ Hinv) as Hwg. unfold left_to, pre in Hwg. rewrite Hm in Hwg. cbn in Hwg.
    destruct (decide (wg s = 0)) as [H0|H0]; [eexists; by apply step_wait|].
    eapply progress_workers; [done..|]. pose proof (total_nonneg Done (workers s)). lia.
  - left. eexists. by apply step_got.
Qed.

(** Every run from a configuration reaches [P] after finitely many steps. *)
Inductive eventually (closes : bool) (P : state → Prop) : config → Prop :=
| now s : P s → eventually closes P (inl s)
| later s :
    (∃ c, step closes s c) → (∀ c, step closes s c → eventually closes P c) →
    eventually closes P (inl s).

Lemma eventually_mono closes (P Q : state → Prop) c :
  (∀ s, P s → Q s) → eventually closes P c → eventually closes Q c.
Proof. intros H. induction 1 as [s Hs|s Hc _ IH]; [by apply now, H|by apply later]. Qed.

(** The end of a group with [E] errors: the starter has returned, or it has
    received an error. *)
Definition outcome_of (E : Z) (s : state) : Prop :=
  main s = if E =? 0 then Returned else Failed.

Lemma returned_no_error E s : inv E s → main s = Returned → E = 0.
Proof.
  intros Hinv Hm. destruct (inv_done _ _ Hinv (inv_ret _ _ Hinv Hm)) as [_ H0].
  pose proof (inv_err _ _ Hinv) as He. unfold left_to, pre in He. rewrite Hm in He. cbn in He.
  destruct (decide (0 < total SendErr (workers s))) as [Hpos|]; [|pose proof (total_nonneg SendErr (workers s)); lia].
  destruct (total_pos _ _ Hpos) as (i & p & Hi & Hp).
  assert (shape p) as Hsh by (eapply Forall_lookup_1; [apply (inv_shape _ _ Hinv)|done]).
  pose proof (total_lookup Done _ _ _ Hi). exfalso. revert Hsh Hp. unfold shape.
  intros Hsh Hp. repeat (apply elem_of_cons in Hsh as [Hsh|Hsh]; [subst p; cbn in *; lia|]).
  by apply elem_of_nil in Hsh.
Qed.

Lemma failed_error E s : inv E s → main s = Failed → 0 < E.
Proof.
  intros Hinv Hm. pose proof (inv_err _ _ Hinv) as He. rewrite Hm in He. unfold left_to in He.
  pose proof (total_nonneg SendErr (workers s)). pose proof (pcnt_nonneg SendErr (pre s)). lia.
Qed.

(** Nothing panics before the starter has received an error, and then only the
    next error that is sent. *)
Lemma panic_step closes l s why :
  wf_script l → reach closes l (inl s) → step closes s (inr why) →
  why = SendOnClosed ∧ closes = true ∧ main s = Failed ∧ 1 < pcnt SendErr l.
Proof.
  intros Hwf Hr Hstep. pose proof (inv_reach _ _ _ Hwf Hr) as Hinv.
  destruct (inv_step _ _ _ _ Hinv Hstep) as [(s' & [=] & _)|([= ->] & Hc & Hpos)].
  pose proof (inv_closed _ _ Hinv Hc) as Hm. pose proof (inv_err _ _ Hinv) as He. rewrite Hm in He.
  split_and!; [done| |done|lia]. destruct closes; [done|]. by rewrite (never_closed _ _ Hr) in Hc.
Qed.

(** ** Theorems *)

(** A group whose starter does not send errors itself ends, and with the right
    verdict; only a second error on the closed channel panics. *)
Lemma group_join closes l :
  wf_script l → PSendErr ∉ l →
  eventually closes (outcome_of (pcnt SendErr l)) (inl (init l)) ∧
  ∀ why, reach closes l (inr why) → why = SendOnClosed ∧ closes = true ∧ 1 < pcnt SendErr l.
Proof.
  intros Hwf Hps. split.
  2:{ intros why Hr. remember (inr why) as c eqn:Hc. destruct Hr as [|s c Hr Hstep]; [done|]. subst c.
      by destruct (panic_step _ _ _ _ Hwf Hr Hstep) as (? & ? & _ & ?). }
  assert (∀ n s, (measure s < n)%nat → reach closes l (inl s) →
    eventually closes (outcome_of (pcnt SendErr l)) (inl s)) as H.
  2:{ apply (H (S (measure (init l)))); [lia|constructor]. }
  induction n as [|n IH]; intros s Hn Hr; [lia|].
  pose proof (inv_reach _ _ _ Hwf Hr) as Hinv.
  destruct (decide (main s = Returned)) as [Hm|Hnr].
  { apply now. unfold outcome_of. by rewrite (returned_no_error _ _ Hinv Hm). }
  destruct (decide (main s = Failed)) as [Hm|Hnf].
  { apply now. unfold outcome_of. pose proof (failed_error _ _ Hinv Hm).
    destruct (Z.eqb_spec (pcnt SendErr l) 0); [lia|done]. }
  destruct (progress closes _ _ Hinv) as [Hstep|[?|?]]; [| |done|done].
  - intros Hin. by apply Hps, (reach_pre_suffix closes l s).
  - apply later; [done|]. intros [s'|why] Hc; [|by destruct (panic_step _ _ _ _ Hwf Hr Hc) as (_ & _ & ? & _)].
    apply IH; [pose proof (measure_step _ _ _ Hc); lia|]. by econstructor.
Qed.

(** *** The groups of the program *)

Lemma cnt_worker a err :
  cnt a (worker err) = (if err then if act_eqb SendErr a then 1 else 0 else 0) + if act_eqb Done a then 1 else 0.
Proof. destruct err, a; done. Qed.

Lemma shape_worker err : shape (worker err).
Proof. unfold shape. destruct err; set_solver. Qed.

Lemma wf_postsetup logging readOnly e1 e2 : wf_script (postsetup_group logging readOnly e1 e2).
Proof.
  destruct logging, readOnly, e1, e2; split; try done; cbn; try lia;
    repeat constructor; unfold shape; set_solver.
Qed.

Definition failures (errs : list bool) : Z := Z.of_nat (length (List.filter id errs)).

Lemma failures_0 {A} errs (x y : A) : (if failures errs =? 0 then x else y) = if existsb id errs then y else x.
Proof.
  unfold failures. induction errs as [|[] errs IH]; [done| |exact IH].
  cbn [List.filter existsb length id orb]. by destruct (Z.eqb_spec (Z.of_nat (S (length (List.filter id errs)))) 0); [lia|].
Qed.

Lemma launch_counts errs :
  let l := ((λ e, PSpawn (worker e)) <$> errs) ++ [PSpawnWaiter] in
  adds l = 0 ∧ pcnt Done l = Z.of_nat (length errs) ∧ pcnt SendErr l = failures errs ∧
  pcnt RecvCread l = 0 ∧ pcnt SendCread l = 0 ∧ Forall pshape l ∧ waiter_last l ∧ balanced l ∧ PSendErr ∉ l.
Proof.
  cbn zeta. induction errs as [|e errs IH].
  - split_and!; try done; [by repeat constructor|]. by intros [[=]|Hin%elem_of_nil]%elem_of_cons.
  - destruct IH as (H1 & H2 & H3 & H4 & H5 & H6 & H7 & H8 & H9).
    set (l := ((λ e, PSpawn (worker e)) <$> errs) ++ [PSpawnWaiter]) in *.
    change (((λ e, PSpawn (worker e)) <$> e :: errs) ++ [PSpawnWaiter]) with (PSpawn (worker e) :: l).
    cbn [pcnt pcnt1 adds]. rewrite !cnt_worker.
    assert (waiter_last (PSpawn (worker e) :: l)) by (subst l; by destruct errs).
    split_and!.
    + done.
    + rewrite H2. destruct e; cbn [act_eqb length]; lia.
    + rewrite H3. unfold failures. destruct e; cbn [act_eqb List.filter id length]; lia.
    + rewrite H4. by destruct e.
    + rewrite H5. by destruct e.
    + constructor; [apply shape_worker|done].
    + done.
    + split; [|done]. cbn [adds pcnt pcnt1]. rewrite H1, H2, cnt_worker. destruct e; cbn [act_eqb]; lia.
    + intros [[=]|]%elem_of_cons. done.
Qed.

Lemma wf_launch errs : wf_script (launch_group errs).
Proof.
  destruct (launch_counts errs) as (H1 & H2 & H3 & H4 & H5 & H6 & H7 & H8 & H9). unfold launch_group.
  set (l := ((λ e, PSpawn (worker e)) <$> errs) ++ [PSpawnWaiter]) in *.
  split; cbn [balanced adds pcnt pcnt1]; try lia.
  - split; [lia|done].
  - by constructor.
  - by destruct l.
Qed.

(** One step further along a concrete run. *)
Tactic Notation "fwd" hyp(H) uconstr(t) :=
  let H' := fresh in
  eassert (reach _ _ _) as H' by (eapply reach_step; [exact H|eapply t; reflexivity]);
  clear H; rename H' into H; cbn in H.

(** When busybox and chrony both fail, the second one may send on the channel the
    starter has closed. *)
Lemma double_failure_panics logging readOnly :
  reach true (postsetup_group logging readOnly true true) (inr SendOnClosed).
Proof.
  pose proof (reach_init true (postsetup_group logging readOnly true true)) as H.
  do 7 (first [fwd H step_add|fwd H step_spawn|fwd H step_waiter]).
  fwd H step_select. fwd H (step_send _ _ 3). fwd H step_got. fwd H (step_send_closed _ _ 4). exact H.
Qed.

Lemma postsetup_errors logging readOnly b c :
  pcnt SendErr (postsetup_group logging readOnly b c) = (if b then 1 else 0) + (if c then 1 else 0).
Proof. by destruct logging, readOnly, b, c. Qed.

(** C13: The joins of [PostSetup] and [Launch] are exact.  Under every interleaving
    of the goroutines, and however many of them fail, the starter goes on if none
    fails and receives an error if one does, without a deadlock (the logging worker
    that waits for the cloud worker included).  Of the operations on the counter
    and the channels one can panic, in [PostSetup] and exactly when both busybox
    and chrony fail: the second error is sent on the closed channel. *)
Theorem boot_groups_join :
  (∀ logging readOnly busybox_err chrony_err,
     let l := postsetup_group logging readOnly busybox_err chrony_err in
     eventually true (λ s, main s = if busybox_err || chrony_err then Failed else Returned) (inl (init l)) ∧
     ∀ why, reach true l (inr why) ↔ why = SendOnClosed ∧ busybox_err = true ∧ chrony_err = true) ∧
  (∀ errs,
     let l := launch_group errs in
     eventually false (λ s, main s = if existsb id errs then Failed else Returned) (inl (init l)) ∧
     ∀ why, ¬ reach false l (inr why)).
Proof.
  split; cbn zeta.
  - intros logging readOnly b c. destruct (group_join true (postsetup_group logging readOnly b c)) as [He Hp];
      [apply wf_postsetup| |].
    { intros Hin. repeat (apply elem_of_cons in Hin as [[=]|Hin]). by apply elem_of_nil in Hin. }
    rewrite postsetup_errors in He, Hp. split.
    + by destruct b, c.
    + intros why. split; [intros Hr; destruct (Hp why Hr) as (-> & _ & ?); by destruct b, c|].
      intros (-> & -> & ->). apply double_failure_panics.
  - intros errs. destruct (launch_counts errs) as (_ & _ & H3 & _ & _ & _ & _ & _ & H9).
    destruct (group_join false (launch_group errs)) as [He Hp]; [apply wf_launch| |].
    { intros [[=]|Hin]%elem_of_cons. by apply H9. }
    split; [|intros why Hr; by destruct (Hp why Hr) as (_ & ? & _)].
    replace (pcnt SendErr (launch_group errs)) with (failures errs) in He by done.
    eapply eventually_mono, He. intros s. unfold outcome_of. by rewrite failures_0.
Qed.

(** When tcpdump cannot be started for a network card, [networkSetup] sends
    the error before anyone receives: under every interleaving it never gets to
    its [select] and never returns, and so the boot hangs. *)
Theorem network_dump_deadlock cards s :
  true ∈ cards.*1 → reach true (network_group cards) (inl s) →
  ∃ l, main s = MPre l ∧ PSendErr ∈ l.
Proof.
  intros Hd Hr. assert (PSendErr ∈ network_group cards) as Hin.
  { apply list_elem_of_fmap in Hd as ([d e] & E & Hc). cbn in E. subst d. unfold network_group.
    apply elem_of_app. left. apply list_elem_of_bind. exists (true, e). split; [|done].
    cbn. set_solver. }
  assert (errors_closed s = false ∧ PSendErr ∈ pre s) as [_ Hp].
  { clear Hd. remember (inl s) as c eqn:Hc. revert s Hc.
    induction Hr as [|s0 c Hr IH Hstep]; intros s Hc; [by injection Hc as <-|].
    destruct (IH s0 eq_refl) as [Hcl Hp]. unfold pre in *.
    destruct Hstep; try done; try congruence;
      try (unfold wg_done in Hc; destruct (_ <? 0); [done|]);
      injection Hc as <-; cbn in *;
      try match goal with H : main _ = _ |- _ => rewrite H in * end; try done; set_solver. }
  unfold pre in Hp. destruct (main s) as [l| | | |]; [by exists l|set_solver..].
Qed.

Lemma network_dump_deadlock_witness :
  ∃ l, main (init (network_group [(true, false)])) = MPre l ∧ PSendErr ∈ l.
Proof.
  apply (network_dump_deadlock [(true, false)]); [by left|constructor].
Defined.
