(* ===== verification/SetupRace.v ===== *)
(** * The goroutines of [Setup] ([src/pkg/vorteil/vinitd.go])

    The three goroutines of [Setup] assign their results to the variable [err] of
    the enclosing function, which they share, and look at it afterwards.  The model
    keeps of each goroutine what it does with that variable, with the channel
    [errors] and with the [WaitGroup]; reads and writes of [err] are single steps,
    and the steps of all goroutines interleave freely.  The states are few enough
    to look at all of them. *)

From S2P Require Import Prelude.

(** [err = f()] where [b] says whether [f] fails; [if err != nil] around the next
    [n] actions; [err.Error()]; the evaluation of the operand of [errors <- err],
    which leaves the send of what was read; [wg.Done()]. *)
Inductive act :=
| SetErr (b : bool)
| IfErr (n : nat)
| UseErr
| LoadErr
| Send (b : bool)
| Done.

(** [Starting n]: [n] of the four [go] statements are still to come.  [Got b]: the
    [select] has received [b], which is [nil] if [b] is false. *)
Inductive main_state :=
| Starting (n : nat)
| Select
| Got (b : bool)
| Failed
| Returned.

Record state := mkState {
  main : main_state;
  workers : list (list act);
  wg : Z;
  done_closed : bool;
  errors_closed : bool;
  err : bool
}.

#[global] Instance act_eq_dec : EqDecision act.
Proof. solve_decision. Defined.
#[global] Instance main_eq_dec : EqDecision main_state.
Proof. solve_decision. Defined.
#[global] Instance state_eq_dec : EqDecision state.
Proof. solve_decision. Defined.

(** [inr]: a goroutine panicked, and process 1 is gone. *)
Definition config : Type := state + panic.

Definition set_main (m : main_state) (s : state) : state :=
  mkState m (workers s) (wg s) (done_closed s) (errors_closed s) (err s).
Definition advance (i : nat) (k : list act) (s : state) : state :=
  mkState (main s) (<[i := k]> (workers s)) (wg s) (done_closed s) (errors_closed s) (err s).
Definition set_wg (n : Z) (s : state) : state :=
  mkState (main s) (workers s) n (done_closed s) (errors_closed s) (err s).
Definition close_done (s : state) : state :=
  mkState (main s) (workers s) (wg s) true (errors_closed s) (err s).
Definition close_errors (s : state) : state :=
  mkState (main s) (workers s) (wg s) (done_closed s) true (err s).
Definition set_err (b : bool) (s : state) : state :=
  mkState (main s) (workers s) (wg s) (done_closed s) (errors_closed s) b.

(** Whether the [i]th [go] statement was executed. *)
Definition started (s : state) (i : nat) : bool :=
  match main s with
  | Starting n => (i <? 4 - n)%nat
  | _ => true
  end.

Definition worker_next (s : state) (i : nat) : list config :=
  if started s i then
    match workers s !! i with
    | Some (SetErr b :: k) => [inl (set_err b (advance i k s))]
    | Some (IfErr n :: k) => [inl (advance i (if err s then k else drop n k) s)]
    | Some (UseErr :: k) => [if err s then inl (advance i k s) else inr NilDeref]
    | Some (LoadErr :: k) => [inl (advance i (Send (err s) :: k) s)]
    | Some (Send b :: k) =>
        if errors_closed s then [inr SendOnClosed]
        else if decide (main s = Select) then [inl (advance i k (set_main (Got b) s))]
        else []
    | Some (Done :: k) =>
        [if (wg s <=? 0)%Z then inr NegativeWaitGroup else inl (set_wg (wg s - 1) (advance i k s))]
    | _ => []
    end
  else [].

(** The fourth goroutine: [wg.Wait(); close(wgDone)]. *)
Definition waiter_next (s : state) : list config :=
  if started s 3 && (wg s =? 0)%Z && negb (done_closed s) then [inl (close_done s)] else [].

(** The [select], and what follows the reception of an error. *)
Definition main_next (s : state) : list config :=
  match main s with
  | Starting (S n) => [inl (set_main (Starting n) s)]
  | Starting O => [inl (set_main Select s)]
  | Select => if done_closed s then [inl (set_main Returned s)] else []
  | Got b => [if b then inl (close_errors (set_main Failed s)) else inr NilDeref]
  | Failed | Returned => []
  end.

(** The steps that are possible. *)
Definition next (s : state) : list config :=
  main_next s ++ waiter_next s ++ worker_next s 0 ++ worker_next s 1 ++ worker_next s 2.

Inductive reach (s0 : state) : config → Prop :=
| reach_init : reach s0 (inl s0)
| reach_step s c : reach s0 (inl s) → c ∈ next s → reach s0 c.

(** Every run is finite. *)
Inductive halts : config → Prop :=
| halts_panic why : halts (inr why)
| halts_step s : (∀ c, c ∈ next s → halts c) → halts (inl s).

(** ** The group of [Setup] *)

Definition network_worker (fails : bool) : list act := [SetErr fails; IfErr 2; UseErr; LoadErr; Done].
Definition config_worker (fails : bool) : list act := [SetErr fails; IfErr 1; UseErr; Done].
Definition etc_worker (readOnly fails : bool) : list act :=
  if readOnly then [Done] else [SetErr fails; IfErr 2; UseErr; LoadErr; Done].

(** Before, [err] held the error of [setHostname]; who reads it has assigned it. *)
Definition setup_init (net sys etc readOnly : bool) : state :=
  mkState (Starting 4) [network_worker net; config_worker sys; etc_worker readOnly etc] 3 false false false.

(** ** How runs end *)

Inductive verdict := Returns | ShutsDown | Dies (why : panic) | Deadlock.

#[global] Instance verdict_eq_dec : EqDecision verdict.
Proof. solve_decision. Defined.

(** A configuration without a further step. *)
Definition verdict_of (c : config) : option verdict :=
  match c with
  | inr why => Some (Dies why)
  | inl s =>
      match next s with
      | _ :: _ => None
      | [] => Some (match main s with Returned => Returns | Failed => ShutsDown | _ => Deadlock end)
      end
  end.

(** The ways in which [Setup] can end. *)
Definition setup_verdicts (net sys etc readOnly : bool) : list verdict :=
  let fail_one := net || sys || (negb readOnly && etc) in
  let fail_all := net && sys && (readOnly || etc) in
  if negb fail_one then [Returns]
  else if fail_all then (if readOnly then [ShutsDown] else [Dies SendOnClosed])
  else [Returns; ShutsDown; Dies NilDeref] ++ (if readOnly then [] else [Dies SendOnClosed]).

(** ** Looking at all runs *)

Definition running (c : config) : option state := match c with inl s => Some s | inr _ => None end.

(** The ends of the runs from a set of states, if they all end within [fuel] steps. *)
Fixpoint explore (fuel : nat) (layer : list state) : option (list verdict) :=
  match layer, fuel with
  | [], _ => Some []
  | _, O => None
  | _, S fuel =>
      let cs := layer ≫= next in
      vs ← explore fuel (remove_dups (omap running cs));
      Some (omap (λ s, verdict_of (inl s)) layer
            ++ omap (λ c, match c with inr why => Some (Dies why) | inl _ => None end) cs ++ vs)
  end.

Inductive ends (v : verdict) : config → Prop :=
| ends_now c : verdict_of c = Some v → ends v c
| ends_later s c : c ∈ next s → ends v c → ends v (inl s).

Lemma ends_reach v s0 : ends v (inl s0) ↔ ∃ c, reach s0 c ∧ verdict_of c = Some v.
Proof.
  split.
  - assert (∀ c0, ends v c0 → reach s0 c0 → ∃ c, reach s0 c ∧ verdict_of c = Some v) as H.
    { induction 1 as [c Hc|s c Hc _ IH]; intros Hr; [by exists c|]. apply IH. by econstructor. }
    intros He. by apply (H (inl s0)); [|constructor].
  - intros (c & Hr & Hv). assert (ends v c) as He by by constructor. clear Hv.
    induction Hr as [|s c Hr IH Hc]; [done|]. apply IH. by econstructor.
Qed.

Lemma ends_inv v s : ends v (inl s) ↔ verdict_of (inl s) = Some v ∨ ∃ c, c ∈ next s ∧ ends v c.
Proof.
  split; [|intros [H|(c & Hc & H)]; [by constructor|by econstructor]].
  intros H. remember (inl s) as c0 eqn:E. destruct H as [c Hc|s' c Hc H]; [left; by subst c|].
  injection E as ->. right. by exists c.
Qed.

Lemma ends_panic v why : ends v (inr why) ↔ v = Dies why.
Proof.
  split; [|by intros ->; constructor].
  intros H. remember (inr why) as c0 eqn:E. destruct H as [c Hc|]; [|done]. subst c. by injection Hc as <-.
Qed.

(** Nothing is overlooked, and nothing is made up. *)
Lemma explore_spec fuel layer vs :
  explore fuel layer = Some vs →
  (∀ s, s ∈ layer → halts (inl s)) ∧ ∀ v, v ∈ vs ↔ ∃ s, s ∈ layer ∧ ends v (inl s).
Proof.
  revert layer vs. induction fuel as [|fuel IH]; intros layer vs.
  { destruct layer; [|done]. intros [= <-]. split; set_solver. }
  intros He.
  assert (layer = [] ∧ vs = [] ∨ ∃ us, explore fuel (remove_dups (omap running (layer ≫= next))) = Some us ∧
    vs = omap (λ s, verdict_of (inl s)) layer ++
         omap (λ c, match c with inr why => Some (Dies why) | inl _ => None end) (layer ≫= next) ++ us)
    as [[-> ->]|(us & Eu & ->)].
  { destruct layer as [|s l]; [left; by injection He as <-|]. right. cbn [explore] in He.
    destruct (explore fuel _) as [us|] eqn:Eu; [|done]. injection He as <-. by exists us. }
  { split; set_solver. }
  clear He. destruct (IH _ _ Eu) as [Hh Hv].
  assert (∀ s s', s ∈ layer → inl s' ∈ next s → s' ∈ remove_dups (omap running (layer ≫= next))) as Hin.
  { intros s s' Hs Hn. apply elem_of_remove_dups, list_elem_of_omap. exists (inl s'). split; [|done].
    apply list_elem_of_bind. by exists s. }
  split.
  { intros s Hs. constructor. intros [s'|why] Hc; [|constructor]. eapply Hh, Hin; done. }
  intros v. rewrite !elem_of_app, Hv, !list_elem_of_omap. split.
  - intros [(s & Hs & Hvs)|[(c & Hc & Hd)|(s' & Hs' & He)]].
    + exists s. split; [done|by constructor].
    + apply list_elem_of_bind in Hc as (s & Hc & Hs). destruct c as [|why]; [done|]. injection Hd as <-.
      exists s. split; [done|]. apply ends_inv. right. exists (inr why). split; [done|]. by apply ends_panic.
    + apply elem_of_remove_dups, list_elem_of_omap in Hs' as ([s''|] & Hc & [= ->]).
      apply list_elem_of_bind in Hc as (s & Hc & Hs). exists s. split; [done|]. apply ends_inv. right. by eexists.
  - intros (s & Hs & [Hvs|([s'|why] & Hc & He)]%ends_inv).
    + left. by exists s.
    + right; right. exists s'. split; [by eapply Hin|done].
    + right; left. exists (inr why). split; [apply list_elem_of_bind; by exists s|].
      apply ends_panic in He. by rewrite He.
Qed.

Definition same_verdicts (vs us : list verdict) : bool :=
  forallb (λ v, bool_decide (v ∈ us)) vs && forallb (λ v, bool_decide (v ∈ vs)) us.

Lemma same_verdicts_spec vs us : same_verdicts vs us = true → ∀ v, v ∈ vs ↔ v ∈ us.
Proof.
  unfold same_verdicts. rewrite andb_true_iff, !forallb_forall. intros [H1 H2] v.
  rewrite !list_elem_of_In in *. split; intros Hv.
  - apply H1, bool_decide_eq_true in Hv. by apply list_elem_of_In.
  - apply H2, bool_decide_eq_true in Hv. by apply list_elem_of_In.
Qed.

(** Forty steps are enough: 5 of the starter before its [select], 2 after it, 1 of
    the waiter and at most 6 of each worker. *)
Definition check (s0 : state) (us : list verdict) : bool :=
  match explore 40 [s0] with
  | Some vs => same_verdicts vs us
  | None => false
  end.

Lemma check_sound s0 us :
  check s0 us = true → halts (inl s0) ∧ ∀ v, (∃ c, reach s0 c ∧ verdict_of c = Some v) ↔ v ∈ us.
Proof.
  unfold check. generalize 40%nat. intros fuel H.
  destruct (explore fuel [s0]) as [vs|] eqn:E; [|done]. destruct (explore_spec _ _ _ E) as [Hh Hv]. split.
  - apply Hh. by left.
  - intros v. rewrite <-ends_reach, <-(same_verdicts_spec _ _ H), Hv. split.
    + intros He. exists s0. split; [by left|done].
    + intros (s & ->%list_elem_of_singleton & He). done.
Qed.

Lemma check_setup net sys etc readOnly :
  check (setup_init net sys etc readOnly) (setup_verdicts net sys etc readOnly) = true.
Proof. destruct net, sys, etc, readOnly; vm_compute; reflexivity. Qed.

