(* ===== verification/Route.v ===== *)
(** * Addresses and routes of a card ([src/pkg/vorteil/network.go],
    [chelper.go], [utils.go])

    The C helper that sets a route and the netlink library are outside: a call
    is recorded with the arguments it gets and may fail.  Whether the library
    accepts the text of an address is a parameter. *)

From S2P Require Import Prelude Bytes GoStrings GoPath GoNet Types BlockDev Os Process.
Local Open Scope Z_scope.

(** ** Helpers of [utils.go] *)

(** The first of the addresses with the same text; [str] is [IP.String]. *)
Fixpoint unique_loop {ip} (str : ip → string) (keys : gset string) (l : list ip) : list ip :=
  match l with
  | [] => []
  | entry :: l =>
      if decide (str entry ∈ keys) then unique_loop str keys l
      else entry :: unique_loop str ({[str entry]} ∪ keys) l
  end.

Definition uniqueIPs (ipSlice : list IP) : list IP := unique_loop IPString ∅ ipSlice.

Definition min (x y : Z) : Z := if x <? y then x else y.
Definition max (x y : Z) : Z := if x <? y then y else x.

(** The last four of sixteen bytes, or the first four of any other slice. *)
Definition ip2networkInt (ip : IP) : outcome Z :=
  if (length ip =? 16)%nat then Ret (le_get (slice 12 4 ip))
  else if (length ip <? 4)%nat then Panic IndexOutOfRange
  else Ret (le_get (slice 0 4 ip)).

(** ** Routes *)

Definition RTF_UP : Z := 1.
Definition RTF_GATEWAY : Z := 2.
Definition RTF_HOST : Z := 4.
Definition RTF_STATIC : Z := 0x400.

(** The netlink library: does [netlink.ParseAddr] accept a text? *)
Class netlink_lib := { ParseAddr : string → bool }.

Section route.
Context `{K : kernel} `{NL : netlink_lib}.

(** The closure [nw] of [addNetworkRoute4]; nil gives zero. *)
Definition nw_order (v : IP) : outcome Z :=
  match v with [] => Ret 0 | _ => ip2networkInt v end.

(** [C.int] keeps 32 bits. *)
Definition addNetworkRoute4 (dst mask gw : IP) (dev : string) (flags : Z) : OS unit :=
  dstNwOrder ← lift (nw_order dst);
  maskNwOrder ← lift (nw_order mask);
  gwNwOrder ← lift (nw_order gw);
  r ← mtry (plain (SRoute (i32 dstNwOrder) (i32 maskNwOrder) (i32 gwNwOrder) dev (i32 flags)));
  match r with
  | inl _ => mret tt
  | inr _ => mfail (Errorf ("could not set route for " +:+ dev))
  end.

Definition setDefaultGateway (name : string) (ip : IP) : OS unit :=
  r ← mtry (addNetworkRoute4 [] [] ip name (Z.lor RTF_UP RTF_GATEWAY));
  match r with
  | inl _ => mret tt
  | inr _ => mfail (Errorf "could not set host route")
  end.

(** [i] is the card as it is after [configInterface] has set its address. *)
Definition addAddrToInterface (i : ifc) : OS unit :=
  plain (SNetlink "get" (if_name i) []);;
  match if_addr i with
  | None => mpanic NilDeref
  | Some n =>
      if ParseAddr (IPNetString n) then plain (SAddrAdd (if_name i) (IPNetString n))
      else mfail (Errorf "invalid CIDR address")
  end.

(** [i] is the pointer to the card: its key in the table. *)
Definition configInterface (key : string) (ip mask router : IP) : OS unit :=
  vmodify (λ v, set_ifcs (alter (set_addr (Some (mkIPNet ip mask)) router) key (ifcs v)) v);;
  v ← vget;
  match ifcs v !! key with
  | None => mpanic NilDeref
  | Some i =>
      ignore (addAddrToInterface i);;
      (if IPEqual mask IPv4bcast then
         r ← mtry (addNetworkRoute4 router IPv4bcast [] (if_name i) (Z.lor RTF_UP RTF_HOST));
         match r with inl _ => mret tt | inr _ => SystemPanic end
       else mret tt);;
      match router with
      | [] => mret tt
      | _ =>
          r ← mtry (setDefaultGateway (if_name i) router);
          match r with inl _ => mret tt | inr _ => SystemPanic end
      end
  end.

(** One round of the loop of [configRoutes]. *)
Definition config_route (r : Route) : OS unit :=
  match ParseCIDR (Destination r) with
  | None => mret tt
  | Some (dst, nw) =>
      match ParseIP (rt_Gateway r) with
      | [] => mret tt
      | gw =>
          e ← mtry (if Contains_ip nw gw
                    then addNetworkRoute4 gw (net_Mask nw) [] (rt_Interface r) (Z.lor RTF_UP RTF_HOST)
                    else addNetworkRoute4 gw IPv4bcast [] (rt_Interface r) (Z.lor RTF_UP RTF_HOST));
          match e with
          | inr _ => mret tt
          | inl _ =>
              ignore (addNetworkRoute4 dst (net_Mask nw) gw (rt_Interface r)
                        (Z.lor (Z.lor RTF_UP RTF_STATIC) RTF_GATEWAY))
          end
      end
  end.

Definition configRoutes (routes : list Route) : OS unit := mforeach config_route routes.
End route.

(** ** Repeated addresses *)

Section unique.
Context {ip : Type} (str : ip → string).

Lemma unique_loop_spec keys l :
  NoDup (str <$> unique_loop str keys l) ∧
  (∀ x, x ∈ unique_loop str keys l → x ∈ l ∧ str x ∉ keys) ∧
  (∀ x, x ∈ l → str x ∈ keys ∨ str x ∈ str <$> unique_loop str keys l) ∧
  sublist (unique_loop str keys l) l.
Proof.
  revert keys. induction l as [|e l IH]; intros keys; cbn [unique_loop].
  { split_and!; [constructor|by intros x ?%elem_of_nil..|constructor]. }
  case_decide as He.
  - destruct (IH keys) as (H1 & H2 & H3 & H4). split_and!; [done| | |by constructor].
    + intros x Hx. destruct (H2 x Hx). split; [by right|done].
    + intros x [->|Hx]%elem_of_cons; [by left|by apply H3].
  - destruct (IH ({[str e]} ∪ keys)) as (H1 & H2 & H3 & H4). split_and!.
    + cbn. apply NoDup_cons. split; [|done]. intros (y & Ey & Hy)%list_elem_of_fmap.
      destruct (H2 y Hy) as [_ Hn]. apply Hn. rewrite <-Ey. set_solver.
    + intros x [->|Hx]%elem_of_cons; [split; [by left|done]|].
      destruct (H2 x Hx). split; [by right|set_solver].
    + intros x [->|Hx]%elem_of_cons; [right; by left|].
      destruct (H3 x Hx) as [Hk|Hk]; [|right; by right].
      apply elem_of_union in Hk as [->%elem_of_singleton|]; [right; by left|by left].
    + by constructor.
Qed.

Lemma unique_loop_id keys l :
  NoDup (str <$> l) → (∀ x, x ∈ l → str x ∉ keys) → unique_loop str keys l = l.
Proof.
  revert keys. induction l as [|e l IH]; intros keys Hnd Hk; [done|]. cbn [unique_loop].
  apply NoDup_cons in Hnd as [Hni Hnd].
  rewrite decide_False by (apply Hk; by left). f_equal. apply IH; [done|].
  intros x Hx [Hin%elem_of_singleton|Hin]%elem_of_union.
  - apply Hni. rewrite <-Hin. by apply list_elem_of_fmap_2.
  - by apply (Hk x); [right|].
Qed.

End unique.

(** [uniqueIPs] keeps the order, drops nothing but repetitions (by text),
    leaves no repetition, and is idempotent. *)
Theorem uniqueIPs_spec (l : list IP) :
  sublist (uniqueIPs l) l ∧ NoDup (IPString <$> uniqueIPs l) ∧
  (∀ x, x ∈ l → IPString x ∈ IPString <$> uniqueIPs l) ∧
  uniqueIPs (uniqueIPs l) = uniqueIPs l.
Proof.
  destruct (unique_loop_spec IPString ∅ l) as (H1 & H2 & H3 & H4). split_and!; [done|done| |].
  - intros x Hx. by destruct (H3 x Hx) as [?%elem_of_empty|].
  - apply unique_loop_id; [done|]. set_solver.
Qed.

(** ** What the C helper is told *)

(** The sizes [net.IP] values have in the program; nil has none. *)
Definition wf_ip (ip : IP) : Prop := length ip = 0%nat ∨ length ip = 4%nat ∨ length ip = 16%nat.

(** The four bytes of an address as a C int. *)
Definition net_word (ip : IP) : Z :=
  i32 (le_get (if (length ip =? 16)%nat then drop 12 ip else ip)).

Lemma wf_ip_nil : wf_ip [].
Proof. by left. Qed.

Lemma wf_ip_bcast : wf_ip IPv4bcast.
Proof. by right; right. Qed.

Lemma wf_ParseIP s : wf_ip (ParseIP s).
Proof. unfold wf_ip. destruct (length_ParseIP s) as [->|]; auto. Qed.

#[local] Hint Resolve wf_ip_nil wf_ip_bcast wf_ParseIP : vinitd.

Lemma nw_order_wf ip : wf_ip ip → ∃ z, nw_order ip = Ret z ∧ i32 z = net_word ip.
Proof.
  intros Hip. destruct ip as [|b ip]; [by exists 0|].
  unfold nw_order, ip2networkInt, net_word, slice.
  destruct Hip as [H|[H|H]]; [done|rewrite H; cbn [Nat.eqb Nat.ltb Nat.leb]..].
  - eexists. split; [done|]. by rewrite drop_0, take_ge by lia.
  - eexists. split; [done|]. by rewrite take_ge by (rewrite length_drop; lia).
Qed.

Lemma le_put_mod n z z' : z mod 256 ^ Z.of_nat n = z' mod 256 ^ Z.of_nat n → le_put n z = le_put n z'.
Proof.
  intros H. rewrite <-(le_put_get (le_put n z) n), <-(le_put_get (le_put n z') n) by apply length_le_put.
  by rewrite !le_get_put, H.
Qed.

(** The C int has the bytes of the address, in the order of the address. *)
Lemma net_word_bytes p :
  length p = 4%nat → le_put 4 (net_word p) = p ∧ le_put 4 (net_word (v4InV6Prefix ++ p)) = p.
Proof.
  intros Hp. assert (le_put 4 (i32 (le_get p)) = p) as H.
  { rewrite <-(le_put_get p 4) at 2 by done. apply le_put_mod. unfold swrap.
    change (256 ^ Z.of_nat 4) with (2 ^ 32). rewrite Zminus_mod_idemp_l. f_equal. lia. }
  unfold net_word. rewrite length_app, Hp. cbn [length v4InV6Prefix app replicate Nat.add Nat.eqb].
  split; [done|]. exact H.
Qed.

Section route_theorems.
Context `{K : kernel} `{NL : netlink_lib}.

(** A route call, and what becomes of its error. *)
Lemma run_route dst mask gw dev flags w :
  wf_ip dst → wf_ip mask → wf_ip gw →
  ∃ err : option error,
    addNetworkRoute4 dst mask gw dev flags w =
      (match err with None => Ret tt | Some _ => Fail (Errorf ("could not set route for " +:+ dev)) end,
       record (SRoute (net_word dst) (net_word mask) (net_word gw) dev (i32 flags)) err w) ∧
    ((∀ n c, k_fail n c = None) → err = None).
Proof.
  intros Hd Hm Hg.
  destruct (nw_order_wf _ Hd) as (zd & Ed & <-), (nw_order_wf _ Hm) as (zm & Em & <-),
    (nw_order_wf _ Hg) as (zg & Eg & <-).
  unfold addNetworkRoute4. rewrite Ed, Em, Eg.
  do 3 (rewrite (run_ret _ _ _ _ w) by reflexivity).
  unfold mtry, plain, sys, sys_with, mbind, M_bind.
  destruct (k_fail _ _) as [[n e]|] eqn:Ek.
  - exists (Some (Errno e)). split; [done|]. intros H. by rewrite H in Ek.
  - by exists None.
Qed.

(** ** The configured routes *)

Definition link_call (r : Route) (nw : IPNet) (gw : IP) : syscall :=
  SRoute (net_word gw) (net_word (if Contains_ip nw gw then net_Mask nw else IPv4bcast)) 0
    (rt_Interface r) (Z.lor RTF_UP RTF_HOST).

Definition route_call (r : Route) (dst : IP) (nw : IPNet) (gw : IP) : syscall :=
  SRoute (net_word dst) (net_word (net_Mask nw)) (net_word gw) (rt_Interface r)
    (Z.lor (Z.lor RTF_UP RTF_STATIC) RTF_GATEWAY).

(** A route whose destination and gateway can be read. *)
Definition usable (r : Route) (dst : IP) (nw : IPNet) : Prop :=
  ParseCIDR (Destination r) = Some (dst, nw) ∧ ParseIP (rt_Gateway r) ≠ [].

(** What the kernel is asked for, route by route: an unreadable route is
    skipped; a route goes in only after the direct link to its gateway. *)
Inductive route_log : list Route → list event → Prop :=
| log_nil : route_log [] []
| log_skip r rs evs :
    (∀ dst nw, ¬ usable r dst nw) → route_log rs evs → route_log (r :: rs) evs
| log_no_link r dst nw rs e evs :
    usable r dst nw → route_log rs evs →
    route_log (r :: rs) (mkEvent (link_call r nw (ParseIP (rt_Gateway r))) (Some e) :: evs)
| log_route r dst nw rs err evs :
    usable r dst nw → route_log rs evs →
    route_log (r :: rs)
      (mkEvent (link_call r nw (ParseIP (rt_Gateway r))) None ::
       mkEvent (route_call r dst nw (ParseIP (rt_Gateway r))) err :: evs).

Lemma run_config_route r w :
  ∃ evs, config_route r w = (Ret tt, set_trace (trace w ++ evs) w) ∧
    ∀ rs evs', route_log rs evs' → route_log (r :: rs) (evs ++ evs').
Proof.
  assert (∀ x, set_trace (trace w ++ []) w = x → x = w) as Hw.
  { intros x <-. rewrite app_nil_r. by destruct w. }
  unfold config_route. destruct (ParseCIDR (Destination r)) as [[dst nw]|] eqn:Ec.
  2:{ exists []. rewrite <-(Hw _ eq_refl) at 1. split; [done|]. intros rs evs' H. apply log_skip; [|done].
      by intros dst nw [? _]; simplify_eq. }
  destruct (ParseCIDR_length _ _ _ Ec) as [Hd Hm].
  assert (wf_ip dst) as Wd by (right; by right).
  assert (wf_ip (net_Mask nw)) as Wm by (unfold wf_ip; lia).
  pose proof (wf_ParseIP (rt_Gateway r)) as Wg.
  destruct (ParseIP (rt_Gateway r)) as [|b gw] eqn:Eg.
  { exists []. rewrite <-(Hw _ eq_refl) at 1. split; [done|]. intros rs evs' H. apply log_skip; [|done].
    by intros dst' nw' [_ Hg]. }
  assert (usable r dst nw) as Hu by (split; [done|by rewrite Eg]).
  rewrite <-Eg in *. set (g := ParseIP (rt_Gateway r)) in *.
  set (m := if Contains_ip nw g then net_Mask nw else IPv4bcast).
  assert (wf_ip m) as Wm' by (subst m; destruct (Contains_ip nw g); auto with vinitd).
  destruct (run_route g m [] (rt_Interface r) (Z.lor RTF_UP RTF_HOST) w) as (e1 & E1 & _); [auto with vinitd..|].
  replace (if Contains_ip nw g then addNetworkRoute4 g (net_Mask nw) [] (rt_Interface r) (Z.lor RTF_UP RTF_HOST)
           else addNetworkRoute4 g IPv4bcast [] (rt_Interface r) (Z.lor RTF_UP RTF_HOST))
    with (addNetworkRoute4 g m [] (rt_Interface r) (Z.lor RTF_UP RTF_HOST))
    by (subst m; by destruct (Contains_ip nw g)).
  unfold mbind, M_bind, mtry at 1. rewrite E1. destruct e1 as [e1|].
  - eexists. split; [done|]. intros rs evs' H. by apply (log_no_link r dst nw).
  - unfold ignore, mbind, M_bind, mtry.
    destruct (run_route dst (net_Mask nw) g (rt_Interface r) (Z.lor (Z.lor RTF_UP RTF_STATIC) RTF_GATEWAY)
      (record (SRoute (net_word g) (net_word m) (net_word []) (rt_Interface r) (i32 (Z.lor RTF_UP RTF_HOST))) None w))
      as (e2 & E2 & _); [done..|]. rewrite E2.
    exists [mkEvent (link_call r nw g) None; mkEvent (route_call r dst nw g) e2]. split.
    + destruct e2; unfold record, set_trace; cbn; by rewrite <-app_assoc.
    + intros rs evs' H. by apply (log_route r dst nw).
Qed.

Lemma run_configRoutes routes w :
  ∃ evs, configRoutes routes w = (Ret tt, set_trace (trace w ++ evs) w) ∧ route_log routes evs.
Proof.
  revert w. induction routes as [|r routes IH]; intros w.
  { exists []. rewrite app_nil_r. split; [by destruct w|constructor]. }
  destruct (run_config_route r w) as (e1 & E1 & H1). unfold configRoutes. cbn [mforeach].
  rewrite (run_ret _ _ _ _ _ E1). destruct (IH (set_trace (trace w ++ e1) w)) as (e2 & E2 & H2).
  exists (e1 ++ e2). split; [|by apply H1]. unfold configRoutes in E2. rewrite E2. cbn.
  by rewrite <-app_assoc.
Qed.

(** C31: [configRoutes] always returns.  Whatever the configuration holds and
    whatever the kernel refuses, its calls are those of [route_log]: for every
    readable route, in order, first a host route to the gateway and, only if
    that succeeded, the route itself; an unreadable route is skipped.  The words
    handed to the kernel have exactly the bytes of the IPv4 addresses. *)
Theorem configRoutes_log routes w :
  (∃ evs, configRoutes routes w = (Ret tt, set_trace (trace w ++ evs) w) ∧ route_log routes evs) ∧
  (∀ p, length p = 4%nat → le_put 4 (net_word p) = p ∧ le_put 4 (net_word (v4InV6Prefix ++ p)) = p).
Proof. split; [apply run_configRoutes|exact net_word_bytes]. Qed.

(** ** Safety *)

Lemma tame_route dst mask gw dev flags :
  wf_ip dst → wf_ip mask → wf_ip gw → tame (λ _, True) (addNetworkRoute4 dst mask gw dev flags).
Proof.
  intros Hd Hm Hg w. destruct (run_route dst mask gw dev flags w) as (err & E & _); [done..|].
  rewrite E. eexists (match err with None => inl tt | Some _ => inr _ end), _, _.
  split; [by destruct err|]. split_and!; [done|by constructor|done].
Qed.

Lemma safe_route_or_panic I `{!stable I} (m : OS unit) :
  tame (λ _, True) m → safe I (r ← mtry m; match r with inl _ => mret tt | inr _ => SystemPanic end).
Proof.
  intros H. apply safe_bind; [eapply safe_tame; [done|by eapply tame_try]|].
  intros [_|_]; [apply safe_ret|by apply safe_shutdown].
Qed.

(** [configInterface] does not panic when the card is in the table. *)
Lemma safe_configInterface I `{!stable I} key ip mask router :
  wf_ip mask → wf_ip router → (∀ w, I w → is_Some (ifcs (vinitd w) !! key)) →
  (∀ w, I w → I (set_vinitd (set_ifcs (alter (set_addr (Some (mkIPNet ip mask)) router) key (ifcs (vinitd w)))
                               (vinitd w)) w)) →
  safe I (configInterface key ip mask router).
Proof.
  intros Hm Hr Hkey Hset w Hw. unfold configInterface. rewrite run_vmodify, run_vget.
  set (w0 := set_vinitd _ w). specialize (Hset w Hw). fold w0 in Hset. destruct (Hkey w Hw) as [i Hi].
  set (i' := set_addr (Some (mkIPNet ip mask)) router i).
  replace (ifcs (vinitd w0) !! key) with (Some i') by (cbn; by rewrite lookup_alter_eq, Hi).
  revert Hset. generalize w0. clear w0. intros w0 Hw0. revert w0 Hw0.
  match goal with |- ∀ w0, I w0 → (∀ why, (?m w0).1 ≠ _) ∧ _ => change (safe I m) end.
  apply safe_bind; [|intros _; apply safe_bind; [|intros _]].
  - apply safe_ignore. eapply safe_tame; [done|]. unfold addAddrToInterface. cbn [i' set_addr if_addr].
    apply (tame_bind (λ _, True)); [by apply tame_plain|]. intros _.
    destruct (ParseAddr _); [by apply tame_plain|apply tame_fail].
  - destruct (IPEqual mask IPv4bcast); [|apply safe_ret].
    apply safe_route_or_panic; [done|]. apply tame_route; auto with vinitd.
  - destruct router as [|b router]; [apply safe_ret|].
    apply safe_route_or_panic; [done|]. unfold setDefaultGateway.
    apply tame_bind; [by apply tame_try, tame_route; auto with vinitd|].
    intros [_|_]; [apply tame_ret|apply tame_fail].
Qed.

(** ** The address of a card *)

(** What [configInterface] asks the kernel for when nothing fails. *)
Definition config_calls (name : string) (ip mask router : IP) : list syscall :=
  let text := IPNetString (mkIPNet ip mask) in
  SNetlink "get" name [] :: (if ParseAddr text then [SAddrAdd name text] else [])
  ++ (if IPEqual mask IPv4bcast
      then [SRoute (net_word router) (net_word IPv4bcast) 0 name (Z.lor RTF_UP RTF_HOST)] else [])
  ++ match router with [] => [] | _ => [SRoute 0 0 (net_word router) name (Z.lor RTF_UP RTF_GATEWAY)] end.

(** The world after calls that all succeeded. *)
Definition after (cs : list syscall) (w : world) : world :=
  set_trace (trace w ++ ((λ c, mkEvent c None) <$> cs)) w.

Lemma after_nil w : after [] w = w.
Proof. unfold after. cbn. rewrite app_nil_r. by destruct w. Qed.

Lemma after_app cs cs' w : after cs' (after cs w) = after (cs ++ cs') w.
Proof. unfold after. cbn. by rewrite fmap_app, app_assoc. Qed.

Definition with_addr (key : string) (ip mask router : IP) (w : world) : world :=
  set_vinitd (set_ifcs (alter (set_addr (Some (mkIPNet ip mask)) router) key (ifcs (vinitd w))) (vinitd w)) w.

Section healthy_route.
Context (Hok : ∀ n c, k_fail n c = None).

Lemma ok_route dst mask gw dev flags w :
  wf_ip dst → wf_ip mask → wf_ip gw →
  addNetworkRoute4 dst mask gw dev flags w =
    (Ret tt, after [SRoute (net_word dst) (net_word mask) (net_word gw) dev (i32 flags)] w).
Proof.
  intros Hd Hm Hg. destruct (run_route dst mask gw dev flags w) as (err & E & He); [done..|].
  rewrite (He Hok) in E. exact E.
Qed.

Lemma ok_addAddr i n w :
  if_addr i = Some n →
  ∃ o, addAddrToInterface i w =
    (o, after (SNetlink "get" (if_name i) [] ::
          (if ParseAddr (IPNetString n) then [SAddrAdd (if_name i) (IPNetString n)] else [])) w) ∧
    (o = Ret tt ∨ ∃ e, o = Fail e).
Proof.
  intros Ha. unfold addAddrToInterface. rewrite (run_ret _ _ _ _ _ (ok_plain Hok _ _)), Ha.
  destruct (ParseAddr _).
  - exists (Ret tt). rewrite (ok_plain Hok). split; [|by left].
    unfold record, after, set_trace. cbn. by rewrite <-app_assoc.
  - eexists. split; [done|right; by eexists].
Qed.

Lemma ok_configInterface key i ip mask router w :
  ifcs (vinitd w) !! key = Some i → wf_ip router → wf_ip mask →
  configInterface key ip mask router w =
    (Ret tt, after (config_calls (if_name i) ip mask router) (with_addr key ip mask router w)).
Proof.
  intros Hi Hr Hm. unfold configInterface. rewrite run_vmodify, run_vget.
  fold (with_addr key ip mask router w). set (w0 := with_addr key ip mask router w).
  set (i' := set_addr (Some (mkIPNet ip mask)) router i).
  replace (ifcs (vinitd w0) !! key) with (Some i') by (cbn; by rewrite lookup_alter_eq, Hi).
  destruct (ok_addAddr i' (mkIPNet ip mask) w0 eq_refl) as (o & E & Ho).
  change (if_name i') with (if_name i) in *. set (cs := _ :: _) in E.
  rewrite (run_ret _ _ _ tt (after cs w0)).
  2:{ unfold ignore, mtry, mbind, M_bind. rewrite E. by destruct Ho as [->|[e ->]]. }
  unfold config_calls. rewrite app_comm_cons. fold cs. set (dflt := match router with [] => [] | _ => _ end).
  assert (∀ w1, match router with
    | [] => mret tt
    | _ :: _ => r ← mtry (setDefaultGateway (if_name i) router);
                match r with inl _ => mret tt | inr _ => SystemPanic end
    end w1 = (Ret tt, after dflt w1)) as Hd.
  { intros w1. subst dflt. destruct router as [|b router]; [by rewrite after_nil|].
    unfold setDefaultGateway, mtry, mbind, M_bind. rewrite ok_route; [done|auto with vinitd..]. }
  destruct (IPEqual mask IPv4bcast).
  - rewrite (run_ret _ _ _ tt (after [SRoute (net_word router) (net_word IPv4bcast) 0 (if_name i)
      (Z.lor RTF_UP RTF_HOST)] (after cs w0))).
    + by rewrite Hd, !after_app, ?app_assoc.
    + unfold mtry, mbind, M_bind. by rewrite ok_route by auto with vinitd.
  - rewrite (run_ret _ _ _ tt (after cs w0)) by done. by rewrite Hd, after_app.
Qed.
End healthy_route.
End route_theorems.

(** The netlink library reads an address with [net.ParseCIDR]. *)
Definition cidr_lib : netlink_lib :=
  {| ParseAddr s := match ParseCIDR s with Some _ => true | None => false end |}.
