(* ===== verification/Dhcp.v ===== *)
(** * The DHCP client of a card ([src/pkg/vorteil/network.go])

    The DHCP library is outside: what a request gets answered, and whether a
    request can be built from an offer, are parameters.  Of an offer the record
    keeps what the sources ask the library for. *)

From S2P Require Import Prelude Bytes GoStrings GoPath GoNet Types BlockDev Os Process Route.
Local Open Scope Z_scope.

Definition dhcpAttempts : nat := 10.
Definition attemptLoops : nat := 10.
Definition dhcpDefaultRenew : Z := 360.

(** [opt_*] are the results of [GetIP] and of [Options.Get]; a missing option
    is nil. *)
Record Offer := mkOffer {
  YourIPAddr : IP;
  opt_router : IP;
  opt_mask : IP;
  opt_server : IP;
  opt_azure : list byte;
  NTPServers : list IP;
  DomainSearch : option (list string);
  HostName : string;
  opt_renew : option (list byte);
  offer_DNS : list IP
}.

(** What a round trip of the discovery comes to: an offer, no answer, or a panic
    of the library: [NewDiscoveryForInterface] returns a nil packet with an error
    that the source drops, and the client is handed that packet. *)
Inductive reply :=
  | Offered (o : Offer)
  | Unanswered
  | Crashed (why : panic).

(** By number of the call: the reply a discovery gets, whether a request is
    acknowledged. *)
Class dhcp_lib := {
  dhcp_reply : nat → reply;
  dhcp_ack : nat → bool;
  NewRequestFromOffer : Offer → bool
}.

Definition timeout : error := Errorf "timed out waiting for a reply".

Section dhcp.
Context `{K : kernel} `{NL : netlink_lib} `{DL : dhcp_lib}.

Definition MakeSocket (kind name : string) : OS Z :=
  sys (SSocket kind name) (λ w, inl (k_fd (length (trace w)), w)).

Definition closeFds (sfd rfd : Z) : OS unit :=
  ignore (plain (SCloseFd sfd));;
  if sfd =? rfd then mret tt else ignore (plain (SCloseFd rfd)).

(** The deferred calls of a function, the last one first. *)
Definition run_defers (l : list (Z * Z)) : OS unit := mforeach (λ '(sfd, rfd), closeFds sfd rfd) l.

(** The inner loop of [dhcpDiscover]; [err] is the error so far. *)
Fixpoint discover_attempts (n : nat) (name : string) (sfd rfd : Z) (cid : list byte) (err : error)
    : OS (Offer + error) :=
  match n with
  | O => mret (inr err)
  | S n =>
      r ← mtry (sys (SDhcp "discover" name sfd rfd cid) (λ w,
            match dhcp_reply (length (trace w)) with
            | Offered o => inl (inl o, w)
            | Unanswered => inr timeout
            | Crashed why => inl (inr why, w)
            end));
      match r with
      | inl (inl offer) => mret (inl offer)
      | inl (inr why) => mpanic why
      | inr err => discover_attempts n name sfd rfd cid err
      end
  end.

(** The outer loop; every round defers a [closeFds] and, when it got no offer,
    closes the sockets itself too. *)
Fixpoint discover_loop (i : nat) (name : string) (cid : list byte) (defers : list (Z * Z)) (err : error)
    : OS Offer :=
  match i with
  | O => run_defers defers;; mfail err
  | S i =>
      s ← mtry (MakeSocket "broadcast" name);
      match s with
      | inr e => run_defers defers;; mfail e
      | inl sfd =>
          s ← mtry (MakeSocket "listen" name);
          match s with
          | inr e => run_defers defers;; mfail e
          | inl rfd =>
              let defers := (sfd, rfd) :: defers in
              r ← discover_attempts dhcpAttempts name sfd rfd cid err;
              match r with
              | inl offer => run_defers defers;; mret offer
              | inr err => closeFds sfd rfd;; discover_loop i name cid defers err
              end
          end
      end
  end.

Definition dhcpDiscover (i : Interface) (clientID : list byte) : OS Offer :=
  discover_loop attemptLoops (ni_Name i) clientID [] timeout.

Definition renewDHCP (name : string) (cid : list byte) (offer : Offer) : OS unit :=
  rfd ← MakeSocket "listen" name;
  sfd ← MakeSocket "broadcast" name;
  r ← mtry (if NewRequestFromOffer offer
            then sys (SDhcp "request" name sfd rfd cid) (λ w,
                   if dhcp_ack (length (trace w)) then inl (tt, w) else inr timeout)
            else mfail (Errorf "cannot build the request"));
  closeFds sfd rfd;;
  match r with inl _ => mret tt | inr e => mfail e end.

(** The goroutine that acknowledges the offer (without a pause between the
    attempts) and renews it for ever. *)
Fixpoint ack_loop (fuel : nat) (name : string) (cid : list byte) (offer : Offer) : OS unit :=
  match fuel with
  | O => waiting
  | S fuel =>
      r ← mtry (renewDHCP name cid offer);
      match r with
      | inl _ => mret tt
      | inr _ => ack_loop fuel name cid offer
      end
  end.

Fixpoint renew_loop (fuel : nat) (renew : Z) (name : string) (cid : list byte) (offer : Offer) : OS unit :=
  match fuel with
  | O => waiting
  | S fuel =>
      quiet (SSleep (i64 (renew * 10 ^ 9) / 10 ^ 6));;
      ignore (renewDHCP name cid offer);;
      renew_loop fuel renew name cid offer
  end.

(** [net.ResolveUDPAddr("udp4", host:port)]: an address is taken as it is, any
    other text is a name to look up. *)
Definition LookupIP (host : string) : OS (list IP) :=
  sys (SLookup host) (λ w, match k_lookup host with Some l => inl (l, w) | None => inr (Errorf "no such host") end).

Definition ResolveUDPAddr (host : string) : OS IP :=
  ips ← (match ParseIP host with [] => LookupIP host | ip => mret [ip] end);
  match List.filter (λ ip, length (To4 ip) =? 4)%nat ips with
  | ip :: _ => mret ip
  | [] => mfail (Errorf "no suitable address found")
  end.

Definition client_id (i : Interface) : list byte := x01 :: HardwareAddr i.

(** [binary.BigEndian.Uint32] *)
Definition be_uint32 (b : list byte) : outcome Z :=
  if (length b <? 4)%nat then Panic IndexOutOfRange else Ret (le_get (reverse (take 4 b))).

(** What the card of the table entry [key] gets; the result is what the
    renewing goroutine is started with. *)
Definition fetchDHCP (key : string) (i : ifc) : OS (Offer * Z) :=
  let cid := client_id (netIfc i) in
  offer ← dhcpDiscover (netIfc i) cid;
  vmodify (set_cloud (match opt_azure offer with [] => cpNone | _ => cpAzure end));;
  configInterface key (YourIPAddr offer) (opt_mask offer) (opt_router offer);;
  vmodify (λ v, set_vcfg (add_NTP (IPString <$> NTPServers offer) (vcfg v)) v);;
  vmodify (λ v, set_searchDomains (searchDomains v ++ default [] (DomainSearch offer)) v);;
  (if String.eqb (HostName offer) "" then mret tt else vmodify (set_hostname (HostName offer)));;
  renew ← lift (match opt_renew offer with None => Ret dhcpDefaultRenew | Some rv => be_uint32 rv end);
  ResolveUDPAddr (IPString (opt_server offer));;
  ResolveUDPAddr (IPString (YourIPAddr offer));;
  vmodify (λ v, set_dns (dns v ++ offer_DNS offer) v);;
  mret (offer, renew).
End dhcp.

(** ** Giving up *)

Definition close_pair (f : Z * Z) : list syscall :=
  SCloseFd f.1 :: if f.1 =? f.2 then [] else [SCloseFd f.2].

(** The calls of a round that got no offer. *)
Definition discover_round (name : string) (cid : list byte) (f : Z * Z) : list syscall :=
  [SSocket "broadcast" name; SSocket "listen" name]
  ++ replicate dhcpAttempts (SDhcp "discover" name f.1 f.2 cid) ++ close_pair f.

Section no_offers.
Context `{K : kernel} `{NL : netlink_lib} `{DL : dhcp_lib} (Hok : ∀ n c, k_fail n c = None).

Lemma ok_closeFds sfd rfd w : ∃ w', closeFds sfd rfd w = (Ret tt, w') ∧ calls w' = calls w ++ close_pair (sfd, rfd).
Proof.
  unfold closeFds, close_pair. rewrite (run_ret _ _ _ _ _ (ok_ignore _ _ _ _ (ok_plain Hok _ _))).
  cbn [fst snd]. destruct (sfd =? rfd).
  - eexists. split; [done|]. apply calls_record.
  - eexists. split; [by eapply ok_ignore, (ok_plain Hok)|]. rewrite !calls_record. by rewrite <-app_assoc.
Qed.

Lemma ok_run_defers l w : ∃ w', run_defers l w = (Ret tt, w') ∧ calls w' = calls w ++ concat (close_pair <$> l).
Proof.
  revert w. induction l as [|[s r] l IH]; intros w; [exists w; by rewrite app_nil_r|].
  unfold run_defers in *. cbn [mforeach]. destruct (ok_closeFds s r w) as (w1 & E1 & C1).
  rewrite (run_ret _ _ _ _ _ E1). destruct (IH w1) as (w2 & E2 & C2). exists w2. split; [done|].
  rewrite C2, C1. cbn. by rewrite <-app_assoc.
Qed.

Lemma no_offer_attempts n name sfd rfd cid err w :
  (∀ n, dhcp_reply n = Unanswered) →
  ∃ e w', discover_attempts n name sfd rfd cid err w = (Ret (inr e), w') ∧
    calls w' = calls w ++ replicate n (SDhcp "discover" name sfd rfd cid).
Proof.
  intros Hno. revert err w. induction n as [|n IH]; intros err w.
  { exists err, w. by rewrite app_nil_r. }
  cbn [discover_attempts]. set (w1 := record (SDhcp "discover" name sfd rfd cid) (Some timeout) w).
  rewrite (run_ret _ _ w (inr timeout) w1).
  - destruct (IH timeout w1) as (e & w' & E & C). exists e, w'. split; [done|].
    rewrite C. unfold w1. rewrite calls_record, <-app_assoc. done.
  - unfold mtry, sys. by rewrite (ok_sys_err Hok _ _ _ _ timeout) by (by rewrite Hno).
Qed.

Lemma ok_MakeSocket kind name w :
  MakeSocket kind name w = (Ret (k_fd (length (trace w))), record (SSocket kind name) None w).
Proof. by apply (ok_sys_with Hok). Qed.

Lemma no_offer_loop i name cid defers err w :
  (∀ n, dhcp_reply n = Unanswered) →
  ∃ fds e w', discover_loop i name cid defers err w = (Fail e, w') ∧ length fds = i ∧
    calls w' = calls w ++ concat (discover_round name cid <$> fds)
               ++ concat (close_pair <$> reverse fds ++ defers).
Proof.
  intros Hno. revert defers err w. induction i as [|i IH]; intros defers err w.
  { cbn [discover_loop]. destruct (ok_run_defers defers w) as (w1 & E1 & C1).
    exists [], err, w1. split_and!; [by rewrite (run_ret _ _ _ _ _ E1)|done|exact C1]. }
  cbn [discover_loop]. rewrite (run_ret _ _ _ _ _ (ok_try _ _ _ _ (ok_MakeSocket _ _ w))).
  set (s := k_fd (length (trace w))). set (w1 := record (SSocket "broadcast" name) None w).
  rewrite (run_ret _ _ _ _ _ (ok_try _ _ _ _ (ok_MakeSocket _ _ w1))).
  set (r := k_fd (length (trace w1))). set (w2 := record (SSocket "listen" name) None w1).
  destruct (no_offer_attempts dhcpAttempts name s r cid err w2 Hno) as (e3 & w3 & E3 & C3).
  rewrite (run_ret _ _ _ _ _ E3). destruct (ok_closeFds s r w3) as (w4 & E4 & C4).
  rewrite (run_ret _ _ _ _ _ E4). destruct (IH ((s, r) :: defers) e3 w4) as (fds & e & w' & E & Hl & C).
  exists ((s, r) :: fds), e, w'. split_and!; [done|cbn; by rewrite Hl|].
  rewrite C, C4, C3. unfold w2, w1. rewrite !calls_record.
  cbn [fmap list_fmap concat]. rewrite reverse_cons, <-!app_assoc. by cbn.
Qed.

(** C32: When nobody answers, [dhcpDiscover] gives up with an error after exactly
    ten rounds of ten requests; and every descriptor of a round is closed twice,
    once at the end of the round and once more by the deferred call when the
    function returns, when its number may already belong to another goroutine. *)
Theorem dhcpDiscover_gives_up i cid w :
  (∀ n, dhcp_reply n = Unanswered) →
  ∃ fds e w', dhcpDiscover i cid w = (Fail e, w') ∧ length fds = 10%nat ∧
    calls w' = calls w ++ concat (discover_round (ni_Name i) cid <$> fds)
               ++ concat (close_pair <$> reverse fds).
Proof.
  intros Hno. destruct (no_offer_loop attemptLoops (ni_Name i) cid [] timeout w Hno) as (fds & e & w' & E & Hl & C).
  exists fds, e, w'. split_and!; [done|done|]. by rewrite C, app_nil_r.
Qed.
End no_offers.

(** ** The offer *)

(** An offer as the library decodes it; the renewal time is an option of the
    server's choosing. *)
Definition offer_ok (o : Offer) : Prop := wf_ip (opt_mask o) ∧ wf_ip (opt_router o).
Definition renew_ok (o : Offer) : bool :=
  match opt_renew o with None => true | Some rv => (4 <=? length rv)%nat end.

(** The card is in the table. *)
Definition carded (key : string) (w : world) : Prop := is_Some (ifcs (vinitd w) !! key).

#[export] Instance carded_stable key : stable (carded key).
Proof. intros w w' Hv _ _. unfold carded. by rewrite Hv. Qed.

Section offers.
Context `{K : kernel} `{NL : netlink_lib} `{DL : dhcp_lib}.

Lemma tame_closeFds sfd rfd : tame (λ _, True) (closeFds sfd rfd).
Proof.
  apply tame_bind; [by apply tame_ignore, tame_plain|]. intros _.
  destruct (sfd =? rfd); [apply tame_ret|by apply tame_ignore, tame_plain].
Qed.

Lemma tame_run_defers l : tame (λ _, True) (run_defers l).
Proof. apply tame_foreach. intros [s r] _. apply tame_closeFds. Qed.

Lemma tame_MakeSocket kind name : tame (λ _, True) (MakeSocket kind name).
Proof. apply tame_sys_with; [done|done|]. by intros w a w' [= _ <-]. Qed.

(** No discovery makes the library panic. *)
Definition packets_built : Prop := ∀ k why, dhcp_reply k ≠ Crashed why.

Lemma tame_discover_attempts n name sfd rfd cid err :
  packets_built → tame (λ _, True) (discover_attempts n name sfd rfd cid err).
Proof.
  intros Hb. revert err. induction n as [|n IH]; intros err; cbn [discover_attempts]; [apply tame_ret|].
  set (c := SDhcp _ _ _ _ _).
  assert (∀ e w, ∃ o w' evs, discover_attempts n name sfd rfd cid e (record c (Some e) w)
      = (match o with inl a => Ret a | inr e => Fail e end, w') ∧
      trace w' = trace w ++ evs ∧ Forall (λ _, True) evs ∧ vars w' = vars w) as Hnext.
  { intros e w. destruct (IH e (record c (Some e) w)) as (o & w' & evs & E & T & _ & V).
    exists o, w', (mkEvent c (Some e) :: evs). split_and!; [done| |by apply Forall_true|done].
    rewrite T. cbn. by rewrite <-app_assoc. }
  intros w. unfold mtry, sys, sys_with, mbind, M_bind. fold c.
  destruct (k_fail _ _) as [[]|]; [apply Hnext|].
  destruct (dhcp_reply _) as [o| |why] eqn:E; [|apply Hnext|by apply Hb in E].
  exists (inl (inl o)), (record c None w), [mkEvent c None]. split_and!; [done|done|by apply Forall_true|done].
Qed.

Lemma tame_discover_loop i name cid defers err :
  packets_built → tame (λ _, True) (discover_loop i name cid defers err).
Proof.
  intros Hb. revert defers err. induction i as [|i IH]; intros defers err; cbn [discover_loop].
  { apply tame_bind; [apply tame_run_defers|intros _; apply tame_fail]. }
  assert (∀ A e, tame (A := A) (λ _, True) (run_defers defers;; mfail e)) as Hfail.
  { intros A e. apply tame_bind; [apply tame_run_defers|intros _; apply tame_fail]. }
  apply tame_bind; [apply tame_try, tame_MakeSocket|]. intros [s|e]; [|apply Hfail].
  apply tame_bind; [apply tame_try, tame_MakeSocket|]. intros [r|e]; [|apply Hfail].
  apply tame_bind; [by apply tame_discover_attempts|]. intros [o|e].
  - apply tame_bind; [apply tame_run_defers|intros _; apply tame_ret].
  - apply tame_bind; [apply tame_closeFds|intros _; apply IH].
Qed.

Lemma tame_ResolveUDPAddr host : tame (λ _, True) (ResolveUDPAddr host).
Proof.
  unfold ResolveUDPAddr. apply tame_bind.
  - destruct (ParseIP host); [|apply tame_ret]. apply tame_sys_with; [done|done|].
    intros w a w'. destruct (k_lookup host); [|done]. by intros [= _ <-].
  - intros ips. destruct (List.filter _ ips); [apply tame_fail|apply tame_ret].
Qed.

(** An offer is one the library gave. *)
Lemma attempts_offer n name sfd rfd cid err w o w' :
  discover_attempts n name sfd rfd cid err w = (Ret (inl o), w') → ∃ k, dhcp_reply k = Offered o.
Proof.
  revert err w. induction n as [|n IH]; intros err w; cbn [discover_attempts]; [done|].
  unfold mtry, sys, sys_with, mbind, M_bind.
  destruct (k_fail _ _) as [[]|]; [apply IH|].
  destruct (dhcp_reply (length (trace w))) as [o'| |why] eqn:E; [|apply IH|done]. intros [= -> _]. by eexists.
Qed.

Lemma bind_inv {A B} (m : OS A) (f : A → OS B) w b w' :
  (m ≫= f) w = (Ret b, w') → ∃ a w1, m w = (Ret a, w1) ∧ f a w1 = (Ret b, w').
Proof. unfold mbind, M_bind. destruct (m w) as [[a|e|p|] w1]; try done. by exists a, w1. Qed.

Lemma discover_offer i name cid defers err w o w' :
  discover_loop i name cid defers err w = (Ret o, w') → ∃ k, dhcp_reply k = Offered o.
Proof.
  revert defers err w. induction i as [|i IH]; intros defers err w; cbn [discover_loop].
  { by intros (a & w1 & _ & H)%bind_inv. }
  intros ([s|e] & w1 & _ & H)%bind_inv; [|by apply bind_inv in H as (? & ? & _ & ?)].
  apply bind_inv in H as ([r|e] & w2 & _ & H); [|by apply bind_inv in H as (? & ? & _ & ?)].
  apply bind_inv in H as ([o'|e] & w3 & E3 & H); apply bind_inv in H as (? & w4 & _ & H).
  - injection H as -> _. by eapply attempts_offer.
  - by apply IH in H.
Qed.

Lemma safe_fetchDHCP I `{!net_stable I} key i :
  (∀ w, I w → carded key w) →
  packets_built → (∀ k o, dhcp_reply k = Offered o → offer_ok o ∧ renew_ok o = true) →
  safe I (fetchDHCP key i).
Proof.
  intros Hkey Hb Hoff. unfold fetchDHCP. cbn zeta.
  apply safe_bind_val; [eapply safe_tame; [apply _|by apply tame_discover_loop]|].
  intros w0 offer w0' _ Ho. destruct (discover_offer _ _ _ _ _ _ _ _ Ho) as [k Hk].
  destruct (Hoff k offer Hk) as [[Hm Hr] Hn].
  apply safe_bind; [apply safe_vmodify; intros w Hw; by apply ns_cloud|]. intros _.
  apply safe_bind; [apply safe_configInterface; [apply _|done|done|done|]|intros _].
  { intros w Hw. by apply (ns_addr key (mkIPNet _ _)). }
  apply safe_bind; [apply safe_vmodify; intros w Hw; by apply ns_ntp|]. intros _.
  apply safe_bind; [apply safe_vmodify; intros w Hw; by apply ns_search|]. intros _.
  apply safe_bind; [|intros _].
  { destruct (String.eqb _ ""); [apply safe_ret|]. apply safe_vmodify. intros w Hw. by apply ns_hostname. }
  apply safe_bind.
  { apply safe_lift. unfold renew_ok in Hn. destruct (opt_renew offer) as [rv|]; [|done].
    unfold be_uint32. apply Nat.leb_le in Hn. by rewrite (proj2 (Nat.ltb_ge _ _)). }
  intros renew. do 2 (apply safe_bind; [eapply safe_tame; [apply _|apply tame_ResolveUDPAddr]|]; intros ?).
  apply safe_bind; [apply safe_vmodify; intros w Hw; by apply ns_dns|]. intros _. apply safe_ret.
Qed.

#[local] Instance carded_net_stable key : net_stable (carded key).
Proof.
  split; [apply _|done| |done..]. intros k a gw w [i Hi]. unfold carded. cbn.
  destruct (decide (k = key)) as [->|Hne]; [rewrite lookup_alter_eq, Hi|rewrite lookup_alter_ne by done]; by eexists.
Qed.

(** [fetchDHCP] never panics, whatever the kernel, the network and the
    resolver do, as long as the library does not panic and the renewal time of every offer is absent or has at
    least four bytes; on a healthy machine an offer with a shorter one makes it
    index out of range after the card is configured, and init dies: a DHCP
    server can crash the machine. *)
Theorem fetchDHCP_renewal key i w :
  packets_built → (∀ k o, dhcp_reply k = Offered o → offer_ok o) → carded key w →
  ((∀ k o, dhcp_reply k = Offered o → renew_ok o = true) → ∀ why, (fetchDHCP key i w).1 ≠ Panic why) ∧
  ((∀ n c, k_fail n c = None) → ∀ offer w1,
     dhcpDiscover (netIfc i) (client_id (netIfc i)) w = (Ret offer, w1) → renew_ok offer = false →
     (fetchDHCP key i w).1 = Panic IndexOutOfRange).
Proof.
  intros Hb Hoff Hkey. split.
  { intros Hren. apply (safe_fetchDHCP (carded key) key i); [done|done| |done]. intros k o Hk. split; eauto. }
  intros Hok offer w1 Hd Hr. unfold fetchDHCP. cbn zeta. rewrite (run_ret _ _ _ _ _ Hd), run_vmodify.
  set (w2 := set_vinitd _ w1).
  assert (carded key w2) as [x Hx].
  { destruct (tame_discover_loop attemptLoops (ni_Name (netIfc i)) (client_id (netIfc i)) [] timeout Hb w)
      as (o & w' & evs & E & _ & _ & V). unfold dhcpDiscover in Hd. rewrite E in Hd.
    destruct o as [a|]; [|done]. injection Hd as _ <-. injection V as _ _ _ _ _ _ _ V _. unfold carded, w2. cbn. by rewrite V. }
  destruct (discover_offer _ _ _ _ _ _ _ _ Hd) as [k Hk]. destruct (Hoff k offer Hk) as [Hm Hg].
  rewrite (run_ret _ _ _ _ _ (ok_configInterface Hok key x _ _ _ w2 Hx Hg Hm)), !run_vmodify.
  assert (match opt_renew offer with None => Ret dhcpDefaultRenew | Some rv => be_uint32 rv end
          = Panic IndexOutOfRange) as Hp.
  { unfold renew_ok in Hr. destruct (opt_renew offer) as [rv|]; [|done]. unfold be_uint32.
    apply Nat.leb_gt in Hr. by rewrite (proj2 (Nat.ltb_lt _ _)). }
  rewrite Hp. destruct (String.eqb _ ""); done.
Qed.
End offers.

(** ** Witnesses *)

Definition silent_dhcp : dhcp_lib :=
  {| dhcp_reply := λ _, Unanswered; dhcp_ack := λ _, false; NewRequestFromOffer := λ _, true |}.

Lemma dhcpDiscover_gives_up_witness :
  ∃ fds e w', @dhcpDiscover calm silent_dhcp (mkInterface "ens3" []) [x01] ex_world = (Fail e, w') ∧
    length fds = 10%nat ∧
    calls w' = calls ex_world ++ concat (discover_round "ens3" [x01] <$> fds) ++ concat (close_pair <$> reverse fds).
Proof. by apply (@dhcpDiscover_gives_up calm silent_dhcp (λ _ _, eq_refl) (mkInterface "ens3" []) [x01] ex_world). Defined.

(** An offer whose renewal time has one byte. *)
Definition ex_offer : Offer :=
  mkOffer [x0a; x00; x00; x05] [x0a; x00; x00; x01] [xff; xff; xff; x00] [x0a; x00; x00; x01]
    [] [] None "" (Some [x3c]) [].

Definition ex_dhcp : dhcp_lib :=
  {| dhcp_reply := λ _, Offered ex_offer; dhcp_ack := λ _, true; NewRequestFromOffer := λ _, true |}.

Definition ex_card : ifc := mkIfc "eth0" 0 (mkInterface "ens3" [x02; x00; x00; x00; x00; x01]) None [].

Definition ex_card_world : world := upd (set_ifcs {[ "eth0"%string := ex_card ]}) ex_world.

Lemma fetchDHCP_renewal_witness :
  (@fetchDHCP calm cidr_lib ex_dhcp "eth0" ex_card ex_card_world).1 = Panic IndexOutOfRange.
Proof.
  apply (proj2 (@fetchDHCP_renewal calm cidr_lib ex_dhcp "eth0" ex_card ex_card_world
    ltac:(done) ltac:(intros k o [= <-]; split; right; left; reflexivity) ltac:(by eexists))
    (λ _ _, eq_refl) ex_offer _ eq_refl eq_refl).
Defined.
