(* ===== verification/Network.v ===== *)
(** * Network cards ([src/pkg/vorteil/network.go])

    The numbering of the cards by [networkSetup], the goroutines that give them
    addresses, what is printed about them, and the queue settings. *)

From stdpp Require Import sorting.
From S2P Require Import Prelude Bytes GoStrings GoPath GoNet Types BlockDev Os Process Route Dhcp.
Local Open Scope Z_scope.

(** ** Queues *)

Record channels := mkChannels {
  ch_cmd : Z; maxRx : Z; maxTx : Z; maxOther : Z; maxCombined : Z;
  rxCount : Z; txCount : Z; otherCount : Z; combinedCount : Z
}.

Record ringparam := mkRing {
  rg_cmd : Z; rxMaxPending : Z; rxMiniMaxPending : Z; rxJumboMaxPending : Z; txMaxPending : Z;
  rxPending : Z; rxMiniPending : Z; rxJumboPending : Z; txPending : Z
}.

Definition ethtoolGCHANNELS : Z := 0x3c.
Definition ethtoolSCHANNELS : Z := 0x3d.
Definition ethtoolGRINGPARAM : Z := 0x10.
Definition ethtoolSRINGPARAM : Z := 0x11.

(** Go passes the struct by value: the callee changes its own copy, which it
    returns here beside the result so that the caller can ignore it. *)
Definition checkRingParams (r : ringparam) : bool * ringparam :=
  let rx := rxPending r <? rxMaxPending r in
  let tx := txPending r <? txMaxPending r in
  (rx || tx,
   mkRing (rg_cmd r) (rxMaxPending r) (rxMiniMaxPending r) (rxJumboMaxPending r) (txMaxPending r)
     (if rx then rxMaxPending r else rxPending r) (rxMiniPending r) (rxJumboPending r)
     (if tx then txMaxPending r else txPending r)).

Definition checkChannels (cpus : Z) (c : channels) : bool * channels :=
  let co := combinedCount c <? min cpus (maxCombined c) in
  let tx := txCount c <? min cpus (maxTx c) in
  let rx := rxCount c <? min cpus (maxRx c) in
  (co || tx || rx,
   mkChannels (ch_cmd c) (maxRx c) (maxTx c) (maxOther c) (maxCombined c)
     (if rx then maxRx c else rxCount c) (if tx then maxTx c else txCount c) (otherCount c)
     (if co then maxCombined c else combinedCount c)).

Definition ring_data (r : ringparam) : list Z :=
  [rxMaxPending r; rxMiniMaxPending r; rxJumboMaxPending r; txMaxPending r;
   rxPending r; rxMiniPending r; rxJumboPending r; txPending r].

Definition chan_data (c : channels) : list Z :=
  [maxRx c; maxTx c; maxOther c; maxCombined c; rxCount c; txCount c; otherCount c; combinedCount c].

Section queues.
Context `{K : kernel} (cpus : Z) (get_channels : string → option channels)
  (get_ring : string → option ringparam).

(** An ethtool GET fills the struct; here the card answers or does not. *)
Definition ethtool_get {A} (name : string) (cmd : Z) (answer : option A) : OS A :=
  sys (SIoctl name cmd []) (λ w, match answer with Some a => inl (a, w) | None => inr (Errno 95) end).

Definition config_channels (name : string) : OS unit :=
  r ← mtry (ethtool_get name ethtoolGCHANNELS (get_channels name));
  match r with
  | inr _ => mret tt
  | inl channels =>
      let '(needsUpdate, _) := checkChannels cpus channels in
      if (needsUpdate : bool) then ignore (plain (SIoctl name ethtoolSCHANNELS (chan_data channels)))
      else mret tt
  end.

(** [false]: the loop returns. *)
Definition config_ring (name : string) : OS bool :=
  r ← mtry (ethtool_get name ethtoolGRINGPARAM (get_ring name));
  match r with
  | inr _ => mret false
  | inl ringparam =>
      let '(needsUpdate, _) := checkRingParams ringparam in
      (if (needsUpdate : bool) then ignore (plain (SIoctl name ethtoolSRINGPARAM (ring_data ringparam)))
       else mret tt);;
      mret true
  end.

(** The cards in the order the map is ranged over. *)
Fixpoint configQueues (ifcs : list string) : OS unit :=
  match ifcs with
  | [] => mret tt
  | name :: ifcs =>
      config_channels name;;
      go_on ← config_ring name;
      if (go_on : bool) then configQueues ifcs else mret tt
  end.
End queues.

(** ** Numbering the cards *)

Inductive networkType := devtypeUnknown | devtypeNet | devtypeLocalhost.

#[global] Instance networkType_eq_dec : EqDecision networkType.
Proof. solve_decision. Defined.

Definition device_type (text : option string) : networkType :=
  match text with
  | None => devtypeUnknown
  | Some dat =>
      let s := TrimSpace dat in
      if String.eqb s "1" then devtypeNet
      else if String.eqb s "772" then devtypeLocalhost
      else devtypeUnknown
  end.

Definition networkDeviceType `{K : kernel} (name : string) : OS networkType :=
  r ← mtry (ReadFile ("/sys/class/net/" +:+ name +:+ "/type"));
  mret (device_type (match r with inl dat => Some dat | inr _ => None end)).

Definition eth (ic : nat) : string := "eth" +:+ itoa (Z.of_nat ic).

Definition tsoAttrs : list Z := [0x19; 0x22; 0x1f; 0x24; 0x15; 0x17].

Section setup.
Context `{K : kernel} `{NL : netlink_lib} `{DL : dhcp_lib}.

Definition setTSOValues (name : string) (val : Z) : OS unit :=
  mforeach (λ attr, ignore (plain (SIoctl name attr [val]))) tsoAttrs.

Definition startLink (name : string) : OS unit :=
  plain (SNetlink "get" name []);; plain (SNetlink "up" name []).

(** tcpdump is started on the goroutine that later receives the errors: when it
    cannot be started the error is sent on a channel nobody receives from yet,
    and control does not come back ([false]). *)
Definition handleNetworkTCPDump (name : string) (ifcg : NetworkInterface) : OS bool :=
  if TCPDUMP ifcg then
    r ← mtry (plain (SRun ["/vorteil/tcpdump"; "--device=" +:+ name]%string));
    mret (match r with inl _ => true | inr _ => false end)
  else mret true.

(** The goroutine [handleNetworkLink] starts: a static address, or DHCP. *)
Definition handleNetworkLink (key : string) (ifcg : NetworkInterface) : OS unit :=
  if negb (String.eqb (cfg_IP ifcg) "dhcp") && negb (String.eqb (cfg_IP ifcg) "") then
    match ParseIP (cfg_IP ifcg), ParseIP (cfg_Mask ifcg), ParseIP (cfg_Gateway ifcg) with
    | [], _, _ | _, [], _ | _, _, [] => mfail (Errorf "ip, mask or gateway is not valid")
    | ip, mask, gw => configInterface key ip mask gw
    end
  else
    v ← vget;
    match ifcs v !! key with
    | None => mpanic NilDeref
    | Some i => fetchDHCP key i;; mret tt
    end.

(** A card with a configuration, up to the start of its goroutine. *)
Definition configure_card (i key : string) (ifcg : NetworkInterface) : OS bool :=
  ignore (plain (SNetlink "mtu" i [MTU ifcg]));;
  setTSOValues i (if DisableTCPSegmentationOffloading ifcg then 0 else 1);;
  handleNetworkTCPDump key ifcg.

Definition configure_lo (i : string) : OS unit :=
  ignore (plain (SAddrAdd i (IPNetString (mkIPNet (IPv4 127 0 0 1) [xff; x00; x00; x00]))));;
  ignore (plain (SNetlink "mtu" i [65536])).

(** How the loop over the devices ends: all were seen, a link could not be
    started, or tcpdump could not. *)
Inductive loop_end := LoopDone | LoopErr (e : error) | LoopStuck.

(** The loop over the devices with the counter; the result are the goroutines
    it has started and how it ended.  [networks] is the configuration, [None] for
    nil. *)
Fixpoint network_loop (networks : option (list NetworkInterface)) (ifaces : list Interface) (ic : nat)
    : OS (list (string * NetworkInterface) * loop_end) :=
  match ifaces with
  | [] => mret ([], LoopDone)
  | i :: ifaces =>
      deviceType ← networkDeviceType (ni_Name i);
      match deviceType, networks with
      | devtypeUnknown, _ | _, None => network_loop networks ifaces ic
      | _, Some nets =>
          link ← mtry (startLink (ni_Name i));
          match link, deviceType with
          | inr e, _ => mret ([], LoopErr e)
          | inl _, devtypeLocalhost =>
              configure_lo (ni_Name i);;
              network_loop networks ifaces ic
          | inl _, _ =>
              vmodify (λ v, set_ifcs (<[eth ic := mkIfc (eth ic) ic i None []]> (ifcs v)) v);;
              match nets !! ic with
              | None => network_loop networks ifaces ic
              | Some ifcg =>
                  go_on ← configure_card (ni_Name i) (eth ic) ifcg;
                  if (go_on : bool) then
                    '(tasks, e) ← network_loop networks ifaces (S ic);
                    mret ((eth ic, ifcg) :: tasks, e)
                  else mret ([], LoopStuck)
              end
          end
      end
  end.

(** ** Waiting for the cards *)

Context `{SC : schedule}.

(** The goroutines nobody waits for any more.  On the channel [errCh] a second
    error is sent after it was [closed], or is never received. *)
Definition stragglers (closed : bool) (tasks : list (string * NetworkInterface)) : OS unit :=
  if overtakes then
    mforeach (λ '(key, ifcg),
      r ← mtry (handleNetworkLink key ifcg);
      match r with
      | inr _ => if closed then mpanic SendOnClosed else mret tt
      | inl _ => mret tt
      end) tasks
  else mret tt.

(** The [select]: all goroutines are done, or one sent an error; then the channel
    is closed. *)
Fixpoint wait_cards (tasks : list (string * NetworkInterface)) : OS unit :=
  match tasks with
  | [] => mret tt
  | (key, ifcg) :: tasks =>
      r ← mtry (handleNetworkLink key ifcg);
      match r with
      | inl _ => wait_cards tasks
      | inr err => stragglers true tasks;; mfail err
      end
  end.
End setup.

(** The lines about the addresses, in the order of the names. *)
Definition print_ifc (i : ifc) : outcome (list string) :=
  match if_addr i with
  | Some a =>
      Ret [if_name i +:+ " ip: " +:+ IPString (net_IP a);
           if_name i +:+ " mask: " +:+ IPString (net_Mask a);
           if_name i +:+ " gateway: " +:+ IPString (if_gw i)]
  | None => Panic NilDeref
  end.

Fixpoint print_loop (ifcs : gmap string ifc) (keys : list string) : outcome (list string) :=
  match keys with
  | [] => Ret []
  | k :: keys =>
      match ifcs !! k with
      | Some i => here ← print_ifc i; rest ← print_loop ifcs keys; mret (here ++ rest)
      | None => Panic NilDeref
      end
  end.

Definition sortAndPrint (ifcs : gmap string ifc) : outcome (list string) :=
  lines ← print_loop ifcs (merge_sort string_le (map_to_list ifcs).*1);
  mret (if decide (size ifcs = 0%nat) then lines ++ ["ip: no network devices available"%string] else lines).

(** The goroutines of the cards run one after the other once the loop is done, in
    any order; the steps of the channels they share with the loop and the [select]
    are modelled as [network_group].  [configQueues], started last, is left to its
    own goroutine. *)
Definition networkSetup `{K : kernel} `{NL : netlink_lib} `{DL : dhcp_lib} `{SC : schedule} : OS unit :=
  ifaces ← sys (SNetlink "interfaces" "" []) (λ w, inl (k_interfaces, w));
  v ← vget;
  '(tasks, e) ← network_loop (Networks (vcfg v)) ifaces 0;
  match e with
  | LoopErr err => stragglers false (arrange tasks);; mfail err
  | LoopStuck => stragglers false (arrange tasks);; waiting
  | LoopDone =>
      wait_cards (arrange tasks);;
      v ← vget;
      lift (sortAndPrint (ifcs v));;
      configRoutes (Routing (vcfg v))
  end.

(** ** Queues *)

(** A SET request carries exactly the values the card reported. *)
Definition same_settings (get_channels : string → option channels)
    (get_ring : string → option ringparam) (e : event) : Prop :=
  match ev_call e with
  | SIoctl name cmd arg =>
      (cmd = ethtoolSCHANNELS → ∃ c, get_channels name = Some c ∧ arg = chan_data c) ∧
      (cmd = ethtoolSRINGPARAM → ∃ r, get_ring name = Some r ∧ arg = ring_data r)
  | _ => False
  end.

Section queue_theorems.
Context `{K : kernel} (cpus : Z) (get_channels : string → option channels)
  (get_ring : string → option ringparam).

Local Abbreviation P := (same_settings get_channels get_ring).

(** An ethtool GET returns what the card answers. *)
Lemma get_then {A B} name cmd (answer : option A) (f : A + error → OS B) :
  cmd ≠ ethtoolSCHANNELS → cmd ≠ ethtoolSRINGPARAM →
  (∀ e, tame P (f (inr e))) → (∀ a, answer = Some a → tame P (f (inl a))) →
  tame P (mtry (ethtool_get name cmd answer) ≫= f).
Proof.
  intros H1 H2 He Ha.
  assert (∀ o w, P (mkEvent (SIoctl name cmd []) o)) as HP by (intros; by split).
  intros w. unfold ethtool_get, sys, sys_with, mtry, mbind, M_bind.
  assert (∀ x o, tame P (f x) → ∃ (r : B + error) w' evs,
    f x (record (SIoctl name cmd []) o w) = (match r with inl a => Ret a | inr e => Fail e end, w') ∧
    trace w' = (trace w ++ evs)%list ∧ Forall P evs ∧ vars w' = vars w) as Hrec.
  { intros x o Hx. destruct (Hx (record (SIoctl name cmd []) o w)) as (r & w' & evs & E & T & F & V).
    exists r, w', (mkEvent (SIoctl name cmd []) o :: evs). split_and!; [done| |by constructor; [apply HP|]|exact V].
    rewrite T. cbn. by rewrite <-app_assoc. }
  destruct (k_fail _ _) as [[n e]|]; [by apply Hrec|].
  destruct answer as [a|]; [by apply Hrec, Ha|by apply Hrec].
Qed.

Lemma tame_set name cmd data :
  (cmd = ethtoolSCHANNELS → ∃ c, get_channels name = Some c ∧ data = chan_data c) →
  (cmd = ethtoolSRINGPARAM → ∃ r, get_ring name = Some r ∧ data = ring_data r) →
  tame P (ignore (plain (SIoctl name cmd data))).
Proof. intros H1 H2. apply tame_ignore, tame_plain. by split. Qed.

(** [configQueues] never changes a queue setting: the checks compute the new
    values in a copy of the struct, so that every update request the code sends
    repeats the values the card reported. *)
Theorem configQueues_changes_nothing ifcs :
  tame P (configQueues cpus get_channels get_ring ifcs).
Proof.
  induction ifcs as [|name ifcs IH]; [apply tame_ret|]. cbn [configQueues].
  apply tame_bind; [|intros _; apply tame_bind; [|by intros [|]; [|apply tame_ret]]].
  - apply get_then; [done|done|intros; apply tame_ret|]. intros c Hc.
    destruct (checkChannels cpus c) as [[] ?]; [|apply tame_ret].
    apply tame_set; [by eauto|done].
  - apply get_then; [done|done|intros; apply tame_ret|]. intros r Hr.
    destruct (checkRingParams r) as [[] ?]; (apply tame_bind; [|intros _; apply tame_ret]);
      [|apply tame_ret]. apply tame_set; [done|by eauto].
Qed.
End queue_theorems.

(** ** Static addresses *)

(** A configuration with the texts of the IPv4 address [a], of a mask of [k] ones
    and of the gateway [g], and without tcpdump. *)
Definition static_net (c : NetworkInterface) (a g : IP) (k : nat) : Prop :=
  TCPDUMP c = false ∧ length a = 4%nat ∧ length g = 4%nat ∧ (k ≤ 32)%nat ∧
  cfg_IP c = IPString a ∧ cfg_Mask c = IPString (CIDRMask k 4) ∧ cfg_Gateway c = IPString g.

Definition static_cfg (c : NetworkInterface) : Prop := ∃ a g k, static_net c a g k.

(** The address and the prefix length as text. *)
Definition cidr_text (a : IP) (k : nat) : string := IPString a +:+ "/" +:+ itoa (Z.of_nat k).

(** The library reads such a text. *)
Definition parses_cidr `{NL : netlink_lib} : Prop :=
  ∀ a k, length a = 4%nat → (k ≤ 32)%nat → ParseAddr (cidr_text a k) = true.

(** What the kernel should be asked for: the address, a host route to the gateway
    when the mask is full, and a default route through the gateway. *)
Definition card_calls (name : string) (a g : IP) (k : nat) : list syscall :=
  [SNetlink "get" name []; SAddrAdd name (cidr_text a k)] ++
  (if (k =? 32)%nat then [SRoute (net_word g) (-1) 0 name 5] else []) ++
  [SRoute 0 0 (net_word g) name 3].

Definition addr_of (c : NetworkInterface) (i : ifc) : ifc :=
  set_addr (Some (mkIPNet (ParseIP (cfg_IP c)) (ParseIP (cfg_Mask c)))) (ParseIP (cfg_Gateway c)) i.

Lemma IPString_embed p : length p = 4%nat → IPString (v4InV6Prefix ++ p) = IPString p.
Proof.
  intros Hp. unfold IPString. rewrite (To4_embed p Hp), length_app, Hp. cbn [Nat.eqb Nat.add length v4InV6Prefix app replicate].
  unfold To4. rewrite Hp. cbn [Nat.eqb]. by rewrite Hp.
Qed.

(** Reading the text of an address and printing it gives the text back. *)
Lemma String_Parse_String p : length p = 4%nat → IPString (ParseIP (IPString p)) = IPString p.
Proof. intros Hp. rewrite (ParseIP_String p Hp). by apply IPString_embed. Qed.

Lemma static_texts c :
  static_cfg c →
  IPString (ParseIP (cfg_IP c)) = cfg_IP c ∧ IPString (ParseIP (cfg_Mask c)) = cfg_Mask c ∧
  IPString (ParseIP (cfg_Gateway c)) = cfg_Gateway c.
Proof.
  intros (a & g & k & _ & Ha & Hg & Hk & -> & -> & ->).
  split_and!; apply String_Parse_String; [done|apply length_CIDRMask|done].
Qed.

Section static.
Context `{K : kernel} `{NL : netlink_lib} `{DL : dhcp_lib} (Hok : ∀ n c, k_fail n c = None).

(** The goroutine of a card with a static address. *)
Lemma ok_static key i c w :
  static_cfg c → ifcs (vinitd w) !! key = Some i →
  handleNetworkLink key c w =
    (Ret tt, after (config_calls (if_name i) (ParseIP (cfg_IP c)) (ParseIP (cfg_Mask c)) (ParseIP (cfg_Gateway c)))
      (with_addr key (ParseIP (cfg_IP c)) (ParseIP (cfg_Mask c)) (ParseIP (cfg_Gateway c)) w)).
Proof.
  intros (a & g & k & _ & Ha & Hg & Hk & Ea & Em & Eg) Hi. unfold handleNetworkLink.
  assert (∀ t, ParseIP t = [] → String.eqb (cfg_IP c) t = false) as Hne.
  { intros t Ht. apply String.eqb_neq. intros E. rewrite Ea in E.
    rewrite <-E, (ParseIP_String a Ha) in Ht. done. }
  rewrite (Hne "dhcp"%string), (Hne ""%string) by (vm_compute; done). cbn [negb andb].
  rewrite <-(ok_configInterface Hok key i) by (done || apply wf_ParseIP).
  rewrite Ea, Em, Eg, !ParseIP_String by (done || apply length_CIDRMask). done.
Qed.
End static.

(** The calls [configInterface] makes for such a configuration. *)
Lemma config_calls_static `{NL : netlink_lib} name c a g k :
  static_net c a g k → ParseAddr (cidr_text a k) = true →
  config_calls name (ParseIP (cfg_IP c)) (ParseIP (cfg_Mask c)) (ParseIP (cfg_Gateway c)) = card_calls name a g k.
Proof.
  intros (_ & Ha & Hg & Hk & Ea & Em & Eg) Hp. unfold config_calls, card_calls. cbn zeta.
  rewrite Ea, Eg, Em, !ParseIP_String by (done || apply length_CIDRMask).
  assert (IPNetString (mkIPNet (v4InV6Prefix ++ a) (v4InV6Prefix ++ CIDRMask k 4)) = cidr_text a k) as ->.
  { unfold IPNetString, networkNumberAndMask. cbn [net_IP net_Mask]. rewrite To4_embed by done.
    rewrite Ha. cbn [Nat.eqb]. rewrite Ha.
    replace (length (v4InV6Prefix ++ CIDRMask k 4)) with 16%nat by (by rewrite length_app, length_CIDRMask).
    cbn [Nat.eqb negb orb].
    change (drop 12 (v4InV6Prefix ++ CIDRMask k 4)) with (CIDRMask k 4). by rewrite mask_ones_CIDRMask. }
  rewrite Hp. assert (IPEqual (v4InV6Prefix ++ CIDRMask k 4) IPv4bcast = (k =? 32)%nat) as ->.
  { do 33 (destruct k as [|k]; [vm_compute; done|]). lia. }
  assert (net_word (v4InV6Prefix ++ g) = net_word g) as ->.
  { unfold net_word. rewrite length_app, Hg. done. }
  by destruct (k =? 32)%nat.
Qed.

(** A card configured with the texts of an IPv4 address, a mask of [k] ones
    and a gateway gets exactly that configuration: the table entry holds it, and
    the kernel is asked for it. *)
Theorem static_address `{K : kernel} `{NL : netlink_lib} `{DL : dhcp_lib} key i c a g k w :
  (∀ n c, k_fail n c = None) → ParseAddr (cidr_text a k) = true → static_net c a g k →
  ifcs (vinitd w) !! key = Some i →
  ∃ w' x n, handleNetworkLink key c w = (Ret tt, w') ∧
    ifcs (vinitd w') !! key = Some x ∧ if_addr x = Some n ∧
    To4 (net_IP n) = a ∧ To4 (if_gw x) = g ∧ calls w' = calls w ++ card_calls (if_name i) a g k.
Proof.
  intros Hok Hp Hs Hi. eexists _, _, _.
  split; [apply (ok_static Hok key i c w); [by exists a, g, k|done]|].
  split; [cbn; by rewrite lookup_alter_eq, Hi|]. split; [done|]. cbn [net_IP if_gw set_addr].
  rewrite (config_calls_static _ c a g k) by done. destruct Hs as (_ & Ha & Hg & _ & Ea & _ & Eg).
  rewrite Ea, Eg, !ParseIP_String by done. split_and!; [by apply To4_embed|by apply To4_embed|].
  unfold calls, after. cbn [trace set_trace with_addr set_vinitd].
  rewrite fmap_app, <-list_fmap_compose. f_equal. apply list_fmap_id.
Qed.

(** ** The numbering of the cards *)

Definition type_path (i : string) : string := "/sys/class/net/" +:+ i +:+ "/type".

(** The kind the kernel reports of a device; one without a readable type is none. *)
Definition kind (m : gmap string node) (i : Interface) : networkType :=
  device_type (match m !! type_path (ni_Name i) with Some (File d) => Some d | _ => None end).

(** The path of the type is a plain one. *)
Definition plain_device (m : gmap string node) (i : Interface) : Prop :=
  abs_path (type_path (ni_Name i)) = type_path (ni_Name i) ∧ ∀ t, m !! type_path (ni_Name i) ≠ Some (Link t).

(** The network cards among the devices. *)
Definition cards (m : gmap string node) (ifaces : list Interface) : list Interface :=
  List.filter (λ i, bool_decide (kind m i = devtypeNet)) ifaces.

Definition lo_call (i : Interface) : syscall := SAddrAdd (ni_Name i) "127.0.0.1/8".

Definition new_card (ic : nat) (i : Interface) : ifc := mkIfc (eth ic) ic i None [].

(** What the loop computes for network cards: the table and the goroutines. *)
Fixpoint number (n : nat) (ifaces : list Interface) (ic : nat) (m : gmap string ifc) : gmap string ifc :=
  match ifaces with
  | [] => m
  | i :: ifaces => number n ifaces (if (n <=? ic)%nat then ic else S ic) (<[eth ic := new_card ic i]> m)
  end.

Fixpoint tasks_of (nets : list NetworkInterface) (ifaces : list Interface) (ic : nat)
    : list (string * NetworkInterface) :=
  match ifaces with
  | [] => []
  | _ :: ifaces =>
      match nets !! ic with
      | None => tasks_of nets ifaces ic
      | Some c => (eth ic, c) :: tasks_of nets ifaces (S ic)
      end
  end.

Definition give_addrs (tasks : list (string * NetworkInterface)) (m : gmap string ifc) : gmap string ifc :=
  fold_left (λ m '(k, c), alter (addr_of c) k m) tasks m.

Lemma eth_inj a b : eth a = eth b → a = b.
Proof. unfold eth, itoa. intros [= H]. apply (inj pretty.pretty) in H. lia. Qed.

Section loop.
Context `{K : kernel} `{NL : netlink_lib} `{DL : dhcp_lib} (Hok : ∀ n c, k_fail n c = None).

(** Neither the files nor the fields of [Vinitd] change; [cs] are the calls. *)
Definition only_calls (w w' : world) (cs : list syscall) : Prop :=
  fs w' = fs w ∧ vinitd w' = vinitd w ∧ calls w' = calls w ++ cs.

Lemma ok_foreach_plain {A} (f : A → syscall) l w :
  ∃ w', mforeach (λ x, ignore (plain (f x))) l w = (Ret tt, w') ∧ only_calls w w' (f <$> l).
Proof.
  revert w. induction l as [|x l IH]; intros w.
  { exists w. split; [done|]. split_and!; [done|done|]. by rewrite app_nil_r. }
  cbn [mforeach]. rewrite (run_ret _ _ _ _ _ (ok_ignore _ _ _ _ (ok_plain Hok _ _))).
  destruct (IH (record (f x) None w)) as (w' & E & F & V & C). exists w'. split; [exact E|].
  split_and!; [exact F|exact V|]. rewrite C, calls_record. by rewrite <-app_assoc.
Qed.

Lemma ok_kind i w :
  plain_device (fs w) i →
  ∃ w' cs, networkDeviceType (ni_Name i) w = (Ret (kind (fs w) i), w') ∧ only_calls w w' cs.
Proof.
  intros [Ha Hl]. unfold networkDeviceType, kind. fold (type_path (ni_Name i)). set (p := type_path (ni_Name i)) in *.
  assert (resolve (fs w) p = Some p) as Hr.
  { unfold resolve. rewrite Ha. unfold follow. destruct (fs w !! p) as [[| |t]|] eqn:E; try done. by destruct (Hl t). }
  assert (lookup_node (fs w) p = fs w !! p) as Hn by (unfold lookup_node; by rewrite Hr).
  unfold ReadFile, Open, ReadAll, mtry, sys, sys_with, mbind, M_bind. rewrite Hok, Hn.
  destruct (fs w !! p) as [n|] eqn:E; [|eexists _, _; split; [done|]; split_and!; [done|done|apply calls_record]].
  rewrite Hok. change (fs (record (SOpen p) None w)) with (fs w). rewrite Hn, ?E.
  destruct n as [d| |t]; [..|by destruct (Hl t)]; eexists _, _; (split; [done|]); split_and!;
    [done|done|by rewrite !calls_record, <-app_assoc|done|done|by rewrite !calls_record, <-app_assoc].
Qed.

Lemma ok_startLink name w :
  ∃ w' cs, mtry (startLink name) w = (Ret (inl tt), w') ∧ only_calls w w' cs.
Proof.
  eexists _, _. split; [apply ok_try; unfold startLink; by rewrite (run_ret _ _ _ _ _ (ok_plain Hok _ _)), (ok_plain Hok)|].
  split_and!; [done|done|]. by rewrite !calls_record, <-app_assoc.
Qed.

Lemma ok_configure_lo i w :
  ∃ w' cs, configure_lo (ni_Name i) w = (Ret tt, w') ∧ only_calls w w' cs ∧ lo_call i ∈ cs.
Proof.
  unfold configure_lo. rewrite (run_ret _ _ _ _ _ (ok_ignore _ _ _ _ (ok_plain Hok _ _))).
  eexists _, [lo_call i; _]. split_and!; [eapply ok_ignore, (ok_plain Hok)| |left].
  split_and!; [done|done|]. by rewrite !calls_record, <-app_assoc.
Qed.

Lemma ok_configure_card i key c w :
  TCPDUMP c = false → ∃ w' cs, configure_card i key c w = (Ret true, w') ∧ only_calls w w' cs.
Proof.
  intros Ht. unfold configure_card, handleNetworkTCPDump, setTSOValues. rewrite Ht.
  rewrite (run_ret _ _ _ _ _ (ok_ignore _ _ _ _ (ok_plain Hok _ _))).
  destruct (ok_foreach_plain (λ attr, SIoctl i attr [if DisableTCPSegmentationOffloading c then 0 else 1])
    tsoAttrs (record (SNetlink "mtu" i [MTU c]) None w)) as (w' & E & F & V & C).
  rewrite (run_ret _ _ _ _ _ E). eexists w', _. split; [done|]. split_and!; [exact F|exact V|].
  rewrite C, calls_record. by rewrite <-app_assoc.
Qed.

(** The loop as a whole; [loops] are the loopback devices it has seen. *)
Lemma ok_network_loop nets ifaces ic w :
  Forall (plain_device (fs w)) ifaces → Forall (λ c, TCPDUMP c = false) nets →
  ∃ w' cs, network_loop (Some nets) ifaces ic w = (Ret (tasks_of nets (cards (fs w) ifaces) ic, LoopDone), w') ∧
    fs w' = fs w ∧ calls w' = calls w ++ cs ∧
    vinitd w' = set_ifcs (number (length nets) (cards (fs w) ifaces) ic (ifcs (vinitd w))) (vinitd w) ∧
    ∀ i, i ∈ ifaces → kind (fs w) i = devtypeLocalhost → lo_call i ∈ cs.
Proof.
  intros Hc Hn. revert ic w Hc. induction ifaces as [|i ifaces IH]; intros ic w Hc.
  { exists w, []. split_and!; [done|done|by rewrite app_nil_r|by destruct (vinitd w)|by intros i ?%elem_of_nil]. }
  apply Forall_cons in Hc as [Hi Hc]. cbn [network_loop].
  destruct (ok_kind i w Hi) as (w1 & c1 & E1 & F1 & V1 & C1). rewrite (run_ret _ _ _ _ _ E1).
  unfold cards. cbn [List.filter]. fold (cards (fs w) ifaces).
  destruct (kind (fs w) i) eqn:Ek.
  - destruct (IH ic w1) as (w5 & c5 & E5 & F5 & C5 & V5 & L5); [by rewrite F1|]. rewrite F1 in E5, V5, L5. rewrite V1 in V5.
    exists w5, (c1 ++ c5). rewrite bool_decide_false by done. split_and!; [done|congruence|by rewrite C5, C1, app_assoc|done|].
    intros j [->|Hj]%elem_of_cons Hk; [congruence|]. apply elem_of_app. right. by apply L5.
  - destruct (ok_startLink (ni_Name i) w1) as (w2 & c2 & E2 & F2 & V2 & C2). rewrite (run_ret _ _ _ _ _ E2), run_vmodify.
    set (w3 := set_vinitd _ w2). rewrite bool_decide_true by done. cbn [number tasks_of].
    assert (fs w3 = fs w) as F3 by (subst w3; cbn; congruence).
    assert (vinitd w3 = set_ifcs (<[eth ic := new_card ic i]> (ifcs (vinitd w))) (vinitd w)) as V3
      by (subst w3; cbn; by rewrite V2, V1).
    assert (calls w3 = calls w ++ c1 ++ c2) as C3 by (change (calls w3) with (calls w2); by rewrite C2, C1, app_assoc).
    destruct (nets !! ic) as [c|] eqn:En.
    + assert ((length nets <=? ic)%nat = false) as -> by (apply lookup_lt_Some in En; by apply Nat.leb_gt).
      destruct (ok_configure_card (ni_Name i) (eth ic) c w3) as (w4 & c4 & E4 & F4 & V4 & C4).
      { exact (Forall_lookup_1 _ _ _ _ Hn En). }
      rewrite (run_ret _ _ _ _ _ E4). cbn iota.
      destruct (IH (S ic) w4) as (w5 & c5 & E5 & F5 & C5 & V5 & L5); [by rewrite F4, F3|].
      rewrite F4, F3 in E5, F5, V5, L5. rewrite (run_ret _ _ _ _ _ E5).
      exists w5, ((c1 ++ c2) ++ c4 ++ c5). split_and!; [done|done|by rewrite C5, C4, C3, !app_assoc|by rewrite V5, V4, V3|].
      intros j [->|Hj]%elem_of_cons Hk; [congruence|]. rewrite !elem_of_app. right; right. by apply L5.
    + assert ((length nets <=? ic)%nat = true) as -> by (apply lookup_ge_None in En; by apply Nat.leb_le).
      destruct (IH ic w3) as (w5 & c5 & E5 & F5 & C5 & V5 & L5); [by rewrite F3|]. rewrite F3 in E5, F5, V5, L5.
      exists w5, ((c1 ++ c2) ++ c5). split_and!; [done|done|by rewrite C5, C3, !app_assoc|by rewrite V5, V3|].
      intros j [->|Hj]%elem_of_cons Hk; [congruence|]. apply elem_of_app. right. by apply L5.
  - destruct (ok_startLink (ni_Name i) w1) as (w2 & c2 & E2 & F2 & V2 & C2). rewrite (run_ret _ _ _ _ _ E2).
    destruct (ok_configure_lo i w2) as (w3 & c3 & E3 & (F3 & V3 & C3) & Hlo). rewrite (run_ret _ _ _ _ _ E3).
    destruct (IH ic w3) as (w5 & c5 & E5 & F5 & C5 & V5 & L5); [by rewrite F3, F2, F1|].
    rewrite F3, F2, F1 in E5, F5, V5, L5. rewrite V3, V2, V1 in V5. rewrite bool_decide_false by done.
    exists w5, ((c1 ++ c2) ++ c3 ++ c5). split_and!; [done|done|by rewrite C5, C3, C2, C1, !app_assoc|done|].
    intros j [->|Hj]%elem_of_cons Hk; rewrite !elem_of_app; [right; by left|right; right; by apply L5].
Qed.

(** The calls for the card of a task. *)
Definition task_calls (t : string * NetworkInterface) : list syscall :=
  config_calls t.1 (ParseIP (cfg_IP t.2)) (ParseIP (cfg_Mask t.2)) (ParseIP (cfg_Gateway t.2)).

Lemma ok_tasks `{SC : schedule} tasks w :
  Forall (λ t, static_cfg t.2 ∧ ∃ i, ifcs (vinitd w) !! t.1 = Some i ∧ if_name i = t.1) tasks →
  ∃ w', wait_cards tasks w = (Ret tt, w') ∧ calls w' = calls w ++ concat (task_calls <$> tasks) ∧
    vinitd w' = set_ifcs (give_addrs tasks (ifcs (vinitd w))) (vinitd w).
Proof.
  revert w. induction tasks as [|[key c] tasks IH]; intros w H.
  { exists w. split_and!; [done|by rewrite app_nil_r|]. by destruct (vinitd w). }
  apply Forall_cons in H as [(Hs & i & Hi & Hname) H]. cbn [wait_cards].
  rewrite (run_ret _ _ _ _ _ (ok_try _ _ _ _ (ok_static Hok key i c w Hs Hi))). set (w1 := after _ _).
  assert (vinitd w1 = set_ifcs (alter (addr_of c) key (ifcs (vinitd w))) (vinitd w)) as V1 by done.
  assert (calls w1 = calls w ++ task_calls (key, c)) as C1.
  { unfold calls. subst w1. cbn [trace after set_trace with_addr set_vinitd].
    rewrite fmap_app, <-list_fmap_compose. f_equal. unfold task_calls. cbn [fst snd] in *. rewrite Hname. apply list_fmap_id. }
  destruct (IH w1) as (w2 & E2 & C2 & V2).
  - eapply Forall_impl; [exact H|]. intros [k c'] [Hs' (x & Hx & Hn)]. split; [done|]. rewrite V1. cbn in *.
    destruct (decide (key = k)) as [->|Hne]; [rewrite lookup_alter_eq|by rewrite lookup_alter_ne; eauto].
    rewrite Hx. by eexists.
  - exists w2. split_and!; [done| |by rewrite V2, V1]. rewrite C2, C1. cbn [fmap list_fmap concat]. by rewrite app_assoc.
Qed.
End loop.

(** *** The table *)

(** With enough configured networks every card has an entry of its own. *)
Lemma number_lookup n ifaces ic m :
  (ic + length ifaces ≤ n)%nat →
  (∀ j i, ifaces !! j = Some i → number n ifaces ic m !! eth (ic + j) = Some (new_card (ic + j) i)) ∧
  (∀ k, (∀ j, (j < length ifaces)%nat → k ≠ eth (ic + j)) → number n ifaces ic m !! k = m !! k).
Proof.
  revert ic m. induction ifaces as [|x ifaces IH]; intros ic m Hl; cbn [number length] in *; [done|].
  destruct (Nat.leb_spec n ic); [lia|].
  destruct (IH (S ic) (<[eth ic := new_card ic x]> m)) as [H1 H2]; [lia|]. split.
  - intros [|j] i Hi; [|rewrite <-Nat.add_succ_comm; by apply H1]. injection Hi as ->. rewrite Nat.add_0_r, H2.
    + apply lookup_insert_eq.
    + intros j _ Hj%eth_inj. lia.
  - intros k Hk. rewrite H2.
    + apply lookup_insert_ne. intros <-. apply (Hk 0%nat); [lia|]. by rewrite Nat.add_0_r.
    + intros j Hj. rewrite Nat.add_succ_comm. apply Hk. lia.
Qed.

Lemma size_number n ifaces ic m :
  (ic + length ifaces ≤ n)%nat → (∀ j, (ic ≤ j)%nat → m !! eth j = None) →
  size (number n ifaces ic m) = (size m + length ifaces)%nat.
Proof.
  revert ic m. induction ifaces as [|x ifaces IH]; intros ic m Hl Hf; cbn [number length] in *; [lia|].
  destruct (Nat.leb_spec n ic); [lia|]. rewrite IH; [|lia|].
  - rewrite map_size_insert_None by (apply Hf; lia). lia.
  - intros j Hj. rewrite lookup_insert_ne; [apply Hf; lia|]. intros ->%eth_inj. lia.
Qed.

(** A card too many stays in the table without an address. *)
Lemma number_surplus n ifaces ic m :
  (ic ≤ n < ic + length ifaces)%nat → ∃ i, number n ifaces ic m !! eth n = Some (new_card n i).
Proof.
  assert (∀ ifaces m i, m !! eth n = Some (new_card n i) →
    ∃ i, number n ifaces n m !! eth n = Some (new_card n i)) as Hrest.
  { intros l. induction l as [|x l IH]; intros m' i Hi; cbn [number]; [by eauto|].
    destruct (Nat.leb_spec n n); [|lia]. eapply IH, lookup_insert_eq. }
  revert ic m. induction ifaces as [|i ifaces IH]; intros ic m Hl; cbn [number length] in *; [lia|].
  destruct (Nat.leb_spec n ic).
  - assert (ic = n) as -> by lia. eapply Hrest, lookup_insert_eq.
  - apply IH. lia.
Qed.

Lemma give_addrs_other tasks m k : k ∉ tasks.*1 → give_addrs tasks m !! k = m !! k.
Proof.
  revert m. induction tasks as [|[key c] tasks IH]; intros m Hk; [done|].
  cbn in *. apply not_elem_of_cons in Hk as [Hne Hk]. unfold give_addrs in IH. rewrite IH by done.
  by apply lookup_alter_ne.
Qed.

Lemma tasks_keys nets ifaces ic k :
  k ∈ (tasks_of nets ifaces ic).*1 → ∃ j, k = eth j ∧ (ic ≤ j < length nets)%nat.
Proof.
  revert ic. induction ifaces as [|i ifaces IH]; intros ic; cbn [tasks_of]; [by intros ?%elem_of_nil|].
  destruct (nets !! ic) as [c|] eqn:En; [|by apply IH].
  apply lookup_lt_Some in En. cbn. intros [->|Hk]%elem_of_cons; [by exists ic|].
  destruct (IH _ Hk) as (j & -> & ?). exists j. split; [done|lia].
Qed.

Lemma give_addrs_lookup nets ifaces ic m j c :
  (j < length ifaces)%nat → nets !! (ic + j)%nat = Some c →
  give_addrs (tasks_of nets ifaces ic) m !! eth (ic + j) = addr_of c <$> m !! eth (ic + j).
Proof.
  revert ic m j. induction ifaces as [|i ifaces IH]; intros ic m j Hj Hc; cbn [length tasks_of] in *; [lia|].
  assert (ic < length nets)%nat as Hlt by (apply lookup_lt_Some in Hc; lia).
  destruct (lookup_lt_is_Some_2 nets ic Hlt) as [c0 Hc0]. rewrite Hc0.
  change (give_addrs ((eth ic, c0) :: ?l) m) with (give_addrs l (alter (addr_of c0) (eth ic) m)).
  destruct j as [|j].
  - rewrite Nat.add_0_r in *. simplify_eq. rewrite give_addrs_other, lookup_alter_eq; [done|].
    intros (j & ?%eth_inj & ?)%tasks_keys. lia.
  - rewrite <-Nat.add_succ_comm in *. rewrite IH by (done || lia).
    rewrite lookup_alter_ne; [done|]. intros ?%eth_inj. lia.
Qed.

(** The order of the goroutines does not matter: each has its own card. *)
Lemma give_addrs_perm tasks tasks' m :
  tasks ≡ₚ tasks' → NoDup tasks.*1 → give_addrs tasks m = give_addrs tasks' m.
Proof.
  intros Hp. revert m. induction Hp as [|[k c] l1 l2 _ IH|[k1 c1] [k2 c2] l|l1 l2 l3 H12 IH1 _ IH2]; intros m Hnd.
  - done.
  - apply NoDup_cons in Hnd as [_ Hnd]. cbn. by apply IH.
  - cbn in Hnd |- *. apply NoDup_cons in Hnd as [Hne _]. rewrite alter_alter_ne; [done|]. intros ->. apply Hne. by left.
  - rewrite IH1 by done. apply IH2. by rewrite <-H12.
Qed.

Lemma tasks_NoDup nets ifaces ic : NoDup (tasks_of nets ifaces ic).*1.
Proof.
  revert ic. induction ifaces as [|i ifaces IH]; intros ic; cbn [tasks_of]; [constructor|].
  destruct (nets !! ic); [|done]. constructor; [|done]. intros (j & ?%eth_inj & ?)%tasks_keys. lia.
Qed.

(** Card [j] of the cards has the goroutine of network [j]. *)
Lemma tasks_lookup nets ifaces ic j c :
  (j < length ifaces)%nat → nets !! (ic + j)%nat = Some c → (eth (ic + j), c) ∈ tasks_of nets ifaces ic.
Proof.
  revert ic j. induction ifaces as [|i ifaces IH]; intros ic j Hj Hc; cbn [length tasks_of] in *; [lia|].
  assert (ic < length nets)%nat as Hlt by (apply lookup_lt_Some in Hc; lia).
  destruct (lookup_lt_is_Some_2 nets ic Hlt) as [c0 Hc0]. rewrite Hc0. destruct j as [|j].
  - rewrite Nat.add_0_r in *. simplify_eq. left.
  - right. rewrite <-Nat.add_succ_comm in *. apply IH; [lia|done].
Qed.

Lemma size_give_addrs tasks m : size (give_addrs tasks m) = size m.
Proof.
  revert m. induction tasks as [|[key c] tasks IH]; intros m; [done|]. cbn. unfold give_addrs in IH.
  rewrite IH, <-!size_dom. by rewrite dom_alter_L.
Qed.

(** *** What is printed *)

Lemma print_loop_nil m keys k i :
  (∀ j, j ∈ keys → is_Some (m !! j)) → k ∈ keys → m !! k = Some i → if_addr i = None →
  print_loop m keys = Panic NilDeref.
Proof.
  intros Hall Hk Hi Ha. induction keys as [|j keys IH]; [by apply elem_of_nil in Hk|]. cbn.
  destruct (Hall j) as [x Hx]; [by left|]. rewrite Hx. unfold print_ifc.
  destruct (decide (j = k)) as [->|Hne].
  - assert (x = i) as -> by congruence. by rewrite Ha.
  - destruct (if_addr x); [|done]. cbn. rewrite IH; [done| |].
    + intros j' Hj'. apply Hall. by right.
    + by apply elem_of_cons in Hk as [|].
Qed.

Lemma print_loop_ok m keys :
  (∀ j, j ∈ keys → ∃ i a, m !! j = Some i ∧ if_addr i = Some a) → ∃ lines, print_loop m keys = Ret lines.
Proof.
  induction keys as [|j keys IH]; intros H; [by exists []|]. cbn. unfold print_ifc.
  destruct (H j) as (i & a & -> & ->); [by left|].
  destruct IH as (lines & ->); [intros j' Hj'; apply H; by right|]. by eexists.
Qed.

Lemma elem_of_sorted_keys (m : gmap string ifc) k :
  k ∈ merge_sort string_le (map_to_list m).*1 ↔ is_Some (m !! k).
Proof.
  rewrite merge_sort_Permutation, list_elem_of_fmap. split.
  - intros ([k' i] & -> & Hin). apply elem_of_map_to_list in Hin. by eexists.
  - intros [i Hi]. exists (k, i). split; [done|]. by apply elem_of_map_to_list.
Qed.

Section final.
Context (devs : list Interface).

(** The table after the loop and the goroutines. *)
Definition final_table (nets : list NetworkInterface) : gmap string ifc :=
  give_addrs (tasks_of nets devs 0) (number (length nets) devs 0 ∅).

Lemma final_lookup nets j i c :
  (length devs ≤ length nets)%nat → devs !! j = Some i → nets !! j = Some c →
  final_table nets !! eth j = Some (addr_of c (new_card j i)).
Proof.
  intros Hle Hi Hc. destruct (number_lookup (length nets) devs 0 ∅ ltac:(lia)) as [H1 _].
  unfold final_table. change j with (0 + j)%nat.
  rewrite (give_addrs_lookup nets devs 0 _ j c) by (done || by eapply lookup_lt_Some).
  by rewrite (H1 _ _ Hi).
Qed.

Lemma final_entries nets k :
  (length devs ≤ length nets)%nat → is_Some (final_table nets !! k) →
  ∃ j i c, k = eth j ∧ devs !! j = Some i ∧ nets !! j = Some c.
Proof.
  intros Hle Hs. destruct (number_lookup (length nets) devs 0 ∅ ltac:(lia)) as [_ H2].
  destruct (decide (k ∈ eth <$> seq 0 (length devs))) as [Hk|Hk].
  - apply list_elem_of_fmap in Hk as (j & -> & Hj%elem_of_seq).
    destruct (lookup_lt_is_Some_2 devs j ltac:(lia)) as [i Hi].
    destruct (lookup_lt_is_Some_2 nets j ltac:(lia)) as [c Hc]. by exists j, i, c.
  - exfalso. unfold final_table in Hs.
    assert (∀ j, (j < length devs)%nat → k ≠ eth j) as Hj.
    { intros j Hj ->. apply Hk, list_elem_of_fmap. exists j. split; [done|]. apply elem_of_seq. lia. }
    assert (∀ tasks m, m !! k = None → give_addrs tasks m !! k = None) as Hg.
    { intros tasks. induction tasks as [|[key c] tasks IH]; intros m Hm; [done|]. cbn. apply IH.
      destruct (decide (key = k)) as [->|]; [by rewrite lookup_alter_eq, Hm|by rewrite lookup_alter_ne]. }
    rewrite Hg in Hs; [by destruct Hs|]. rewrite H2 by (intros; apply Hj; lia). apply lookup_empty.
Qed.

Lemma final_prints nets :
  (length devs ≤ length nets)%nat → ∃ lines, sortAndPrint (final_table nets) = Ret lines.
Proof.
  intros Hle. unfold sortAndPrint.
  destruct (print_loop_ok (final_table nets) (merge_sort string_le (map_to_list (final_table nets)).*1))
    as (lines & ->); [|by eexists].
  intros k Hk%elem_of_sorted_keys. destruct (final_entries nets k Hle Hk) as (j & i & c & -> & Hi & Hc).
  eexists _, _. split; [by apply final_lookup|done].
Qed.

Lemma final_surplus nets :
  (length nets < length devs)%nat → sortAndPrint (final_table nets) = Panic NilDeref.
Proof.
  intros Hlt. destruct (number_surplus (length nets) devs 0 ∅ ltac:(lia)) as [i Hi].
  assert (final_table nets !! eth (length nets) = Some (new_card (length nets) i)) as Hf.
  { unfold final_table. rewrite give_addrs_other; [done|]. intros (j & ?%eth_inj & ?)%tasks_keys. lia. }
  unfold sortAndPrint. erewrite print_loop_nil; [done|intros j; apply elem_of_sorted_keys| |exact Hf|done].
  apply elem_of_sorted_keys. by eexists.
Qed.

Lemma tasks_static nets ifaces ic (m : gmap string ifc) :
  Forall static_cfg nets → (∀ j, (ic ≤ j < length nets)%nat → (j < ic + length ifaces)%nat → is_Some (m !! eth j)) →
  Forall (λ t, static_cfg t.2 ∧ is_Some (m !! t.1)) (tasks_of nets ifaces ic).
Proof.
  intros Hn. revert ic. induction ifaces as [|i ifaces IH]; intros ic Hm; cbn [tasks_of length] in *; [constructor|].
  destruct (nets !! ic) as [c|] eqn:En.
  - constructor; [split; [exact (Forall_lookup_1 _ _ _ _ Hn En)|]|].
    + apply Hm; [|lia]. apply lookup_lt_Some in En. lia.
    + apply IH. intros j Hj Hj'. apply Hm; lia.
  - apply lookup_ge_None in En. apply IH. intros j Hj. lia.
Qed.

(** Every configured card the loop has numbered is in the table. *)
Lemma number_has n ifaces ic m j :
  (ic ≤ j < n)%nat → (j < ic + length ifaces)%nat → is_Some (number n ifaces ic m !! eth j).
Proof.
  assert (∀ ifaces ic m k, is_Some (m !! k) → is_Some (number n ifaces ic m !! k)) as Hkeep.
  { intros l. induction l as [|x l IH]; intros ic' m' k Hk; cbn [number]; [done|]. apply IH.
    destruct (decide (eth ic' = k)) as [<-|]; [rewrite lookup_insert_eq; by eexists|by rewrite lookup_insert_ne]. }
  revert ic m. induction ifaces as [|x ifaces IH]; intros ic m Hj Hl; cbn [number length] in *; [lia|].
  destruct (Nat.leb_spec n ic); [lia|]. destruct (decide (ic = j)) as [->|Hne].
  - apply Hkeep. rewrite lookup_insert_eq. by eexists.
  - apply IH; lia.
Qed.

(** The cards of the table keep the names they are filed under. *)
Lemma number_names n ifaces ic m :
  (∀ k i, m !! k = Some i → if_name i = k) → ∀ k i, number n ifaces ic m !! k = Some i → if_name i = k.
Proof.
  revert ic m. induction ifaces as [|x ifaces IH]; intros ic m Hm; cbn [number]; [done|]. apply IH.
  intros k i. rewrite lookup_insert_Some. intros [[<- <-]|[_ Hi]]; [done|by apply Hm].
Qed.

Lemma number_tasks nets :
  Forall static_cfg nets →
  Forall (λ t, static_cfg t.2 ∧ ∃ i, number (length nets) devs 0 ∅ !! t.1 = Some i ∧ if_name i = t.1)
    (tasks_of nets devs 0).
Proof.
  intros Hs. eapply Forall_impl; [apply (tasks_static nets devs 0 (number (length nets) devs 0 ∅) Hs)|].
  - intros j Hj Hj'. apply number_has; lia.
  - intros [k c] [Hc [i Hi]]. split; [done|]. exists i. split; [done|].
    eapply number_names, Hi. by intros k' i' ?%lookup_empty_Some.
Qed.
End final.

Section cards.
Context `{K : kernel} `{NL : netlink_lib} `{DL : dhcp_lib} `{SC : schedule}.

Lemma segment_concat {A B} (f : A → list B) l x :
  x ∈ l → ∃ before behind, concat (f <$> l) = before ++ f x ++ behind.
Proof.
  intros (l1 & l2 & ->)%list_elem_of_split. exists (concat (f <$> l1)), (concat (f <$> l2)).
  by rewrite fmap_app, concat_app.
Qed.

(** C19: On a machine where no call fails, whose configured networks are static,
    and whatever loopback and other devices it has beside its cards: if there are
    at most as many cards as configured networks, [networkSetup] returns whatever
    order the goroutines run in; the table has one entry for each card; card number
    [j] has the name ethj and exactly the address, the mask and the gateway of
    network [j], and the kernel was asked, one after the other, for that address, for
    a host route to the gateway if the mask is full, and for the default route; each
    loopback device was given 127.0.0.1/8.  If there are more cards,
    [networkSetup] panics with a nil pointer when it prints the addresses, and so
    init dies. *)
Theorem networkSetup_cards nets w :
  (∀ n c, k_fail n c = None) → parses_cidr → Forall (plain_device (fs w)) k_interfaces →
  Networks (vcfg (vinitd w)) = Some nets → Forall static_cfg nets → ifcs (vinitd w) = ∅ →
  let devs := cards (fs w) k_interfaces in
  if (length devs <=? length nets)%nat
  then ∃ w', networkSetup w = (Ret tt, w') ∧ size (ifcs (vinitd w')) = length devs ∧
    (∀ i, i ∈ k_interfaces → kind (fs w) i = devtypeLocalhost → lo_call i ∈ calls w') ∧
    ∀ j i c a g k, devs !! j = Some i → nets !! j = Some c → static_net c a g k →
      (∃ x n, ifcs (vinitd w') !! eth j = Some x ∧ if_name x = eth j ∧ netIfc x = i ∧ if_addr x = Some n ∧
        IPString (net_IP n) = cfg_IP c ∧ IPString (net_Mask n) = cfg_Mask c ∧
        IPString (if_gw x) = cfg_Gateway c) ∧
      ∃ before behind, calls w' = before ++ card_calls (eth j) a g k ++ behind
  else (networkSetup w).1 = Panic NilDeref.
Proof.
  intros Hok Hcidr Hc Hn Hs He devs. unfold networkSetup.
  set (w1 := record (SNetlink "interfaces" "" []) None w).
  rewrite (run_ret _ _ w k_interfaces w1), run_vget by (by apply (ok_sys_with Hok)). change (vinitd w1) with (vinitd w). rewrite Hn.
  destruct (ok_network_loop Hok nets k_interfaces 0 w1 Hc) as (w2 & c2 & E2 & F2 & C2 & V2 & L2).
  { eapply Forall_impl; [exact Hs|]. by intros c (? & ? & ? & ? & _). }
  change (fs w1) with (fs w) in *. fold devs in E2, V2.
  rewrite (run_ret _ _ _ _ _ E2). change (vinitd w1) with (vinitd w) in V2. rewrite He in V2.
  destruct (ok_tasks Hok (arrange (tasks_of nets devs 0)) w2) as (w3 & E3 & C3 & V3).
  { rewrite arrange_perm, V2. by apply number_tasks. }
  rewrite (run_ret _ _ _ _ _ E3), run_vget.
  assert (vinitd w3 = set_ifcs (final_table devs nets) (vinitd w)) as V.
  { rewrite V3, V2. unfold final_table. cbn [ifcs set_ifcs].
    rewrite (give_addrs_perm (arrange _) (tasks_of nets devs 0)); [done|apply arrange_perm|].
    rewrite arrange_perm. apply tasks_NoDup. }
  rewrite V. cbn [ifcs set_ifcs].
  destruct (Nat.leb_spec (length devs) (length nets)) as [Hle|Hlt]; [|by rewrite final_surplus].
  destruct (final_prints devs nets Hle) as [lines El]. rewrite El, (run_ret _ _ _ lines w3) by done.
  destruct (run_configRoutes (Routing (vcfg (set_ifcs (final_table devs nets) (vinitd w)))) w3)
    as (evs & E4 & _). eexists. split; [exact E4|]. cbn [vinitd set_trace]. rewrite V. cbn [ifcs set_ifcs].
  set (w4 := set_trace _ w3). assert (calls w4 = calls w3 ++ (ev_call <$> evs)) as C4 by (unfold calls; subst w4; cbn; apply fmap_app).
  split_and!.
  { unfold final_table. rewrite size_give_addrs, size_number; [by rewrite map_size_empty|lia|].
    intros; apply lookup_empty. }
  { intros i Hi Hk. rewrite C4, C3, C2, !elem_of_app. left; left; right. by apply L2. }
  intros j i c a g k Hi Hcj Hst. split.
  - eexists _, _. split; [by apply final_lookup|].
    cbn. destruct (static_texts c) as (T1 & T2 & T3); [exact (Forall_lookup_1 _ _ _ _ Hs Hcj)|].
    split_and!; done.
  - destruct (segment_concat task_calls (arrange (tasks_of nets devs 0)) (eth j, c)) as (b & e & Hseg).
    { rewrite arrange_perm. apply (tasks_lookup nets devs 0 j); [by eapply lookup_lt_Some|done]. }
    exists (calls w2 ++ b), (e ++ (ev_call <$> evs)). rewrite C4, C3, Hseg, <-!app_assoc.
    unfold task_calls. cbn [fst snd]. rewrite (config_calls_static _ c a g k); [done|done|].
    apply Hcidr; apply Hst.
Qed.
End cards.

(** ** Witnesses *)

Definition ex_static : NetworkInterface := mkNet "10.0.0.5" "255.255.255.0" "10.0.0.1" 1500 false true.

Lemma ex_static_net : static_net ex_static [x0a; x00; x00; x05] [x0a; x00; x00; x01] 24.
Proof. split_and!; try reflexivity; lia. Qed.

Lemma ex_static_ok : static_cfg ex_static.
Proof. eexists _, _, _. exact ex_static_net. Qed.

Lemma static_address_witness :
  ∃ w' x n, @handleNetworkLink calm cidr_lib silent_dhcp "eth0" ex_static ex_card_world = (Ret tt, w') ∧
    ifcs (vinitd w') !! "eth0"%string = Some x ∧ if_addr x = Some n ∧
    To4 (net_IP n) = [x0a; x00; x00; x05] ∧ To4 (if_gw x) = [x0a; x00; x00; x01] ∧
    calls w' = calls ex_card_world ++ card_calls "eth0" [x0a; x00; x00; x05] [x0a; x00; x00; x01] 24.
Proof.
  apply (@static_address calm cidr_lib silent_dhcp "eth0" ex_card ex_static
    [x0a; x00; x00; x05] [x0a; x00; x00; x01] 24 ex_card_world);
    [done|reflexivity|exact ex_static_net|reflexivity].
Defined.

(** A loopback device and two cards. *)
Definition two_cards : kernel := {|
  k_fail := λ _ _, None; k_pseudo := λ _, []; k_procs := λ _, []; k_pid := λ _, 0; k_bsize := 4096;
  k_imaxpct := 25; k_output := λ _, ""%string; k_http := λ _, None; k_uri_ok := λ _, true;
  k_lookpath := λ _, None; k_addrs := λ _, None; k_fd := λ _, 0; k_lookup := λ _, None;
  k_respond := λ _ _, None; k_hangs := λ _ _, false; k_epoll := λ _, (0, false);
  k_interfaces := [mkInterface "lo" []; mkInterface "ens3" []; mkInterface "ens4" []]%string
|}.

Definition ex_net_world (nets : list NetworkInterface) : world :=
  upd (λ v, set_vcfg (set_Networks (Some nets) (vcfg v)) v)
    (set_fs (<[type_path "lo" := File "772"]> (<[type_path "ens3" := File "1"]>
      (<[type_path "ens4" := File "1"]> (fs ex_world)))) ex_world).

(** The goroutines in the opposite order. *)
Definition backwards : schedule :=
  {| arrange := λ _ l, reverse l; arrange_perm := λ A l, reverse_Permutation l; overtakes := true |}.

Definition ex_static2 : NetworkInterface := mkNet "10.1.0.7" "255.255.0.0" "10.1.0.1" 1500 false false.

Lemma ex_static2_net : static_net ex_static2 [x0a; x01; x00; x07] [x0a; x01; x00; x01] 16.
Proof. split_and!; try reflexivity; lia. Qed.

(** [net.ParseCIDR] reads an address with a prefix length. *)
Lemma cidr_lib_parses : @parses_cidr cidr_lib.
Proof.
  intros a k Ha Hk. unfold ParseAddr, cidr_lib, ParseCIDR, cidr_text.
  assert (IPString a = dotted a) as -> by (unfold IPString, To4; rewrite Ha; cbn [Nat.eqb]; by rewrite Ha).
  assert (∀ b, Contains (itoa (byteZ b)) "/" = false) as Hfree by (intros []; vm_compute; done).
  destruct a as [|a [|b [|c [|d []]]]]; try done.
  change ("/" +:+ itoa (Z.of_nat k)) with (String (Ascii.ascii_of_nat 47) (itoa (Z.of_nat k))).
  change "/"%string with (String (Ascii.ascii_of_nat 47) ""). rewrite Cut_char.
  2:{ unfold dotted. cbn [fmap list_fmap Join]. rewrite !Contains_char_app, !Hfree. done. }
  unfold parseIPv4. rewrite octets_dotted.
  do 33 (destruct k as [|k]; [vm_compute; done|]). lia.
Qed.

Lemma networkSetup_cards_witness :
  ∃ w', @networkSetup two_cards cidr_lib silent_dhcp backwards (ex_net_world [ex_static; ex_static2]) = (Ret tt, w') ∧
    size (ifcs (vinitd w')) = 2%nat ∧ lo_call (mkInterface "lo" []) ∈ calls w' ∧
    ∃ before behind, calls w' = before ++ card_calls "eth1" [x0a; x01; x00; x07] [x0a; x01; x00; x01] 16 ++ behind.
Proof.
  destruct (@networkSetup_cards two_cards cidr_lib silent_dhcp backwards [ex_static; ex_static2]
    (ex_net_world [ex_static; ex_static2])) as (w' & E & Hs & Hl & Hj).
  - done.
  - exact cidr_lib_parses.
  - repeat constructor; intros t; vm_compute; done.
  - done.
  - constructor; [exact ex_static_ok|]. constructor; [|constructor]. eexists _, _, _. exact ex_static2_net.
  - done.
  - exists w'. split_and!; [exact E|exact Hs|apply Hl; [left|vm_compute; done]|].
    destruct (Hj 1%nat (mkInterface "ens4" []) ex_static2 _ _ _ eq_refl eq_refl ex_static2_net) as [_ H]. exact H.
Defined.

(** A card too many. *)
Example surplus_card :
  (@networkSetup two_cards cidr_lib silent_dhcp backwards (ex_net_world [ex_static])).1 = Panic NilDeref.
Proof. vm_compute. done. Qed.

(** Two cards with texts that are no addresses: the second error is sent on the
    closed channel. *)
Example two_bad_cards :
  (@networkSetup two_cards cidr_lib silent_dhcp backwards
    (ex_net_world [mkNet "10.0.0" "" "" 1500 false false; mkNet "x" "" "" 1500 false false])).1 = Panic SendOnClosed.
Proof. vm_compute. done. Qed.
