(* ===== verification/Conf.v ===== *)
(** * System configuration ([src/pkg/vorteil/conf.go], and of [vinitd.go]
    [hasCmdLineString] and [setupMountOptions])

    The hypervisor guess, the environment of the programs, the remount of the
    root file system and the sysctls. *)

From S2P Require Import Prelude GoStrings GoPath GoNet Types BlockDev Os Process Disk Route Network Launch LaunchTheorems Etc.
Local Open Scope string_scope.

Definition minFds : Z := 1024.
Definition defaultNrProc : Z := 10000.
Definition RLIMIT_NPROC : Z := 6.
Definition RLIMIT_NOFILE : Z := 7.

(** MS_RDONLY, MS_REMOUNT, MS_NOATIME and the lazytime bit. *)
Definition MS_RDONLY : Z := 1.
Definition MS_REMOUNT : Z := 32.
Definition MS_NOATIME : Z := 1024.
Definition MS_LAZYTIME : Z := Z.shiftl 1 25.

Section conf.
Context `{K : kernel}.

(** ** Hypervisor and cloud *)

Definition uuidHasEc2 : OS bool :=
  r ← mtry (ReadFile "/sys/hypervisor/uuid");
  mret (match r with inl uuid => HasPrefix uuid "ec2" | inr _ => false end).

(** [cards] and [hostname] are handed to the VMware tools. *)
Definition startVMTools (cards : nat) (hostname : string) : OS unit :=
  quiet (SRun ["vmtools_start"; itoa (Z.of_nat cards); hostname]).

(** The cloud is known to be Azure if DHCP announced it. *)
Definition hypervisorGuess (bios : string) : OS (hypervisor * cloud) :=
  v ← vget;
  if HasPrefix bios "SeaBIOS" then mret (hvKVM, cpNone)
  else if HasPrefix bios "innotek GmbH" then mret (hvVBox, cpNone)
  else if HasPrefix bios "Phoenix Technologies LTD" then
    startVMTools (size (ifcs v)) (hostname v);; mret (hvVMWare, cpNone)
  else if HasPrefix bios "Google" then mret (hvKVM, cpGCP)
  else if HasPrefix bios "Amazon" then mret (hvKVM, cpEC2)
  else
    x1 ← (if HasPrefix bios "Xen" then b ← uuidHasEc2; mret (negb b) else mret false);
    if (x1 : bool) then mret (hvXen, cpNone)
    else
      x2 ← (if HasPrefix bios "Xen" then uuidHasEc2 else mret false);
      if (x2 : bool) then mret (hvXen, cpEC2)
      else if HasPrefix bios "American Megatrends Inc." && negb (bool_decide (v_cloud v = cpAzure))
      then mret (hvHyperV, cpNone)
      else if HasPrefix bios "American Megatrends Inc." && bool_decide (v_cloud v = cpAzure)
      then mret (hvHyperV, cpAzure)
      else mret (hvUnknown, cpUnknown).

(** ** The environment of the programs *)

Definition envIP (idx : nat) : string := "IP" +:+ itoa (Z.of_nat idx).
Definition envExtIP (idx : nat) : string := "EXT_IP" +:+ itoa (Z.of_nat idx).

(** The loop over the cards. *)
Fixpoint basic_ips (ifcs : list ifc) (envs : gmap string string) : outcome (gmap string string) :=
  match ifcs with
  | [] => Ret envs
  | i :: ifcs =>
      match if_addr i with
      | None => Panic NilDeref
      | Some a =>
          let ip := IPString (net_IP a) in
          basic_ips ifcs (<[envExtIP (if_idx i) := ip]> (<[envIP (if_idx i) := ip]> envs))
      end
  end.

(** The map of the environment before that loop. *)
Definition basic_envs (v : Vinitd) : gmap string string :=
  <["EXT_HOSTNAME" := hostname v]> (<["HOSTNAME" := hostname v]>
    (<["ETH_COUNT" := itoa (Z.of_nat (size (ifcs v)))]>
      (<["CLOUD_PROVIDER" := cloudStrings (v_cloud v)]>
        (<["HYPERVISOR" := hypervisorStrings (hv_hypervisor (hypervisorInfo v))]> (v_envs v))))).

(** The cards have different numbers, so the order of the map does not matter. *)
Definition basicEnv : OS unit :=
  v ← vget;
  envs ← lift (basic_ips (map_to_list (ifcs v)).*2 (basic_envs v));
  vmodify (set_envs envs).

(** ** Kernel command line and root file system *)

Definition hasCmdLineString (ss : string) : OS bool :=
  r ← mtry (ReadFile "/proc/cmdline");
  match r with
  | inr _ => mret false
  | inl cmd => mret (existsb (λ o, String.eqb o ss) (Split (TrimSuffix cmd nl) " "))
  end.

(** The options for a file system type. *)
Definition root_opts (fstype : string) : option string :=
  if String.eqb fstype "ext2" then Some "barrier=0"
  else if String.eqb fstype "ext4" then Some "nodiscard,commit=30,inode_readahead_blks=64"
  else if String.eqb fstype "xfs" then Some "nodiscard,attr2,inode64,noquota"
  else None.

Definition root_flags (recordmode readOnly : bool) : Z :=
  let flags := if recordmode then MS_REMOUNT else Z.lor (Z.lor MS_REMOUNT MS_NOATIME) MS_LAZYTIME in
  if readOnly then Z.lor flags MS_RDONLY else flags.

(** [path] and [fstype] keep their values when a line has too few words. *)
Fixpoint mount_loop (part : string) (readOnly : bool) (lines : list string) (path fstype : string) : OS unit :=
  match lines with
  | [] => mfail (Errorf "can not find root filesystem")
  | line :: lines =>
      let f := Fields line in
      let path := default path (f !! 1%nat) in
      let fstype := default fstype (f !! 2%nat) in
      recordmode ← hasCmdLineString "recordmode";
      let flags := root_flags recordmode readOnly in
      if String.eqb path "/" then
        match root_opts fstype with
        | None => mfail (Errorf ("unknown filesystem format: " +:+ fstype))
        | Some opts => Mount part "/" fstype flags opts
        end
      else mount_loop part readOnly lines path fstype
  end.

(** The lines a [bufio.Scanner] gives: a final newline starts no line, and a
    carriage return before a newline is dropped. *)
Definition cr : string := String (Ascii.ascii_of_nat 13) "".

Definition scan_lines (text : string) : list string :=
  if String.eqb text "" then [] else (λ l, TrimSuffix l cr) <$> Split (TrimSuffix text nl) nl.

Definition setupMountOptions (diskname : string) (readOnly : bool) : OS unit :=
  let part := diskname +:+ "2" in
  text ← ReadFile "/proc/mounts";
  mount_loop part readOnly (scan_lines text) "" "".

(** ** Sysctls *)

Definition procsys (k val : string) : OS unit :=
  let p := "/proc/sys/" +:+ k in
  WriteFile p val;;
  result ← ReadFile p;
  if String.eqb val (TrimSpace result) then mret tt
  else mfail (Errorf ("values mismatch after set " +:+ val +:+ " != " +:+ TrimSpace result)).

Definition rlimit (k v : Z) : OS unit := plain (SSetrlimit k v).
End conf.

Definition vals : list (string * Z) :=
  [("vm/max_map_count", 1048575); ("vm/swappiness", 0); ("kernel/randomize_va_space", 2);
   ("net/ipv4/tcp_no_metrics_save", 1); ("net/core/netdev_max_backlog", 5000);
   ("vm/dirty_background_ratio", 20); ("vm/dirty_ratio", 25); ("fs/protected_hardlinks", 1);
   ("fs/protected_symlinks", 1); ("fs/suid_dumpable", 1); ("kernel/kptr_restrict", 1);
   ("kernel/dmesg_restrict", 1); ("kernel/unprivileged_bpf_disabled", 1);
   ("net/ipv4/conf/all/bootp_relay", 0); ("net/ipv4/tcp_syncookies", 1);
   ("net/ipv4/tcp_syn_retries", 2); ("net/ipv4/tcp_synack_retries", 2);
   ("net/ipv4/tcp_max_syn_backlog", 4096); ("net/ipv4/ip_forward", 0);
   ("net/ipv4/conf/all/forwarding", 0); ("net/ipv4/conf/default/forwarding", 0);
   ("net/ipv6/conf/all/forwarding", 0); ("net/ipv6/conf/default/forwarding", 0);
   ("net/ipv4/conf/all/rp_filter", 1); ("net/ipv4/conf/default/rp_filter", 1);
   ("net/ipv4/conf/all/accept_redirects", 0); ("net/ipv4/conf/default/accept_redirects", 0);
   ("net/ipv4/conf/all/secure_redirects", 0); ("net/ipv4/conf/default/secure_redirects", 0);
   ("net/ipv6/conf/all/accept_redirects", 0); ("net/ipv6/conf/default/accept_redirects", 0);
   ("net/ipv4/conf/all/accept_source_route", 0); ("net/ipv4/conf/default/accept_source_route", 0);
   ("net/ipv6/conf/all/accept_source_route", 0); ("net/ipv6/conf/default/accept_source_route", 0);
   ("net/ipv4/conf/all/proxy_arp", 0); ("net/ipv4/conf/all/arp_ignore", 1);
   ("net/ipv4/conf/all/arp_announce", 2); ("net/ipv4/conf/default/log_martians", 0);
   ("net/ipv4/conf/all/log_martians", 0); ("net/ipv4/icmp_ignore_bogus_error_responses", 0);
   ("net/ipv4/icmp_echo_ignore_broadcasts", 1)]%Z.

Section system.
Context `{K : kernel} `{MO : map_order}.

(** The name a line of /proc/cgroups starts with; it keeps its value on an empty line. *)
Fixpoint cgroup_loop (lines : list string) (name : string) : OS unit :=
  match lines with
  | [] => mret tt
  | line :: lines =>
      let name := default name (Fields line !! 0%nat) in
      (if HasPrefix name "#" then mret tt
       else
         ignore (MkdirAll ("/sys/fs/cgroup/" +:+ name));;
         ignore (Mount "cgroup" ("/sys/fs/cgroup/" +:+ name) "cgroup" 0 name));;
      cgroup_loop lines name
  end.

Definition enableContainers : OS unit :=
  r ← mtry (Mount "cgroup" "/sys/fs/cgroup" "tmpfs" 0 "uid=0,gid=0,mode=0755");
  match r with
  | inr _ => mfail (Errorf "can not mount cgroup")
  | inl _ => text ← ReadFile "/proc/cgroups"; cgroup_loop (scan_lines text) ""
  end.

(** What [%s] of [fmt.Sscanf] reads: it skips blanks, but a newline or the end
    of the input is an error and leaves the variable alone. *)
Fixpoint scan_word (s : string) : string :=
  match s with
  | "" => ""
  | String a s' =>
      if Ascii.eqb a (Ascii.ascii_of_nat 10) then ""
      else if is_space a then scan_word s'
      else default "" (Fields s !! 0%nat)
  end.

(** [Sscanf(cmd, "shm=%s ", &s)]: only at the start of the command line. *)
Definition shm_size (cmd : string) : string :=
  if HasPrefix cmd "shm=" then scan_word (TrimPrefix cmd "shm=") else "".

Definition setupSharedMemory : OS unit :=
  cmd ← ReadFile "/proc/cmdline";
  let s := shm_size cmd in
  if String.eqb s "" then mret tt else mountFs "/dev/shm" "tmpfs" ("size=" +:+ s).

Definition all_vals (maxFds : Z) : list (string * Z) := (vals ++ [("fs/file-max", maxFds)])%list.

(** The sysctls: the defaults, the host name, then those of the configuration. *)
Definition set_sysctls (sysctls : gmap string string) (hostname : string) (maxFds : Z) : OS unit :=
  mforeach (λ '(name, value), ignore (procsys name (itoa value))) (all_vals maxFds);;
  ignore (procsys "kernel/hostname" hostname);;
  mforeach (λ '(k, x), ignore (procsys (ReplaceAll k "." "/") x)) (range 0 sysctls).

Definition systemConfig (sysctls : gmap string string) (hostname : string) (maxFds : Z) : OS unit :=
  ignore (Remove "/etc/ld.so.preload");;
  ignore (Remove "/etc/ld.so.cache");;
  ignore (plain (SChmod "/dev/sda" 493));;
  enableContainers;;
  setupSharedMemory;;
  ignore (rlimit RLIMIT_NPROC defaultNrProc);;
  let maxFds := max minFds maxFds in
  ignore (rlimit RLIMIT_NOFILE (u64 (maxFds * 2)));;
  set_sysctls sysctls hostname maxFds.
End system.

Local Open Scope list_scope.

(** ** The root file system *)

(** A line of /proc/mounts. *)
Record mount_entry := mkMountEntry { me_dev : string; me_path : string; me_type : string; me_opts : string }.

Definition mount_line (e : mount_entry) : string :=
  me_dev e +:+ " " +:+ me_path e +:+ " " +:+ me_type e +:+ " " +:+ me_opts e +:+ " 0 0".

Definition mounts_text (l : list mount_entry) : string := foldr (λ e t, mount_line e +:+ nl +:+ t) "" l.

(** The fields are words: the kernel escapes white space in them. *)
Definition wf_mount (e : mount_entry) : Prop :=
  is_word (me_dev e) ∧ is_word (me_path e) ∧ is_word (me_type e) ∧ is_word (me_opts e).

Definition at_root (e : mount_entry) : bool := String.eqb (me_path e) "/".

(** What the root file system should be mounted with. *)
Definition root_options : list (string * string) :=
  [("ext2", "barrier=0"); ("ext4", "nodiscard,commit=30,inode_readahead_blks=64");
   ("xfs", "nodiscard,attr2,inode64,noquota")].

(** MS_REMOUNT, with MS_NOATIME and the lazytime bit unless in record mode, and
    MS_RDONLY when asked for. *)
Definition remount_flags (recordmode readOnly : bool) : Z :=
  ((if recordmode then 32 else 32 + 1024 + 33554432) + (if readOnly then 1 else 0))%Z.

(** The only mount is a remount of the root partition. *)
Definition root_remount (part : string) (readOnly : bool) (e : event) : Prop :=
  match ev_call e with
  | SMount src target fstype flags opts =>
      src = part ∧ target = "/" ∧ (fstype, opts) ∈ root_options ∧
      ∃ recordmode, flags = remount_flags recordmode readOnly
  | SOpen _ | SRead _ => True
  | _ => False
  end.

Definition is_mount (c : syscall) : bool := match c with SMount _ _ _ _ _ => true | _ => false end.

Lemma root_opts_options fstype opts : root_opts fstype = Some opts ↔ (fstype, opts) ∈ root_options.
Proof.
  unfold root_opts, root_options. rewrite !elem_of_cons, elem_of_nil.
  destruct (String.eqb_spec fstype "ext2") as [->|]; [naive_solver|].
  destruct (String.eqb_spec fstype "ext4") as [->|]; [naive_solver|].
  destruct (String.eqb_spec fstype "xfs") as [->|]; naive_solver.
Qed.

Lemma root_flags_value recordmode readOnly : root_flags recordmode readOnly = remount_flags recordmode readOnly.
Proof. by destruct recordmode, readOnly. Qed.

Lemma Fields_mount_line e :
  wf_mount e → ∃ rest, Fields (mount_line e) = me_dev e :: me_path e :: me_type e :: rest.
Proof.
  intros (H1 & H2 & H3 & _). unfold mount_line. eexists. cbn [String.append]. by rewrite 3!Fields_word by done.
Qed.

Lemma mount_line_free e (c : Ascii.ascii) :
  is_space c = true → c ≠ Ascii.ascii_of_nat 32 → wf_mount e → Contains (mount_line e) (String c "") = false.
Proof.
  intros Hc Hne ((_ & H1) & (_ & H2) & (_ & H3) & (_ & H4)). unfold mount_line.
  rewrite !Contains_char_app, (no_space_free (me_dev e)), (no_space_free (me_path e)), (no_space_free (me_type e)),
    (no_space_free (me_opts e)) by done.
  assert (Contains " " (String c "") = false ∧ Contains " 0 0" (String c "") = false) as [-> ->]; [|done].
  rewrite !Contains_char_cons. change (Contains "" (String c "")) with false.
  rewrite !(proj2 (Ascii.eqb_neq _ c)); [done|by intros <-..].
Qed.

Lemma mounts_text_Join e l :
  mounts_text (e :: l) = Join (mount_line <$> e :: l) nl +:+ nl.
Proof.
  revert e. induction l as [|e' l IH]; intros e; [by cbn [mounts_text foldr]; rewrite str_app_nil_r|].
  change (mounts_text (e :: e' :: l)) with (mount_line e +:+ nl +:+ mounts_text (e' :: l)). rewrite IH.
  change (Join (mount_line <$> e :: e' :: l) nl) with (mount_line e +:+ nl +:+ Join (mount_line <$> e' :: l) nl).
  by rewrite !str_app_assoc.
Qed.

(** The scanner reads the lines of the table. *)
Lemma scan_lines_mounts l : Forall wf_mount l → scan_lines (mounts_text l) = mount_line <$> l.
Proof.
  intros Hl. destruct l as [|e l]; [done|]. unfold scan_lines. rewrite mounts_text_Join.
  destruct (String.eqb_spec (Join (mount_line <$> e :: l) nl +:+ nl) "") as [Habs|_].
  { by destruct (Join (mount_line <$> e :: l) nl). }
  rewrite TrimSuffix_app. unfold nl. rewrite Split_Join; [|done|].
  - rewrite <-list_fmap_compose. apply list_fmap_ext. intros i x _. unfold compose, cr, mount_line.
    replace (me_dev x +:+ " " +:+ me_path x +:+ " " +:+ me_type x +:+ " " +:+ me_opts x +:+ " 0 0")
      with ((me_dev x +:+ " " +:+ me_path x +:+ " " +:+ me_type x +:+ " " +:+ me_opts x +:+ " 0 ") +:+ "0")
      by (by rewrite !str_app_assoc).
    by apply TrimSuffix_char.
  - apply Forall_fmap. eapply Forall_impl; [exact Hl|]. intros x Hx. by apply mount_line_free.
Qed.

Section theorems.
Context `{K : kernel}.

Lemma tame_hasCmdLineString P ss :
  (∀ p e, P (mkEvent (SOpen p) e)) → (∀ p e, P (mkEvent (SRead p) e)) → tame P (hasCmdLineString ss).
Proof.
  intros H1 H2. apply tame_bind; [apply tame_try, tame_ReadFile; auto|].
  intros [cmd|?]; apply tame_ret.
Qed.

Lemma tame_mount_loop part readOnly lines path fstype :
  tame (root_remount part readOnly) (mount_loop part readOnly lines path fstype).
Proof.
  revert path fstype. induction lines as [|line lines IH]; intros path fstype; [apply tame_fail|].
  cbn [mount_loop]. apply tame_bind; [by apply tame_hasCmdLineString|]. intros recordmode.
  destruct (String.eqb _ "/"); [|apply IH].
  destruct (root_opts _) as [opts|] eqn:Ho; [|apply tame_fail].
  apply tame_Mount. intros e. split_and!; [done|done|by apply root_opts_options|].
  exists recordmode. apply root_flags_value.
Qed.

(** On a machine where nothing fails the loop remounts what the table says. *)
Lemma ok_mount_loop (Hok : ∀ n c, k_fail n c = None) part readOnly l path fstype cmd w :
  Forall wf_mount l → fs w !! "/proc/cmdline" = Some (File cmd) →
  let recordmode := existsb (λ o, String.eqb o "recordmode") (Split (TrimSuffix cmd nl) " ") in
  ∃ o w' cs, mount_loop part readOnly (mount_line <$> l) path fstype w = (o, w') ∧ calls w' = calls w ++ cs ∧
    match head (List.filter at_root l) with
    | None => o = Fail (Errorf "can not find root filesystem") ∧ List.filter is_mount cs = []
    | Some e =>
        match root_opts (me_type e) with
        | None => o = Fail (Errorf ("unknown filesystem format: " +:+ me_type e)) ∧ List.filter is_mount cs = []
        | Some opts => o = Ret tt ∧
            List.filter is_mount cs = [SMount part "/" (me_type e) (remount_flags recordmode readOnly) opts]
        end
    end.
Proof.
  cbn zeta. intros Hl Hcmd. set (rm := existsb _ _).
  revert path fstype w Hcmd. induction Hl as [|e l He Hl IH]; intros path fstype w Hcmd.
  { eexists _, w, []. split_and!; [done|by rewrite app_nil_r|done]. }
  cbn [fmap list_fmap mount_loop]. destruct (Fields_mount_line e He) as [rest ->]. cbn zeta.
  change (default path ((me_dev e :: me_path e :: me_type e :: rest) !! 1%nat)) with (me_path e).
  change (default fstype ((me_dev e :: me_path e :: me_type e :: rest) !! 2%nat)) with (me_type e).
  set (w1 := record (SRead "/proc/cmdline") None (record (SOpen "/proc/cmdline") None w)).
  assert (hasCmdLineString "recordmode" w = (Ret rm, w1)) as E1.
  { unfold hasCmdLineString. by rewrite (run_ret _ _ _ _ _ (ok_try _ _ _ _ (ok_ReadFile Hok "/proc/cmdline" cmd w eq_refl Hcmd))). }
  rewrite (run_ret _ _ _ _ _ E1). rewrite root_flags_value. cbn [List.filter head]. unfold at_root at 1.
  assert (calls w1 = calls w ++ [SOpen "/proc/cmdline"; SRead "/proc/cmdline"]) as C1
    by (subst w1; by rewrite !calls_record, <-app_assoc).
  destruct (String.eqb (me_path e) "/"); cbn [head].
  - destruct (root_opts (me_type e)) as [opts|].
    + assert (is_dir (fs w1) "/" = true) as Hroot by (unfold is_dir; by destruct (lookup_node _ _) as [[]|]).
      eexists _, _, _. split_and!; [apply (ok_sys_with Hok); by rewrite Hroot| |done|].
      * rewrite calls_record. change (calls (set_fs ?m w1)) with (calls w1). by rewrite C1, <-app_assoc.
      * done.
    + eexists _, _, _. split_and!; [done|exact C1|done|done].
  - destruct (IH (me_path e) (me_type e) w1 Hcmd) as (o & w2 & cs & E2 & C2 & Hm).
    exists o, w2, ([SOpen "/proc/cmdline"; SRead "/proc/cmdline"] ++ cs). split_and!; [done|by rewrite C2, C1, <-app_assoc|exact Hm].
Qed.

(** C35: On a machine where no call fails, [setupMountOptions] finds the first
    mount at / in the mount table and remounts the second partition of the boot
    disk there, once, with the type found and its options: barrier=0 for ext2,
    nodiscard,commit=30,inode_readahead_blks=64 for ext4 and
    nodiscard,attr2,inode64,noquota for xfs; the flags are MS_REMOUNT, MS_NOATIME
    and MS_LAZYTIME, only MS_REMOUNT if the command line has recordmode, and
    MS_RDONLY too exactly when asked for.  Another type, or a table without /, is
    an error and nothing is mounted.  And whatever fails and whatever the table
    holds, it makes no other mount call and does not panic. *)
Theorem setupMountOptions_remounts diskname readOnly l cmd w :
  tame (root_remount (diskname +:+ "2") readOnly) (setupMountOptions diskname readOnly) ∧
  ((∀ n c, k_fail n c = None) → Forall wf_mount l →
   fs w !! "/proc/mounts" = Some (File (mounts_text l)) → fs w !! "/proc/cmdline" = Some (File cmd) →
   let recordmode := existsb (λ o, String.eqb o "recordmode") (Split (TrimSuffix cmd nl) " ") in
   ∃ o w' cs, setupMountOptions diskname readOnly w = (o, w') ∧ calls w' = calls w ++ cs ∧
     match head (List.filter at_root l) with
     | None => (∃ e, o = Fail e) ∧ List.filter is_mount cs = []
     | Some m =>
         (∀ opts, (me_type m, opts) ∈ root_options → o = Ret tt ∧
            List.filter is_mount cs =
              [SMount (diskname +:+ "2") "/" (me_type m) (remount_flags recordmode readOnly) opts]) ∧
         (me_type m ∉ root_options.*1 → (∃ e, o = Fail e) ∧ List.filter is_mount cs = [])
     end).
Proof.
  split; [apply tame_bind; [by apply tame_ReadFile|]; intros text; apply tame_mount_loop|].
  intros Hok Hl Hm Hcmd. cbn zeta. unfold setupMountOptions. cbn zeta.
  rewrite (run_ret _ _ _ _ _ (ok_ReadFile Hok "/proc/mounts" _ w eq_refl Hm)), scan_lines_mounts by done.
  set (w1 := record _ None (record _ None w)).
  destruct (ok_mount_loop Hok (diskname +:+ "2") readOnly l "" "" cmd w1 Hl Hcmd) as (o & w' & cs & E & C & Hr).
  exists o, w', ([SOpen "/proc/mounts"; SRead "/proc/mounts"] ++ cs). split_and!; [done|by rewrite C; subst w1; rewrite !calls_record, <-!app_assoc|].
  change (List.filter is_mount ([SOpen "/proc/mounts"; SRead "/proc/mounts"] ++ cs)) with (List.filter is_mount cs).
  destruct (head _) as [m|]; [|destruct Hr; eauto]. split.
  - intros opts Ho%root_opts_options. by rewrite Ho in Hr.
  - intros Hn. destruct (root_opts (me_type m)) as [opts|] eqn:Ho; [|destruct Hr; eauto].
    destruct Hn. apply list_elem_of_fmap. exists (me_type m, opts). split; [done|]. by apply root_opts_options.
Qed.

(** ** The hypervisor *)

(** [hypervisorGuess] always gives an answer, and the answers that switch on
    cloud metadata are justified: Azure only if DHCP announced it, EC2 only for
    an Amazon BIOS or a Xen machine whose hypervisor uuid starts with ec2, GCP
    only for a Google BIOS; the hypervisor is unknown exactly when the cloud is. *)
Theorem hypervisorGuess_sound bios w :
  ∃ h c w', hypervisorGuess bios w = (Ret (h, c), w') ∧ fs w' = fs w ∧ vinitd w' = vinitd w ∧
    (c = cpAzure → v_cloud (vinitd w) = cpAzure ∧ HasPrefix bios "American Megatrends Inc." = true) ∧
    (c = cpGCP → HasPrefix bios "Google" = true) ∧
    (c = cpEC2 → HasPrefix bios "Amazon" = true ∨
       (HasPrefix bios "Xen" = true ∧
        ∃ uuid, lookup_node (fs w) "/sys/hypervisor/uuid" = Some (File uuid) ∧ HasPrefix uuid "ec2" = true)) ∧
    (h = hvUnknown ↔ c = cpUnknown).
Proof.
  assert (∀ w, ∃ b w', uuidHasEc2 w = (Ret b, w') ∧ (fs w' = fs w ∧ vinitd w' = vinitd w) ∧
    (b = true → ∃ uuid, lookup_node (fs w) "/sys/hypervisor/uuid" = Some (File uuid) ∧
                HasPrefix uuid "ec2" = true)) as Huuid.
  { intros w0. unfold uuidHasEc2, ReadFile, Open, ReadAll, mtry, sys, sys_with, mbind, M_bind.
    destruct (k_fail _ (SOpen _)) as [[]|]; [by do 2 eexists|].
    destruct (lookup_node (fs w0) _) as [n|] eqn:En; [|by do 2 eexists].
    destruct (k_fail _ (SRead _)) as [[]|]; [by do 2 eexists|].
    change (fs (record _ _ w0)) with (fs w0). rewrite En.
    destruct n as [d| |]; [|by do 2 eexists..]. do 2 eexists. split_and!; [done..|]. eauto. }
  unfold hypervisorGuess. rewrite run_vget.
  destruct (HasPrefix bios "SeaBIOS"); [by do 3 eexists|].
  destruct (HasPrefix bios "innotek GmbH"); [by do 3 eexists|].
  destruct (HasPrefix bios "Phoenix Technologies LTD"); [by do 3 eexists|].
  destruct (HasPrefix bios "Google"); [by do 3 eexists|].
  destruct (HasPrefix bios "Amazon"); [do 3 eexists; split_and!; try done; intros _; by left|].
  destruct (HasPrefix bios "Xen").
  - destruct (Huuid w) as (b & w1 & E1 & [F1 V1] & _).
    rewrite (run_ret _ _ _ (negb b) w1) by (by rewrite (run_ret _ _ _ _ _ E1)).
    destruct b; cbn [negb]; [|do 3 eexists; split_and!; done].
    destruct (Huuid w1) as (b & w2 & E2 & [F2 V2] & H2). rewrite (run_ret _ _ _ _ _ E2). rewrite F1, V1 in *.
    destruct b; [do 3 eexists; split_and!; try done; intros _; right; by eauto|].
    destruct (HasPrefix bios "American Megatrends Inc."); case_bool_decide; cbn [andb negb];
      do 3 eexists; split_and!; done.
  - rewrite (run_ret _ _ _ false w), (run_ret _ _ _ false w) by done.
    destruct (HasPrefix bios "American Megatrends Inc."); case_bool_decide; cbn [andb negb];
      do 3 eexists; split_and!; done.
Qed.
End theorems.

(** ** The environment *)

(** A card is filed under the name of its number. *)
Definition table_ok (m : gmap string ifc) : Prop := ∀ k i, m !! k = Some i → k = eth (if_idx i).

Lemma envIP_inj a b : envIP a = envIP b → a = b.
Proof. unfold envIP, itoa. intros [= H]. apply (inj pretty.pretty) in H. lia. Qed.

Lemma envExtIP_inj a b : envExtIP a = envExtIP b → a = b.
Proof. unfold envExtIP, itoa. intros [= H]. apply (inj pretty.pretty) in H. lia. Qed.

Lemma basic_ips_spec l m :
  NoDup (if_idx <$> l) → Forall (λ i, if_addr i ≠ None) l →
  ∃ m', basic_ips l m = Ret m' ∧
    (∀ i a, i ∈ l → if_addr i = Some a →
       m' !! envIP (if_idx i) = Some (IPString (net_IP a)) ∧ m' !! envExtIP (if_idx i) = Some (IPString (net_IP a))) ∧
    (∀ x, (∀ i, i ∈ l → x ≠ envIP (if_idx i) ∧ x ≠ envExtIP (if_idx i)) → m' !! x = m !! x).
Proof.
  revert m. induction l as [|i l IH]; intros m Hnd Ha.
  { exists m. split_and!; [done|by intros i a ?%elem_of_nil|done]. }
  cbn in Hnd. apply NoDup_cons in Hnd as [Hni Hnd]. apply Forall_cons in Ha as [Hi Ha]. cbn [basic_ips].
  destruct (if_addr i) as [a|] eqn:Ea; [|done]. cbn zeta. set (t := IPString (net_IP a)).
  destruct (IH (<[envExtIP (if_idx i) := t]> (<[envIP (if_idx i) := t]> m)) Hnd Ha) as (m' & E & H1 & H2).
  exists m'. split_and!; [done| |].
  - intros i' a' [->|Hin]%elem_of_cons Ha'; [|by apply H1]. rewrite Ea in Ha'. injection Ha' as <-.
    assert (∀ j, j ∈ l → if_idx i ≠ if_idx j) as Hne.
    { intros j Hj He. apply Hni. rewrite He. by apply list_elem_of_fmap_2. }
    split; (rewrite H2; [|intros j Hj; split; [intros Hx|intros Hx]]);
      try (apply envIP_inj in Hx; by apply (Hne j)); try (apply envExtIP_inj in Hx; by apply (Hne j)); try done.
    + rewrite lookup_insert_ne by done. apply lookup_insert_eq.
    + apply lookup_insert_eq.
  - intros x Hx. destruct (Hx i ltac:(by left)) as [Hx1 Hx2].
    rewrite H2 by (intros j Hj; apply Hx; by right). by rewrite !lookup_insert_ne by congruence.
Qed.

Lemma basic_ips_nil l m i : i ∈ l → if_addr i = None → basic_ips l m = Panic NilDeref.
Proof.
  revert m. induction l as [|j l IH]; intros m Hi Ha; [by apply elem_of_nil in Hi|]. cbn [basic_ips].
  apply elem_of_cons in Hi as [->|Hi]; [by rewrite Ha|]. destruct (if_addr j); [|done]. by apply IH.
Qed.

Lemma table_NoDup m : table_ok m → NoDup (if_idx <$> (map_to_list m).*2).
Proof.
  intros Hm. rewrite <-list_fmap_compose. apply NoDup_fmap_2_strong; [|apply NoDup_map_to_list].
  intros [k i] [k' i'] Hk%elem_of_map_to_list Hk'%elem_of_map_to_list E. cbn in E.
  pose proof (Hm _ _ Hk) as ->. pose proof (Hm _ _ Hk') as ->. rewrite E in *. simplify_eq. done.
Qed.

Lemma elem_of_values (m : gmap string ifc) i : i ∈ (map_to_list m).*2 ↔ ∃ k, m !! k = Some i.
Proof.
  rewrite list_elem_of_fmap. split.
  - intros ([k j] & -> & H%elem_of_map_to_list). by exists k.
  - intros [k H]. exists (k, i). split; [done|]. by apply elem_of_map_to_list.
Qed.

(** C34: [basicEnv] with every card addressed defines HYPERVISOR, CLOUD_PROVIDER,
    ETH_COUNT, HOSTNAME and EXT_HOSTNAME, and IPn and EXT_IPn with the address of
    card n for every card, and changes no other variable and nothing else; a
    single card without an address makes it dereference a nil pointer. *)
Theorem basicEnv_defines w :
  let v := vinitd w in
  table_ok (ifcs v) →
  ((∀ k i, ifcs v !! k = Some i → if_addr i ≠ None) →
   ∃ envs, basicEnv w = (Ret tt, upd (set_envs envs) w) ∧
     envs !! "HYPERVISOR" = Some (hypervisorStrings (hv_hypervisor (hypervisorInfo v))) ∧
     envs !! "CLOUD_PROVIDER" = Some (cloudStrings (v_cloud v)) ∧
     envs !! "ETH_COUNT" = Some (itoa (Z.of_nat (size (ifcs v)))) ∧
     envs !! "HOSTNAME" = Some (hostname v) ∧ envs !! "EXT_HOSTNAME" = Some (hostname v) ∧
     (∀ k i a, ifcs v !! k = Some i → if_addr i = Some a →
        envs !! envIP (if_idx i) = Some (IPString (net_IP a)) ∧
        envs !! envExtIP (if_idx i) = Some (IPString (net_IP a))) ∧
     (∀ x, x ∉ ["HYPERVISOR"; "CLOUD_PROVIDER"; "ETH_COUNT"; "HOSTNAME"; "EXT_HOSTNAME"] →
        (∀ n, x ≠ envIP n ∧ x ≠ envExtIP n) → envs !! x = v_envs v !! x)) ∧
  (∀ k i, ifcs v !! k = Some i → if_addr i = None → basicEnv w = (Panic NilDeref, w)).
Proof.
  cbn zeta. intros Ht. unfold basicEnv. rewrite run_vget. split.
  - intros Ha. destruct (basic_ips_spec (map_to_list (ifcs (vinitd w))).*2 (basic_envs (vinitd w)))
      as (m & E & H1 & H2); [by apply table_NoDup| |].
    { apply Forall_forall. intros i [k Hk]%elem_of_values. by eapply Ha. }
    exists m. rewrite E. split; [done|]. unfold basic_envs in H2.
    split_and!; try (rewrite H2 by (intros; split; done); by simplify_map_eq).
    + intros k i a Hk Hi. apply H1; [|done]. apply elem_of_values. by exists k.
    + intros x Hx Hn. rewrite H2 by (intros; apply Hn). set_unfold in Hx.
      by rewrite !lookup_insert_ne by naive_solver.
  - intros k i Hk Hi. by rewrite (basic_ips_nil _ _ i) by (done || apply elem_of_values; by exists k).
Qed.

(** ** The sysctls *)

Definition sysctl_path (k : string) : string := "/proc/sys/" +:+ k.

(** Writing values one after the other. *)
Definition writes (l : list (string * string)) (m : gmap string node) : gmap string node :=
  fold_left (λ m kv, <[sysctl_path kv.1 := File kv.2]> m) l m.

Definition has_sysctl (m : gmap string node) (k : string) : Prop :=
  abs_path (sysctl_path k) = sysctl_path k ∧ ∃ d, m !! sysctl_path k = Some (File d).

Lemma writes_app l l' m : writes (l ++ l')%list m = writes l' (writes l m).
Proof. apply fold_left_app. Qed.

Lemma writes_has l m k : has_sysctl m k → has_sysctl (writes l m) k.
Proof.
  revert m. induction l as [|kv l IH]; intros m Hk; [done|]. apply IH. destruct Hk as [Ha [d Hd]].
  split; [done|]. destruct (decide (sysctl_path kv.1 = sysctl_path k)) as [->|Hne].
  - rewrite lookup_insert_eq. by eexists.
  - rewrite lookup_insert_ne by done. by eexists.
Qed.

(** The last value written for a key stays. *)
Lemma writes_last l l' k v m :
  k ∉ l'.*1 → writes (l ++ (k, v) :: l')%list m !! sysctl_path k = Some (File v).
Proof.
  rewrite writes_app. change (writes ((k, v) :: l') ?m) with (writes l' (<[sysctl_path k := File v]> m)).
  generalize (writes l m). clear m. intros m Hk.
  assert (<[sysctl_path k := File v]> m !! sysctl_path k = Some (File v)) as Hm by apply lookup_insert_eq.
  revert Hm. generalize (<[sysctl_path k := File v]> m). clear m. induction l' as [|[k' v'] l' IH]; intros m Hm; [done|].
  cbn in Hk. apply not_elem_of_cons in Hk as [Hne Hk]. apply IH; [done|]. cbn.
  rewrite lookup_insert_ne; [done|]. unfold sysctl_path. intros [= E]. congruence.
Qed.

(** The value of one of [vs] stays if nothing is written for it later. *)
Lemma writes_kept (vs : list (string * Z)) rest k v m :
  NoDup vs.*1 → (k, v) ∈ vs → k ∉ rest.*1 →
  writes (((λ kv, (kv.1, itoa kv.2)) <$> vs) ++ rest)%list m !! sysctl_path k = Some (File (itoa v)).
Proof.
  intros Hnd Hk Hr. apply list_elem_of_split in Hk as (l1 & l2 & ->).
  rewrite fmap_app in Hnd. apply NoDup_app in Hnd as (_ & _ & [Hn _]%NoDup_cons).
  rewrite fmap_app, fmap_cons, <-app_assoc, <-app_comm_cons. apply writes_last.
  rewrite fmap_app, <-list_fmap_compose. intros [H|H]%elem_of_app; [|done]. by apply Hn.
Qed.

Section sysctls.
Context `{K : kernel} `{MO : map_order} (Hok : ∀ n c, k_fail n c = None).

Lemma ok_procsys k v w :
  has_sysctl (fs w) k →
  ∃ w', ignore (procsys k v) w = (Ret tt, w') ∧ fs w' = <[sysctl_path k := File v]> (fs w) ∧ vinitd w' = vinitd w.
Proof.
  intros [Ha [d Hd]].
  set (w1 := record (SWrite (sysctl_path k) v) None
               (set_file (sysctl_path k) v (record (SOpen (sysctl_path k)) None (set_file (sysctl_path k) "" w)))).
  assert (fs w1 = <[sysctl_path k := File v]> (fs w)) as F1 by apply fs_written.
  assert (fs w1 !! sysctl_path k = Some (File v)) as Hv by (rewrite F1; apply lookup_insert_eq).
  exists (record (SRead (sysctl_path k)) None (record (SOpen (sysctl_path k)) None w1)).
  split; [|done]. unfold ignore, mtry, mbind at 1, M_bind at 1.
  assert (∃ o, procsys k v w = (o, record (SRead (sysctl_path k)) None (record (SOpen (sysctl_path k)) None w1)) ∧
               (o = Ret tt ∨ ∃ e, o = Fail e)) as (o & -> & Ho); [|by destruct Ho as [->|[e ->]]].
  unfold procsys. cbn zeta. rewrite (run_ret _ _ _ _ _ (ok_WriteFile Hok (sysctl_path k) d v w Ha Hd)).
  rewrite (run_ret _ _ _ _ _ (ok_ReadFile Hok (sysctl_path k) v w1 Ha Hv)).
  destruct (String.eqb v (TrimSpace v)); eexists; (split; [done|]); [by left|right; by eexists].
Qed.

Lemma ok_procsys_all {A} (f : A → OS unit) (key val : A → string) l w :
  (∀ x, f x = ignore (procsys (key x) (val x))) → Forall (λ x, has_sysctl (fs w) (key x)) l →
  ∃ w', mforeach f l w = (Ret tt, w') ∧
    fs w' = writes ((λ x, (key x, val x)) <$> l) (fs w) ∧ vinitd w' = vinitd w.
Proof.
  intros Hf. revert w. induction l as [|x l IH]; intros w Hl; [by exists w|]. apply Forall_cons in Hl as [Hx Hl].
  cbn [mforeach]. destruct (ok_procsys (key x) (val x) w Hx) as (w1 & E1 & F1 & V1).
  rewrite Hf, (run_ret _ _ _ _ _ E1). destruct (IH w1) as (w2 & E2 & F2 & V2).
  - eapply Forall_impl; [exact Hl|]. intros y Hy. rewrite F1.
    by apply (writes_has [(key x, val x)]).
  - exists w2. split_and!; [done| |congruence]. by rewrite F2, F1.
Qed.

(** All values in the order they are written. *)
Definition sysctl_writes (sysctls : gmap string string) (hostname : string) (maxFds : Z) : list (string * string) :=
  (((λ kv, (kv.1, itoa kv.2)) <$> all_vals maxFds) ++ ("kernel/hostname", hostname)
     :: ((λ kv, (ReplaceAll kv.1 "." "/", kv.2)) <$> range 0 sysctls))%list.

Lemma ok_set_sysctls sysctls hostname maxFds w :
  Forall (λ kv, has_sysctl (fs w) kv.1) (sysctl_writes sysctls hostname maxFds) →
  ∃ w', set_sysctls sysctls hostname maxFds w = (Ret tt, w') ∧
    fs w' = writes (sysctl_writes sysctls hostname maxFds) (fs w) ∧ vinitd w' = vinitd w.
Proof.
  unfold sysctl_writes. intros [H1 [H2 H3]%Forall_cons]%Forall_app. unfold set_sysctls.
  destruct (ok_procsys_all (λ '(name, value), ignore (procsys name (itoa value))) (λ kv : string * Z, kv.1) (λ kv, itoa kv.2) (all_vals maxFds) w)
    as (w1 & E1 & F1 & V1); [by intros [k v]|exact (proj1 (Forall_fmap _ _ _) H1)|].
  rewrite (run_ret _ _ _ _ _ E1).
  destruct (ok_procsys "kernel/hostname" hostname w1) as (w2 & E2 & F2 & V2).
  { rewrite F1. by apply writes_has. }
  rewrite (run_ret _ _ _ _ _ E2).
  destruct (ok_procsys_all (λ '(k, x), ignore (procsys (ReplaceAll k "." "/") x))
    (λ kv : string * string, ReplaceAll kv.1 "." "/") (λ kv, kv.2) (range 0 sysctls) w2)
    as (w3 & E3 & F3 & V3); [by intros [k v]| |].
  { eapply Forall_impl; [exact (proj1 (Forall_fmap _ _ _) H3)|]. intros [k v] Hk. rewrite F2, F1.
    exact (writes_has [("kernel/hostname", hostname)] _ _ (writes_has _ _ _ Hk)). }
  exists w3. split_and!; [exact E3| |congruence]. by rewrite F3, F2, F1, writes_app.
Qed.

Lemma vals_NoDup : NoDup (vals.*1 ++ ["fs/file-max"; "kernel/hostname"])%list.
Proof. apply (bool_decide_unpack _). vm_compute. exact I. Qed.

(** C33: On a healthy machine that has the sysctls, [set_sysctls] writes the
    defaults, the host name and the configured values in this order: a sysctl of
    the configuration (with slashes for dots) ends up with its configured value,
    also when it is one of the defaults, and a default that is not configured
    ends up with the default. *)
Theorem sysctls_applied sysctls hostname maxFds w :
  Forall (λ kv, has_sysctl (fs w) kv.1) (sysctl_writes sysctls hostname maxFds) →
  ∃ w', set_sysctls sysctls hostname maxFds w = (Ret tt, w') ∧
    (∀ k x, sysctls !! k = Some x →
       (∀ k' x', sysctls !! k' = Some x' → ReplaceAll k' "." "/" = ReplaceAll k "." "/" → k' = k) →
       fs w' !! sysctl_path (ReplaceAll k "." "/") = Some (File x)) ∧
    (∀ k v, (k, v) ∈ vals →
       (∀ k' x', sysctls !! k' = Some x' → ReplaceAll k' "." "/" ≠ k) →
       fs w' !! sysctl_path k = Some (File (itoa v))).
Proof.
  intros Hw. destruct (ok_set_sysctls sysctls hostname maxFds w Hw) as (w' & E & F & _).
  exists w'. split; [done|]. rewrite F. unfold sysctl_writes. split.
  - intros k x Hk Hu. assert ((k, x) ∈ range 0 sysctls) as Hin.
    { rewrite range_perm. by apply elem_of_map_to_list. }
    apply list_elem_of_split in Hin as (l1 & l2 & E12). rewrite E12, fmap_app, fmap_cons.
    rewrite app_comm_cons, app_assoc. apply writes_last. intros Hk2.
    apply list_elem_of_fmap in Hk2 as ([k2 x2] & E2 & H2). apply list_elem_of_fmap in H2 as ([k3 x3] & [= -> ->] & H3).
    cbn in E2.
    assert (NoDup (range 0 sysctls).*1) as Hnd by (rewrite range_perm; apply NoDup_fst_map_to_list).
    rewrite E12, fmap_app in Hnd. apply NoDup_app in Hnd as (_ & _ & [Hn _]%NoDup_cons).
    apply Hn. replace (k, x).1 with k3; [by apply (list_elem_of_fmap_2 fst l2 (k3, x3))|].
    apply (Hu k3 x3); [|done]. apply elem_of_map_to_list. rewrite <-range_perm, E12.
    apply elem_of_app. right. by right.
  - intros k v Hk Hu. unfold all_vals. rewrite fmap_app, <-app_assoc.
    apply (writes_kept vals); [exact (proj1 (proj1 (NoDup_app _ _) vals_NoDup))|done|].
    destruct (proj1 (NoDup_app _ _) vals_NoDup) as (_ & Hd & _).
    specialize (Hd k (list_elem_of_fmap_2 fst _ _ Hk)).
    rewrite fmap_app, fmap_cons.
    intros [H|[H|H]%elem_of_cons]%elem_of_app; [apply list_elem_of_singleton in H; set_solver +Hd H|set_solver +Hd H|].
    apply list_elem_of_fmap in H as (? & E' & H). apply list_elem_of_fmap in H as ([k' x'] & -> & H').
    rewrite range_perm in H'.
    apply elem_of_map_to_list in H'. by apply (Hu k' x').
Qed.
End sysctls.

(** ** Witnesses *)

Definition ex_addressed : world :=
  upd (set_ifcs {["eth0" := mkIfc "ens3" 0 (mkInterface "ens3" [])
                    (Some (mkIPNet (IPv4 10 0 0 5) (CIDRMask 24 32))) []]}) ex_world.

Lemma ex_addressed_table : table_ok (ifcs (vinitd ex_addressed)).
Proof. intros k i Hk. cbn in Hk. apply lookup_singleton_Some in Hk as [<- <-]. done. Qed.

Lemma basicEnv_defines_witness :
  ∃ envs, basicEnv ex_addressed = (Ret tt, upd (set_envs envs) ex_addressed) ∧
    envs !! "IP0" = Some "10.0.0.5" ∧ envs !! "ETH_COUNT" = Some "1".
Proof.
  destruct (proj1 (basicEnv_defines ex_addressed ex_addressed_table)) as (envs & E & _ & _ & H1 & _ & _ & H2 & _).
  - intros k i Hk. cbn in Hk. apply lookup_singleton_Some in Hk as [<- <-]. done.
  - exists envs. split_and!; [exact E| |exact H1].
    exact (proj1 (H2 "eth0" _ _ (lookup_singleton_eq _ _) eq_refl)).
Defined.

Definition ex_sysctl : gmap string string := {["vm.swappiness" := "10"]}.

Definition ex_sysctl_world : world :=
  set_fs (writes (@sysctl_writes forward ex_sysctl "vm" 1024) ∅) ex_world.

#[global] Instance has_sysctl_dec m k : Decision (has_sysctl m k).
Proof.
  destruct (decide (abs_path (sysctl_path k) = sysctl_path k)) as [Ha|Ha]; [|right; by intros [? _]].
  destruct (m !! sysctl_path k) as [[d| |]|] eqn:E.
  - left. split; [done|by exists d].
  - right. intros [_ [d Hd]]. congruence.
  - right. intros [_ [d Hd]]. congruence.
  - right. intros [_ [d Hd]]. congruence.
Defined.

Lemma ex_sysctl_has :
  Forall (λ kv, has_sysctl (fs ex_sysctl_world) kv.1) (@sysctl_writes forward ex_sysctl "vm" 1024).
Proof. apply (bool_decide_unpack _). vm_compute. exact I. Qed.

Lemma sysctls_applied_witness :
  ∃ w', @set_sysctls calm forward ex_sysctl "vm" 1024 ex_sysctl_world = (Ret tt, w') ∧
    fs w' !! "/proc/sys/vm/swappiness" = Some (File "10") ∧
    fs w' !! "/proc/sys/vm/dirty_ratio" = Some (File "25").
Proof.
  destruct (@sysctls_applied calm forward (λ _ _, eq_refl) ex_sysctl "vm" 1024 ex_sysctl_world ex_sysctl_has) as (w' & E & H1 & H2).
  exists w'. split_and!; [exact E| |].
  - apply (H1 "vm.swappiness" "10"); [done|]. intros k' x' Hk'. unfold ex_sysctl in Hk'. by apply lookup_singleton_Some in Hk' as [<- _].
  - apply (H2 "vm/dirty_ratio" 25%Z); [apply (bool_decide_unpack _); vm_compute; exact I|].
    intros k' x' Hk'. unfold ex_sysctl in Hk'. by apply lookup_singleton_Some in Hk' as [<- _].
Defined.

Definition ex_mounts : list mount_entry :=
  [mkMountEntry "proc" "/proc" "proc" "rw"; mkMountEntry "/dev/root" "/" "ext4" "rw,relatime"].

Definition ex_mounted : world := set_file "/proc/mounts" (mounts_text ex_mounts) ex_world.

Lemma setupMountOptions_remounts_witness :
  ∃ w' cs, @setupMountOptions calm "/dev/sda" true ex_mounted = (Ret tt, w') ∧ calls w' = calls ex_mounted ++ cs ∧
    List.filter is_mount cs = [SMount "/dev/sda2" "/" "ext4" 0x2000421 "nodiscard,commit=30,inode_readahead_blks=64"].
Proof.
  destruct (proj2 (@setupMountOptions_remounts calm "/dev/sda" true ex_mounts "root=/dev/sda2 ro quiet" ex_mounted) (λ _ _, eq_refl))
    as (o & w' & cs & E & C & [Hm _]).
  - by repeat constructor.
  - vm_compute. done.
  - vm_compute. done.
  - destruct (Hm "nodiscard,commit=30,inode_readahead_blks=64" ltac:(right; left)) as [Ho Hc]. subst o.
    exists w', cs. split_and!; [exact E|exact C|exact Hc].
Defined.
