(* ===== verification/Cards.v ===== *)
(** * The card table whatever fails ([src/pkg/vorteil/network.go])

    [Network] follows [networkSetup] on a machine where every call succeeds.
    Here the kernel may refuse any call and the DHCP server may answer anything
    that decodes: the table stays well-formed, and two panics are left, the one
    for a card that has no address and the second error on a closed channel. *)

From stdpp Require Import sorting.
From S2P Require Import Prelude Bytes GoStrings GoPath GoNet Types BlockDev Os Process Route Dhcp Network Conf.
Local Open Scope Z_scope.

(** A card is filed under the name of its number, which is its own name. *)
Definition typed (w : world) : Prop :=
  ∀ k i, ifcs (vinitd w) !! k = Some i → k = eth (if_idx i) ∧ if_name i = k.

(** An invariant that the network goroutines keep and that does not look at the
    cards. *)
Class card_free (X : world → Prop) : Prop := {
  cf_net :: net_stable X;
  cf_ifcs f w : X w → X (upd (λ v, set_ifcs (f v) v) w)
}.

#[export] Instance card_free_True : card_free (λ _, True).
Proof. by repeat split. Qed.

(** [X], and the table is well-formed and holds the cards of the keys [ks]. *)
Definition holds (X : world → Prop) (ks : list string) (w : world) : Prop :=
  X w ∧ typed w ∧ ∀ k, k ∈ ks → carded k w.

Section holds.
Context (X : world → Prop) `{!card_free X}.

#[global] Instance holds_stable ks : stable (holds X ks).
Proof.
  intros w w' Hv Hp Hd (Hx & Ht & Hk). split; [by apply (is_stable w)|].
  unfold typed, carded in *. by rewrite Hv.
Qed.

#[global] Instance holds_net_stable ks : net_stable (holds X ks).
Proof.
  split; [apply _|..].
  2:{ intros key a gw w (Hx & Ht & Hk). split_and!; [by apply ns_addr| |].
      - intros k i. cbn. rewrite lookup_alter_Some.
        intros [(-> & j & Hj & ->)|[_ Hi]]; [apply (Ht _ _ Hj)|apply (Ht _ _ Hi)].
      - intros k Hin. destruct (Hk k Hin) as [i Hi]. unfold carded. cbn.
        destruct (decide (k = key)) as [->|Hne]; [rewrite lookup_alter_eq, Hi|rewrite lookup_alter_ne by done]; by eexists. }
  all: intros x w (Hx & Ht & Hk); split_and!; [|done|done].
  - by apply ns_cloud.
  - by apply ns_ntp.
  - by apply ns_search.
  - by apply ns_hostname.
  - by apply ns_dns.
Qed.

Lemma holds_insert ks ic ni w :
  holds X ks w →
  holds X (eth ic :: ks) (upd (λ v, set_ifcs (<[eth ic := mkIfc (eth ic) ic ni None []]> (ifcs v)) v) w).
Proof.
  intros (Hx & Ht & Hk). split_and!; [by apply cf_ifcs| |].
  - intros k i. cbn. rewrite lookup_insert_Some. intros [[<- <-]|[_ Hi]]; [done|by apply Ht].
  - intros k Hin. unfold carded. cbn. destruct (decide (k = eth ic)) as [->|Hne]; [rewrite lookup_insert_eq; by eexists|].
    rewrite lookup_insert_ne by done. apply Hk. by apply elem_of_cons in Hin as [|].
Qed.
End holds.

Lemma holds_weaken X ks ks' w : (∀ k, k ∈ ks → k ∈ ks') → holds X ks' w → holds X ks w.
Proof. intros H (Hx & Ht & Hk). split_and!; [done..|]. eauto. Qed.

(** ** Results that say something of the state *)

(** [m] is safe for [I], and a value it returns satisfies [Q] in the state it ends in. *)
Definition yields {A} (I : world → Prop) (m : OS A) (Q : A → world → Prop) : Prop :=
  ∀ w, I w → (∀ why, (m w).1 ≠ Panic why) ∧ I (m w).2 ∧ ∀ a, (m w).1 = Ret a → Q a (m w).2.

Section yields.
Context (I : world → Prop).

Lemma yields_safe_bind {A B} (m : OS A) (f : A → OS B) Q :
  safe I m → (∀ a, yields I (f a) Q) → yields I (m ≫= f) Q.
Proof.
  intros Hm Hf w Hw. destruct (Hm w Hw) as [Hp Hi]. unfold mbind, M_bind.
  destruct (m w) as [[a|e|why|] w1]; [by apply Hf|done|by destruct (Hp why)|done].
Qed.

Lemma yields_ret {A} (a : A) (Q : A → world → Prop) : (∀ w, I w → Q a w) → yields I (mret a) Q.
Proof. intros H w Hw. split_and!; [done|done|]. intros b [= <-]. by apply H. Qed.

Lemma yields_map_pair {A B C} (m : OS (A * B)) (f : A → C) (Q : A * B → world → Prop) Q' :
  yields I m Q → (∀ a b w, Q (a, b) w → Q' (f a, b) w) → yields I ('(a, b) ← m; mret (f a, b)) Q'.
Proof.
  intros Hm HQ w Hw. destruct (Hm w Hw) as (Hp & Hi & Hq). unfold mbind, M_bind.
  destruct (m w) as [[[a b]|e|why|] w1]; [|done|by destruct (Hp why)|done].
  split_and!; [done|done|]. intros c [= <-]. by apply HQ, Hq.
Qed.
End yields.

(** Setting [I] up first. *)
Lemma yields_modify (I J : world → Prop) {A} g (m : OS A) Q :
  (∀ w, I w → J (g w)) → (∀ w, J w → I w) → yields J m Q → yields I (mmodify g;; m) Q.
Proof.
  intros Hg HJ Hm w Hw. rewrite run_modify. destruct (Hm (g w) (Hg w Hw)) as (Hp & Hi & Hq).
  split_and!; [done|by apply HJ|done].
Qed.

(** ** The loop over the devices *)

Section setup.
Context `{K : kernel} `{NL : netlink_lib} `{DL : dhcp_lib} (X : world → Prop) `{!card_free X}.

Local Abbreviation any := (λ _ : event, True).

Lemma tame_networkDeviceType name : tame any (networkDeviceType name).
Proof. unfold networkDeviceType. apply tame_bind; [by apply tame_try, tame_ReadFile|intros r; apply tame_ret]. Qed.

Lemma tame_startLink name : tame any (startLink name).
Proof. unfold startLink. apply tame_bind; [|intros _]; by apply tame_plain. Qed.

Lemma tame_configure_lo name : tame any (configure_lo name).
Proof. unfold configure_lo. apply tame_bind; [|intros _]; by apply tame_ignore, tame_plain. Qed.

Lemma safe_configure_card I `{!stable I} i key c : safe I (configure_card i key c).
Proof.
  unfold configure_card. apply safe_bind; [eapply safe_tame; [done|]; by apply (tame_ignore any), tame_plain|intros _].
  apply safe_bind; [eapply safe_tame; [done|]; apply (tame_foreach any); intros ? _; by apply tame_ignore, tame_plain|intros _].
  unfold handleNetworkTCPDump. destruct (TCPDUMP c); [|apply safe_ret].
  apply safe_bind; [eapply safe_tame; [done|]; by apply (tame_try any), tame_plain|].
  intros r. apply safe_ret.
Qed.

(** The goroutines belong to different configured networks. *)
Definition tasks_for (networks : option (list NetworkInterface)) (ic : nat)
    (tasks : list (string * NetworkInterface)) : Prop :=
  NoDup tasks.*1 ∧
  ∀ k c, (k, c) ∈ tasks → ∃ j nets, k = eth j ∧ (ic ≤ j)%nat ∧ networks = Some nets ∧ nets !! j = Some c.

Lemma tasks_for_nil networks ic : tasks_for networks ic [].
Proof. split; [constructor|]. by intros k c ?%elem_of_nil. Qed.

Lemma tasks_for_cons nets ic c tasks :
  nets !! ic = Some c → tasks_for (Some nets) (S ic) tasks → tasks_for (Some nets) ic ((eth ic, c) :: tasks).
Proof.
  intros Hc [Hnd Ht]. split.
  - constructor; [|done]. intros ([k c'] & Hk & Hin)%list_elem_of_fmap. cbn in Hk. subst k.
    destruct (Ht _ _ Hin) as (j & _ & ->%eth_inj & ? & _). lia.
  - intros k c' [[= -> ->]|Hin]%elem_of_cons; [by exists ic, nets|].
    destruct (Ht _ _ Hin) as (j & nets' & -> & ? & Hn & Hj). exists j, nets'. split_and!; [done|lia|done|done].
Qed.

(** What the loop returns. *)
Definition started networks ic ks (r : list (string * NetworkInterface) * loop_end) (w : world) : Prop :=
  holds X (r.1.*1 ++ ks) w ∧ tasks_for networks ic r.1.

(** The loop does not panic, and the goroutines it starts have their cards in
    the table. *)
Lemma network_loop_yields networks ifaces ic ks :
  yields (holds X ks) (network_loop networks ifaces ic)
    (started networks ic ks).
Proof.
  revert ic ks. induction ifaces as [|i ifaces IH]; intros ic ks; cbn [network_loop].
  { apply yields_ret. intros w Hw. split; [done|apply tasks_for_nil]. }
  assert (∀ ks (e : loop_end), yields (holds X ks) (mret ([], e)) (started networks ic ks)) as Hnil.
  { intros ks' e. apply yields_ret. intros w Hw. split; [done|apply tasks_for_nil]. }
  apply yields_safe_bind; [eapply safe_tame; [apply _|apply tame_networkDeviceType]|].
  intros ty. destruct networks as [nets|]; [|destruct ty; apply IH]. destruct ty; [apply IH| |].
  - apply yields_safe_bind; [eapply safe_tame; [apply _|apply (tame_try any), tame_startLink]|intros [_|e]; [|apply Hnil]].
    apply (yields_modify _ (holds X (eth ic :: ks)));
      [intros w; by apply holds_insert|intros w; apply holds_weaken; set_solver|].
    assert (∀ m ic', yields (holds X (eth ic :: ks)) m (started (Some nets) ic' (eth ic :: ks)) →
      yields (holds X (eth ic :: ks)) m (started (Some nets) ic' ks)) as Hw.
    { intros m ic' Hm w Hw. destruct (Hm w Hw) as (? & ? & Hq). split_and!; [done|done|].
      intros [tasks e] E. destruct (Hq _ E) as [Hh Ht]. split; [|done]. eapply holds_weaken, Hh. set_solver. }
    destruct (nets !! ic) as [c|] eqn:Ec; [|apply Hw, IH].
    apply yields_safe_bind; [apply safe_configure_card, _|intros []; [|apply Hw, Hnil]].
    eapply yields_map_pair; [apply (IH (S ic))|]. intros tasks e w [Hh Ht]. split; cbn; [|by apply tasks_for_cons].
    eapply holds_weaken, Hh. cbn. set_solver.
  - apply yields_safe_bind; [eapply safe_tame; [apply _|apply (tame_try any), tame_startLink]|intros [_|e]; [|apply Hnil]].
    apply yields_safe_bind; [eapply safe_tame; [apply _|apply tame_configure_lo]|intros _; apply IH].
Qed.

(** ** The goroutines of the cards *)

(** Discovery packets that could be built, and offers as the library decodes
    them, with a renewal time that can be read. *)
Definition offers_ok : Prop :=
  packets_built ∧ ∀ k o, dhcp_reply k = Offered o → offer_ok o ∧ renew_ok o = true.

Lemma safe_handleNetworkLink ks key c :
  offers_ok → key ∈ ks → safe (holds X ks) (handleNetworkLink key c).
Proof.
  intros [Hb Hoff] Hin. assert (∀ w, holds X ks w → carded key w) as Hkey by (intros w (_ & _ & Hk); by apply Hk).
  unfold handleNetworkLink. destruct (_ && _).
  - destruct (ParseIP (cfg_IP c)) as [|a ip]; [apply safe_fail|].
    pose proof (wf_ParseIP (cfg_Mask c)) as Hm. destruct (ParseIP (cfg_Mask c)) as [|m mask]; [apply safe_fail|].
    pose proof (wf_ParseIP (cfg_Gateway c)) as Hg. destruct (ParseIP (cfg_Gateway c)) as [|g gw]; [apply safe_fail|].
    apply safe_configInterface; [apply _|done|done|done|]. intros w Hw. by apply (ns_addr key (mkIPNet _ _)).
  - apply safe_vget. intros w0 Hw0. destruct (Hkey w0 Hw0) as [i ->].
    apply safe_bind; [by apply safe_fetchDHCP; [apply _|..]|intros _; apply safe_ret].
Qed.

(** ** What is printed *)

(** [sortAndPrint] panics only on a card without an address. *)
Lemma sortAndPrint_panics m why :
  sortAndPrint m = Panic why → why = NilDeref ∧ ∃ k i, m !! k = Some i ∧ if_addr i = None.
Proof.
  unfold sortAndPrint. intros H.
  destruct (decide (Forall (λ p, if_addr p.2 ≠ None) (map_to_list m))) as [Hall|Hno].
  - exfalso. destruct (print_loop_ok m (merge_sort string_le (map_to_list m).*1)) as [lines E].
    + intros k [i Hi]%elem_of_sorted_keys.
      pose proof (proj1 (Forall_forall _ _) Hall (k, i) (proj2 (elem_of_map_to_list _ _ _) Hi)) as Ha.
      cbn in Ha. destruct (if_addr i) as [a|] eqn:Ea; [|done]. by exists i, a.
    + rewrite E in H. done.
  - apply not_Forall_Exists, Exists_exists in Hno; [|apply _]. destruct Hno as ([k i] & Hi%elem_of_map_to_list & Ha).
    assert (if_addr i = None) as Hn by (cbn in Ha; destruct (if_addr i); [by destruct Ha|done]).
    rewrite (print_loop_nil m _ k i) in H; [|by intros j; rewrite elem_of_sorted_keys| |done|done].
    + injection H as <-. split; [done|]. by exists k, i.
    + apply elem_of_sorted_keys. by eexists.
Qed.

(** Some card has no address. *)
Definition unaddressed (w : world) : Prop := ∃ k i, ifcs (vinitd w) !! k = Some i ∧ if_addr i = None.

Context `{SC : schedule}.

(** The goroutine of a card reports an error. *)
Definition reports (t : string * NetworkInterface) : Prop := ∃ w e, (handleNetworkLink t.1 t.2 w).1 = Fail e.

(** Two of the configured networks could not be set up. *)
Definition two_reports (networks : option (list NetworkInterface)) : Prop :=
  ∃ nets i j c c', networks = Some nets ∧ i ≠ j ∧ nets !! i = Some c ∧ nets !! j = Some c' ∧
    reports (eth i, c) ∧ reports (eth j, c').

Lemma dies_stragglers ks closed tasks :
  offers_ok → (∀ t, t ∈ tasks → t.1 ∈ ks) →
  dies (holds X ks) (λ why _, why = SendOnClosed ∧ closed = true ∧ ∃ t, t ∈ tasks ∧ reports t) (stragglers closed tasks).
Proof.
  intros Hoff Hks. unfold stragglers. destruct overtakes; [|apply dies_safe, safe_ret].
  apply dies_foreach. intros [key c] Hin. apply dies_bind_val.
  { apply dies_safe, safe_try, safe_handleNetworkLink; [done|]. by apply (Hks (key, c)). }
  intros w0 [u|e] w1 _ E; [apply dies_safe, safe_ret|]. destruct closed; [|apply dies_safe, safe_ret].
  apply dies_panic. intros w _. split_and!; [done|done|]. exists (key, c). split; [done|].
  exists w0, e. revert E. unfold mtry. cbn. destruct (handleNetworkLink key c w0) as [[] ?]; by intros [= -> ->].
Qed.

Lemma dies_wait_cards networks ks tasks :
  offers_ok → (∀ t, t ∈ tasks → t.1 ∈ ks) → tasks_for networks 0 tasks →
  dies (holds X ks) (λ why _, why = SendOnClosed ∧ two_reports networks) (wait_cards tasks).
Proof.
  intros Hoff. induction tasks as [|[key c] tasks IH]; intros Hks [Hnd Ht]; cbn [wait_cards]; [apply dies_safe, safe_ret|].
  cbn in Hnd. apply NoDup_cons in Hnd as [Hkey Hnd]. apply dies_bind_val.
  { apply dies_safe, safe_try, safe_handleNetworkLink; [done|]. apply (Hks (key, c)). left. }
  intros w0 [u|e] w1 _ E.
  { apply IH; [intros t Hin; apply Hks; by right|]. split; [done|]. intros k c' Hin. apply Ht. by right. }
  apply dies_bind; [|intros _; apply dies_safe, safe_fail].
  eapply dies_weaken; [|apply dies_stragglers; [done|intros t Hin; apply Hks; by right]].
  intros why w (-> & _ & [k' c'] & Hin & Hr). split; [done|].
  destruct (Ht key c) as (i & nets & -> & _ & Hn & Hi); [left|].
  destruct (Ht k' c') as (j & nets' & -> & _ & Hn' & Hj); [by right|]. assert (nets' = nets) as -> by congruence.
  exists nets, i, j, c, c'. split_and!; [done| |done|done| |done].
  - intros ->. apply Hkey. by apply (list_elem_of_fmap_2 fst _ (eth j, c')).
  - exists w0, e. revert E. unfold mtry. cbn. destruct (handleNetworkLink _ c w0) as [[] ?]; by intros [= -> ->].
Qed.

(** Why [networkSetup] panics. *)
Definition network_panic (networks : option (list NetworkInterface)) (why : panic) (w : world) : Prop :=
  (why = NilDeref ∧ unaddressed w) ∨ (why = SendOnClosed ∧ two_reports networks).

Lemma dies_cards networks ks :
  dies (holds X ks) (network_panic networks) (v ← vget; lift (sortAndPrint (ifcs v));; configRoutes (Routing (vcfg v))).
Proof.
  intros w Hw. rewrite run_vget. unfold lift, mbind at 1 2 3, M_bind.
  destruct (sortAndPrint (ifcs (vinitd w))) as [lines|e|why|] eqn:E; [|done| |done].
  - cbn. destruct (run_configRoutes (Routing (vcfg (vinitd w))) w) as (evs & -> & _).
    split; [by eapply is_stable, Hw|done].
  - split; [exact Hw|]. intros why' [= <-]. left. by apply sortAndPrint_panics.
Qed.

Lemma networkSetup_dies w :
  offers_ok → holds X [] w →
  holds X [] (networkSetup w).2 ∧
  ∀ why, (networkSetup w).1 = Panic why → network_panic (Networks (vcfg (vinitd w))) why (networkSetup w).2.
Proof.
  intros Hoff Hw. unfold networkSetup.
  assert (∃ o w1, sys (SNetlink "interfaces" "" []) (λ w, inl (k_interfaces, w)) w
    = (match o with inl a => Ret a | inr e => Fail e end, w1) ∧ holds X [] w1 ∧ vinitd w1 = vinitd w)
    as (o & w1 & E & Hw1 & V1).
  { unfold sys, sys_with. destruct (k_fail _ _) as [[]|]; [eexists (inr _), _|eexists (inl _), _];
      (split_and!; [done|by eapply is_stable, Hw|done]). }
  destruct o as [ifaces|e]; [rewrite (run_ret _ _ _ _ _ E)|by rewrite (run_fail _ _ _ _ _ E)].
  rewrite run_vget, V1. set (networks := Networks (vcfg (vinitd w))).
  destruct (network_loop_yields networks ifaces 0 [] w1 Hw1) as (Hp & Hi & Hq).
  match goal with |- context [((network_loop networks ifaces 0 ≫= ?f) w1).2] => set (rest := f) end.
  destruct (network_loop networks ifaces 0 w1) as [[[tasks e]|e|why|] w2] eqn:El;
    [rewrite (run_ret _ _ _ _ _ El)|by rewrite (run_fail _ _ _ _ _ El)|by destruct (Hp why)
    |unfold mbind, M_bind; by rewrite El].
  destruct (Hq _ eq_refl) as [Hh Ht]. cbn in Hh, Ht. unfold rest. clear rest Hp Hi Hq El E.
  set (ks := tasks.*1 ++ []) in *.
  assert (∀ t, t ∈ arrange tasks → t.1 ∈ ks) as Hks.
  { intros t. rewrite arrange_perm. intros Hin. apply elem_of_app. left. by apply list_elem_of_fmap_2. }
  assert (tasks_for networks 0 (arrange tasks)) as Ht'.
  { destruct Ht as [H1 H2]. split; [by rewrite arrange_perm|]. intros k c. rewrite arrange_perm. apply H2. }
  match goal with |- context [(?m w2).1 = _] => assert (dies (holds X ks) (network_panic networks) m) as Hd end.
  { destruct e as [|err|].
    - apply dies_bind; [|intros _; apply dies_cards].
      eapply dies_weaken; [|by apply (dies_wait_cards networks)]. intros why w3 ?. by right.
    - apply dies_bind; [|intros _; apply dies_safe, safe_fail].
      eapply dies_weaken; [|by apply dies_stragglers]. by intros why w3 (_ & ? & _).
    - apply dies_bind; [|intros _; apply dies_safe, safe_waiting].
      eapply dies_weaken; [|by apply dies_stragglers]. by intros why w3 (_ & ? & _). }
  destruct (Hd w2 Hh) as [H1 H2]. split; [|done]. eapply holds_weaken, H1. set_solver.
Qed.
End setup.

(** C20: Whatever the kernel refuses, in whatever order the goroutines of the cards
    run, and whatever the DHCP server offers (discovery packets that can be built,
    and a renewal time of at least four bytes), [networkSetup] leaves a card table
    in which every card is filed under the name of its number, and it panics in two
    ways only: it dereferences the address of a card that has none, or two
    configured networks cannot be set up and the second error is sent on the channel
    that was closed after the first. *)
Theorem networkSetup_typed `{K : kernel} `{NL : netlink_lib} `{DL : dhcp_lib} `{SC : schedule} w :
  offers_ok → typed w →
  typed (networkSetup w).2 ∧
  ∀ why, (networkSetup w).1 = Panic why →
    (why = NilDeref ∧ ∃ k i, ifcs (vinitd (networkSetup w).2) !! k = Some i ∧ if_addr i = None) ∨
    (why = SendOnClosed ∧ two_reports (Networks (vcfg (vinitd w)))).
Proof.
  intros Hoff Ht. destruct (networkSetup_dies (λ _, True) w Hoff) as [(_ & Ht' & _) Hp]; [|done].
  split_and!; [done|done|]. by intros k ?%elem_of_nil.
Qed.

(** ** Witness *)

Definition bad_nets : list NetworkInterface := [mkNet "10.0.0" "" "" 1500 false false; mkNet "x" "" "" 1500 false false].

Lemma networkSetup_typed_witness :
  let w := @networkSetup two_cards cidr_lib silent_dhcp backwards (ex_net_world bad_nets) in
  typed w.2 ∧ w.1 = Panic SendOnClosed ∧ @two_reports two_cards cidr_lib silent_dhcp (Some bad_nets).
Proof.
  assert ((@networkSetup two_cards cidr_lib silent_dhcp backwards (ex_net_world bad_nets)).1 = Panic SendOnClosed) as E
    by (vm_compute; reflexivity).
  destruct (@networkSetup_typed two_cards cidr_lib silent_dhcp backwards (ex_net_world bad_nets)) as [Ht Hp].
  - split; [intros k why Ho; discriminate Ho|intros k o Ho; discriminate Ho].
  - intros k i Hk. change (ifcs (vinitd (ex_net_world bad_nets))) with (∅ : gmap string ifc) in Hk. by rewrite lookup_empty in Hk.
  - cbv zeta. split_and!; [exact Ht|exact E|]. destruct (Hp SendOnClosed E) as [[H _]|[_ H]]; [discriminate H|exact H].
Defined.
