(* ===== verification/Cloud.v ===== *)
(** * Cloud metadata ([src/pkg/vorteil/conf.go])

    The requests to the metadata servers, what their answers put into the
    environment of the programs, the report to Azure and the polling for the
    load balancer addresses of Google.  The servers are the kernel's [k_respond];
    the clock is a parameter that no call turns back and that a wait moves. *)

From Stdlib Require Import Ascii.
From S2P Require Import Prelude GoStrings GoPath GoNet Json Types BlockDev Os Process Route Dhcp Network Launch LaunchTheorems Etc Conf.
Local Open Scope string_scope.

(** ** URLs *)

(** [url.Parse] of a text that starts with a scheme and an address: control
    bytes and bad escapes are errors. *)
Definition is_ctl (a : ascii) : bool := (code a <? 32)%nat || (code a =? 127)%nat.

Fixpoint has_ctl (s : string) : bool :=
  match s with "" => false | String a s => is_ctl a || has_ctl s end.

Fixpoint escapes_ok (s : string) : bool :=
  match s with
  | "" => true
  | String a s' =>
      if Ascii.eqb a "%" then
        match s' with
        | String b (String c s'') =>
            match hex_val b, hex_val c with Some _, Some _ => escapes_ok s'' | _, _ => false end
        | _ => false
        end
      else escapes_ok s'
  end.

Definition before (s sep : string) : string := match Cut s sep with Some (l, _) => l | None => s end.
Definition behind (s sep : string) : string := match Cut s sep with Some (_, r) => r | None => "" end.

Definition url_ok (url : string) : bool :=
  let u := before url "#" in
  negb (has_ctl u) && escapes_ok (before u "?") && escapes_ok (behind url "#").

(** ** Requests *)

Definition getRequest : string := "GET".
Definition azureWireServer : string := "168.63.129.16".
Definition metadataURL : string := "http://169.254.169.254".

Record cloudReq := mkCloudReq {
  server : string;
  interfaceURL : string;
  customDataURL : string;
  hostnameURL : string;
  cr_header : gmap string string;
  cr_query : gmap string string
}.

Definition azureReq : cloudReq :=
  mkCloudReq metadataURL
    "%s/metadata/instance/network/interface/%d/ipv4/ipAddress/0/publicIpAddress"
    "%s/metadata/instance/compute/customData"
    ""
    (list_to_map [("Metadata", "True"); ("Host", "metadata.azure.internal")])
    (list_to_map [("format", "text"); ("api-version", "2019-02-01")]).

Definition gcpReq : cloudReq :=
  mkCloudReq metadataURL
    "%s/computeMetadata/v1/instance/network-interfaces/%d/access-configs/0/external-ip"
    "%s/computeMetadata/v1/instance/attributes/vorteil"
    "%s/computeMetadata/v1/instance/hostname"
    (list_to_map [("Host", "metadata.google.internal"); ("Metadata-Flavor", "Google")])
    ∅.

Definition ec2Req : cloudReq :=
  mkCloudReq metadataURL
    "%s/latest/meta-data/public-ipv4"
    "%s/latest/user-data"
    "%s/latest/meta-data/public-hostname"
    (list_to_map [("Host", "metadata.ec2.internal"); ("Metadata", "true")])
    ∅.

Definition envUserData : string := "USERDATA".
Definition envExtHostname : string := "EXT_HOSTNAME".
Definition envRegion : string := "CLOUD_REGION".
Definition envInstanceID : string := "CLOUD_INSTANCE_ID".

(** Go ranges over the cards in any order. *)
Class ifc_order := {
  range_ifcs : gmap string ifc → list ifc;
  range_ifcs_perm m : range_ifcs m ≡ₚ (map_to_list m).*2
}.

(** The time in milliseconds, after the calls so far. *)
Class clock := {
  now : list event → Z;
  now_mono t e : (now t ≤ now (t ++ [e]))%Z;
  now_sleep t ms : (now t + ms ≤ now (t ++ [mkEvent (SSleep ms) None]))%Z
}.

Section cloud.
Context `{K : kernel} `{IO : ifc_order} `{CL : clock}.

(** An exchange with a server that answers or refuses: the status and the body. *)
Definition exchange (r : Request) : OS (Z * string) :=
  sys (SHttp r) (λ w,
    match k_respond (length (trace w)) r with
    | Some a => inl (a, w)
    | None => inr (Errorf "no answer")
    end).

(** [client.Do] of an [http.Client] without a timeout: when the server never
    answers, it never returns. *)
Definition Do (r : Request) : OS (Z * string) :=
  w ← mget;
  if k_hangs (length (trace w)) r then quiet (SHttp r);; waiting else exchange r.

(** [ioutil.ReadAll(resp.Body)] *)
Definition ReadBody (r : Request) (body : string) : OS string :=
  sys (SHttpRead (rq_url r)) (λ w, inl (body, w)).

Definition get_request (url : string) (header query : gmap string string) : Request :=
  mkRequest getRequest url header query "".

Definition doMetadataRequest (url : string) (header query : gmap string string) : OS string :=
  if negb (url_ok url) then mfail (Errorf "invalid url")
  else
    let req := get_request url header query in
    '(status, body) ← Do req;
    respByte ← ReadBody req body;
    if (status =? 200)%Z then mret (TrimSpace respByte) else mfail (Errorf "metadata not found").

(** ** Environment *)

Definition put_env (k x : string) : OS unit := vmodify (λ v, set_envs (<[k := x]> (v_envs v)) v).

(** The loop over the cards; the result are the pollers it starts. *)
Fixpoint probe_ips (creq : cloudReq) (l : list ifc) : OS (list (string * nat)) :=
  match l with
  | [] => mret []
  | i :: l =>
      v ← vget;
      let ec2 := bool_decide (v_cloud v = cpEC2) in
      let url := if ec2 then Sprintf (interfaceURL creq) [AStr (server creq)]
                 else Sprintf (interfaceURL creq) [AStr (server creq); ADec (Z.of_nat (if_idx i))] in
      r ← mtry (doMetadataRequest url (cr_header creq) (cr_query creq));
      match r with
      | inr _ => probe_ips creq l
      | inl r =>
          put_env (envExtIP (if_idx i)) r;;
          if ec2 then mret []
          else
            pollers ← probe_ips creq l;
            mret (if bool_decide (v_cloud v = cpGCP) then (if_name i, if_idx i) :: pollers else pollers)
      end
  end.

(** A JSON object of strings sets variables; the order of its members does not
    matter. *)
Definition use_userdata (userdata : string) : OS unit :=
  put_env envUserData userdata;;
  (match Unmarshal_strings userdata with
   | Some envs => vmodify (λ v, set_envs (envs ∪ v_envs v) v)
   | None => mret tt
   end);;
  put_env envUserData userdata.

Definition probe_userdata (creq : cloudReq) : OS unit :=
  r ← mtry (doMetadataRequest (Sprintf (customDataURL creq) [AStr (server creq)]) (cr_header creq) (cr_query creq));
  match r with
  | inr _ => mret tt
  | inl userdata => use_userdata userdata
  end.

Definition probe_hostname (creq : cloudReq) : OS unit :=
  if String.eqb (hostnameURL creq) "" then mret tt
  else
    r ← mtry (doMetadataRequest (Sprintf (hostnameURL creq) [AStr (server creq)]) (cr_header creq) (cr_query creq));
    match r with inr _ => mret tt | inl hn => put_env envExtHostname hn end.

Definition put_string (d : gmap string json) (k var : string) : OS unit :=
  match d !! k with Some (JString sv) => put_env var sv | _ => mret tt end.

Definition identity_url (creq : cloudReq) : string :=
  Sprintf "%s/latest/dynamic/instance-identity/document" [AStr (server creq)].

Definition probe_identity (creq : cloudReq) : OS unit :=
  r ← mtry (doMetadataRequest (identity_url creq) (cr_header creq) (cr_query creq));
  let d := Unmarshal_any (match r with inl hn => hn | inr _ => "" end) in
  put_string d "region" envRegion;;
  put_string d "instanceId" envInstanceID.

Definition probe (creq : cloudReq) : OS (list (string * nat)) :=
  v ← vget;
  pollers ← probe_ips creq (range_ifcs (ifcs v));
  probe_userdata creq;;
  probe_hostname creq;;
  v ← vget;
  (if bool_decide (v_cloud v = cpEC2) then probe_identity creq else mret tt);;
  mret pollers.

(** ** Google's load balancers *)

Definition addVirtualRouting (dev ip : string) : OS unit :=
  quiet (SRun ["helper_add_gcp_virtual_route"; dev; ip]).

Definition forwarded_url (creq : cloudReq) (idx : nat) (s : string) : string :=
  Sprintf "%s/computeMetadata/v1/instance/network-interfaces/%d/forwarded-ips/%s"
    [AStr (server creq); ADec (Z.of_nat idx); AStr s].

(** What a round does after its wait. *)
Definition poll_round (creq : cloudReq) (name : string) (idx : nat) : OS unit :=
  r ← mtry (doMetadataRequest (forwarded_url creq idx "") (cr_header creq) (cr_query creq));
  match r with
  | inr _ => mret tt
  | inl r =>
      mforeach (λ s,
        r ← mtry (doMetadataRequest (forwarded_url creq idx s) (cr_header creq) (cr_query creq));
        match r with inr _ => mret tt | inl ip => addVirtualRouting name ip end) (Split r nl)
  end.

Fixpoint poll_loop (fuel : nat) (start : Z) (creq : cloudReq) (name : string) (idx : nat) : OS unit :=
  match fuel with
  | O => waiting
  | S fuel =>
      quiet (SSleep 30000);;
      w ← mget;
      if (start <? now (trace w))%Z then mret tt
      else poll_round creq name idx;; poll_loop fuel start creq name idx
  end.

(** Half an hour of waits of half a minute: 61 rounds are enough. *)
Definition pollGCP (creq : cloudReq) (name : string) (idx : nat) : OS unit :=
  w ← mget;
  poll_loop 61 (now (trace w) + 30 * 60 * 1000) creq name idx.

(** ** Azure *)

(** The group of the first match of the expression that has any text without a
    less-than sign between [opening] and [closing]; [closing] starts with that sign,
    so the text ends at the next one. *)
Fixpoint find_tag (opening closing s : string) : option string :=
  match s with
  | "" => None
  | String _ s' =>
      if HasPrefix s opening then
        let rest := TrimPrefix s opening in
        let body := before rest "<" in
        if HasPrefix (str_drop (String.length body) rest) closing then Some body
        else find_tag opening closing s'
      else find_tag opening closing s'
  end.

Definition agent_header : gmap string string :=
  list_to_map [("x-ms-agent-name", "WALinuxAgent"); ("x-ms-version", "2012-11-30")].

Definition health_xml (cid iid : string) : string :=
  "<?xml version=" +:+ quoted "1.0" +:+ " encoding=" +:+ quoted "utf-8" +:+ "?><Health xmlns:xsi="
  +:+ quoted "http://www.w3.org/2001/XMLSchema-instance" +:+ " xmlns:xsd="
  +:+ quoted "http://www.w3.org/2001/XMLSchema"
  +:+ Sprintf "><GoalStateIncarnation>1</GoalStateIncarnation><Container><ContainerId>%s</ContainerId><RoleInstanceList><Role><InstanceId>%s</InstanceId><Health><State>Ready</State></Health></Role></RoleInstanceList></Container></Health>"
        [AStr cid; AStr iid].

Definition goalstate_request : Request :=
  mkRequest getRequest ("http://" +:+ azureWireServer +:+ "/machine/") agent_header {["comp" := "goalstate"]} "".

Definition health_request (cid iid : string) : Request :=
  let xml := health_xml cid iid in
  mkRequest "POST" ("http://" +:+ azureWireServer +:+ "/machine/")
    (<["Content-Type" := "text/xml;charset=utf-8"]>
       (<["Content-Length" := itoa (Z.of_nat (String.length xml))]> agent_header))
    {["comp" := "health"]} xml.

(** [result[0]] of an expression without a match panics before the check. *)
Definition first_match (opening closing s : string) : outcome string :=
  match find_tag opening closing s with Some t => Ret t | None => Panic IndexOutOfRange end.

Definition updateHealthAzure : OS unit :=
  r ← mtry (Do goalstate_request);
  match r with
  | inr _ => mret tt
  | inl (status, body) =>
      r ← mtry (ReadBody goalstate_request body);
      match r with
      | inr _ => mret tt
      | inl r =>
          if (status =? 200)%Z then
            cid ← lift (first_match "<ContainerId>" "</ContainerId>" r);
            iid ← lift (first_match "<InstanceId>" "</InstanceId>" r);
            ignore (Do (health_request cid iid))
          else mret tt
      end
  end.

Definition fetchCloudMetadata : OS (list (string * nat)) :=
  basicEnv;;
  v ← vget;
  if bool_decide (v_cloud v = cpAzure) then updateHealthAzure;; probe azureReq
  else if bool_decide (v_cloud v = cpGCP) then probe gcpReq
  else if bool_decide (v_cloud v = cpEC2) then probe ec2Req
  else mret [].
End cloud.

(** ** Polling ends *)

Local Open Scope list_scope.

Section polling.
Context `{K : kernel} `{CL : clock} (creq : cloudReq) (name : string) (idx : nat).

(** What a poller does: it waits, asks its own URLs and sets routes of its card. *)
Definition poll_event (e : event) : Prop :=
  match ev_call e with
  | SSleep ms => ms = 30000%Z
  | SHttp r => ∃ s, r = get_request (forwarded_url creq idx s) (cr_header creq) (cr_query creq)
  | SHttpRead url => ∃ s, url = forwarded_url creq idx s
  | SRun args => ∃ ip, args = ["helper_add_gcp_virtual_route"; name; ip]
  | _ => False
  end.

Definition asks (e : event) : Prop := poll_event e ∧ ∀ ms, ev_call e ≠ SSleep ms.

Lemma tame_exchange P r : (∀ e, P (mkEvent (SHttp r) e)) → tame P (exchange r).
Proof.
  intros H. apply tame_sys_with; [done|done|]. intros w a w'.
  destruct (k_respond _ _); [|done]. by intros [= _ <-].
Qed.

Lemma Do_answered r w : (∀ n r, k_hangs n r = false) → Do r w = exchange r w.
Proof. intros Hans. unfold Do. by rewrite run_get, Hans. Qed.

Lemma tame_Do P r : (∀ n r, k_hangs n r = false) → (∀ e, P (mkEvent (SHttp r) e)) → tame P (Do r).
Proof. intros Hans H w. rewrite Do_answered by done. by apply tame_exchange. Qed.

Lemma tame_ReadBody P r body : (∀ e, P (mkEvent (SHttpRead (rq_url r)) e)) → tame P (ReadBody r body).
Proof. intros H. apply tame_sys_with; [done|done|]. by intros w a w' [= _ <-]. Qed.

Lemma tame_doMetadataRequest P url h q :
  (∀ n r, k_hangs n r = false) →
  (∀ e, P (mkEvent (SHttp (get_request url h q)) e)) → (∀ e, P (mkEvent (SHttpRead url) e)) →
  tame P (doMetadataRequest url h q).
Proof.
  intros Hans H1 H2. unfold doMetadataRequest. destruct (negb _); [apply tame_fail|].
  apply tame_bind; [by apply tame_Do|]. intros [status body].
  apply tame_bind; [by apply tame_ReadBody|]. intros r. destruct (_ =? _)%Z; [apply tame_ret|apply tame_fail].
Qed.

Lemma quietly_poll_round : (∀ n r, k_hangs n r = false) → quietly asks (poll_round creq name idx).
Proof.
  intros Hans.
  assert (∀ s, tame asks (doMetadataRequest (forwarded_url creq idx s) (cr_header creq) (cr_query creq))) as Ha.
  { intros s. apply tame_doMetadataRequest; [done|..]; intros e; (split; [by exists s|done]). }
  apply quietly_bind; [apply quietly_try, Ha|]. intros [r|e]; [|apply quietly_ret].
  apply quietly_foreach. intros s _. apply quietly_bind; [apply quietly_try, Ha|].
  intros [ip|e]; [|apply quietly_ret]. apply quietly_quiet. split; [by exists ip|done].
Qed.

Definition sleeps (e : event) : bool := match ev_call e with SSleep _ => true | _ => false end.

Lemma asks_no_sleep evs : Forall asks evs → List.filter sleeps evs = [].
Proof.
  induction 1 as [|e evs [_ He] _ IH]; [done|]. cbn. unfold sleeps at 1.
  destruct (ev_call e) eqn:E; try done. by destruct (He ms).
Qed.

Lemma now_app t evs : (now t ≤ now (t ++ evs))%Z.
Proof.
  revert t. induction evs as [|e evs IH]; intros t; [by rewrite app_nil_r|].
  etransitivity; [apply (now_mono t e)|]. rewrite (cons_middle e t evs), app_assoc. apply IH.
Qed.

(** With enough rounds left the loop returns, after at most as many waits. *)
Lemma poll_loop_ends fuel start w :
  (∀ n r, k_hangs n r = false) → (start < now (trace w) + 30000 * Z.of_nat (S fuel))%Z →
  ∃ w' evs, (∀ more, poll_loop (S fuel + more) start creq name idx w = (Ret tt, w')) ∧
    trace w' = trace w ++ evs ∧ Forall poll_event evs ∧ vars w' = vars w ∧
    (length (List.filter sleeps evs) ≤ S fuel)%nat.
Proof.
  intros Hans. revert w. induction fuel as [|fuel IH]; intros w Hw;
    pose proof (now_sleep (trace w) 30000) as Hs; set (w1 := record (SSleep 30000) None w);
    change (trace w ++ _) with (trace w1) in Hs;
    (destruct (Z.ltb_spec start (now (trace w1))) as [Hlt|Hge];
     [exists w1, [mkEvent (SSleep 30000) None]; split_and!; [|done|by constructor|done|cbn; lia];
      intros more; cbn [Nat.add poll_loop];
      rewrite (run_ret _ _ w tt w1), run_get by done; by rewrite (proj2 (Z.ltb_lt _ _) Hlt)|]).
  { lia. }
  destruct (quietly_poll_round Hans w1) as ([] & w2 & e2 & E2 & T2 & F2 & V2).
  destruct (IH w2) as (w3 & e3 & E3 & T3 & F3 & V3 & L3).
  { pose proof (now_app (trace w1) e2) as Hn. rewrite <-T2 in Hn. lia. }
  exists w3, (mkEvent (SSleep 30000) None :: e2 ++ e3). split_and!.
  - intros more. cbn [Nat.add poll_loop]. rewrite (run_ret _ _ w tt w1), run_get by done.
    rewrite (proj2 (Z.ltb_ge _ _) Hge), (run_ret _ _ _ _ _ E2). apply E3.
  - rewrite T3, T2. cbn. by rewrite <-!app_assoc.
  - constructor; [done|]. apply Forall_app. split; [|done]. eapply Forall_impl; [exact F2|]. by intros e [He _].
  - by rewrite V3, V2.
  - cbn [List.filter sleeps ev_call]. rewrite List.filter_app, (asks_no_sleep _ F2). cbn. lia.
Qed.

(** C29: The poller for load balancer addresses ends when the server answers or
    refuses every request: then, whatever the answers are and however long they
    take, 61 rounds are enough for the half hour, further rounds change nothing,
    and up to then the poller only waits, asks for the forwarded addresses of its
    card and sets their routes.  But the client has no timeout: if the server
    leaves the requests open, the poller stays in its first one for ever (unless
    its first wait took the whole half hour). *)
Theorem pollGCP_ends w :
  ((∀ n r, k_hangs n r = false) →
   ∃ w' evs, pollGCP creq name idx w = (Ret tt, w') ∧
    (∀ more, poll_loop (61 + more) (now (trace w) + 30 * 60 * 1000) creq name idx w = (Ret tt, w')) ∧
    trace w' = trace w ++ evs ∧ Forall poll_event evs ∧ vars w' = vars w ∧
    (length (List.filter sleeps evs) ≤ 61)%nat) ∧
  ((∀ n r, k_hangs n r = true) → url_ok (forwarded_url creq idx "") = true →
   let waited := trace w ++ [mkEvent (SSleep 30000) None] in
   (now waited ≤ now (trace w) + 30 * 60 * 1000)%Z →
   ∃ w', pollGCP creq name idx w = (Halted, w') ∧ vars w' = vars w ∧
     trace w' = waited ++ [mkEvent (SHttp (get_request (forwarded_url creq idx "") (cr_header creq) (cr_query creq))) None]).
Proof.
  split.
  - intros Hans. destruct (poll_loop_ends 60 (now (trace w) + 30 * 60 * 1000) w Hans) as (w' & evs & E & ?); [lia|].
    exists w', evs. split; [|done]. unfold pollGCP. rewrite run_get. apply (E 0).
  - intros Hhang Hurl waited Hnow. unfold pollGCP. rewrite run_get. cbn [poll_loop].
    rewrite (run_ret _ _ w tt (record (SSleep 30000) None w)), run_get by done. cbn [trace record set_trace].
    fold waited. rewrite (proj2 (Z.ltb_ge _ _) Hnow).
    eexists. unfold poll_round, doMetadataRequest, Do. rewrite Hurl. cbn [negb].
    unfold mtry, mbind, M_bind, mget. rewrite Hhang. by split_and!.
Qed.
End polling.

(** ** What the metadata may change *)

(** From [w] to [w'] only the environment changed, no variable was lost and only
    those of [T] have new values. *)
Definition env_frame (T : string → Prop) (w w' : world) : Prop :=
  ∃ m, vars w' = vars (upd (set_envs m) w) ∧
    (∀ x, is_Some (v_envs (vinitd w) !! x) → is_Some (m !! x)) ∧
    (∀ x, ¬ T x → m !! x = v_envs (vinitd w) !! x).

Lemma set_envs_id v : set_envs (v_envs v) v = v.
Proof. by destruct v as [???[]]. Qed.

Lemma v_envs_set m v : v_envs (set_envs m v) = m.
Proof. done. Qed.

Lemma set_envs_set m m' v : set_envs m (set_envs m' v) = set_envs m v.
Proof. done. Qed.

#[export] Instance env_frame_preorder T : PreOrder (env_frame T).
Proof.
  split.
  - intros w. exists (v_envs (vinitd w)). split_and!; [|done|done].
    unfold vars, upd. cbn. by rewrite set_envs_id.
  - intros w1 w2 w3 (m & V & H1 & H2) (m' & V' & H1' & H2').
    assert (vinitd w2 = set_envs m (vinitd w1)) as E2 by (unfold vars, upd in V; cbn in V; congruence).
    rewrite E2, v_envs_set in H1', H2'. exists m'. split_and!.
    + rewrite V'. unfold vars, upd in *. cbn in *. rewrite E2, set_envs_set. congruence.
    + auto.
    + intros x Hx. rewrite (H2' x Hx). by apply H2.
Qed.

Section frame.
Context `{K : kernel} `{IO : ifc_order} (creq : cloudReq).

Definition custom_url : string := Sprintf (customDataURL creq) [AStr (server creq)].

(** The variables of the metadata: the fixed ones, the external addresses, and
    the members of a JSON object the server may give as custom data. *)
Definition cloud_sets (x : string) : Prop :=
  x ∈ [envUserData; envExtHostname; envRegion; envInstanceID] ∨ (∃ n, x = envExtIP n) ∨
  ∃ n body m, k_respond n (get_request custom_url (cr_header creq) (cr_query creq)) = Some (200%Z, body) ∧
    Unmarshal_strings (TrimSpace body) = Some m ∧ is_Some (m !! x).

Local Abbreviation R := (env_frame cloud_sets).

Lemma frame_tame {A} P (m : OS A) : tame P m → keeps R m.
Proof.
  intros H w. destruct (H w) as (o & w' & evs & -> & _ & _ & V). cbn.
  exists (v_envs (vinitd w)). split_and!; [|done|done]. rewrite V. unfold vars, upd. cbn. by rewrite set_envs_id.
Qed.

Lemma frame_vget : keeps R vget.
Proof. intros w. apply reflexivity. Qed.

Lemma frame_put_env k x : cloud_sets k → keeps R (put_env k x).
Proof.
  intros Hk w. exists (<[k := x]> (v_envs (vinitd w))). split_and!; [done| |].
  - intros y Hy. destruct (decide (k = y)) as [->|Hne]; [rewrite lookup_insert_eq; eauto|by rewrite lookup_insert_ne].
  - intros y Hy. apply lookup_insert_ne. by intros ->.
Qed.

Lemma cloud_sets_fixed x : x ∈ [envUserData; envExtHostname; envRegion; envInstanceID] → cloud_sets x.
Proof. by left. Qed.

Lemma frame_request url : keeps R (mtry (doMetadataRequest url (cr_header creq) (cr_query creq))).
Proof.
  apply (keeps_try _). unfold doMetadataRequest. apply keeps_if; [apply keeps_fail, _|].
  apply (keeps_bind _).
  - intros w. unfold Do. rewrite run_get. destruct (k_hangs _ _).
    + exists (v_envs (vinitd w)). split_and!; [|done|done]. unfold vars, upd. cbn. by rewrite set_envs_id.
    + by apply (frame_tame (λ _, True)), tame_exchange.
  - intros [status body]. apply (keeps_bind _); [by apply (frame_tame (λ _, True)), tame_ReadBody|]. intros r.
    apply keeps_if; [apply keeps_ret, _|apply keeps_fail, _].
Qed.

Lemma frame_probe_ips l : keeps R (probe_ips creq l).
Proof.
  induction l as [|i l IH]; cbn [probe_ips]; [apply keeps_ret, _|].
  apply (keeps_bind _); [apply frame_vget|]. intros v.
  apply (keeps_bind _); [apply frame_request|]. intros [r|e]; [|done].
  apply (keeps_bind _); [apply frame_put_env; right; left; by eexists|]. intros _.
  apply keeps_if; [apply keeps_ret, _|]. apply (keeps_bind _); [done|]. intros ps. apply keeps_ret, _.
Qed.

(** An answer the program got is one the server gave. *)
Lemma request_value url h q w a w' :
  doMetadataRequest url h q w = (Ret a, w') →
  ∃ n body, k_respond n (get_request url h q) = Some (200%Z, body) ∧ a = TrimSpace body.
Proof.
  unfold doMetadataRequest, Do, exchange, ReadBody, sys, sys_with, mbind, M_bind, mget.
  destruct (negb _); [done|]. destruct (k_hangs _ _); [done|]. destruct (k_fail _ (SHttp _)) as [[]|]; [done|].
  destruct (k_respond (length (trace w)) _) as [[status body]|] eqn:Er; [|done].
  destruct (k_fail _ (SHttpRead _)) as [[]|]; [done|].
  destruct (Z.eqb_spec status 200) as [->|]; [|done]. intros [= <- _]. by eexists _, _.
Qed.

Lemma frame_use_userdata n body :
  k_respond n (get_request custom_url (cr_header creq) (cr_query creq)) = Some (200%Z, body) →
  keeps R (use_userdata (TrimSpace body)).
Proof.
  intros Hr. apply (keeps_bind _).
  { apply frame_put_env, cloud_sets_fixed. set_solver. }
  intros _. apply (keeps_bind _).
  - destruct (Unmarshal_strings _) as [m|] eqn:Em; [|apply keeps_ret, _].
    intros w2. exists (m ∪ v_envs (vinitd w2)). split_and!; [done| |].
    + intros x Hx. apply lookup_union_is_Some. by right.
    + intros x Hx. apply lookup_union_r. destruct (m !! x) eqn:Ex; [|done].
      destruct Hx. right. right. eexists _, _, _. eauto.
  - intros _. apply frame_put_env, cloud_sets_fixed. set_solver.
Qed.

Lemma frame_probe_userdata : keeps R (probe_userdata creq).
Proof.
  intros w. unfold probe_userdata. fold custom_url. pose proof (frame_request custom_url w) as H1.
  unfold mbind, M_bind. unfold mtry in H1 |- *.
  destruct (doMetadataRequest _ _ _ w) as [[a|e|p|] w1] eqn:E; cbn in H1; try done.
  etransitivity; [exact H1|]. destruct (request_value _ _ _ _ _ _ E) as (n & body & Hr & ->).
  by apply (frame_use_userdata n).
Qed.

Lemma frame_put_string d k var : cloud_sets var → keeps R (put_string d k var).
Proof. intros Hv. unfold put_string. destruct (d !! k) as [[]|]; try apply keeps_ret, _. by apply frame_put_env. Qed.

Lemma nopanic_request url h q : nopanic (doMetadataRequest url h q).
Proof.
  unfold doMetadataRequest. destruct (negb _); [done|].
  apply nopanic_bind.
  { intros w. unfold Do. rewrite run_get. destruct (k_hangs _ _); [done|]. apply nopanic_sys_with. }
  intros [status body]. apply nopanic_bind; [apply nopanic_sys_with|]. intros r. by destruct (_ =? _)%Z.
Qed.

Lemma nopanic_put_string d k var : nopanic (put_string d k var).
Proof. unfold put_string. by destruct (d !! k) as [[]|]. Qed.

Lemma nopanic_probe_ips l : nopanic (probe_ips creq l).
Proof.
  induction l as [|i l IH]; cbn [probe_ips]; [done|]. apply nopanic_bind; [done|]. intros v.
  apply nopanic_bind; [apply nopanic_try, nopanic_request|]. intros [r|e]; [|done].
  apply nopanic_bind; [done|]. intros _. case_match; [done|]. by apply nopanic_bind.
Qed.

Lemma nopanic_probe : nopanic (probe creq).
Proof.
  apply nopanic_bind; [done|]. intros v. apply nopanic_bind; [apply nopanic_probe_ips|]. intros ps.
  apply nopanic_bind; [|intros _; apply nopanic_bind; [|intros _; apply nopanic_bind; [done|intros v'; apply nopanic_bind; [|done]]]].
  + apply nopanic_bind; [apply nopanic_try, nopanic_request|]. intros [d|]; [|done].
    apply nopanic_bind; [done|]. intros _. apply nopanic_bind; [|done]. by destruct (Unmarshal_strings d).
  + unfold probe_hostname. case_match; [done|]. apply nopanic_bind; [apply nopanic_try, nopanic_request|]. by intros [].
  + case_match; [|done]. apply nopanic_bind; [apply nopanic_try, nopanic_request|]. intros r.
    apply nopanic_bind; [|intros _]; apply nopanic_put_string.
Qed.

Lemma frame_probe : keeps R (probe creq).
Proof.
  apply (keeps_bind _); [apply frame_vget|]. intros v. apply (keeps_bind _); [apply frame_probe_ips|]. intros ps.
  apply (keeps_bind _); [apply frame_probe_userdata|]. intros _. apply (keeps_bind _).
  { apply keeps_if; [apply keeps_ret, _|]. apply (keeps_bind _); [apply frame_request|].
    intros [h|e]; [|apply keeps_ret, _]. apply frame_put_env, cloud_sets_fixed. set_solver. }
  intros _. apply (keeps_bind _); [apply frame_vget|]. intros v'. apply (keeps_bind _); [|intros _; apply keeps_ret, _].
  apply keeps_if; [|apply keeps_ret, _]. apply (keeps_bind _); [apply frame_request|]. intros r.
  apply (keeps_bind _); [|intros _]; apply frame_put_string, cloud_sets_fixed; set_solver.
Qed.
(** C28: Whatever the metadata server answers and whatever call fails, [probe]
    does not panic, loses no variable, and gives new values only to USERDATA,
    EXT_HOSTNAME, CLOUD_REGION, CLOUD_INSTANCE_ID, the external addresses and the
    members of a JSON object that the server gave as custom data; nothing but the
    environment changes. *)
Theorem probe_frame : nopanic (probe creq) ∧ keeps (env_frame cloud_sets) (probe creq).
Proof. split; [apply nopanic_probe|apply frame_probe]. Qed.
End frame.

(** ** What a server that answers defines *)

Section values.
Context `{K : kernel} `{IO : ifc_order} (Hok : ∀ n c, k_fail n c = None) (Hans : ∀ n r, k_hangs n r = false).
Context (srv : Request → option (Z * string)) (Hsrv : ∀ n r, k_respond n r = srv r) (creq : cloudReq).

(** The text the server gives for a URL. *)
Definition answer (url : string) : option string :=
  if url_ok url then
    match srv (get_request url (cr_header creq) (cr_query creq)) with
    | Some (status, body) => if (status =? 200)%Z then Some (TrimSpace body) else None
    | None => None
    end
  else None.

Definition ip_url (i : ifc) : string :=
  Sprintf (interfaceURL creq) [AStr (server creq); ADec (Z.of_nat (if_idx i))].

Lemma ok_request url w :
  ∃ r w', mtry (doMetadataRequest url (cr_header creq) (cr_query creq)) w = (Ret r, w') ∧
    vinitd w' = vinitd w ∧ match answer url with Some a => r = inl a | None => ∃ e, r = inr e end.
Proof.
  unfold doMetadataRequest, answer. destruct (url_ok url); cbn [negb]; [|do 2 eexists; split_and!; [done..|by eexists]].
  unfold Do, exchange, ReadBody, sys, sys_with, mtry, mbind, M_bind, mget. rewrite Hans, Hok, Hsrv.
  destruct (srv _) as [[status body]|]; [|do 2 eexists; split_and!; [done..|by eexists]]. rewrite Hok.
  destruct (status =? 200)%Z; do 2 eexists; (split_and!; [done..|by eauto]).
Qed.

(** The external addresses the cards get. *)
Definition ip_envs (l : list ifc) (m : gmap string string) : gmap string string :=
  fold_left (λ m i, match answer (ip_url i) with Some a => <[envExtIP (if_idx i) := a]> m | None => m end) l m.

Definition answered (l : list ifc) : list ifc := List.filter (λ i, bool_decide (is_Some (answer (ip_url i)))) l.

Lemma ok_probe_ips l w :
  v_cloud (vinitd w) ≠ cpEC2 →
  ∃ w', probe_ips creq l w =
      (Ret (if bool_decide (v_cloud (vinitd w) = cpGCP)
            then (λ i, (if_name i, if_idx i)) <$> answered l else []), w') ∧
    vinitd w' = set_envs (ip_envs l (v_envs (vinitd w))) (vinitd w).
Proof.
  revert w. induction l as [|i l IH]; intros w Hc; cbn [probe_ips].
  { exists w. split; [by case_bool_decide|]. exact (eq_sym (set_envs_id _)). }
  rewrite run_vget, (bool_decide_false (v_cloud (vinitd w) = cpEC2)) by done. cbn zeta. fold (ip_url i).
  destruct (ok_request (ip_url i) w) as (r & w1 & E1 & V1 & Hr). rewrite (run_ret _ _ _ _ _ E1).
  unfold ip_envs, answered. cbn [fold_left List.filter]. destruct (answer (ip_url i)) as [a|] eqn:Ea.
  - subst r. cbn match. unfold put_env. rewrite run_vmodify. set (w2 := set_vinitd _ w1).
    assert (vinitd w2 = set_envs (<[envExtIP (if_idx i) := a]> (v_envs (vinitd w))) (vinitd w)) as V2
      by (subst w2; cbn; by rewrite V1).
    destruct (IH w2) as (w3 & E3 & V3); [by rewrite V2|].
    assert (v_cloud (vinitd w2) = v_cloud (vinitd w)) as C2 by (by rewrite V2). rewrite C2 in E3.
    rewrite (run_ret _ _ _ _ _ E3). exists w3. rewrite V2 in V3. split; [|exact V3].
    by destruct (bool_decide (v_cloud (vinitd w) = cpGCP)).
  - destruct Hr as [e ->]. destruct (IH w1) as (w3 & E3 & V3); [by rewrite V1|]. rewrite V1 in E3, V3.
    exists w3. split; [|exact V3]. rewrite E3. by case_bool_decide.
Qed.

(** On EC2 the URL has no index, and the first card of the loop gets the address. *)
Definition ec2_url : string := Sprintf (interfaceURL creq) [AStr (server creq)].

Definition ec2_envs (l : list ifc) (m : gmap string string) : gmap string string :=
  match l, answer ec2_url with
  | i :: _, Some a => <[envExtIP (if_idx i) := a]> m
  | _, _ => m
  end.

Lemma ok_probe_ips_ec2 l w :
  v_cloud (vinitd w) = cpEC2 →
  ∃ w', probe_ips creq l w = (Ret [], w') ∧ vinitd w' = set_envs (ec2_envs l (v_envs (vinitd w))) (vinitd w).
Proof.
  revert w. induction l as [|i l IH]; intros w Hc; cbn [probe_ips].
  { exists w. split; [done|]. exact (eq_sym (set_envs_id _)). }
  rewrite run_vget, bool_decide_true by done. cbn zeta. fold ec2_url.
  destruct (ok_request ec2_url w) as (r & w1 & E1 & V1 & Hr). rewrite (run_ret _ _ _ _ _ E1).
  unfold ec2_envs in *. destruct (answer ec2_url) as [a|].
  - subst r. eexists. split; [done|]. cbn. by rewrite V1.
  - destruct Hr as [e ->]. destruct (IH w1) as (w2 & E2 & V2); [by rewrite V1|]. exists w2. split; [done|].
    rewrite V2, V1. by destruct l.
Qed.

(** The addresses after the loop and the pollers it starts. *)
Definition card_envs (cl : cloud) (l : list ifc) (m : gmap string string) : gmap string string :=
  if bool_decide (cl = cpEC2) then ec2_envs l m else ip_envs l m.

Definition card_pollers (cl : cloud) (l : list ifc) : list (string * nat) :=
  if bool_decide (cl = cpGCP) then (λ i, (if_name i, if_idx i)) <$> answered l else [].

Lemma ok_probe_cards l w :
  ∃ w', probe_ips creq l w = (Ret (card_pollers (v_cloud (vinitd w)) l), w') ∧
    vinitd w' = set_envs (card_envs (v_cloud (vinitd w)) l (v_envs (vinitd w))) (vinitd w).
Proof.
  unfold card_envs, card_pollers. destruct (decide (v_cloud (vinitd w) = cpEC2)) as [Hc|Hc].
  - destruct (ok_probe_ips_ec2 l w Hc) as (w' & E & V). exists w'. rewrite Hc in *. done.
  - destruct (ok_probe_ips l w Hc) as (w' & E & V). exists w'. by rewrite (bool_decide_false (_ = cpEC2)).
Qed.

Lemma ip_envs_other l m x : (∀ i, i ∈ l → x ≠ envExtIP (if_idx i)) → ip_envs l m !! x = m !! x.
Proof.
  revert m. induction l as [|i l IH]; intros m Hx; [done|]. unfold ip_envs in *. cbn [fold_left].
  rewrite IH by (intros j Hj; apply Hx; by right).
  destruct (answer _); [|done]. apply lookup_insert_ne. intros <-. by apply (Hx i); [left|].
Qed.

Lemma ip_envs_lookup l m i a :
  NoDup (if_idx <$> l) → i ∈ l → answer (ip_url i) = Some a → ip_envs l m !! envExtIP (if_idx i) = Some a.
Proof.
  revert m. induction l as [|j l IH]; intros m Hnd Hi Ha; [by apply elem_of_nil in Hi|].
  cbn in Hnd. apply NoDup_cons in Hnd as [Hnj Hnd]. unfold ip_envs. cbn [fold_left].
  apply elem_of_cons in Hi as [->|Hi]; [|by apply IH]. rewrite Ha. fold (ip_envs l (<[envExtIP (if_idx j) := a]> m)).
  rewrite ip_envs_other; [apply lookup_insert_eq|].
  intros i Hi E%envExtIP_inj. apply Hnj. rewrite E. by apply list_elem_of_fmap_2.
Qed.

(** The environment after the custom data. *)
Definition data_envs (m : gmap string string) : gmap string string :=
  match answer (custom_url creq) with
  | Some d => <[envUserData := d]> (default ∅ (Unmarshal_strings d) ∪ <[envUserData := d]> m)
  | None => m
  end.

Lemma ok_probe_userdata w :
  ∃ w', probe_userdata creq w = (Ret tt, w') ∧
    vinitd w' = set_envs (data_envs (v_envs (vinitd w))) (vinitd w).
Proof.
  unfold probe_userdata. fold (custom_url creq). destruct (ok_request (custom_url creq) w) as (r & w1 & E1 & V1 & Hr).
  rewrite (run_ret _ _ _ _ _ E1). unfold data_envs. destruct (answer _) as [d|].
  - subst r. cbn match. unfold use_userdata, put_env. rewrite run_vmodify. destruct (Unmarshal_strings d) as [m|].
    + rewrite run_vmodify. eexists. split; [done|]. cbn. by rewrite V1.
    + rewrite (run_ret _ _ _ tt _ eq_refl). eexists. split; [done|]. cbn. rewrite V1.
      by rewrite (left_id_L ∅ (∪)).
  - destruct Hr as [e ->]. exists w1. split; [done|]. by rewrite V1, set_envs_id.
Qed.

Definition host_envs (m : gmap string string) : gmap string string :=
  if String.eqb (hostnameURL creq) "" then m
  else match answer (Sprintf (hostnameURL creq) [AStr (server creq)]) with
       | Some h => <[envExtHostname := h]> m
       | None => m
       end.

Lemma ok_probe_hostname w :
  ∃ w', probe_hostname creq w = (Ret tt, w') ∧
    vinitd w' = set_envs (host_envs (v_envs (vinitd w))) (vinitd w).
Proof.
  unfold probe_hostname, host_envs. destruct (String.eqb _ _); [exists w; by rewrite set_envs_id|].
  destruct (ok_request (Sprintf (hostnameURL creq) [AStr (server creq)]) w) as (r & w1 & E1 & V1 & Hr).
  rewrite (run_ret _ _ _ _ _ E1). destruct (answer _) as [h|].
  - subst r. eexists. split; [done|]. cbn. by rewrite V1.
  - destruct Hr as [e ->]. exists w1. by rewrite V1, set_envs_id.
Qed.

(** The environment after the identity document of EC2. *)
Definition string_env (d : gmap string json) (k var : string) (m : gmap string string) : gmap string string :=
  match d !! k with Some (JString sv) => <[var := sv]> m | _ => m end.

Definition identity_envs (m : gmap string string) : gmap string string :=
  let d := Unmarshal_any (default "" (answer (identity_url creq))) in
  string_env d "instanceId" envInstanceID (string_env d "region" envRegion m).

Lemma ok_put_string d k var w :
  ∃ w', put_string d k var w = (Ret tt, w') ∧
    vinitd w' = set_envs (string_env d k var (v_envs (vinitd w))) (vinitd w).
Proof.
  unfold put_string, string_env. destruct (d !! k) as [j|]; [|exists w; by rewrite set_envs_id].
  destruct j; try (exists w; by rewrite set_envs_id). by eexists.
Qed.

Lemma ok_probe_identity w :
  ∃ w', probe_identity creq w = (Ret tt, w') ∧
    vinitd w' = set_envs (identity_envs (v_envs (vinitd w))) (vinitd w).
Proof.
  unfold probe_identity, identity_envs.
  destruct (ok_request (identity_url creq) w) as (r & w1 & E1 & V1 & Hr). rewrite (run_ret _ _ _ _ _ E1). cbn zeta.
  assert (match r with inl hn => hn | inr _ => "" end = default "" (answer (identity_url creq))) as ->.
  { destruct (answer _); [by subst r|]. by destruct Hr as [e ->]. }
  set (d := Unmarshal_any _).
  destruct (ok_put_string d "region" envRegion w1) as (w2 & E2 & V2). rewrite (run_ret _ _ _ _ _ E2).
  destruct (ok_put_string d "instanceId" envInstanceID w2) as (w3 & E3 & V3). exists w3. split; [done|].
  by rewrite V3, V2, V1, v_envs_set, set_envs_set.
Qed.

Lemma string_env_other d k var m x : x ≠ var → string_env d k var m !! x = m !! x.
Proof.
  intros Hne. unfold string_env. destruct (d !! k) as [j|]; [|done]. destruct j; try done. by apply lookup_insert_ne.
Qed.

Lemma identity_envs_other m x : x ≠ envRegion → x ≠ envInstanceID → identity_envs m !! x = m !! x.
Proof. intros H1 H2. unfold identity_envs. cbn zeta. by rewrite !string_env_other. Qed.

(** What the last step changes depends on the cloud. *)
Definition last_envs (cl : cloud) (m : gmap string string) : gmap string string :=
  if bool_decide (cl = cpEC2) then identity_envs m else m.

Lemma last_envs_other cl m x :
  (cl = cpEC2 → x ≠ envRegion ∧ x ≠ envInstanceID) → last_envs cl m !! x = m !! x.
Proof. intros Hx. unfold last_envs. case_bool_decide; [|done]. by apply identity_envs_other; apply Hx. Qed.

(** The environment [probe] leaves. *)
Definition probe_envs (cl : cloud) (l : list ifc) (m : gmap string string) : gmap string string :=
  last_envs cl (host_envs (data_envs (card_envs cl l m))).

Lemma ok_probe w :
  let cl := v_cloud (vinitd w) in
  let l := range_ifcs (ifcs (vinitd w)) in
  ∃ w', probe creq w = (Ret (card_pollers cl l), w') ∧
    vinitd w' = set_envs (probe_envs cl l (v_envs (vinitd w))) (vinitd w).
Proof.
  cbn zeta. unfold probe. rewrite run_vget. set (l := range_ifcs (ifcs (vinitd w))).
  destruct (ok_probe_cards l w) as (w1 & E1 & V1). rewrite (run_ret _ _ _ _ _ E1).
  destruct (ok_probe_userdata w1) as (w2 & E2 & V2). rewrite (run_ret _ _ _ _ _ E2).
  destruct (ok_probe_hostname w2) as (w3 & E3 & V3). rewrite (run_ret _ _ _ _ _ E3), run_vget.
  rewrite V1, v_envs_set, set_envs_set in V2. rewrite V2, v_envs_set, set_envs_set in V3.
  assert (v_cloud (vinitd w3) = v_cloud (vinitd w)) as Hc by (by rewrite V3). rewrite Hc.
  unfold probe_envs, last_envs. case_bool_decide as He.
  - destruct (ok_probe_identity w3) as (w4 & E4 & V4). rewrite (run_ret _ _ _ _ _ E4). exists w4. split; [done|].
    by rewrite V4, V3, v_envs_set, set_envs_set.
  - rewrite (run_ret _ _ w3 tt w3) by done. by exists w3.
Qed.

Lemma data_envs_other m x :
  (∀ d envs, answer (custom_url creq) = Some d → Unmarshal_strings d = Some envs → envs !! x = None) →
  x ≠ envUserData → data_envs m !! x = m !! x.
Proof.
  intros Hx Hne. unfold data_envs. destruct (answer _) as [d|] eqn:Ed; [|done].
  rewrite lookup_insert_ne by done.
  rewrite lookup_union_r by (destruct (Unmarshal_strings d) eqn:E; [by eapply Hx|apply lookup_empty]).
  by apply lookup_insert_ne.
Qed.

Lemma host_envs_other m x : x ≠ envExtHostname → host_envs m !! x = m !! x.
Proof.
  intros Hne. unfold host_envs. destruct (String.eqb _ _); [done|]. destruct (answer _); [|done].
  by apply lookup_insert_ne.
Qed.

(** The custom data does not define [x] itself. *)
Definition custom_free (x : string) : Prop :=
  ∀ d envs, answer (custom_url creq) = Some d → Unmarshal_strings d = Some envs → envs !! x = None.

Lemma probe_envs_card cl l m i :
  custom_free (envExtIP (if_idx i)) →
  probe_envs cl l m !! envExtIP (if_idx i) = card_envs cl l m !! envExtIP (if_idx i).
Proof. intros Hd. unfold probe_envs. by rewrite last_envs_other, host_envs_other, data_envs_other. Qed.

Lemma probe_envs_data cl l m d :
  answer (custom_url creq) = Some d →
  probe_envs cl l m !! envUserData = Some d ∧
  ∀ envs k x, Unmarshal_strings d = Some envs → envs !! k = Some x →
    k ≠ envUserData → k ≠ envExtHostname → (cl = cpEC2 → k ≠ envRegion ∧ k ≠ envInstanceID) →
    probe_envs cl l m !! k = Some x.
Proof.
  intros Hd. unfold probe_envs. split.
  - rewrite last_envs_other, host_envs_other by done. unfold data_envs. rewrite Hd. apply lookup_insert_eq.
  - intros envs k x He Hk H1 H2 H3. rewrite last_envs_other, host_envs_other by done. unfold data_envs.
    rewrite Hd, He, lookup_insert_ne by done. by apply lookup_union_Some_l.
Qed.

Lemma probe_envs_host cl l m h :
  hostnameURL creq ≠ "" → answer (Sprintf (hostnameURL creq) [AStr (server creq)]) = Some h →
  probe_envs cl l m !! envExtHostname = Some h.
Proof.
  intros Hu Hh. unfold probe_envs. rewrite last_envs_other by done. unfold host_envs.
  destruct (String.eqb_spec (hostnameURL creq) ""); [done|]. rewrite Hh. apply lookup_insert_eq.
Qed.

Lemma identity_envs_lookup m doc sv :
  answer (identity_url creq) = Some doc →
  (Unmarshal_any doc !! "region" = Some (JString sv) → identity_envs m !! envRegion = Some sv) ∧
  (Unmarshal_any doc !! "instanceId" = Some (JString sv) → identity_envs m !! envInstanceID = Some sv).
Proof.
  intros Ha. unfold identity_envs. rewrite Ha. change (default "" (Some doc)) with doc. cbn zeta. split; intros Hs.
  - rewrite string_env_other by done. unfold string_env. rewrite Hs. apply lookup_insert_eq.
  - unfold string_env at 1. rewrite Hs. apply lookup_insert_eq.
Qed.

(** C27: On a healthy machine whose metadata server keeps giving the same answers,
    [probe] defines USERDATA as the custom data, every member of a JSON object in
    it as a variable (but those set last), EXT_HOSTNAME as the host name, and,
    unless the custom data defines that variable itself, the external address of
    every card the server knows; on EC2, where the server knows one address, the
    one of a single card, and also the region and the instance id of the identity
    document.  On Google exactly one poller is started for each card that got an
    address, elsewhere none. *)
Theorem probe_defines w :
  let v := vinitd w in
  table_ok (ifcs v) →
  ∃ pollers w' m, probe creq w = (Ret pollers, w') ∧ vinitd w' = set_envs m v ∧
    (∀ d, answer (custom_url creq) = Some d → m !! envUserData = Some d ∧
       ∀ envs k x, Unmarshal_strings d = Some envs → envs !! k = Some x →
         k ≠ envUserData → k ≠ envExtHostname → (v_cloud v = cpEC2 → k ≠ envRegion ∧ k ≠ envInstanceID) →
         m !! k = Some x) ∧
    (∀ h, hostnameURL creq ≠ "" → answer (Sprintf (hostnameURL creq) [AStr (server creq)]) = Some h →
       m !! envExtHostname = Some h) ∧
    (v_cloud v ≠ cpEC2 → ∀ k i a, ifcs v !! k = Some i → answer (ip_url i) = Some a →
       custom_free (envExtIP (if_idx i)) → m !! envExtIP (if_idx i) = Some a) ∧
    (v_cloud v = cpEC2 → ∀ a, ifcs v ≠ ∅ → answer ec2_url = Some a →
       ∃ k i, ifcs v !! k = Some i ∧ (custom_free (envExtIP (if_idx i)) → m !! envExtIP (if_idx i) = Some a) ∧
         ∀ k' j, k' ≠ k → ifcs v !! k' = Some j → custom_free (envExtIP (if_idx j)) →
           m !! envExtIP (if_idx j) = v_envs v !! envExtIP (if_idx j)) ∧
    (v_cloud v = cpEC2 → ∀ doc sv, answer (identity_url creq) = Some doc →
       (Unmarshal_any doc !! "region" = Some (JString sv) → m !! envRegion = Some sv) ∧
       (Unmarshal_any doc !! "instanceId" = Some (JString sv) → m !! envInstanceID = Some sv)) ∧
    (v_cloud v = cpGCP →
       pollers ≡ₚ (λ i, (if_name i, if_idx i)) <$> answered (map_to_list (ifcs v)).*2) ∧
    (v_cloud v ≠ cpGCP → pollers = []).
Proof.
  cbn zeta. intros Ht. destruct (ok_probe w) as (w' & E & V). set (l := range_ifcs (ifcs (vinitd w))) in *.
  assert (∀ i, i ∈ l ↔ ∃ k, ifcs (vinitd w) !! k = Some i) as Hl.
  { intros i. subst l. rewrite range_ifcs_perm. apply elem_of_values. }
  eexists _, w', _. split; [exact E|]. split; [exact V|]. split_and!.
  - intros d Hd. by apply probe_envs_data.
  - intros h Hu Hh. by apply probe_envs_host.
  - intros Hc k i a Hk Ha Hd. rewrite probe_envs_card by done. unfold card_envs. rewrite bool_decide_false by done.
    apply ip_envs_lookup; [|apply Hl; by exists k|done]. subst l. rewrite range_ifcs_perm. by apply table_NoDup.
  - intros Hc a Hne Ha. destruct l as [|i l'] eqn:El.
    { destruct Hne. apply map_empty. intros k. destruct (_ !! k) as [i|] eqn:Ek; [|done].
      assert (i ∈ @nil ifc) as []%elem_of_nil by (apply Hl; eauto). }
    destruct (proj1 (Hl i) ltac:(by left)) as [k Hk]. exists k, i. split; [done|].
    assert (∀ m, card_envs (v_cloud (vinitd w)) (i :: l') m = <[envExtIP (if_idx i) := a]> m) as Hce.
    { intros m. unfold card_envs. rewrite bool_decide_true by done. unfold ec2_envs. by rewrite Ha. }
    split; [intros Hd; rewrite probe_envs_card, Hce by done; apply lookup_insert_eq|].
    intros k' j Hkk Hj Hd. rewrite probe_envs_card, Hce by done. apply lookup_insert_ne.
    intros Heq%envExtIP_inj. apply Hkk. by rewrite (Ht _ _ Hj), (Ht _ _ Hk), Heq.
  - intros Hc doc sv Ha. unfold probe_envs, last_envs. rewrite bool_decide_true by done. by apply identity_envs_lookup.
  - intros Hg. unfold card_pollers. rewrite bool_decide_true by done. apply Permutation_map.
    subst l. unfold answered. by rewrite range_ifcs_perm.
  - intros Hg. unfold card_pollers. by rewrite bool_decide_false.
Qed.
End values.

(** ** The report to Azure *)

Lemma before_char (c a : ascii) s :
  before (String a s) (String c "") = if Ascii.eqb a c then "" else String a (before s (String c "")).
Proof.
  unfold before. cbn [Cut]. unfold HasPrefix. cbn [String.prefix].
  destruct (ascii_dec c a) as [->|Hne]; [by rewrite Ascii.eqb_refl; destruct s|].
  destruct (Ascii.eqb_spec a c); [congruence|]. by destruct (Cut s _) as [[]|].
Qed.

Lemma before_free s c : Contains (before s (String c "")) (String c "") = false.
Proof.
  induction s as [|a s IH]; [done|]. rewrite before_char. destruct (Ascii.eqb a c) eqn:E; [done|].
  by rewrite Contains_char_cons, E, IH.
Qed.

Lemma before_app t c r : Contains t (String c "") = false → before (t +:+ String c r) (String c "") = t.
Proof.
  induction t as [|a t IH]; intros H; cbn [String.append].
  - by rewrite before_char, Ascii.eqb_refl.
  - rewrite Contains_char_cons in H. apply orb_false_iff in H as [Ha H]. by rewrite before_char, Ha, IH.
Qed.

Lemma str_drop_app l r : str_drop (String.length l) (l +:+ r) = r.
Proof. apply substring_app_r. rewrite str_length_app. lia. Qed.

Lemma before_split s c : ∃ r, s = before s c +:+ r.
Proof.
  unfold before. destruct (Cut s c) as [[l r]|] eqn:E; [|exists ""; by rewrite str_app_nil_r].
  apply Cut_Some in E. by eexists.
Qed.

(** [t] stands between the two texts somewhere in [s]. *)
Definition tagged (opening closing s t : string) : Prop :=
  ∃ pre post, s = pre +:+ opening +:+ t +:+ closing +:+ post ∧ Contains t "<" = false.

Lemma HasPrefix_app p r : HasPrefix (p +:+ r) p = true.
Proof. apply prefix_app. by exists r. Qed.

Lemma TrimPrefix_app p r : TrimPrefix (p +:+ r) p = r.
Proof.
  unfold TrimPrefix. rewrite HasPrefix_app. apply str_drop_app.
Qed.

Lemma find_tag_Some opening closing s t :
  find_tag opening closing s = Some t → tagged opening closing s t.
Proof.
  induction s as [|a s IH]; [done|]. cbn [find_tag]. cbn zeta.
  assert (find_tag opening closing s = Some t → tagged opening closing (String a s) t) as Hrec.
  { intros H. destruct (IH H) as (pre & post & -> & Ht). by exists (String a pre), post. }
  destruct (HasPrefix (String a s) opening) eqn:Hp; [|done]. apply prefix_app in Hp as [r Hr].
  rewrite Hr, TrimPrefix_app. destruct (HasPrefix _ closing) eqn:Hc; [|by rewrite <-Hr].
  intros [= <-]. destruct (before_split r "<") as [r2 Hr2]. 
  assert (str_drop (String.length (before r "<")) r = r2) as Hd by (rewrite Hr2 at 2; apply str_drop_app).
  rewrite Hd in Hc. apply prefix_app in Hc as [post ->]. exists "", post. cbn [String.append].
  split; [by rewrite <-Hr2|apply before_free].
Qed.

Lemma find_tag_None opening rest s t :
  opening ≠ "" → find_tag opening (String "<" rest) s = None → ¬ tagged opening (String "<" rest) s t.
Proof.
  intros Ho. induction s as [|a s IH]; intros H (pre & post & Hs & Ht).
  { destruct pre, opening; done. }
  cbn [find_tag] in H. cbn zeta in H. destruct pre as [|b pre]; cbn [String.append] in Hs.
  - rewrite Hs, HasPrefix_app, TrimPrefix_app in H.
    change (String "<" rest +:+ post) with (String "<" (rest +:+ post)) in H. rewrite before_app, str_drop_app in H by done.
    change (String "<" (rest +:+ post)) with (String "<" rest +:+ post) in H. by rewrite HasPrefix_app in H.
  - injection Hs as -> Hs. apply IH; [|by exists pre, post].
    destruct (HasPrefix _ opening); [|done]. by destruct (HasPrefix _ (String "<" rest)).
Qed.

Section azure.
Context `{K : kernel} (Hok : ∀ n c, k_fail n c = None).

Lemma Do_cases r w :
  Do r w = if k_hangs (length (trace w)) r then (Halted, record (SHttp r) None w) else exchange r w.
Proof. unfold Do. rewrite run_get. by destruct (k_hangs _ _). Qed.

(** The part behind an answer with status 200. *)
Lemma health_report g body w :
  let w2 := record (SHttpRead (rq_url g)) None (record (SHttp g) None w) in
  let run := (cid ← lift (first_match "<ContainerId>" "</ContainerId>" body);
              iid ← lift (first_match "<InstanceId>" "</InstanceId>" body);
              ignore (Do (health_request cid iid))) w2 in
  (∃ cid iid w',
     run = (if k_hangs (2 + length (trace w)) (health_request cid iid) then Halted else Ret tt, w') ∧
     vars w' = vars w ∧
     tagged "<ContainerId>" "</ContainerId>" body cid ∧ tagged "<InstanceId>" "</InstanceId>" body iid ∧
     calls w' = calls w ++ [SHttp g; SHttpRead (rq_url g); SHttp (health_request cid iid)]) ∨
  (∃ w', run = (Panic IndexOutOfRange, w') ∧
     ((∀ t, ¬ tagged "<ContainerId>" "</ContainerId>" body t) ∨
      (∀ t, ¬ tagged "<InstanceId>" "</InstanceId>" body t))).
Proof.
  cbn zeta. set (w2 := record _ None (record _ None w)).
  assert (length (trace w2) = 2 + length (trace w))%nat as Hlen.
  { subst w2. cbn. rewrite !length_app. cbn. lia. }
  unfold first_match. destruct (find_tag "<ContainerId>" _ _) as [cid|] eqn:E1.
  2: { right. eexists. split; [done|]. left. intros t. by apply find_tag_None. }
  destruct (find_tag "<InstanceId>" _ _) as [iid|] eqn:E2.
  2: { right. eexists. split; [done|]. right. intros t. by apply find_tag_None. }
  left. exists cid, iid. rewrite !(run_ret (lift (Ret ?[x])) _ _ _ _ eq_refl).
  unfold ignore, mtry, mbind, M_bind. rewrite Do_cases, Hlen. clear Hlen. subst w2. destruct (k_hangs _ _).
  - eexists. split_and!; (done || by apply find_tag_Some || by rewrite !calls_record, <-!app_assoc).
  - unfold exchange, sys, sys_with. rewrite Hok.
    destruct (k_respond _ (health_request cid iid)) as [[]|]; eexists; split_and!;
      (done || by apply find_tag_Some || by rewrite !calls_record, <-!app_assoc).
Qed.

(** C30: When the wire server answers the goal state request with a container id
    and an instance id, [updateHealthAzure] reports exactly these two as Ready
    (and returns, unless the server leaves that report unanswered); an answer
    without one of them makes it panic; without such an answer it reports nothing,
    and a server that never answers keeps it waiting.  The state of the program
    does not change. *)
Theorem updateHealthAzure_reports w :
  let url := rq_url goalstate_request in
  if k_hangs (length (trace w)) goalstate_request then
    updateHealthAzure w = (Halted, record (SHttp goalstate_request) None w)
  else
  match k_respond (length (trace w)) goalstate_request with
  | Some (status, body) =>
      if (status =? 200)%Z then
        (∃ cid iid w',
           updateHealthAzure w =
             (if k_hangs (2 + length (trace w)) (health_request cid iid) then Halted else Ret tt, w') ∧
           vars w' = vars w ∧
           tagged "<ContainerId>" "</ContainerId>" body cid ∧ tagged "<InstanceId>" "</InstanceId>" body iid ∧
           calls w' = calls w ++ [SHttp goalstate_request; SHttpRead url; SHttp (health_request cid iid)]) ∨
        (∃ w', updateHealthAzure w = (Panic IndexOutOfRange, w') ∧
           ((∀ t, ¬ tagged "<ContainerId>" "</ContainerId>" body t) ∨
            (∀ t, ¬ tagged "<InstanceId>" "</InstanceId>" body t)))
      else ∃ w', updateHealthAzure w = (Ret tt, w') ∧ vars w' = vars w ∧
             calls w' = calls w ++ [SHttp goalstate_request; SHttpRead url]
  | None => ∃ w', updateHealthAzure w = (Ret tt, w') ∧ vars w' = vars w ∧
              calls w' = calls w ++ [SHttp goalstate_request]
  end.
Proof.
  cbn zeta. set (g := goalstate_request). pose proof (Do_cases g w) as Hdo.
  destruct (k_hangs (length (trace w)) g).
  { unfold updateHealthAzure. fold g. unfold mtry, mbind, M_bind. by rewrite Hdo. }
  destruct (k_respond _ g) as [[status body]|] eqn:Er.
  - assert (updateHealthAzure w =
      (if (status =? 200)%Z then
         cid ← lift (first_match "<ContainerId>" "</ContainerId>" body);
         iid ← lift (first_match "<InstanceId>" "</InstanceId>" body);
         ignore (Do (health_request cid iid))
       else mret tt) (record (SHttpRead (rq_url g)) None (record (SHttp g) None w))) as E0.
    { unfold updateHealthAzure. fold g. rewrite (run_ret _ _ w (inl (status, body)) (record (SHttp g) None w)).
      - erewrite run_ret; [|eapply ok_try, (ok_sys_with Hok); done]. done.
      - apply ok_try. rewrite Hdo. apply (ok_sys_with Hok). by rewrite Er. }
    rewrite E0. clear E0. destruct (status =? 200)%Z; [apply health_report|].
    eexists; split_and!; [done|done|by rewrite !calls_record, <-app_assoc].
  - exists (record (SHttp g) (Some (Errorf "no answer")) w). split_and!; [|done|by rewrite calls_record].
    unfold updateHealthAzure. fold g. rewrite (run_ret _ _ w (inr (Errorf "no answer")) (record (SHttp g) (Some (Errorf "no answer")) w)); [done|].
    unfold mtry. rewrite Hdo. unfold exchange, sys. rewrite (ok_sys_err Hok _ _ _ _ (Errorf "no answer")); [done|]. by rewrite Er.
Qed.
End azure.

(** ** Witnesses *)

Definition by_key : ifc_order := {| range_ifcs := λ m, (map_to_list m).*2; range_ifcs_perm := λ m, Permutation_refl _ |}.

(** A clock that only the waits move. *)
Definition slept (t : list event) : Z :=
  fold_right (λ e n, match ev_call e with SSleep ms => Z.max 0 ms + n | _ => n end)%Z 0%Z t.

Lemma slept_app t e :
  slept (t ++ [e]) = (slept t + match ev_call e with SSleep ms => Z.max 0 ms | _ => 0 end)%Z.
Proof.
  induction t as [|e' t IH]; cbn [app slept fold_right]; [destruct (ev_call e); cbn; lia|].
  unfold slept in IH. rewrite IH. destruct (ev_call e'); lia.
Qed.

Lemma slept_mono t e : (slept t ≤ slept (t ++ [e]))%Z.
Proof. rewrite slept_app. destruct (ev_call e); lia. Qed.

Lemma slept_sleep t ms : (slept t + ms ≤ slept (t ++ [mkEvent (SSleep ms) None]))%Z.
Proof. rewrite slept_app. cbn. lia. Qed.

Definition sleep_clock : clock := {| now := slept; now_mono := slept_mono; now_sleep := slept_sleep |}.

Lemma pollGCP_ends_witness :
  ∃ w' evs, @pollGCP calm sleep_clock gcpReq "eth0" 0 ex_world = (Ret tt, w') ∧
    trace w' = evs ∧ (length (List.filter sleeps evs) ≤ 61)%nat.
Proof.
  destruct (proj1 (@pollGCP_ends calm sleep_clock gcpReq "eth0" 0 ex_world) (λ _ _, eq_refl))
    as (w' & evs & E & _ & T & _ & _ & L).
  exists w', evs. split_and!; [exact E|exact T|exact L].
Defined.

Definition ex_members : list (string * string) := [("COLOUR", "blue"); ("USERDATA", "x")].

(** A metadata server of Google, and the wire server of Azure. *)
Definition metadata (r : Request) : option (Z * string) :=
  if String.eqb (rq_url r) (custom_url gcpReq) then Some (200%Z, object_text ex_members)
  else if HasSuffix (rq_url r) "/access-configs/0/external-ip" then Some (200%Z, "203.0.113.7" +:+ nl)
  else if HasSuffix (rq_url r) "/hostname" then Some (404%Z, "")
  else if HasPrefix (rq_url r) "http://168.63.129.16" then
    Some (200%Z, "<a><ContainerId>c-1</ContainerId><InstanceId>i-7</InstanceId></a>")
  else None.

Definition metadata_kernel : kernel := {|
  k_fail := λ _ _, None; k_pseudo := λ _, []; k_procs := λ _, []; k_pid := λ _, 0%Z; k_bsize := 4096;
  k_imaxpct := 25; k_output := λ _, ""; k_http := λ _, None; k_uri_ok := λ _, true;
  k_lookpath := λ _, None; k_addrs := λ _, None; k_fd := λ _, 0%Z; k_lookup := λ _, None;
  k_respond := λ _ r, metadata r; k_hangs := λ _ _, false; k_epoll := λ _, (0%Z, false); k_interfaces := []
|}.

Definition ex_gcp : world := upd (set_hypervisor hvKVM cpGCP) ex_addressed.

Lemma ex_custom : answer metadata gcpReq (custom_url gcpReq) = Some (object_text ex_members).
Proof. vm_compute. done. Qed.

Lemma ex_unmarshal : Unmarshal_strings (object_text ex_members) = Some (map_of ex_members).
Proof. by apply Unmarshal_object; repeat constructor. Qed.

Lemma probe_defines_witness :
  ∃ pollers w' m, @probe metadata_kernel by_key gcpReq ex_gcp = (Ret pollers, w') ∧
    vinitd w' = set_envs m (vinitd ex_gcp) ∧
    m !! "COLOUR" = Some "blue" ∧ m !! "EXT_IP0" = Some "203.0.113.7" ∧ pollers = [("ens3", 0%nat)].
Proof.
  destruct (@probe_defines metadata_kernel by_key (λ _ _, eq_refl) (λ _ _, eq_refl) metadata (λ _ _, eq_refl) gcpReq ex_gcp
    ex_addressed_table) as (ps & w' & m & E & V & H1 & _ & H2 & _ & _ & H3 & _).
  exists ps, w', m. split_and!; [exact E|exact V| | |].
  - by apply (proj2 (H1 _ ex_custom) _ _ _ ex_unmarshal).
  - apply (H2 ltac:(done) "eth0" _ _ (lookup_singleton_eq _ _)); [vm_compute; done|].
    intros d envs. rewrite ex_custom. intros [= <-]. rewrite ex_unmarshal. by intros [= <-].
  - apply Permutation_singleton_r. etransitivity; [exact (H3 eq_refl)|]. vm_compute. done.
Defined.

Lemma updateHealthAzure_reports_witness :
  ∃ cid iid w', @updateHealthAzure metadata_kernel ex_world = (Ret tt, w') ∧
    calls w' = [SHttp goalstate_request; SHttpRead (rq_url goalstate_request); SHttp (health_request cid iid)].
Proof.
  destruct (@updateHealthAzure_reports metadata_kernel (λ _ _, eq_refl) ex_world) as [H|H].
  - destruct H as (cid & iid & w' & E & _ & _ & _ & C). exists cid, iid, w'. split; [exact E|exact C].
  - exfalso. destruct H as (w' & _ & [H|H]).
    + apply (H "c-1"). exists "<a>", "<InstanceId>i-7</InstanceId></a>". done.
    + apply (H "i-7"). exists "<a><ContainerId>c-1</ContainerId>", "</a>". done.
Defined.
