(* ===== verification/Services.v ===== *)
(** * Services after the network is up ([src/pkg/vorteil/dns.go], [nfs.go],
    [ntp.go], and [runBusyboxScript] of [process.go])

    The DNS proxy is a library: whether it accepts a list of upstreams is a
    parameter, and its start is recorded as a call.  The package variable of the
    servers is [pkg_dns] of the world; that of chronyd's configuration holds its
    initial value, as [setupChronyD] is called once. *)

From S2P Require Import Prelude GoStrings GoPath GoNet Types BlockDev Os Process Route Dhcp Launch LaunchTheorems Etc Conf.
Local Open Scope string_scope.

Class dns_lib := { ParseUpstreamsConfig : list string → bool }.

Definition busboxScript : string := "/vorteil/busybox".
Definition busybox_dirs : list string := ["/bin"; "/usr/bin"].

Definition chronydCfgPath : string := "/etc/chrony.conf".
Definition chronydCfgData : string :=
  nl +:+ "driftfile /etc/chrony.drift" +:+ nl +:+ "makestep 1.0 3" +:+ nl +:+ "rtcsync".

Section services.
Context `{K : kernel} `{MO : map_order} `{DN : dns_lib}.

(** ** DNS *)

(** The addresses of the configuration, variables replaced; other texts are
    skipped. *)
Definition configured_dns (v : Vinitd) : list IP :=
  List.filter (λ ip, match ip with [] => false | _ => true end)
    (imap (λ i d, ParseIP (substitute (range i (v_envs v)) d)) (DNS (cfg_System (vcfg v)))).

(** The second half of [startDNS], with the package variable [dns]. *)
Definition start_proxy (dns : list string) : OS unit :=
  match dns with
  | [] => mret tt
  | upstreams =>
      if ParseUpstreamsConfig upstreams then plain (SRun ("dnsproxy" :: upstreams))
      else mfail (Errorf "can not start dns")
  end.

(** The package variable is appended to, not set. *)
Definition startDNS : OS unit :=
  v ← vget;
  (match dns v with [] => vmodify (λ v, set_dns (configured_dns v) v) | _ => mret tt end);;
  vmodify (λ v, set_dns (uniqueIPs (dns v)) v);;
  v ← vget;
  mmodify (λ w, set_pkg_dns (pkg_dns w ++ (IPString <$> dns v)) w);;
  w ← mget;
  start_proxy (pkg_dns w).

(** ** NFS *)

Definition resolveNFS (name : string) : OS IP :=
  r ← mtry (LookupIP name);
  match r with
  | inr _ => mret []
  | inl ips =>
      mret (default [] (head (List.filter (λ i, match To4 i with [] => false | _ => true end) ips)))
  end.

Definition mount_nfs (m : NFSSettings) : OS unit :=
  match SplitN2 (Server m) ":" with
  | [host; path] =>
      s ← (match ParseIP host with [] => resolveNFS host | ip => mret ip end);
      match s with
      | [] => mret tt
      | _ =>
          ignore (MkdirAll (MountPoint m));;
          ignore (Mount (":" +:+ path) (MountPoint m) "nfs" 0
                    (Join [Arguments m; "addr=" +:+ IPString s] ","))
      end
  | _ => mret tt
  end.

Definition setupNFS (mounts : list NFSSettings) : OS unit := mforeach mount_nfs mounts.

(** ** NTP *)

(** It runs in the directory of init, which is /. *)
Definition chronyd : Cmd :=
  mkCmd "/vorteil/chronyd" ["/vorteil/chronyd"] [] defaultCWD rootID rootID [] "" "" None None.

Definition startChrony : OS unit := _ ← Start chronyd; mret tt.

Definition server_line (ntpServer : string) : string := "server " +:+ ntpServer +:+ " iburst" +:+ nl.

(** Every server is put in front of what is there. *)
Definition chrony_cfg (ntps : list string) : string :=
  fold_left (λ cfg ntpServer, server_line ntpServer +:+ cfg) ntps chronydCfgData.

Definition setupChronyD (ntps : list string) : OS unit :=
  r ← mtry (Stat chronydCfgPath);
  match r with
  | inl _ => startChrony
  | inr _ =>
      match ntps with
      | [] => mret tt
      | _ =>
          r ← mtry (Stat (PathDir chronydCfgPath));
          (match r with
           | inr e =>
               if IsNotExist e then
                 r ← mtry (MkdirAll (PathDir chronydCfgPath));
                 match r with inl _ => mret tt | inr _ => mfail (Errorf "could not create directory") end
               else mret tt
           | inl _ => mret tt
           end);;
          r ← mtry (WriteFile chronydCfgPath (chrony_cfg ntps));
          match r with
          | inr _ => mfail (Errorf "could not write config file")
          | inl _ => ignore startChrony
          end
      end
  end.

(** ** Busybox *)

(** [exec.Command(...).Output()] *)
Definition Output (argv : list string) : OS string := sys (SRun argv) (λ w, inl (k_output argv, w)).

Definition is_applet (app : string) : bool :=
  negb (String.eqb app "[") && negb (String.eqb app "[[") && negb (String.eqb app "").

Definition link_applet (a : string) : OS unit :=
  r ← mtry (Stat a);
  match r with
  | inl _ => mret tt
  | inr e => if IsNotExist e then Symlink busboxScript a else mret tt
  end.

Definition applet_paths (out : string) : list string :=
  app ← List.filter is_applet (Split out nl);
  (λ d, PathJoin [d; app]) <$> busybox_dirs.

Definition runBusyboxScript : OS unit :=
  r ← mtry (Stat busboxScript);
  match r with
  | inr _ => mret tt
  | inl _ =>
      mforeach (λ d, ignore (MkdirAll d)) busybox_dirs;;
      out ← Output [busboxScript; "--list"];
      mforeach link_applet (applet_paths out)
  end.
End services.

Local Open Scope list_scope.

(** ** The proxy *)

Section dns.
Context `{K : kernel} `{MO : map_order} `{DN : dns_lib}.

(** C37: [startDNS] uses the servers DHCP announced, and those of the
    configuration only if there are none; of the servers with the same text it
    keeps the first.  Their texts are appended to the package variable, and the
    proxy is started with exactly what that variable holds then: once, if it is
    not empty and the proxy library accepts it; an empty list starts nothing and is
    no error, a rejected one is an error.  On the first call, with the variable
    still empty, these are the servers themselves, without duplicates. *)
Theorem startDNS_upstreams w :
  let v := vinitd w in
  let src := match dns v with [] => configured_dns v | l => l end in
  let servers := uniqueIPs src in
  let upstreams := pkg_dns w ++ (IPString <$> servers) in
  let start := SRun ("dnsproxy" :: upstreams) in
  ∃ w',
    startDNS w =
      (if bool_decide (upstreams = []) then Ret tt
       else if ParseUpstreamsConfig upstreams then
         match k_fail (length (trace w)) start with None => Ret tt | Some (_, e) => Fail (Errno e) end
       else Fail (Errorf "can not start dns"), w') ∧
    vinitd w' = set_dns servers v ∧ pkg_dns w' = upstreams ∧ fs w' = fs w ∧
    calls w' = calls w ++ (if bool_decide (upstreams = []) then []
                           else if ParseUpstreamsConfig upstreams then [start] else []) ∧
    NoDup (IPString <$> servers) ∧ (pkg_dns w = [] → upstreams = IPString <$> servers) ∧
    (∀ ip, ip ∈ src → IPString ip ∈ IPString <$> servers) ∧ sublist servers src.
Proof.
  cbn zeta. set (src := match dns (vinitd w) with [] => _ | l => l end).
  set (up := pkg_dns w ++ (IPString <$> uniqueIPs src)).
  set (w1 := set_pkg_dns up (upd (set_dns (uniqueIPs src)) w)).
  assert (startDNS w = start_proxy up w1) as ->.
  { unfold startDNS. rewrite run_vget. subst w1 up src.
    destruct (dns (vinitd w)) as [|d l] eqn:Ed.
    - by rewrite run_vmodify, run_vmodify, run_vget, run_modify, run_get.
    - rewrite (run_ret _ _ w tt w) by done. rewrite run_vmodify, run_vget, run_modify, run_get. by rewrite Ed. }
  destruct (unique_loop_spec IPString ∅ src) as (H1 & _ & H3 & H5). fold (uniqueIPs src) in H1, H3, H5.
  assert (∀ ip, ip ∈ src → IPString ip ∈ IPString <$> uniqueIPs src) as H4.
  { intros ip [?|?]%H3; [set_solver|done]. }
  assert (pkg_dns w = [] → up = IPString <$> uniqueIPs src) as H6 by (subst up; by intros ->).
  clearbody up. subst w1. destruct up as [|t l].
  { rewrite bool_decide_true by done. eexists. split_and!; try done. by rewrite app_nil_r. }
  rewrite bool_decide_false by done. unfold start_proxy. destruct (ParseUpstreamsConfig (t :: l)).
  - unfold plain, sys, sys_with. destruct (k_fail _ _) as [[n e]|];
      eexists; (split_and!; try done; by rewrite calls_record).
  - eexists. split_and!; try done. by rewrite app_nil_r.
Qed.
End dns.

(** ** Network file systems *)

Section nfs.
Context `{K : kernel}.

(** The server's address: the text of an address, or an IPv4 address of the name. *)
Definition nfs_ip (host : string) (ip : IP) : Prop :=
  ip ≠ [] ∧ (ParseIP host = ip ∨ (ParseIP host = [] ∧ ∃ ips, k_lookup host = Some ips ∧ ip ∈ ips ∧ To4 ip ≠ [])).

Definition nfs_mount (m : NFSSettings) (path : string) (ip : IP) : syscall :=
  SMount (":" +:+ path) (MountPoint m) "nfs" 0 (Arguments m +:+ "," +:+ "addr=" +:+ IPString ip).

Definition nfs_event (mounts : list NFSSettings) (e : event) : Prop :=
  match ev_call e with
  | SMount _ _ _ _ _ => ∃ m host path ip, m ∈ mounts ∧ Server m = host +:+ ":" +:+ path ∧ nfs_ip host ip ∧
                          ev_call e = nfs_mount m path ip
  | SMkdirAll p => ∃ m, m ∈ mounts ∧ p = MountPoint m
  | SLookup _ => True
  | _ => False
  end.

Lemma SplitN2_two s sep a b : SplitN2 s sep = [a; b] → s = a +:+ sep +:+ b.
Proof. unfold SplitN2. destruct (Cut s sep) as [[l r]|] eqn:E; [|done]. intros [= <- <-]. by apply Cut_Some. Qed.

Lemma tame_LookupIP P host : (∀ e, P (mkEvent (SLookup host) e)) → tame P (LookupIP host).
Proof.
  intros H. apply tame_sys_with; [done|done|]. intros w a w'. destruct (k_lookup host); [|done]. by intros [= _ <-].
Qed.

Lemma LookupIP_value host w ips w' : LookupIP host w = (Ret ips, w') → k_lookup host = Some ips.
Proof.
  unfold LookupIP, sys, sys_with. destruct (k_fail _ _) as [[]|]; [done|].
  destruct (k_lookup host); [|done]. by intros [= <- _].
Qed.

(** What [resolveNFS] returns is an IPv4 address of the name. *)
Lemma resolveNFS_spec P host :
  (∀ e, P (mkEvent (SLookup host) e)) → quietly P (resolveNFS host) ∧
  ∀ w ip w', resolveNFS host w = (Ret ip, w') → ip ≠ [] →
    ∃ ips, k_lookup host = Some ips ∧ ip ∈ ips ∧ To4 ip ≠ [].
Proof.
  intros HP. split.
  - apply quietly_bind; [by apply quietly_try, tame_LookupIP|]. intros [ips|e]; apply quietly_ret.
  - intros w ip w'. unfold resolveNFS, mbind, M_bind, mtry.
    destruct (LookupIP host w) as [[ips|e|p|] w1] eqn:E; intros [= <- _] Hne; try done.
    exists ips. split; [by eapply LookupIP_value|].
    destruct (List.filter _ ips) as [|a l] eqn:Ef; [done|]. cbn.
    assert (a ∈ List.filter (λ i, match To4 i with [] => false | _ => true end) ips) as Ha by (rewrite Ef; left).
    apply list_elem_of_In, filter_In in Ha as [Ha Ht]. split; [by apply list_elem_of_In|]. by intros E0; rewrite E0 in Ht.
Qed.

Lemma quietly_mount_nfs mounts m : m ∈ mounts → quietly (nfs_event mounts) (mount_nfs m).
Proof.
  intros Hm. unfold mount_nfs. destruct (SplitN2 (Server m) ":") as [|host [|path [|]]] eqn:Es; try apply quietly_ret.
  apply SplitN2_two in Es.
  assert (∀ ip, nfs_ip host ip → quietly (nfs_event mounts) (
    ignore (MkdirAll (MountPoint m));;
    ignore (Mount (":" +:+ path) (MountPoint m) "nfs" 0 (Join [Arguments m; "addr=" +:+ IPString ip] ",")))) as Hip.
  { intros ip Hi. apply quietly_bind.
    - apply quietly_ignore, tame_MkdirAll. intros e. by exists m.
    - intros _. apply quietly_ignore, tame_Mount. intros e. exists m, host, path, ip. split_and!; [done|done|done|].
      by rewrite !str_app_assoc || done. }
  destruct (ParseIP host) as [|b l] eqn:Ep.
  - destruct (resolveNFS_spec (nfs_event mounts) host) as [Hq Hv]; [done|].
    intros w. destruct (Hq w) as (ip & w1 & evs & E & T & F & V). rewrite (run_ret _ _ _ _ _ E).
    destruct ip as [|b l]; [exists tt, w1, evs; by split_and!|].
    destruct (Hv w _ w1 E) as (ips & Hk & Hin & Ht); [done|].
    destruct (Hip (b :: l)) with (w := w1) as (a & w2 & evs2 & E2 & T2 & F2 & V2).
    { split; [done|]. right. split; [done|]. by exists ips. }
    exists a, w2, (evs ++ evs2). split_and!; [exact E2|by rewrite T2, T, app_assoc|by apply Forall_app|congruence].
  - intros w. rewrite (run_ret _ _ w (b :: l) w) by done. apply Hip. split; [done|by left].
Qed.

(** On a healthy machine a call whose error is dropped is recorded. *)
Lemma calls_ignore (Hok : ∀ n c, k_fail n c = None) {A} c (f : world → (A * world) + error) w :
  (∀ a w', f w = inl (a, w') → trace w' = trace w) →
  ∃ w', ignore (sys c f) w = (Ret tt, w') ∧ calls w' = calls w ++ [c].
Proof.
  intros Hf. unfold ignore, sys, sys_with, mtry, mbind, M_bind. rewrite Hok.
  destruct (f w) as [[a w']|e] eqn:E; (eexists; split; [done|]); rewrite calls_record; [|done].
  f_equal. unfold calls. by rewrite (Hf a w').
Qed.

Lemma calls_MkdirAll (Hok : ∀ n c, k_fail n c = None) p w :
  ∃ w', ignore (MkdirAll p) w = (Ret tt, w') ∧ calls w' = calls w ++ [SMkdirAll p].
Proof. apply (calls_ignore Hok). intros a w'. destruct (mkdirs _ _); [|done]. by intros [= _ <-]. Qed.

Lemma calls_Mount (Hok : ∀ n c, k_fail n c = None) src target fstype flags opts w :
  ∃ w', ignore (Mount src target fstype flags opts) w = (Ret tt, w') ∧
    calls w' = calls w ++ [SMount src target fstype flags opts].
Proof. apply (calls_ignore Hok). intros a w'. destruct (is_dir _ _); [|done]. by intros [= _ <-]. Qed.

(** [setupNFS] always returns, whatever share cannot be parsed, resolved or
    mounted; it mounts only configured shares, each at its mount point, by the
    address in the configuration or an IPv4 address of the configured name.
    On a healthy machine every share that names its server by address is mounted,
    in the order of the configuration. *)
Theorem setupNFS_mounts mounts :
  quietly (nfs_event mounts) (setupNFS mounts) ∧
  ((∀ n c, k_fail n c = None) →
   Forall (λ m, ∃ host path, SplitN2 (Server m) ":" = [host; path] ∧ ParseIP host ≠ []) mounts →
   ∀ w, calls (setupNFS mounts w).2 = calls w ++
     (m ← mounts; [SMkdirAll (MountPoint m);
                   nfs_mount m (List.last (SplitN2 (Server m) ":") "")
                     (ParseIP (List.hd "" (SplitN2 (Server m) ":")))])).
Proof.
  split; [apply quietly_foreach; intros m Hm; by apply quietly_mount_nfs|].
  intros Hok Hm w. unfold setupNFS. revert w. induction Hm as [|m mounts (host & path & Es & Hp) _ IH]; intros w.
  { cbn. by rewrite app_nil_r. }
  cbn [mforeach mbind list_bind].
  assert (∃ w1, mount_nfs m w = (Ret tt, w1) ∧
    calls w1 = calls w ++ [SMkdirAll (MountPoint m); nfs_mount m path (ParseIP host)]) as (w1 & E1 & C1).
  { unfold mount_nfs. rewrite Es. destruct (ParseIP host) as [|b l]; [done|]. rewrite (run_ret _ _ w (b :: l) w) by done.
    destruct (calls_MkdirAll Hok (MountPoint m) w) as (w1 & E1 & C1). rewrite (run_ret _ _ _ _ _ E1).
    edestruct (calls_Mount Hok) as (w2 & E2 & C2). rewrite E2. exists w2. split; [done|].
    rewrite C2, C1, <-app_assoc. done. }
  rewrite (run_ret _ _ _ _ _ E1), IH, C1, Es, <-app_assoc. done.
Qed.
End nfs.

(** ** Time servers *)

Lemma lookup_node_dir m p : abs_path p = p → m !! p = Some Dir → lookup_node m p = Some Dir.
Proof.
  intros Ha Hd. unfold lookup_node. rewrite resolve_not_link; [done|done|]. intros t. by rewrite Hd.
Qed.

Lemma chrony_cfg_servers ntps :
  chrony_cfg ntps = foldr (λ s t, server_line s +:+ t) chronydCfgData (reverse ntps).
Proof.
  unfold chrony_cfg. generalize chronydCfgData. induction ntps as [|x l IH]; intros cfg; [done|].
  cbn [fold_left]. rewrite IH, reverse_cons, foldr_app. done.
Qed.

Section chrony.
Context `{K : kernel} (Hok : ∀ n c, k_fail n c = None).

Lemma ok_Stat p w :
  mtry (Stat p) w = match lookup_node (fs w) p with
    | Some _ => (Ret (inl tt), record (SStat p) None w)
    | None => (Ret (inr ENOENT), record (SStat p) (Some ENOENT) w)
    end.
Proof. unfold mtry, Stat, sys, sys_with. rewrite Hok. by destruct (lookup_node _ _). Qed.

Lemma ignore_startChrony w :
  ∃ w', ignore startChrony w = (Ret tt, w') ∧ fs w' = fs w ∧ vars w' = vars w ∧ calls w' = calls w ++ [SExec chronyd].
Proof.
  unfold ignore, startChrony, Start, sys, sys_with, mtry, mbind, M_bind. rewrite Hok.
  destruct (command_path _) as [p|]; [destruct (lookup_node _ p) as [[]|]; [destruct (is_dir _ _)|..]|];
    (eexists; split_and!; [done..|by rewrite calls_record]).
Qed.

(** On a healthy machine [setupChronyD] leaves a configuration file that is
    there alone and starts chronyd with it; without one and with servers it
    writes a file that lists the servers, the last one first, above the fixed
    settings and starts chronyd; without servers it does nothing. *)
Theorem setupChronyD_config ntps w :
  (lookup_node (fs w) chronydCfgPath ≠ None →
     fs (setupChronyD ntps w).2 = fs w ∧
     calls (setupChronyD ntps w).2 = calls w ++ [SStat chronydCfgPath; SExec chronyd]) ∧
  (fs w !! chronydCfgPath = None → fs w !! "/etc" = Some Dir → ntps ≠ [] →
     ∃ w', setupChronyD ntps w = (Ret tt, w') ∧
       fs w' = <[chronydCfgPath := File (foldr (λ s t, server_line s +:+ t) chronydCfgData (reverse ntps))]> (fs w) ∧
       last (calls w') = Some (SExec chronyd)) ∧
  (fs w !! chronydCfgPath = None → ntps = [] →
     ∃ w', setupChronyD ntps w = (Ret tt, w') ∧ fs w' = fs w ∧ calls w' = calls w ++ [SStat chronydCfgPath]).
Proof.
  assert (fs w !! chronydCfgPath = None → resolve (fs w) chronydCfgPath = Some chronydCfgPath) as Hres.
  { intros H. unfold resolve. change (abs_path chronydCfgPath) with chronydCfgPath. cbn [follow]. by rewrite H. }
  assert (fs w !! chronydCfgPath = None → lookup_node (fs w) chronydCfgPath = None) as Hnone.
  { intros H. unfold lookup_node. by rewrite Hres. }
  unfold setupChronyD. split_and!.
  - intros Hl. pose proof (ok_Stat chronydCfgPath w) as E. destruct (lookup_node _ _); [|done].
    rewrite (run_ret _ _ _ _ _ E). destruct (ignore_startChrony (record (SStat chronydCfgPath) None w)) as (w' & E' & F & _ & C).
    assert ((startChrony (record (SStat chronydCfgPath) None w)).2 = w') as ->.
    { revert E'. unfold ignore, mtry, mbind, M_bind. by destruct (startChrony _) as [[] ?]; intros [= <-]. }
    split; [exact F|]. by rewrite C, calls_record, <-app_assoc.
  - intros H He Hn. pose proof (ok_Stat chronydCfgPath w) as E. rewrite Hnone in E by done.
    rewrite (run_ret _ _ _ _ _ E). set (w1 := record _ _ w). destruct ntps as [|s ntps]; [done|].
    pose proof (ok_Stat "/etc" w1) as E1.
    assert (lookup_node (fs w1) "/etc" = Some Dir) as Hd by (by apply lookup_node_dir).
    rewrite Hd in E1. change (PathDir chronydCfgPath) with "/etc". rewrite (run_ret _ _ _ _ _ E1).
    set (w2 := record _ _ w1). rewrite (run_ret _ _ w2 tt w2) by done.
    destruct (ok_write Hok chronydCfgPath (chrony_cfg (s :: ntps)) w2) as (w3 & E3 & F3); [done|done|done| |].
    { unfold writable. by change (fs w2) with (fs w); rewrite H. }
    rewrite (run_ret _ _ _ _ _ (ok_try _ _ _ _ E3)). cbn match.
    destruct (ignore_startChrony w3) as (w' & E' & F & _ & C). rewrite E'. exists w'. split_and!; [done| |].
    + rewrite F, F3, chrony_cfg_servers. done.
    + rewrite C. apply last_snoc.
  - intros H ->. pose proof (ok_Stat chronydCfgPath w) as E. rewrite Hnone in E by done.
    rewrite (run_ret _ _ _ _ _ E). eexists. split_and!; [done|done|by rewrite calls_record].
Qed.
End chrony.

(** ** Busybox *)

(** Adding entries to the file system keeps what a path leads to. *)
Lemma follow_mono n m m' p q x :
  m ⊆ m' → follow n m p = Some q → m !! q = Some x → follow n m' p = Some q.
Proof.
  intros Hm. revert p. induction n as [|n IH]; intros p; cbn [follow];
    destruct (m !! p) as [nd|] eqn:E.
  - rewrite (lookup_weaken _ _ _ _ E Hm). by destruct nd.
  - intros [= ->]. congruence.
  - rewrite (lookup_weaken _ _ _ _ E Hm). destruct nd; [done..|]. apply IH.
  - intros [= ->]. congruence.
Qed.

Lemma lookup_node_mono m m' p x : m ⊆ m' → lookup_node m p = Some x → lookup_node m' p = Some x.
Proof.
  intros Hm. unfold lookup_node, resolve. destruct (follow 40 m (abs_path p)) as [q|] eqn:E; [|done].
  cbn [mbind option_bind]. intros Hq. rewrite (follow_mono _ _ _ _ _ _ Hm E Hq). by eapply lookup_weaken.
Qed.

Definition grows (w w' : world) : Prop := fs w ⊆ fs w'.

#[export] Instance grows_preorder : PreOrder grows.
Proof. split; [intros w; unfold grows; reflexivity|]. intros w1 w2 w3. unfold grows. apply transitivity. Qed.

Section busybox.
Context `{K : kernel}.

Lemma grows_sys {A} c (f : world → (A * world) + error) :
  (∀ w a w', f w = inl (a, w') → fs w ⊆ fs w') → keeps grows (sys c f).
Proof.
  intros Hf w. unfold sys, sys_with, grows. destruct (k_fail _ _) as [[]|]; [done|].
  destruct (f w) as [[a w']|] eqn:E; [|done]. cbn. by eapply Hf.
Qed.

Lemma grows_mkdirs ps m m' : mkdirs ps m = inl m' → m ⊆ m'.
Proof.
  revert m. induction ps as [|p ps IH]; intros m; cbn [mkdirs]; [by intros [= <-]|].
  destruct (lookup_node m p) as [[]|]; try done; [apply IH|].
  destruct (m !! p) eqn:E; [done|]. intros H%IH. etransitivity; [|exact H]. by apply insert_subseteq.
Qed.

Lemma grows_MkdirAll p : keeps grows (ignore (MkdirAll p)).
Proof.
  apply (keeps_ignore _), grows_sys. intros w a w'. destruct (mkdirs _ _) eqn:E; [|done].
  intros [= _ <-]. by eapply grows_mkdirs.
Qed.

Lemma grows_Stat p : keeps grows (mtry (Stat p)).
Proof. apply keeps_try, grows_sys. intros w a w'. case_match; [|done]. by intros [= _ <-]. Qed.

Lemma grows_link a : keeps grows (link_applet a).
Proof.
  apply (keeps_bind _); [apply grows_Stat|]. intros [u|e]; [apply keeps_ret, _|].
  apply keeps_if; [|apply keeps_ret, _]. apply grows_sys. intros w b w'.
  destruct (fs w !! abs_path a) eqn:E; [done|]. destruct (is_dir _ _); [|done].
  intros [= _ <-]. by apply insert_subseteq.
Qed.

(** A path of an applet: in one of the directories, and nothing there or
    something that can be found. *)
Definition applet_ok (m : gmap string node) (a : string) : Prop :=
  abs_path a = a ∧ (PathDir a = "/bin" ∨ PathDir a = "/usr/bin") ∧ (m !! a = None ∨ lookup_node m a ≠ None).

Definition bin_dirs (m : gmap string node) : Prop :=
  m !! "/bin" = Some Dir ∧ m !! "/usr" = Some Dir ∧ m !! "/usr/bin" = Some Dir ∧
  ∃ d, m !! busboxScript = Some (File d).

Lemma bin_dirs_mono m m' : m ⊆ m' → bin_dirs m → bin_dirs m'.
Proof. intros H (?&?&?&d&?). split_and!; [by eapply lookup_weaken..|]. exists d. by eapply lookup_weaken. Qed.

Lemma is_dir_bin m a : bin_dirs m → applet_ok m a → is_dir m (PathDir a) = true.
Proof.
  intros (H1&_&H3&_) (_&[->| ->]&_); unfold is_dir; by rewrite (lookup_node_dir m).
Qed.

Lemma lookup_new_link m a : bin_dirs m → applet_ok m a →
  lookup_node (<[a := Link busboxScript]> m) a ≠ None.
Proof.
  intros (_&_&_&d&Hd) (Ha & Hdir & _). unfold lookup_node, resolve. rewrite Ha. unfold follow at 1.
  rewrite lookup_insert_eq. change (if IsAbs busboxScript then _ else _) with busboxScript.
  assert (a ≠ busboxScript) as Hne by (intros ->; by destruct Hdir).
  unfold follow. rewrite lookup_insert_ne, Hd by done. cbn [mbind option_bind]. by rewrite lookup_insert_ne, Hd by done.
Qed.

Lemma ok_link_applet (Hok : ∀ n c, k_fail n c = None) a w :
  bin_dirs (fs w) → applet_ok (fs w) a →
  ∃ w', link_applet a w = (Ret tt, w') ∧ lookup_node (fs w') a ≠ None ∧
    fs w' = (if decide (fs w !! a = None) then <[a := Link busboxScript]> (fs w) else fs w).
Proof.
  intros Hb Ha. pose proof Ha as (Habs & _ & Hl). unfold link_applet. pose proof (ok_Stat Hok a w) as E.
  destruct (decide (fs w !! a = None)) as [Hn|Hn].
  - assert (lookup_node (fs w) a = None) as Hnone.
    { unfold lookup_node. rewrite resolve_not_link; [done|done|]. intros t. by rewrite Hn. }
    rewrite Hnone in E. rewrite (run_ret _ _ _ _ _ E). change (IsNotExist ENOENT) with true. cbn match.
    eexists. split_and!; [apply (ok_sys_with Hok)| |].
    + change (fs (record _ _ w)) with (fs w). rewrite Habs, Hn, is_dir_bin by done. done.
    + by apply lookup_new_link.
    + done.
  - assert (lookup_node (fs w) a ≠ None) as Hsome by naive_solver. destruct (lookup_node (fs w) a) eqn:El; [|done].
    rewrite (run_ret _ _ _ _ _ E). eexists. split_and!; [done| |done].
    change (fs (record _ _ w)) with (fs w). by rewrite El.
Qed.

Lemma ok_link_applets (Hok : ∀ n c, k_fail n c = None) l w :
  bin_dirs (fs w) → Forall (applet_ok (fs w)) l →
  ∃ w', mforeach link_applet l w = (Ret tt, w') ∧ fs w ⊆ fs w' ∧
    Forall (λ a, lookup_node (fs w') a ≠ None ∧
                 (fs w !! a = None → fs w' !! a = Some (Link busboxScript))) l.
Proof.
  revert w. induction l as [|a l IH]; intros w Hb Hl; [by exists w|]. apply Forall_cons in Hl as [Ha Hl].
  destruct (ok_link_applet Hok a w Hb Ha) as (w1 & E1 & L1 & F1). cbn [mforeach]. rewrite (run_ret _ _ _ _ _ E1).
  assert (fs w ⊆ fs w1) as S1 by (rewrite F1; case_decide; [by apply insert_subseteq|done]).
  destruct (IH w1) as (w2 & E2 & S2 & H2).
  - by eapply bin_dirs_mono.
  - eapply Forall_impl; [exact Hl|]. intros b (Hb1 & Hb2 & Hb3). split_and!; [done|done|].
    destruct Hb3 as [Hn|Hs].
    + rewrite F1. case_decide; [|by left]. destruct (decide (a = b)) as [<-|Hne]; [right; by rewrite F1 in L1|].
      left. by rewrite lookup_insert_ne.
    + right. destruct (lookup_node (fs w) b) eqn:E; [|done]. by rewrite (lookup_node_mono _ _ _ _ S1 E).
  - exists w2. split_and!; [done|by etransitivity|]. constructor.
    + split.
      * destruct (lookup_node (fs w1) a) eqn:E; [|done]. by rewrite (lookup_node_mono _ _ _ _ S2 E).
      * intros Hn. eapply lookup_weaken; [|exact S2]. rewrite F1, decide_True by done. apply lookup_insert_eq.
    + rewrite Forall_forall in H2 |- *. intros b Hbl. destruct (H2 b Hbl) as [H3 H4]. split; [done|].
      intros Hn. destruct (fs w1 !! b) as [n|] eqn:E; [|by apply H4]. eapply lookup_weaken; [|exact S2].
      rewrite F1 in E |- *. case_decide; [|congruence]. destruct (decide (a = b)) as [<-|Hne].
      * apply lookup_insert_eq.
      * rewrite lookup_insert_ne in E by done. congruence.
Qed.

Lemma ok_bin_MkdirAll (Hok : ∀ n c, k_fail n c = None) d w :
  bin_dirs (fs w) → d ∈ busybox_dirs → ∃ w', ignore (MkdirAll d) w = (Ret tt, w') ∧ fs w' = fs w.
Proof.
  intros (H1 & H2 & H3 & _) Hd. exists (record (SMkdirAll d) None w). split; [|done].
  apply (ok_ignore (MkdirAll d) w tt). apply (ok_sys_with Hok).
  assert (mkdirs (path_prefixes d) (fs w) = inl (fs w)) as ->; [|by destruct w].
  unfold busybox_dirs in Hd. apply elem_of_cons in Hd as [->|Hd].
  - change (path_prefixes "/bin") with ["/bin"]. cbn [mkdirs]. by rewrite (lookup_node_dir _ "/bin").
  - apply list_elem_of_singleton in Hd as ->. change (path_prefixes "/usr/bin") with ["/usr"; "/usr/bin"]. cbn [mkdirs].
    by rewrite (lookup_node_dir _ "/usr"), (lookup_node_dir _ "/usr/bin").
Qed.

(** C38: Whatever fails, [runBusyboxScript] does not panic and never replaces or
    removes anything.  On a healthy machine with busybox and its directories every
    applet busybox lists can be found afterwards in both directories, as a link to
    busybox where nothing was before. *)
Theorem runBusyboxScript_links :
  (nopanic runBusyboxScript ∧ keeps grows runBusyboxScript) ∧
  ((∀ n c, k_fail n c = None) → ∀ w, bin_dirs (fs w) →
   Forall (applet_ok (fs w)) (applet_paths (k_output [busboxScript; "--list"])) →
   ∃ w', runBusyboxScript w = (Ret tt, w') ∧
     Forall (λ a, lookup_node (fs w') a ≠ None ∧ (fs w !! a = None → fs w' !! a = Some (Link busboxScript)))
       (applet_paths (k_output [busboxScript; "--list"]))).
Proof.
  split; [split|].
  - apply nopanic_bind; [apply nopanic_try, nopanic_sys_with|]. intros [u|e]; [|done].
    apply nopanic_bind; [apply nopanic_foreach; intros d; apply nopanic_ignore, nopanic_sys_with|]. intros _.
    apply nopanic_bind; [apply nopanic_sys_with|]. intros out. apply nopanic_foreach. intros a.
    apply nopanic_bind; [apply nopanic_try, nopanic_sys_with|]. intros [u'|e]; [done|].
    destruct (IsNotExist e); [apply nopanic_sys_with|done].
  - apply (keeps_bind _); [apply grows_Stat|]. intros [u|e]; [|apply keeps_ret, _].
    apply (keeps_bind _); [apply (keeps_foreach _); intros; apply grows_MkdirAll|]. intros _.
    apply (keeps_bind _); [apply grows_sys; by intros w a w' [= _ <-]|]. intros out.
    apply (keeps_foreach _). intros a _. apply grows_link.
  - intros Hok w Hb Hl. unfold runBusyboxScript. pose proof Hb as (_ & _ & _ & d & Hd).
    pose proof (ok_Stat Hok busboxScript w) as E. rewrite (lookup_node_file _ _ d) in E by done.
    rewrite (run_ret _ _ _ _ _ E). set (w1 := record _ _ w). cbn match.
    destruct (ok_bin_MkdirAll Hok "/bin" w1) as (w2 & E2 & F2); [done|by left|].
    destruct (ok_bin_MkdirAll Hok "/usr/bin" w2) as (w3 & E3 & F3); [by rewrite F2|by right; left|].
    unfold busybox_dirs. cbn [mforeach]. rewrite run_assoc, (run_ret _ _ _ _ _ E2), run_assoc, (run_ret _ _ _ _ _ E3).
    rewrite (run_ret _ _ w3 tt w3), (run_ret _ _ w3 (k_output [busboxScript; "--list"]) (record (SRun [busboxScript; "--list"]) None w3))
      by (done || by apply (ok_sys_with Hok)).
    assert (fs w3 = fs w) as Fw by (by rewrite F3, F2).
    destruct (ok_link_applets Hok (applet_paths (k_output [busboxScript; "--list"])) (record (SRun [busboxScript; "--list"]) None w3))
      as (w4 & E4 & _ & H4).
    1, 2: change (fs (record _ _ w3)) with (fs w3); by rewrite Fw.
    exists w4. split; [exact E4|]. change (fs (record _ _ w3)) with (fs w3) in H4. by rewrite Fw in H4.
Qed.
End busybox.

(** ** Witnesses *)

Lemma setupChronyD_config_witness :
  ∃ w', @setupChronyD calm ["10.0.0.1"; "10.0.0.2"] ex_world = (Ret tt, w') ∧
    fs w' !! chronydCfgPath =
      Some (File ("server 10.0.0.2 iburst" +:+ nl +:+ "server 10.0.0.1 iburst" +:+ nl +:+ chronydCfgData)).
Proof.
  destruct (proj1 (proj2 (@setupChronyD_config calm (λ _ _, eq_refl) ["10.0.0.1"; "10.0.0.2"] ex_world)))
    as (w' & E & F & _); [done..|].
  exists w'. split; [exact E|]. rewrite F. apply lookup_insert_eq.
Defined.

Definition ex_nfs : NFSSettings := mkNFS "10.0.0.9:/export" "/data" "vers=3".

Lemma setupNFS_mounts_witness :
  calls (@setupNFS calm [ex_nfs] ex_world).2 =
    [SMkdirAll "/data"; SMount ":/export" "/data" "nfs" 0 "vers=3,addr=10.0.0.9"].
Proof.
  refine (proj2 (@setupNFS_mounts calm [ex_nfs]) (λ _ _, eq_refl) _ ex_world).
  constructor; [|constructor]. exists "10.0.0.9", "/export". split; [done|]. vm_compute. done.
Defined.

Definition busybox_kernel : kernel := {|
  k_fail := λ _ _, None; k_pseudo := λ _, []; k_procs := λ _, []; k_pid := λ _, 0%Z; k_bsize := 4096;
  k_imaxpct := 25; k_output := λ _, "[" +:+ nl +:+ "ls" +:+ nl +:+ "cat" +:+ nl; k_http := λ _, None;
  k_uri_ok := λ _, true; k_lookpath := λ _, None; k_addrs := λ _, None; k_fd := λ _, 0%Z;
  k_lookup := λ _, None; k_respond := λ _ _, None; k_hangs := λ _ _, false; k_epoll := λ _, (0%Z, false); k_interfaces := []
|}.

Definition ex_busybox : world :=
  set_fs (list_to_map [("/bin", Dir); ("/usr", Dir); ("/usr/bin", Dir); ("/vorteil/busybox", File "");
    ("/bin/ls", File "mine")]) ex_world.

Lemma runBusyboxScript_links_witness :
  ∃ w', @runBusyboxScript busybox_kernel ex_busybox = (Ret tt, w') ∧
    fs w' !! "/usr/bin/cat" = Some (Link "/vorteil/busybox").
Proof.
  assert (@applet_paths (@k_output busybox_kernel [busboxScript; "--list"]) =
    ["/bin/ls"; "/usr/bin/ls"; "/bin/cat"; "/usr/bin/cat"]) as Hp by (vm_compute; done).
  destruct (proj2 (@runBusyboxScript_links busybox_kernel) (λ _ _, eq_refl) ex_busybox) as (w' & E & H).
  - split_and!; [done|done|done|by exists ""].
  - rewrite Hp. repeat apply Forall_cons_2; try apply Forall_nil_2;
      (split_and!; [done|vm_compute; by auto
        |first [left; vm_compute; reflexivity|right; vm_compute; discriminate]]).
  - rewrite Hp in H. exists w'. split; [exact E|]. apply Forall_cons in H as [_ H]. apply Forall_cons in H as [_ H].
    apply Forall_cons in H as [_ H]. apply Forall_cons in H as [[_ H] _]. by apply H.
Defined.
