(* ===== verification/Logging.v ===== *)
(** * Log forwarding and the consoles ([src/pkg/vorteil/logging.go], [log.go])

    [startLogging] writes a configuration for fluent-bit: sections of lines, one
    [add...] function per kind of section.  The string builder is the list of the
    sections written so far.  Of [log.go] the consoles and the log level are
    modelled; what is printed is not part of the state. *)

From S2P Require Import Prelude GoStrings GoPath GoNet Types BlockDev Os Process Disk Route Dhcp Network Launch LaunchTheorems Etc Conf Cloud.
Local Open Scope string_scope.

(** ** Sections *)

Record section := mkSection { header : string; body : list string }.

#[global] Instance section_eq_dec : EqDecision section.
Proof. solve_decision. Defined.

Definition line (s : string) : string := s +:+ nl.
Definition render_section (s : section) : string :=
  line ("[" +:+ header s +:+ "]") +:+ foldr (λ l t, line ("    " +:+ l) +:+ t) "" (body s).
Definition render (l : list section) : string := foldr (λ s t, render_section s +:+ t) "" l.

Definition vlogDir : string := "/vlogs".
Definition vlogType : string := "vlogfs".
Definition logSystem : string := "system".
Definition logKernel : string := "kernel".
Definition logStdout : string := "stdout".
Definition logProgs : string := "programs".

Definition SERVICE : section :=
  mkSection "SERVICE" ["Flush 10"; "Daemon off"; "Log_Level error"; "Parsers_File  /etc/parsers.conf"].
Definition HOSTNAME : section :=
  mkSection "FILTER" ["Name record_modifier"; "Match *"; "Record hostname ${HOSTNAME}"].
Definition INSTANCE (iid : string) : section :=
  mkSection "FILTER" ["Name record_modifier"; "Match *"; "Record  ec2_instance_id " +:+ iid].

(** ** Outputs *)

(** A line without an equals sign is reported, and then its missing value is
    used. *)
Definition output_line (envs : gmap string string) (l : string) : outcome string :=
  match SplitN2 l "=" with
  | [k; v] =>
      let v := if HasPrefix v "$" then default v (envs !! str_drop 1 v) else v in
      Ret (k +:+ " " +:+ v)
  | _ => Panic IndexOutOfRange
  end.

Fixpoint output_lines (envs : gmap string string) (l : list string) : outcome (list string) :=
  match l with
  | [] => Ret []
  | x :: l => t ← output_line envs x; rest ← output_lines envs l; mret (t :: rest)
  end.

Definition addLogginOutput (logEntry : Logging) (tag : string) (envs : gmap string string) : outcome section :=
  ls ← output_lines envs (Config logEntry);
  mret (mkSection "OUTPUT" (ls ++ ["Match_Regex " +:+ tag])%list).

(** ** Inputs *)

(** [logInputs] is the set of names; a function gives the sections it writes and
    the new set. *)
Definition addInput (name : string) (s : section) (logInputs : gset string) : list section * gset string :=
  if decide (name ∈ logInputs) then ([], logInputs) else ([s], {[name]} ∪ logInputs).

Definition system_input (name : string) : section := mkSection "INPUT" ["Name " +:+ name; "Tag vsystem-" +:+ name].
Definition netif_input (name : string) : section :=
  mkSection "INPUT" ["Name netif"; "Interface " +:+ name; "Tag vsystem-" +:+ name].
Definition kernel_input : section := mkSection "INPUT" ["Name kmsg"; "Tag vkernel"].
Definition stdout_input : section :=
  mkSection "INPUT" ["Name tail"; "Refresh_Interval 10"; "Path " +:+ vlogDir +:+ "/stdout"; "Path_Key filename";
                     "Skip_Long_Lines On"; "Tag vstdout"].
Definition prog_input (l : string) : section :=
  mkSection "INPUT" ["Name tail"; "Path " +:+ l; "Path_Key filename"; "Skip_Long_Lines On"; "Tag vprog"].

Definition addSystemLogging (ifcs : list ifc) (logInputs : gset string) : list section * gset string :=
  let '(s1, i1) := addInput "cpu" (system_input "cpu") logInputs in
  let '(s2, i2) := addInput "disk" (system_input "disk") i1 in
  let '(s3, i3) := addInput "mem" (system_input "mem") i2 in
  let '(s4, i4) := addInput "vdisk" (system_input "vdisk") i3 in
  ((s1 ++ s2 ++ s3 ++ s4 ++ ((λ i, netif_input (if_name i)) <$> ifcs))%list, i4).

Definition addKernelLogging : gset string → list section * gset string := addInput "kmsg" kernel_input.
Definition addStdoutLogging : gset string → list section * gset string := addInput "tail" stdout_input.

Section logging.
Context `{K : kernel} `{IO : ifc_order} (asset : string → option string).

(** A log file of a program. *)
Definition add_log_file (l : string) : OS (list section) :=
  let dir := PathDir l in
  ignore (Mkdir dir);;
  files ← mtry (ReadDir dir);
  match files with
  | inr _ => mret []
  | inl files =>
      (match files with [] => ignore (mountFs dir vlogType "") | _ => mret tt end);;
      ignore (plain (SChown dir userID userID));;
      mret [prog_input l]
  end.

Fixpoint add_log_files (l : list string) : OS (list section) :=
  match l with
  | [] => mret []
  | x :: l => s ← add_log_file x; rest ← add_log_files l; mret (s ++ rest)%list
  end.

Definition addProgLogging (programs : list program) : OS (list section) :=
  ignore (Mkdir vlogDir);;
  ignore (mountFs vlogDir vlogType "");;
  add_log_files (programs ≫= λ a, LogFiles (p_vcfgProg a)).

Definition enableTTYRedir : OS string := OpenFile false false "/vlogs/stdout".

(** The closure [redir]: an open that fails leaves nil. *)
Definition redir : OS unit :=
  ignore (Mkdir vlogDir);;
  ignore (mountFs vlogDir vlogType "");;
  ignore (OpenFile true false "/vlogs/stdout");;
  f ← mtry enableTTYRedir;
  vmodify (set_ttyRedir (match f with inl q => Some q | inr _ => None end)).

(** One entry of the configuration: the sections it adds. *)
Definition log_entry (l : Logging) (logInputs : gset string) : OS (list section * gset string) :=
  v ← vget;
  w ← mget;
  let t := log_Type l in
  if String.eqb t logSystem then
    let '(s, i) := addSystemLogging (range_ifcs (ifcs v)) logInputs in
    o ← lift (addLogginOutput l "vsystem-*" (v_envs v));
    mret ((s ++ [o])%list, i)
  else if String.eqb t logKernel then
    let '(s, i) := addKernelLogging logInputs in
    o ← lift (addLogginOutput l "vkernel" (v_envs v));
    mret ((s ++ [o])%list, i)
  else if String.eqb t logStdout then
    let '(s, i) := addStdoutLogging logInputs in
    o ← lift (addLogginOutput l "vstdout" (v_envs v));
    redir;;
    mret ((s ++ [o])%list, i)
  else if String.eqb t logProgs then
    s ← addProgLogging (progs w);
    o ← lift (addLogginOutput l "vprog" (v_envs v));
    mret ((s ++ [o])%list, logInputs)
  else
    let '(s1, i1) := addSystemLogging (range_ifcs (ifcs v)) logInputs in
    let '(s2, i2) := addKernelLogging i1 in
    let '(s3, i3) := addStdoutLogging i2 in
    s4 ← addProgLogging (progs w);
    o ← lift (addLogginOutput l t (v_envs v));
    redir;;
    mret ((s1 ++ s2 ++ s3 ++ s4 ++ [o])%list, i3).

Fixpoint log_loop (l : list Logging) (logInputs : gset string) : OS (list section) :=
  match l with
  | [] => mret []
  | x :: l =>
      '(s, i) ← log_entry x logInputs;
      rest ← log_loop l i;
      mret (s ++ rest)%list
  end.

Definition log_filters (v : Vinitd) : list section :=
  HOSTNAME :: match v_envs v !! envInstanceID with
              | Some iid => if bool_decide (v_cloud v = cpEC2) then [INSTANCE iid] else []
              | None => []
              end.

(** Without a directory of its own a command runs in that of init, which is /. *)
Definition fluentbit (hostname : string) : Cmd :=
  mkCmd "/vorteil/fluent-bit"
    ["/vorteil/fluent-bit"; "--config=/etc/fb.cfg"; "--quiet"; "--plugin=/vorteil/flb-in_vdisk.so"]
    ["HOSTNAME=" +:+ hostname; "HOME=/"; "LD_LIBRARY_PATH=/vorteil"] defaultCWD rootID rootID []
    defaultTTY defaultTTY None None.

(** The end of [startLogging], with the text of the builder. *)
Definition start_fluentbit (text hostname : string) : OS unit :=
  r ← mtry (WriteFile "/etc/fb.cfg" text);
  match r with
  | inr _ => mret tt
  | inl _ =>
      r ← mtry (OpenFile false false defaultTTY;; OpenFile false false defaultTTY);
      match r with
      | inr _ => mret tt
      | inl _ => ignore (Start (fluentbit hostname))
      end
  end.

Definition startLogging : OS unit :=
  ignore (writeEtcFile asset "parsers.conf" (PathJoin ["/etc"; "parsers.conf"]));;
  v ← vget;
  s ← log_loop (cfg_Logging (vcfg v)) ∅;
  v ← vget;
  start_fluentbit (render (SERVICE :: s ++ log_filters v)%list) (hostname v).
End logging.

(** ** Consoles and log level *)

Inductive Level := ErrorLevel | WarnLevel | DebugLevel.

(** [strconv.Atoi] of the first byte; a text that is no digit counts as 1. *)
Definition level_of (b : string) : outcome Level :=
  match b with
  | "" => Panic IndexOutOfRange
  | String a _ =>
      let i := default 1%Z (Atoi (String a "")) in
      Ret (if (6 <? i)%Z then DebugLevel else if (3 <? i)%Z then WarnLevel else ErrorLevel)
  end.

Section consoles.
Context `{K : kernel}.

(** The level of the logger, if it is set. *)
Definition setLoglevel : OS (option Level) :=
  r ← mtry (ReadFile "/proc/sys/kernel/printk");
  match r with
  | inr _ => mret None
  | inl b => l ← lift (level_of b); mret (Some l)
  end.

Definition enableTTYS : OS string := OpenFile false false "/dev/ttyS0".
Definition enableTTY : OS string := OpenFile false false "/dev/tty1".

(** [f, err = open()]: an open that fails leaves nil. *)
Definition assign (set : option string → Vinitd → Vinitd) (open : OS string) : OS unit :=
  f ← mtry open;
  vmodify (set (match f with inl q => Some q | inr _ => None end)).

Definition setupVtty (mode : stdoutMode) : OS unit :=
  (match mode with
   | StdoutModeScreenOnly => assign set_tty enableTTY;; vmodify (set_ttyS None)
   | StdoutModeSerialOnly => assign set_ttyS enableTTYS;; vmodify (set_tty None)
   | StdoutModeDisabled => vmodify (set_tty None);; vmodify (set_ttyS None)
   | StdoutModeOther => assign set_ttyS enableTTYS;; assign set_tty enableTTY
   end);;
  ignore (OpenFile true true defaultTTY);;
  ignore (OpenFile true true defaultTTY).

(** What arrived on the virtual console goes to the consoles that are open; a
    read that fails gives no bytes. *)
Definition check_event (ts : list string) (data : string) : OS unit :=
  mforeach (λ t, ignore (plain (SWrite t data))) ts.

Definition check_round (reads : list string) : OS unit :=
  v ← vget;
  mforeach (check_event (omap id [tty v; ttyS v; ttyRedir v])) reads.

(** The rounds of [epoll_wait], each with what its reads give. *)
Definition checkLogs (rounds : list (list string)) : OS unit :=
  setLoglevel;;
  r ← mtry (Open defaultTTY;; plain (SEpoll "nonblock");; plain (SEpoll "create");; plain (SEpoll defaultTTY));
  match r with
  | inr _ => mret tt
  | inl _ => mforeach check_round rounds;; waiting
  end.

Definition printVersion : OS string :=
  pv ← ReadFile "/proc/version";
  kv ← ReadFile "/proc/sys/kernel/version";
  mret (TrimSpace kv +:+ " (" +:+ TrimSpace (default "" (head (Split pv "("))) +:+ ")").

Definition LogDebugEarly (text : string) : OS unit :=
  ignore (q ← OpenFile false false "/dev/kmsg"; plain (SWrite q ("<7>" +:+ text))).
End consoles.

Local Open Scope list_scope.

(** ** The sections an entry adds *)

Definition other_type (l : Logging) : bool :=
  negb (String.eqb (log_Type l) logSystem) && negb (String.eqb (log_Type l) logKernel) &&
  negb (String.eqb (log_Type l) logStdout) && negb (String.eqb (log_Type l) logProgs).
Definition wants (t : string) (l : Logging) : bool := String.eqb (log_Type l) t || other_type l.

(** The inputs that make sense once: their name in [logInputs], the section and
    the type of the entries that need it. *)
Definition singles : list (string * section * string) :=
  [("cpu", system_input "cpu", logSystem); ("disk", system_input "disk", logSystem);
   ("mem", system_input "mem", logSystem); ("vdisk", system_input "vdisk", logSystem);
   ("kmsg", kernel_input, logKernel); ("tail", stdout_input, logStdout)].

Definition count (s : section) (l : list section) : nat := length (List.filter (λ x, bool_decide (x = s)) l).

Definition tag_of (l : Logging) : string :=
  if String.eqb (log_Type l) logSystem then "vsystem-*"
  else if String.eqb (log_Type l) logKernel then "vkernel"
  else if String.eqb (log_Type l) logStdout then "vstdout"
  else if String.eqb (log_Type l) logProgs then "vprog"
  else log_Type l.

Definition is_output (s : section) : bool := String.eqb (header s) "OUTPUT".

(** Every line of an entry has a key and a value. *)
Definition entry_ok (l : Logging) : Prop := Forall (λ x, Contains x "=" = true) (Config l).

Lemma count_app s a b : count s (a ++ b) = (count s a + count s b)%nat.
Proof. unfold count. by rewrite List.filter_app, length_app. Qed.

Lemma count_none s l : Forall (λ x, x ≠ s) l → count s l = 0%nat.
Proof. unfold count. induction 1 as [|x l Hx _ IH]; [done|]. cbn. by rewrite bool_decide_false. Qed.

Lemma outputs_none l : Forall (λ x, header x = "INPUT") l → List.filter is_output l = [].
Proof. induction 1 as [|x l Hx _ IH]; [done|]. cbn. unfold is_output at 1. by rewrite Hx. Qed.

Lemma output_lines_ok envs l :
  Forall (λ x, Contains x "=" = true) l → ∃ ls, output_lines envs l = Ret ls.
Proof.
  induction 1 as [|x l Hx _ [ls IH]]; [by eexists|]. cbn [output_lines]. unfold output_line, SplitN2.
  unfold Contains in Hx. destruct (Cut x "=") as [[k v]|]; [|done]. eexists. cbn. by rewrite IH.
Qed.

Lemma addInput_cases name s i :
  addInput name s i = (if decide (name ∈ i) then [] else [s], {[name]} ∪ i).
Proof. unfold addInput. case_decide; [|done]. f_equal. set_solver. Qed.

Lemma count_addInput sec name x i :
  count sec (addInput name x i).1 = if bool_decide (x = sec) && bool_decide (name ∉ i) then 1%nat else 0%nat.
Proof.
  rewrite addInput_cases. cbn [fst]. case_decide as Hn.
  - rewrite (bool_decide_false (name ∉ i)) by (intros H; by apply H). by rewrite andb_false_r.
  - rewrite (bool_decide_true (name ∉ i)) by done. rewrite andb_true_r. unfold count. cbn. by case_bool_decide.
Qed.

Lemma netif_count sec (cards : list ifc) :
  length (body sec) ≠ 3%nat → count sec ((λ i, netif_input (if_name i)) <$> cards) = 0%nat.
Proof.
  intros H. apply count_none, Forall_forall. intros x (i & -> & _)%list_elem_of_fmap E. apply H. by rewrite <-E.
Qed.

Lemma header_addInput name x i : header x = "INPUT" → Forall (λ x, header x = "INPUT") (addInput name x i).1.
Proof. intros H. rewrite addInput_cases. cbn. case_decide; by repeat constructor. Qed.

(** Decide the equations between closed sections. *)
Ltac eval_eqs :=
  repeat match goal with
  | |- context [bool_decide (?a = ?b :> section)] =>
      let v := eval vm_compute in (bool_decide (a = b)) in change (bool_decide (a = b)) with v
  end.

(** The three groups of inputs as functions of the set they start with. *)
Lemma system_inputs cards i :
  ∃ s, addSystemLogging cards i = (s, {["vdisk"]} ∪ ({["mem"]} ∪ ({["disk"]} ∪ ({["cpu"]} ∪ i)))) ∧
    Forall (λ x, header x = "INPUT") s ∧
    (∀ n sec t, (n, sec, t) ∈ singles →
       count sec s = if String.eqb t logSystem && bool_decide (n ∉ i) then 1 else 0)%nat ∧
    (∀ c, count (netif_input c) s = count (netif_input c) ((λ i, netif_input (if_name i)) <$> cards)).
Proof.
  unfold addSystemLogging. set (n1 := ((λ i, netif_input (if_name i)) <$> cards)).
  rewrite (surjective_pairing (addInput "cpu" _ i)). rewrite (surjective_pairing (addInput "disk" _ _)).
  rewrite (surjective_pairing (addInput "mem" _ _)), (surjective_pairing (addInput "vdisk" _ _)).
  assert (∀ name x i, (addInput name x i).2 = {[name]} ∪ i) as Hi by (intros; by rewrite addInput_cases).
  rewrite !Hi. eexists. split; [done|]. split_and!.
  - rewrite !Forall_app. split_and!; try by apply header_addInput.
    apply Forall_forall. by intros x (y & -> & _)%list_elem_of_fmap.
  - intros n sec t Hs. rewrite !count_app, !count_addInput. unfold singles in Hs.
    rewrite !elem_of_cons, elem_of_nil in Hs.
    destruct_or! Hs; try done; injection Hs as -> -> ->; subst n1; rewrite netif_count by done;
      eval_eqs; cbn [andb Nat.add String.eqb]; repeat case_bool_decide; try done; set_solver.
  - intros c. by rewrite !count_app, !count_addInput, !bool_decide_false by done.
Qed.

(** What an entry adds: inputs, then its output. *)
Definition adds (cards : list ifc) (envs : gmap string string) (i : gset string) (l : Logging) (s : list section) : Prop :=
  ∃ ins o, s = ins ++ [o] ∧ Forall (λ x, header x = "INPUT") ins ∧ addLogginOutput l (tag_of l) envs = Ret o ∧
    (∀ n sec t, (n, sec, t) ∈ singles → count sec ins = if wants t l && bool_decide (n ∉ i) then 1 else 0)%nat ∧
    (∀ c, count (netif_input c) ins =
       if wants logSystem l then count (netif_input c) ((λ i, netif_input (if_name i)) <$> cards) else 0)%nat.

(** Only the redirection of the console may have changed. *)
Definition same_but_redir (w w' : world) : Prop :=
  progs w' = progs w ∧ ∃ r, vinitd w' = set_ttyRedir r (vinitd w).

#[export] Instance same_but_redir_preorder : PreOrder same_but_redir.
Proof.
  split.
  - intros w. split; [done|]. exists (ttyRedir (vinitd w)). by destruct (vinitd w).
  - intros w1 w2 w3 [P1 [r1 V1]] [P2 [r2 V2]]. split; [congruence|]. exists r2. by rewrite V2, V1.
Qed.

Lemma vars_same w w' : vars w' = vars w → same_but_redir w w'.
Proof.
  intros V. injection V as _ _ _ _ _ Hp _ Hv _. split; [done|]. exists (ttyRedir (vinitd w)).
  rewrite Hv. by destruct (vinitd w).
Qed.

Definition log_dirs_ok (ps : list program) : Prop :=
  Forall (λ l, PathDir l ≠ "/proc" ∧ PathDir l ≠ "/sys") (ps ≫= λ a, LogFiles (p_vcfgProg a)).

Section entries.
Context `{K : kernel} `{IO : ifc_order}.

Local Abbreviation any := (λ _ : event, True).

Lemma tame_mountFs target fstype opts :
  target ≠ "/proc" → target ≠ "/sys" → tame any (mountFs target fstype opts).
Proof.
  intros H1 H2. unfold mountFs. apply tame_bind; [by apply tame_try, tame_Stat|]. intros r.
  apply tame_bind; [|intros _; by apply tame_Mount]. destruct r as [u|e]; [apply tame_ret|].
  destruct (IsNotExist e); [|apply tame_ret].
  destruct (String.eqb_spec target "/proc"); [done|]. destruct (String.eqb_spec target "/sys"); [done|].
  apply tame_bind; [apply tame_ret|]. intros _. by apply tame_MkdirAll.
Qed.

(** The result of a quiet action satisfies [Q]. *)
Definition gives {A} (Q : A → Prop) (m : OS A) : Prop :=
  ∀ w, ∃ a w', m w = (Ret a, w') ∧ vars w' = vars w ∧ Q a.

Lemma gives_bind {A B} (Q : A → Prop) (Q' : B → Prop) (m : OS A) (f : A → OS B) :
  gives Q m → (∀ a, Q a → gives Q' (f a)) → gives Q' (m ≫= f).
Proof.
  intros Hm Hf w. destruct (Hm w) as (a & w1 & E1 & V1 & Ha). rewrite (run_ret _ _ _ _ _ E1).
  destruct (Hf a Ha w1) as (b & w2 & E2 & V2 & Hb). exists b, w2. split_and!; [done|congruence|done].
Qed.

Lemma gives_quietly {A} P (m : OS A) : quietly P m → gives (λ _, True) m.
Proof. intros H w. destruct (H w) as (a & w' & evs & E & _ & _ & V). by exists a, w'. Qed.

Lemma gives_ret {A} (Q : A → Prop) (a : A) : Q a → gives Q (mret a).
Proof. intros H w. by exists a, w. Qed.

Local Abbreviation prog_inputs := (Forall (λ x, ∃ l, x = prog_input l)).

Lemma gives_log_file l : PathDir l ≠ "/proc" ∧ PathDir l ≠ "/sys" → gives prog_inputs (add_log_file l).
Proof.
  intros [H1 H2]. unfold add_log_file.
  apply (gives_bind (λ _, True)); [by eapply gives_quietly, quietly_ignore, (tame_Mkdir any)|]. intros _ _.
  apply (gives_bind (λ _, True)); [by eapply gives_quietly, quietly_try, (tame_ReadDir any)|]. intros [files|e] _; [|by apply gives_ret].
  apply (gives_bind (λ _, True)).
  { destruct files; [|by apply gives_ret]. eapply gives_quietly, quietly_ignore. by apply tame_mountFs. }
  intros _ _. apply (gives_bind (λ _, True)); [by eapply gives_quietly, quietly_ignore, (tame_plain any)|].
  intros _ _. apply gives_ret. repeat constructor. by exists l.
Qed.

Lemma gives_addProgLogging ps : log_dirs_ok ps → gives prog_inputs (addProgLogging ps).
Proof.
  intros Hd. unfold addProgLogging. apply (gives_bind (λ _, True)); [by eapply gives_quietly, quietly_ignore, (tame_Mkdir any)|].
  intros _ _. apply (gives_bind (λ _, True)); [by eapply gives_quietly, quietly_ignore, tame_mountFs|]. intros _ _.
  unfold log_dirs_ok in Hd. induction Hd as [|l ls Hl _ IH]; [by apply gives_ret|]. cbn [add_log_files].
  apply (gives_bind prog_inputs); [by apply gives_log_file|]. intros s Hs.
  apply (gives_bind prog_inputs); [done|]. intros rest Hr. apply gives_ret. by apply Forall_app.
Qed.

Lemma redir_returns w : ∃ w', redir w = (Ret tt, w') ∧ same_but_redir w w'.
Proof.
  unfold redir. destruct (quietly_ignore any _ (tame_Mkdir any vlogDir (λ _, I)) w) as ([] & w1 & ? & E1 & _ & _ & V1).
  rewrite (run_ret _ _ _ _ _ E1).
  destruct (quietly_ignore any _ (tame_mountFs vlogDir vlogType "" ltac:(done) ltac:(done)) w1) as ([] & w2 & ? & E2 & _ & _ & V2).
  rewrite (run_ret _ _ _ _ _ E2).
  destruct (quietly_ignore any _ (tame_OpenFile any true false "/vlogs/stdout" ltac:(done)) w2) as ([] & w3 & ? & E3 & _ & _ & V3).
  rewrite (run_ret _ _ _ _ _ E3).
  destruct (quietly_try any _ (tame_OpenFile any false false "/vlogs/stdout" ltac:(done)) w3) as (f & w4 & ? & E4 & _ & _ & V4).
  unfold enableTTYRedir. rewrite (run_ret _ _ _ _ _ E4). eexists. split; [done|].
  assert (same_but_redir w w4) as [P4 [r R4]] by (apply vars_same; congruence).
  split; [done|]. eexists. cbn. by rewrite R4.
Qed.

Lemma prog_inputs_count sec l : length (body sec) ≠ 5%nat → prog_inputs l → count sec l = 0%nat.
Proof.
  intros Hs Hl. apply count_none. eapply Forall_impl; [exact Hl|]. intros x [f ->] E. apply Hs. by rewrite <-E.
Qed.

Lemma singles_length n sec t : (n, sec, t) ∈ singles → length (body sec) ≠ 3%nat ∧ length (body sec) ≠ 5%nat.
Proof. unfold singles. rewrite !elem_of_cons, elem_of_nil. intros Hs. destruct_or! Hs; by simplify_eq. Qed.

(** The inputs of an entry, given those for the log files of the programs. *)
Definition entry_inputs (cards : list ifc) (l : Logging) (i : gset string) (ps : list section) : list section * gset string :=
  let '(s1, i1) := if wants logSystem l then addSystemLogging cards i else ([], i) in
  let '(s2, i2) := if wants logKernel l then addKernelLogging i1 else ([], i1) in
  let '(s3, i3) := if wants logStdout l then addStdoutLogging i2 else ([], i2) in
  (s1 ++ s2 ++ s3 ++ ps, i3).

Lemma log_entry_run l i w :
  entry_ok l → log_dirs_ok (progs w) →
  ∃ ps o w', log_entry l i w =
      (Ret ((entry_inputs (range_ifcs (ifcs (vinitd w))) l i ps).1 ++ [o],
            (entry_inputs (range_ifcs (ifcs (vinitd w))) l i ps).2), w') ∧
    prog_inputs ps ∧ addLogginOutput l (tag_of l) (v_envs (vinitd w)) = Ret o ∧ same_but_redir w w'.
Proof.
  intros He Hd. destruct (output_lines_ok (v_envs (vinitd w)) (Config l) He) as [ls Hls].
  set (out tag := mkSection "OUTPUT" (ls ++ ["Match_Regex " +:+ tag])).
  assert (∀ tag, addLogginOutput l tag (v_envs (vinitd w)) = Ret (out tag)) as Ho.
  { intros tag. unfold addLogginOutput. by rewrite Hls. }
  set (cards := range_ifcs (ifcs (vinitd w))).
  unfold log_entry. rewrite run_vget, run_get. cbn zeta. fold cards. rewrite !Ho.
  unfold entry_inputs, tag_of.
  assert (∀ t, wants t l = (String.eqb (log_Type l) t || other_type l)) as Hw by done. unfold other_type in Hw.
  destruct (String.eqb_spec (log_Type l) logSystem) as [->|_].
  { rewrite !Hw. cbn. destruct (addSystemLogging cards i) as [s1 i1]. exists [], (out "vsystem-*"), w. cbn. rewrite app_nil_r. by split_and!. }
  destruct (String.eqb_spec (log_Type l) logKernel) as [->|_].
  { rewrite !Hw. cbn -[addKernelLogging]. destruct (addKernelLogging i) as [s1 i1]. exists [], (out "vkernel"), w. cbn. rewrite app_nil_r. by split_and!. }
  destruct (String.eqb_spec (log_Type l) logStdout) as [->|_].
  { rewrite !Hw. cbn -[addStdoutLogging redir]. destruct (addStdoutLogging i) as [s1 i1]. rewrite (run_ret (lift _) _ w (out "vstdout") w) by done.
    destruct (redir_returns w) as (w' & E & S). rewrite (run_ret _ _ _ _ _ E).
    exists [], (out "vstdout"), w'. cbn. rewrite app_nil_r. by split_and!. }
  destruct (String.eqb_spec (log_Type l) logProgs) as [->|_].
  { rewrite !Hw. destruct (gives_addProgLogging _ Hd w) as (ps & w' & E & V & Hp). rewrite (run_ret _ _ _ _ _ E).
    exists ps, (out "vprog"), w'. split_and!; [done|done|done|by apply vars_same]. }
  rewrite !Hw. cbn [andb negb]. rewrite !orb_true_r. destruct (addSystemLogging cards i) as [s1 i1], (addKernelLogging i1) as [s2 i2], (addStdoutLogging i2) as [s3 i3].
  destruct (gives_addProgLogging _ Hd w) as (ps & w1 & E & V & Hp). rewrite (run_ret _ _ _ _ _ E).
  rewrite (run_ret (lift _) _ w1 (out (log_Type l)) w1) by done.
  destruct (redir_returns w1) as (w' & E' & S). rewrite (run_ret _ _ _ _ _ E').
  exists ps, (out (log_Type l)), w'. cbn [fst snd]. split_and!; [by rewrite <-!app_assoc|done|done|].
  etransitivity; [by apply vars_same|done].
Qed.

(** A group of inputs that is added or left out. *)
Lemma group_inputs (b : bool) (add : gset string → list section * gset string) t i :
  (∀ i, Forall (λ x, header x = "INPUT") (add i).1) →
  (∀ i n sec t', (n, sec, t') ∈ singles →
     count sec (add i).1 = (if String.eqb t' t && bool_decide (n ∉ i) then 1 else 0)%nat ∧
     (n ∈ (add i).2 ↔ n ∈ i ∨ t' = t)) →
  Forall (λ x, header x = "INPUT") (if b then add i else ([], i)).1 ∧
  ∀ n sec t', (n, sec, t') ∈ singles →
     count sec (if b then add i else ([], i)).1 = (if b && String.eqb t' t && bool_decide (n ∉ i) then 1 else 0)%nat ∧
     (n ∈ (if b then add i else ([], i)).2 ↔ n ∈ i ∨ (b = true ∧ t' = t)).
Proof.
  intros H1 H2. destruct b; [|by split; [constructor|intros; split; [done|naive_solver]]].
  split; [done|]. intros n sec t' Hs. destruct (H2 i n sec t' Hs). split; [done|naive_solver].
Qed.

Lemma single_group name x t i :
  (name, x, t) ∈ singles → t = logKernel ∨ t = logStdout →
  Forall (λ x, header x = "INPUT") (addInput name x i).1 ∧
  ∀ n sec t', (n, sec, t') ∈ singles →
     count sec (addInput name x i).1 = (if String.eqb t' t && bool_decide (n ∉ i) then 1 else 0)%nat ∧
     (n ∈ (addInput name x i).2 ↔ n ∈ i ∨ t' = t).
Proof.
  intros Hx Ht. split.
  - apply header_addInput. unfold singles in Hx. rewrite !elem_of_cons, elem_of_nil in Hx. by destruct_or! Hx; simplify_eq.
  - intros n sec t' Hs. rewrite count_addInput, addInput_cases. cbn [snd].
    unfold singles in Hs, Hx. rewrite !elem_of_cons, elem_of_nil in Hs, Hx.
    destruct_or! Hx; simplify_eq; destruct_or! Ht; try done; destruct_or! Hs; simplify_eq; eval_eqs;
      (split; [done|set_solver]).
Qed.

Lemma system_group cards i :
  Forall (λ x, header x = "INPUT") (addSystemLogging cards i).1 ∧
  ∀ n sec t', (n, sec, t') ∈ singles →
     count sec (addSystemLogging cards i).1 = (if String.eqb t' logSystem && bool_decide (n ∉ i) then 1 else 0)%nat ∧
     (n ∈ (addSystemLogging cards i).2 ↔ n ∈ i ∨ t' = logSystem).
Proof.
  destruct (system_inputs cards i) as (s & -> & H1 & H2 & _). split; [done|]. intros n sec t' Hs. split; [by apply H2|].
  unfold singles in Hs. rewrite !elem_of_cons, elem_of_nil in Hs. cbn [snd]. destruct_or! Hs; simplify_eq; set_solver.
Qed.

Lemma singles_type n sec t : (n, sec, t) ∈ singles → t = logSystem ∨ t = logKernel ∨ t = logStdout.
Proof. unfold singles. rewrite !elem_of_cons, elem_of_nil. intros Hs. destruct_or! Hs; simplify_eq; auto. Qed.

Lemma singles_kmsg : ("kmsg", kernel_input, logKernel) ∈ singles.
Proof. do 4 right. left. Qed.

Lemma singles_tail : ("tail", stdout_input, logStdout) ∈ singles.
Proof. do 5 right. left. Qed.

Lemma entry_inputs_spec cards l i ps :
  prog_inputs ps →
  Forall (λ x, header x = "INPUT") (entry_inputs cards l i ps).1 ∧
  ∀ n sec t, (n, sec, t) ∈ singles →
    count sec (entry_inputs cards l i ps).1 = (if wants t l && bool_decide (n ∉ i) then 1 else 0)%nat ∧
    (n ∈ (entry_inputs cards l i ps).2 ↔ n ∈ i ∨ wants t l = true).
Proof.
  intros Hps. unfold entry_inputs.
  destruct (group_inputs (wants logSystem l) (addSystemLogging cards) logSystem i) as [A1 B1].
  { intros j. apply system_group. } { intros j. apply system_group. }
  destruct (if wants logSystem l then _ else _) as [s1 i1].
  destruct (group_inputs (wants logKernel l) addKernelLogging logKernel i1) as [A2 B2].
  { intros j. apply (single_group "kmsg" kernel_input logKernel); [apply singles_kmsg|by left]. }
  { intros j. apply (single_group "kmsg" kernel_input logKernel); [apply singles_kmsg|by left]. }
  destruct (if wants logKernel l then _ else _) as [s2 i2].
  destruct (group_inputs (wants logStdout l) addStdoutLogging logStdout i2) as [A3 B3].
  { intros j. apply (single_group "tail" stdout_input logStdout); [apply singles_tail|by right]. }
  { intros j. apply (single_group "tail" stdout_input logStdout); [apply singles_tail|by right]. }
  destruct (if wants logStdout l then _ else _) as [s3 i3]. cbn [fst snd] in *. split.
  { rewrite !Forall_app. split_and!; [done..|]. eapply Forall_impl; [exact Hps|]. by intros x [f ->]. }
  intros n sec t Hs. destruct (B1 n sec t Hs) as [C1 D1], (B2 n sec t Hs) as [C2 D2], (B3 n sec t Hs) as [C3 D3].
  rewrite !count_app, C1, C2, C3, (prog_inputs_count sec ps) by (done || by eapply singles_length).
  split; [|clear -D1 D2 D3 Hs; destruct (singles_type _ _ _ Hs) as [->|[->| ->]]; naive_solver].
  destruct (singles_type _ _ _ Hs) as [->|[->| ->]].
  - change (String.eqb logSystem logSystem) with true. change (String.eqb logSystem logKernel) with false.
    change (String.eqb logSystem logStdout) with false. rewrite !andb_true_r, !andb_false_r. cbn. lia.
  - change (String.eqb logKernel logSystem) with false. change (String.eqb logKernel logKernel) with true.
    change (String.eqb logKernel logStdout) with false. rewrite !andb_true_r, !andb_false_r. cbn.
    rewrite (bool_decide_ext (n ∉ i1) (n ∉ i)) by naive_solver. lia.
  - change (String.eqb logStdout logSystem) with false. change (String.eqb logStdout logKernel) with false.
    change (String.eqb logStdout logStdout) with true. rewrite !andb_true_r, !andb_false_r. cbn.
    rewrite (bool_decide_ext (n ∉ i2) (n ∉ i)) by naive_solver. lia.
Qed.

Definition card_inputs (cards : list ifc) : list section := (λ i, netif_input (if_name i)) <$> cards.

(** The inputs of the cards are written again by every entry that needs them. *)
Lemma entry_inputs_cards cards l i ps c :
  prog_inputs ps →
  count (netif_input c) (entry_inputs cards l i ps).1 =
    (if wants logSystem l then count (netif_input c) (card_inputs cards) else 0)%nat.
Proof.
  intros Hps. unfold entry_inputs.
  assert (∀ (b : bool) name x j, length (body x) ≠ 3%nat →
    count (netif_input c) (if b then addInput name x j else ([], j)).1 = 0%nat) as Hone.
  { intros b name x j Hx. destruct b; [|done]. rewrite count_addInput, bool_decide_false; [done|].
    intros ->. by apply Hx. }
  assert (count (netif_input c) (if wants logSystem l then addSystemLogging cards i else ([], i)).1 =
    if wants logSystem l then count (netif_input c) (card_inputs cards) else 0%nat) as H1.
  { destruct (wants logSystem l); [|done]. by destruct (system_inputs cards i) as (s & -> & _ & _ & H). }
  destruct (if wants logSystem l then _ else _) as [s1 i1].
  pose proof (Hone (wants logKernel l) "kmsg" kernel_input i1 ltac:(done)) as H2.
  unfold addKernelLogging. destruct (if wants logKernel l then _ else _) as [s2 i2].
  pose proof (Hone (wants logStdout l) "tail" stdout_input i2 ltac:(done)) as H3.
  unfold addStdoutLogging. destruct (if wants logStdout l then _ else _) as [s3 i3]. cbn [fst] in *.
  rewrite !count_app, H1, H2, H3, (prog_inputs_count _ ps) by done. lia.
Qed.

Lemma is_output_inputs s o : Forall (λ x, header x = "INPUT") s → header o = "OUTPUT" → List.filter is_output (s ++ [o]) = [o].
Proof. intros Hs Ho. rewrite List.filter_app, outputs_none by done. cbn. unfold is_output. by rewrite Ho. Qed.

Lemma output_header l tag envs o : addLogginOutput l tag envs = Ret o → header o = "OUTPUT".
Proof. unfold addLogginOutput. destruct (output_lines envs (Config l)); intros [= <-]; done. Qed.

Lemma count_output n sec t o : (n, sec, t) ∈ singles → header o = "OUTPUT" → count sec [o] = 0%nat.
Proof.
  intros Hs Ho. apply count_none. repeat constructor. intros ->. unfold singles in Hs.
  rewrite !elem_of_cons, elem_of_nil in Hs. by destruct_or! Hs; simplify_eq.
Qed.

Lemma log_loop_run l i w :
  Forall entry_ok l → log_dirs_ok (progs w) →
  ∃ s w', log_loop l i w = (Ret s, w') ∧ same_but_redir w w' ∧
    (∀ n sec t, (n, sec, t) ∈ singles → count sec s = if existsb (wants t) l && bool_decide (n ∉ i) then 1 else 0)%nat ∧
    (∀ c, count (netif_input c) s = length (List.filter (wants logSystem) l) *
       count (netif_input c) (card_inputs (range_ifcs (ifcs (vinitd w)))))%nat ∧
    Forall2 (λ l o, addLogginOutput l (tag_of l) (v_envs (vinitd w)) = Ret o) l (List.filter is_output s).
Proof.
  revert i w. induction l as [|x l IH]; intros i w He Hd.
  { exists [], w. split_and!; [done|reflexivity|done|done|constructor]. }
  apply Forall_cons in He as [Hx He]. cbn [log_loop].
  destruct (log_entry_run x i w Hx Hd) as (ps & o & w1 & E1 & Hps & Ho & S1). rewrite (run_ret _ _ _ _ _ E1).
  destruct (entry_inputs_spec (range_ifcs (ifcs (vinitd w))) x i ps Hps) as [H1 H2].
  pose proof (λ c, entry_inputs_cards (range_ifcs (ifcs (vinitd w))) x i ps c Hps) as N1.
  destruct (entry_inputs _ x i ps) as [s1 i1]. cbn [fst snd] in *.
  pose proof S1 as [P1 [r V1]].
  destruct (IH i1 w1 He) as (s2 & w2 & E2 & S2 & C2 & N2 & F2); [by rewrite P1|]. rewrite (run_ret _ _ _ _ _ E2).
  exists ((s1 ++ [o]) ++ s2), w2. split_and!; [done|by etransitivity| | |].
  - intros n sec t Hs. destruct (H2 n sec t Hs) as [C1 M1].
    rewrite !count_app, C1, (C2 n sec t Hs), (count_output _ _ _ _ Hs (output_header _ _ _ _ Ho)). cbn [existsb].
    destruct (wants t x); cbn [orb andb].
    + rewrite (bool_decide_false (n ∉ i1)) by (intros Hn; apply Hn, M1; by right). rewrite andb_false_r.
      destruct (existsb (wants t) l); cbn; lia.
    + rewrite (bool_decide_ext (n ∉ i1) (n ∉ i)) by naive_solver. done.
  - intros c. rewrite !count_app, N1, N2, (count_none _ [o]), V1; cbn [List.filter].
    + change (ifcs (set_ttyRedir r (vinitd w))) with (ifcs (vinitd w)). destruct (wants logSystem x); cbn [length]; lia.
    + repeat constructor. intros ->. by apply output_header in Ho.
  - rewrite List.filter_app, is_output_inputs by (done || by eapply output_header). constructor; [done|].
    by rewrite V1 in F2.
Qed.

(** *** The forwarder *)

Definition done_call (c : syscall) : event := mkEvent c None.

(** The calls [cs] in order, up to the first that fails. *)
Definition until_failure (cs : list syscall) (evs : list event) : Prop :=
  evs = done_call <$> cs ∨
  ∃ before c after e, cs = before ++ c :: after ∧ evs = (done_call <$> before) ++ [mkEvent c (Some e)].

Definition forwarder_calls (q text hostname : string) : list syscall :=
  [SOpen "/etc/fb.cfg"; SWrite q text; SOpen defaultTTY; SOpen defaultTTY; SExec (fluentbit hostname)].

Lemma OpenFile_cases create trunc p w :
  (∃ q w', OpenFile create trunc p w = (Ret q, w') ∧ trace w' = trace w ++ [done_call (SOpen p)]) ∨
  (∃ e w', OpenFile create trunc p w = (Fail e, w') ∧ trace w' = trace w ++ [mkEvent (SOpen p) (Some e)]).
Proof.
  unfold OpenFile, sys, sys_with. destruct (k_fail _ _) as [[n e]|]; [right; by eexists _, _|].
  repeat case_match; simplify_eq; first [left; by eexists _, _|right; by eexists _, _].
Qed.

Lemma Write_cases q d w :
  (∃ w', Write q d w = (Ret tt, w') ∧ trace w' = trace w ++ [done_call (SWrite q d)] ∧ fs w' !! q = Some (File d)) ∨
  (∃ e w', Write q d w = (Fail e, w') ∧ trace w' = trace w ++ [mkEvent (SWrite q d) (Some e)]).
Proof.
  unfold Write, sys_with. destruct (k_fail _ _) as [[n e]|]; [right; by eexists _, _|].
  left. eexists. split_and!; [done|done|]. apply lookup_insert_eq.
Qed.

Lemma OpenFile_keeps_fs p w : fs (OpenFile false false p w).2 = fs w.
Proof. unfold OpenFile, sys, sys_with. repeat case_match; by simplify_eq. Qed.

(** Every call fails at most once, as the last one; if none does, the file holds
    the text. *)
Lemma start_fluentbit_run text h w :
  ∃ q w' evs, start_fluentbit text h w = (Ret tt, w') ∧ trace w' = trace w ++ evs ∧
    until_failure (forwarder_calls q text h) evs ∧
    (evs = done_call <$> forwarder_calls q text h → fs w' !! q = Some (File text)).
Proof.
  unfold start_fluentbit, WriteFile. set (fb := "/etc/fb.cfg").
  destruct (OpenFile_cases true true fb w) as [(q & w1 & E1 & T1)|(e & w1 & E1 & T1)].
  2:{ exists "", w1, [mkEvent (SOpen fb) (Some e)]. unfold mtry, mbind, M_bind. rewrite E1.
      split_and!; [done|done| |done]. right. by exists [], (SOpen fb), (SWrite "" text :: drop 2 (forwarder_calls "" text h)), e. }
  exists q. destruct (Write_cases q text w1) as [(w2 & E2 & T2 & F2)|(e & w2 & E2 & T2)].
  2:{ exists w2, [done_call (SOpen fb); mkEvent (SWrite q text) (Some e)]. unfold mtry, mbind, M_bind. rewrite E1, E2.
      split_and!; [done|by rewrite T2, T1, <-app_assoc| |done]. right. by exists [SOpen fb], (SWrite q text), (drop 2 (forwarder_calls q text h)), e. }
  rewrite (run_ret _ _ w (inl tt) w2) by (unfold mtry, mbind, M_bind; by rewrite E1, E2).
  assert (trace w2 = trace w ++ [done_call (SOpen fb); done_call (SWrite q text)]) as T2' by (by rewrite T2, T1, <-app_assoc).
  destruct (OpenFile_cases false false defaultTTY w2) as [(q3 & w3 & E3 & T3)|(e & w3 & E3 & T3)].
  2:{ exists w3, [done_call (SOpen fb); done_call (SWrite q text); mkEvent (SOpen defaultTTY) (Some e)].
      unfold mtry, mbind, M_bind. rewrite E3. split_and!; [done|by rewrite T3, T2', <-app_assoc| |done].
      right. by exists [SOpen fb; SWrite q text], (SOpen defaultTTY), (drop 3 (forwarder_calls q text h)), e. }
  destruct (OpenFile_cases false false defaultTTY w3) as [(q4 & w4 & E4 & T4)|(e & w4 & E4 & T4)].
  2:{ exists w4, [done_call (SOpen fb); done_call (SWrite q text); done_call (SOpen defaultTTY); mkEvent (SOpen defaultTTY) (Some e)].
      unfold mtry, mbind, M_bind. rewrite E3, E4. split_and!; [done|by rewrite T4, T3, T2', <-!app_assoc| |done].
      right. by exists [SOpen fb; SWrite q text; SOpen defaultTTY], (SOpen defaultTTY), (drop 4 (forwarder_calls q text h)), e. }
  rewrite (run_ret _ _ w2 (inl q4) w4) by (unfold mtry, mbind, M_bind; by rewrite E3, E4).
  assert (trace w4 = trace w ++ (done_call <$> take 4 (forwarder_calls q text h))) as T4' by (by rewrite T4, T3, T2', <-!app_assoc).
  assert (fs w4 = fs w2) as F4.
  { pose proof (OpenFile_keeps_fs defaultTTY w3) as H4. rewrite E4 in H4.
    pose proof (OpenFile_keeps_fs defaultTTY w2) as H3. rewrite E3 in H3. cbn in *. congruence. }
  unfold ignore, mtry, mbind, M_bind. destruct (Start_cases (fluentbit h) w4) as [[pid ->]|[e ->]].
  - eexists _, _. split_and!; [done|cbn; rewrite T4', <-app_assoc; done|by left|]. intros _. cbn. by rewrite F4.
  - eexists _, _. split_and!; [done|cbn; rewrite T4', <-app_assoc; done| |done].
    right. by exists (take 4 (forwarder_calls q text h)), (SExec (fluentbit h)), [], e.
Qed.

(** C36: With configuration lines of the form key=value and log files outside /proc
    and /sys, [startLogging] returns whatever call fails.  The sections it composes
    contain the inputs for cpu, disk, mem, vdisk, the kernel log and stdout once if
    some entry needs them and not at all otherwise, the input of a network card
    again for every entry that needs it, and one output for each entry, in order,
    with the tag of its type.  The last calls write exactly these sections, between
    the service section and the filters, to /etc/fb.cfg and start the forwarder on
    that file, in this order up to the first call that fails; if none fails the
    file holds the text. *)
Theorem startLogging_sections asset w :
  let v := vinitd w in
  let l := cfg_Logging (vcfg v) in
  Forall entry_ok l → log_dirs_ok (progs w) →
  ∃ s q w' before evs,
    let text := render (SERVICE :: s ++ log_filters v) in
    startLogging asset w = (Ret tt, w') ∧
    (∀ n sec t, (n, sec, t) ∈ singles → count sec s = if existsb (wants t) l then 1 else 0)%nat ∧
    (∀ c, count (netif_input c) s =
       length (List.filter (wants logSystem) l) * count (netif_input c) (card_inputs (range_ifcs (ifcs v))))%nat ∧
    Forall2 (λ l o, addLogginOutput l (tag_of l) (v_envs v) = Ret o) l (List.filter is_output s) ∧
    trace w' = before ++ evs ∧ until_failure (forwarder_calls q text (hostname v)) evs ∧
    (evs = done_call <$> forwarder_calls q text (hostname v) → fs w' !! q = Some (File text)).
Proof.
  cbn zeta. intros He Hd. unfold startLogging.
  assert (quietly any (ignore (writeEtcFile asset "parsers.conf" (PathJoin ["/etc"; "parsers.conf"])))) as Hq.
  { apply quietly_ignore. unfold writeEtcFile. destruct (asset _); [by apply tame_WriteFile|apply tame_fail]. }
  destruct (Hq w) as ([] & w0 & ? & E0 & _ & _ & V0). rewrite (run_ret _ _ _ _ _ E0), run_vget.
  injection V0 as _ _ _ _ _ P0 _ V0 _. rewrite V0.
  destruct (log_loop_run (cfg_Logging (vcfg (vinitd w))) ∅ w0 He) as (s & w1 & E1 & [_ [r V1]] & C & N & F);
    [by rewrite P0|]. rewrite (run_ret _ _ _ _ _ E1), run_vget, V1, V0. rewrite V0 in N, F.
  destruct (start_fluentbit_run (render (SERVICE :: s ++ log_filters (vinitd w))) (hostname (vinitd w)) w1)
    as (q & w2 & evs & E2 & T2 & U2 & F2).
  exists s, q, w2, (trace w1), evs. split; [exact E2|]. split; [|done]. intros n sec t Hs. rewrite (C n sec t Hs).
  rewrite bool_decide_true by set_solver. by rewrite andb_true_r.
Qed.
End entries.

(** ** Consoles *)

Section console_theorems.
Context `{K : kernel} (Hok : ∀ n c, k_fail n c = None).

Definition tty1 : string := "/dev/tty1".
Definition ttyS0 : string := "/dev/ttyS0".

(** The consoles a mode opens, as [setupVtty] leaves them. *)
Definition mode_ttys (mode : stdoutMode) : option string * option string :=
  match mode with
  | StdoutModeScreenOnly => (Some tty1, None)
  | StdoutModeSerialOnly => (None, Some ttyS0)
  | StdoutModeDisabled => (None, None)
  | StdoutModeOther => (Some tty1, Some ttyS0)
  end.

Definition is_device (m : gmap string node) (p : string) : Prop := ∃ d, m !! p = Some (File d).

Lemma ok_open_device p w :
  abs_path p = p → is_device (fs w) p → OpenFile false false p w = (Ret p, record (SOpen p) None w).
Proof.
  intros Ha [d Hd]. apply (ok_sys_with Hok). by rewrite (resolve_file _ _ d), Hd.
Qed.

Lemma ok_assign set p w :
  abs_path p = p → is_device (fs w) p →
  assign set (OpenFile false false p) w = (Ret tt, upd (set (Some p)) (record (SOpen p) None w)).
Proof.
  intros Ha Hd. unfold assign. by rewrite (run_ret _ _ _ _ _ (ok_try _ _ _ _ (ok_open_device p w Ha Hd))).
Qed.

Lemma ok_open_vtty w : is_device (fs w) defaultTTY →
  ∃ w', ignore (OpenFile true true defaultTTY) w = (Ret tt, w') ∧ vinitd w' = vinitd w ∧ is_device (fs w') defaultTTY.
Proof.
  intros [d Hd]. exists (record (SOpen defaultTTY) None (set_file defaultTTY "" w)).
  split_and!; [eapply ok_ignore, (ok_sys_with Hok)|done|].
  - by rewrite (resolve_file _ _ d), Hd.
  - exists "". apply lookup_insert_eq.
Qed.

Lemma check_round_calls reads w :
  ∃ w', check_round reads w = (Ret tt, w') ∧ vinitd w' = vinitd w ∧
    calls w' = calls w ++ (d ← reads; (λ t, SWrite t d) <$> omap id [tty (vinitd w); ttyS (vinitd w); ttyRedir (vinitd w)]).
Proof.
  unfold check_round. rewrite run_vget. generalize (omap id [tty (vinitd w); ttyS (vinitd w); ttyRedir (vinitd w)]). intros ts.
  assert (∀ d l w, ∃ w', check_event l d w = (Ret tt, w') ∧ vinitd w' = vinitd w ∧
    calls w' = calls w ++ ((λ t, SWrite t d) <$> l)) as Hev.
  { intros d l. unfold check_event. induction l as [|t l IH]; intros w0; [exists w0; by rewrite app_nil_r|].
    cbn [mforeach]. rewrite (run_ret _ _ _ _ _ (ok_ignore _ _ _ _ (ok_plain Hok (SWrite t d) w0))).
    destruct (IH (record (SWrite t d) None w0)) as (w' & E & V & C). exists w'. split_and!; [done|done|].
    by rewrite C, calls_record, <-app_assoc. }
  revert w. induction reads as [|d reads IH]; intros w; [exists w; by rewrite app_nil_r|]. cbn [mforeach].
  destruct (Hev d ts w) as (w1 & E1 & V1 & C1). rewrite (run_ret _ _ _ _ _ E1).
  destruct (IH w1) as (w2 & E2 & V2 & C2). exists w2. split_and!; [done|congruence|].
  by rewrite C2, C1, <-app_assoc.
Qed.

(** On a healthy machine with its consoles, after [setupVtty] everything that
    arrives on the virtual console is written, in order, to the screen and the
    serial line exactly as the mode says, and to the log redirection if it is on. *)
Theorem console_forwards mode reads w :
  is_device (fs w) tty1 → is_device (fs w) ttyS0 → is_device (fs w) defaultTTY →
  ∃ w1 w2, setupVtty mode w = (Ret tt, w1) ∧ check_round reads w1 = (Ret tt, w2) ∧
    (tty (vinitd w1), ttyS (vinitd w1)) = mode_ttys mode ∧
    calls w2 = calls w1 ++ (d ← reads; (λ t, SWrite t d) <$>
                              omap id [(mode_ttys mode).1; (mode_ttys mode).2; ttyRedir (vinitd w)]).
Proof.
  intros H1 H2 H3.
  assert (∃ w0, (match mode with
   | StdoutModeScreenOnly => assign set_tty enableTTY;; vmodify (set_ttyS None)
   | StdoutModeSerialOnly => assign set_ttyS enableTTYS;; vmodify (set_tty None)
   | StdoutModeDisabled => vmodify (set_tty None);; vmodify (set_ttyS None)
   | StdoutModeOther => assign set_ttyS enableTTYS;; assign set_tty enableTTY
   end) w = (Ret tt, w0) ∧ fs w0 = fs w ∧ (tty (vinitd w0), ttyS (vinitd w0)) = mode_ttys mode ∧
   ttyRedir (vinitd w0) = ttyRedir (vinitd w)) as (w0 & E0 & F0 & T0 & R0).
  { destruct mode; unfold enableTTY, enableTTYS; fold tty1 ttyS0.
    - rewrite (run_ret _ _ _ _ _ (ok_assign set_tty tty1 w eq_refl H1)). by eexists.
    - rewrite (run_ret _ _ _ _ _ (ok_assign set_ttyS ttyS0 w eq_refl H2)). by eexists.
    - by eexists.
    - rewrite (run_ret _ _ _ _ _ (ok_assign set_ttyS ttyS0 w eq_refl H2)).
      eexists. split; [by apply (ok_assign set_tty tty1)|done]. }
  unfold setupVtty. rewrite (run_ret _ _ _ _ _ E0).
  destruct (ok_open_vtty w0) as (w1 & E1 & V1 & D1); [by rewrite F0|]. rewrite (run_ret _ _ _ _ _ E1).
  destruct (ok_open_vtty w1 D1) as (w2 & E2 & V2 & _). destruct (check_round_calls reads w2) as (w3 & E3 & _ & C3).
  exists w2, w3. rewrite E2. assert (vinitd w2 = vinitd w0) as Hv by congruence. rewrite Hv in *.
  split_and!; [done|done|done|]. by rewrite C3, <-T0, R0.
Qed.
End console_theorems.

(** ** Witnesses *)

Definition ex_log_cfg (l : list Logging) : world :=
  upd (λ v, set_vcfg (mkVCFG [] None (cfg_System (vcfg v)) [] l [] ∅ "") v) ex_world.

Definition ex_logs : list Logging :=
  [mkLogging ["Name=es"; "Host=$HOSTNAME"] "system"; mkLogging ["Name=stdout"] "all"].

Lemma startLogging_sections_witness :
  ∃ s w', @startLogging calm by_key (λ _, None) (ex_log_cfg ex_logs) = (Ret tt, w') ∧
    count (system_input "cpu") s = 1%nat ∧ count kernel_input s = 1%nat ∧ length (List.filter is_output s) = 2%nat.
Proof.
  destruct (@startLogging_sections calm by_key (λ _, None) (ex_log_cfg ex_logs)) as (s & q & w' & before & evs & E & C & _ & F & _).
  - repeat constructor.
  - constructor.
  - exists s, w'. split_and!; [exact E| | |].
    + apply (C "cpu" _ logSystem). left.
    + apply (C "kmsg" _ logKernel). apply singles_kmsg.
    + by apply Forall2_length in F.
Defined.

Definition ex_consoles : world :=
  set_fs (<["/dev/tty1" := File ""]> (<["/dev/ttyS0" := File ""]> (fs ex_world))) ex_world.

Lemma console_forwards_witness :
  ∃ w1 w2, @setupVtty calm StdoutModeSerialOnly ex_consoles = (Ret tt, w1) ∧
    @check_round calm ["hello"] w1 = (Ret tt, w2) ∧ calls w2 = calls w1 ++ [SWrite "/dev/ttyS0" "hello"].
Proof.
  destruct (@console_forwards calm (λ _ _, eq_refl) StdoutModeSerialOnly ["hello"] ex_consoles) as (w1 & w2 & E1 & E2 & _ & C).
  - exists "". vm_compute. done.
  - exists "". vm_compute. done.
  - exists "". vm_compute. done.
  - exists w1, w2. split_and!; [exact E1|exact E2|exact C].
Defined.

(** A configuration line without an equals sign panics. *)
Example output_without_value :
  addLogginOutput (mkLogging ["Name"] "system") "vsystem-*" ∅ = Panic IndexOutOfRange.
Proof. done. Qed.

(** The text fluent-bit reads. *)
Example render_ex :
  render [kernel_input] = "[INPUT]" +:+ nl +:+ "    Name kmsg" +:+ nl +:+ "    Tag vkernel" +:+ nl.
Proof. done. Qed.
