(* ===== verification/Power.v ===== *)
(** * Power events ([src/pkg/vorteil/power.go], [chelper.go], [rnd.go], and the
    tools part of [src/cmd/vorteil.go])

    The machine is powered off by its power button, by the tools /sbin/poweroff
    and /sbin/reboot, which are links to the program itself and send a signal to
    process 1, and by the VMware tools.  A loop around [epoll_wait] never returns;
    it takes the number of rounds to consider. *)

From S2P Require Import Prelude GoStrings GoPath Types BlockDev Os Process Disk Launch LaunchTheorems Etc Conf Services.
Local Open Scope string_scope.

Definition AppPoweroff : string := "/sbin/poweroff".
Definition AppReboot : string := "/sbin/reboot".
Definition inputDevices : string := "/proc/bus/input/devices".
Definition vinitdPath : string := "/vorteil/vinitd".

Section power.
Context `{K : kernel}.

(** How many descriptors are ready, and whether the first one has the event that
    is waited for. *)
Definition EpollWait (name : string) : OS (Z * bool) :=
  sys (SEpoll name) (λ w, inl (k_epoll (length (trace w)), w)).

(** An error leaves [n] at -1; temporary or not, the next round follows. *)
Fixpoint listenPowerLoop (fuel : nat) : OS unit :=
  match fuel with
  | O => waiting
  | S fuel =>
      r ← mtry (EpollWait "wait");
      match r with
      | inr _ => listenPowerLoop fuel
      | inl (n, ready) =>
          if (n =? 1)%Z && ready then shutdown LINUX_REBOOT_CMD_POWER_OFF;; listenPowerLoop fuel
          else listenPowerLoop fuel
      end
  end.

(** Only an input device that cannot be opened stops it. *)
Definition listenToPowerEventFile (fuel : nat) (name : string) : OS unit :=
  r ← mtry (Open ("/dev/input/" +:+ name));
  match r with
  | inr _ => mret tt
  | inl _ =>
      ignore (plain (SEpoll "create"));;
      ignore (plain (SEpoll "add"));;
      listenPowerLoop fuel
  end.

(** The line with the handlers of the power button; the last line without one. *)
Fixpoint find_handlers (lines : list string) (toggle : bool) (l : string) : string :=
  match lines with
  | [] => l
  | l :: lines =>
      let toggle := toggle || Contains l "Power Button" in
      if toggle && Contains l "Handlers" then l else find_handlers lines toggle l
  end.

Definition event_handlers (text : string) : option (list string) :=
  match SplitN2 (find_handlers (scan_lines text) false "") "Handlers=" with
  | [_; hs] => Some (List.filter (λ s, HasPrefix s "event") (Fields hs))
  | _ => None
  end.

Definition listenToPowerEvent (fuel : nat) : OS unit :=
  r ← mtry (ReadFile inputDevices);
  match r with
  | inr _ => mret tt
  | inl text =>
      match event_handlers text with
      | None => mret tt
      | Some hs => mforeach (listenToPowerEventFile fuel) hs
      end
  end.

(** ** Tools *)

Definition sbin (name : string) : OS unit :=
  ignore (Remove name);;
  ignore (Symlink vinitdPath name).

Definition prepSbinPower : OS unit :=
  r ← mtry (Stat "/sbin");
  e ← (match r with
       | inr e => if IsNotExist e then mtry (Mkdir "/sbin") else mret (inl tt)
       | inl _ => mret (inl tt)
       end);
  match e with
  | inr _ => mret tt
  | inl _ => sbin AppPoweroff;; sbin AppReboot
  end.

(** [main] under the name of one of the tools. *)
Definition main_tool (arg0 : string) : OS unit :=
  r ← mtry (OpenFile false false defaultTTY);
  match r with
  | inr _ => mret tt
  | inl file =>
      let signal := if String.eqb arg0 AppPoweroff then SIGPWR else SIGINT in
      r ← mtry (plain (SKill 1 signal));
      match r with
      | inr _ => ignore (plain (SWrite file "can not send signal to process 1"))
      | inl _ => mret tt
      end
  end.

Definition RebootForTools : OS unit := shutdown LINUX_REBOOT_CMD_RESTART.
Definition ShutdownForTools : OS unit := shutdown LINUX_REBOOT_CMD_POWER_OFF.

(** ** Entropy *)

Definition RNDADDENTROPY : Z := 0x40085203.

(** [r] are the random bytes, [None] if there are none. *)
Definition addEntropy (r : option Z) : OS unit :=
  match r with
  | None => mret tt
  | Some r => ignore (plain (SIoctl "/dev/random" RNDADDENTROPY [64; 8; r]%Z))
  end.

Fixpoint runEntropy (rnd : list (option Z)) : OS unit :=
  match rnd with
  | [] => waiting
  | x :: rnd =>
      r ← mtry (EpollWait "random");
      match r with
      | inr _ => runEntropy rnd
      | inl (n, ready) => (if (n =? 1)%Z && ready then addEntropy x else mret tt);; runEntropy rnd
      end
  end.

Definition or_panic (m : OS unit) : OS unit :=
  r ← mtry m;
  match r with inl _ => mret tt | inr _ => SystemPanic end.

Definition runRandom (rnd : list (option Z)) : OS unit :=
  or_panic (Open "/dev/random");;
  or_panic (plain (SEpoll "create"));;
  or_panic (plain (SEpoll "add"));;
  runEntropy rnd.
End power.

Local Open Scope list_scope.

(** ** The power button *)

Definition pressed (x : Z * bool) : bool := (x.1 =? 1)%Z && x.2.

Section button.
Context `{K : kernel} (Hok : ∀ n c, k_fail n c = None).

(** The first line about handlers after the first line about the button. *)
Lemma find_handlers_skip pre lines l :
  Forall (λ x, Contains x "Power Button" = false) pre →
  ∃ l', find_handlers (pre ++ lines) false l = find_handlers lines false l'.
Proof.
  intros Hp. revert l. induction Hp as [|x pre Hx Hp IH]; intros l; [by exists l|]. cbn [app find_handlers].
  rewrite Hx. apply IH.
Qed.

Lemma find_handlers_on mid h post l :
  Forall (λ x, Contains x "Handlers" = false) mid → Contains h "Handlers" = true →
  find_handlers (mid ++ h :: post) true l = h.
Proof.
  intros Hm Hh. revert l. induction Hm as [|x mid Hx _ IH]; intros l; cbn [app find_handlers orb andb]; [by rewrite Hh|].
  by rewrite Hx.
Qed.

(** Waiting until the button is pressed. *)
Lemma power_loop_waits n fuel w :
  (∀ j, j < n → pressed (k_epoll (length (trace w) + j)) = false) →
  pressed (k_epoll (length (trace w) + n)) = true →
  ∃ w1, listenPowerLoop (S (n + fuel)) w = (shutdown LINUX_REBOOT_CMD_POWER_OFF;; listenPowerLoop fuel) w1 ∧
    calls w1 = calls w ++ replicate (S n) (SEpoll "wait") ∧ fs w1 = fs w ∧ vars w1 = vars w.
Proof.
  revert w. induction n as [|n IH]; intros w Hj Hn.
  - exists (record (SEpoll "wait") None w). rewrite Nat.add_0_r in Hn. split_and!; [|by rewrite calls_record|done|done].
    cbn [Nat.add listenPowerLoop]. rewrite (run_ret _ _ w (inl (k_epoll (length (trace w)))) (record (SEpoll "wait") None w))
      by (by apply ok_try, (ok_sys_with Hok)).
    unfold pressed in Hn. destruct (k_epoll (length (trace w))) as [m r]. cbn in Hn. by rewrite Hn.
  - set (w1 := record (SEpoll "wait") None w).
    assert (length (trace w1) = S (length (trace w))) as Hl by (subst w1; cbn; rewrite length_app; cbn; lia).
    destruct (IH w1) as (w2 & E2 & C2 & F2 & V2).
    { intros j Hlt. rewrite Hl. specialize (Hj (S j) ltac:(lia)). by rewrite Nat.add_succ_r in Hj. }
    { rewrite Hl. by rewrite Nat.add_succ_r in Hn. }
    exists w2. split_and!; [|by rewrite C2; subst w1; rewrite calls_record, <-app_assoc|done|done].
    change (S n + fuel) with (S (n + fuel)). cbn [listenPowerLoop].
    rewrite (run_ret _ _ w (inl (k_epoll (length (trace w)))) w1) by (by apply ok_try, (ok_sys_with Hok)).
    specialize (Hj 0 ltac:(lia)). rewrite Nat.add_0_r in Hj. unfold pressed in Hj.
    destruct (k_epoll (length (trace w))) as [m r]. cbn in Hj. by rewrite Hj.
Qed.

Lemma ok_power_file fuel ev d w :
  abs_path ("/dev/input/" +:+ ev) = "/dev/input/" +:+ ev → fs w !! ("/dev/input/" +:+ ev) = Some (File d) →
  listenToPowerEventFile fuel ev w =
    listenPowerLoop fuel (record (SEpoll "add") None (record (SEpoll "create") None
      (record (SOpen ("/dev/input/" +:+ ev)) None w))).
Proof.
  intros Ha Hd. unfold listenToPowerEventFile.
  rewrite (run_ret _ _ _ _ _ (ok_try _ _ _ _ (ok_Open Hok _ d w Ha Hd))). cbn match.
  rewrite (run_ret _ _ _ _ _ (ok_ignore _ _ _ _ (ok_plain Hok _ _))).
  by rewrite (run_ret _ _ _ _ _ (ok_ignore _ _ _ _ (ok_plain Hok _ _))).
Qed.

(** C24: On a healthy machine whose list of input devices has a power button with an
    event handler, [listenToPowerEvent] listens to that handler, waits as long as
    nothing happens, and when the button is pressed the very next thing it does
    is to power the machine off. *)
Theorem power_button_shuts_down text pre nm mid h post before hs ev rest d n fuel w :
  fs w !! inputDevices = Some (File text) →
  scan_lines text = pre ++ nm :: mid ++ h :: post →
  Forall (λ x, Contains x "Power Button" = false) pre → Contains nm "Power Button" = true →
  Forall (λ x, Contains x "Handlers" = false) (nm :: mid) →
  SplitN2 h "Handlers=" = [before; hs] → Contains h "Handlers" = true →
  List.filter (λ s, HasPrefix s "event") (Fields hs) = ev :: rest →
  abs_path ("/dev/input/" +:+ ev) = "/dev/input/" +:+ ev → fs w !! ("/dev/input/" +:+ ev) = Some (File d) →
  (∀ j, j < n → pressed (k_epoll (length (trace w) + 5 + j)) = false) →
  pressed (k_epoll (length (trace w) + 5 + n)) = true →
  ∃ w1 after, listenToPowerEvent (S (n + fuel)) w = (shutdown LINUX_REBOOT_CMD_POWER_OFF ≫= after) w1 ∧
    fs w1 = fs w ∧ vars w1 = vars w ∧
    calls w1 = calls w ++ [SOpen inputDevices; SRead inputDevices; SOpen ("/dev/input/" +:+ ev);
                           SEpoll "create"; SEpoll "add"] ++ replicate (S n) (SEpoll "wait").
Proof.
  intros Ht Hs Hpre Hnm [Hm1 Hm2]%Forall_cons Hh Hh2 Hf Ha Hd Hj Hn. unfold listenToPowerEvent.
  rewrite (run_ret _ _ _ _ _ (ok_try _ _ _ _ (ok_ReadFile Hok inputDevices text w eq_refl Ht))).
  assert (event_handlers text = Some (ev :: rest)) as ->.
  { unfold event_handlers. destruct (find_handlers_skip pre (nm :: mid ++ h :: post) "" Hpre) as [l' El].
    rewrite Hs, El. cbn [find_handlers]. rewrite Hnm, Hm1. cbn [orb andb].
    by rewrite find_handlers_on, Hh, Hf by done. }
  set (w1 := record _ _ (record _ _ w)). set (p := "/dev/input/" +:+ ev) in *.
  set (w2 := record (SOpen p) None w1). set (w3 := record (SEpoll "create") None w2). set (w4 := record (SEpoll "add") None w3).
  assert (length (trace w4) = length (trace w) + 5) as Hl.
  { subst w4 w3 w2 w1. cbn. rewrite !length_app. cbn. lia. }
  destruct (power_loop_waits n fuel w4) as (w5 & E5 & C5 & F5 & V5); [by rewrite Hl|by rewrite Hl|].
  exists w5, (λ _, listenPowerLoop fuel;; mforeach (listenToPowerEventFile (S (n + fuel))) rest).
  split; [|split_and!; [done|done|]].
  - rewrite <-run_assoc. cbn [mforeach]. unfold mbind at 1, M_bind at 1. rewrite (ok_power_file _ ev d w1 Ha Hd).
    fold p w2 w3 w4. rewrite E5. done.
  - rewrite C5. subst w4 w3 w2 w1. rewrite !calls_record, <-!app_assoc. done.
Qed.
End button.

(** ** The tools *)

Section tools.
Context `{K : kernel} (Hok : ∀ n c, k_fail n c = None).

(** On a healthy machine [sbin] leaves the link whatever was there. *)
Lemma ok_sbin name w :
  abs_path name = name → PathDir name = "/sbin" → fs w !! "/sbin" = Some Dir →
  ∃ w', sbin name w = (Ret tt, w') ∧ fs w' = <[name := Link vinitdPath]> (fs w).
Proof.
  intros Ha Hd Hs. unfold sbin.
  assert (∃ w1, ignore (Remove name) w = (Ret tt, w1) ∧ fs w1 = delete name (fs w)) as (w1 & E1 & F1).
  { unfold ignore, Remove, sys, sys_with, mtry, mbind, M_bind. rewrite Hok, Ha.
    destruct (fs w !! name) eqn:E; eexists; (split; [done|]); cbn; [done|]. by rewrite delete_id. }
  rewrite (run_ret _ _ _ _ _ E1). eexists. split.
  - eapply ok_ignore, (ok_sys_with Hok). rewrite Ha, F1, lookup_delete_eq, Hd.
    unfold is_dir. rewrite (lookup_node_dir (delete name (fs w)) "/sbin"); [done|done|].
    rewrite lookup_delete_ne; [done|]. intros ->. by vm_compute in Hd.
  - cbn. apply insert_delete_eq.
Qed.

Lemma is_dir_root m : is_dir m "/" = true.
Proof. unfold is_dir. by destruct (lookup_node m "/") as [[]|]. Qed.

Lemma ok_prepSbinPower w :
  fs w !! "/sbin" = Some Dir ∨ fs w !! "/sbin" = None →
  ∃ w', prepSbinPower w = (Ret tt, w') ∧
    fs w' = <[AppReboot := Link vinitdPath]> (<[AppPoweroff := Link vinitdPath]> (<["/sbin" := Dir]> (fs w))).
Proof.
  intros Hs.
  assert (∃ w1, ((r ← mtry (Stat "/sbin");
    match r with
    | inr e => if IsNotExist e then mtry (Mkdir "/sbin") else mret (inl tt)
    | inl _ => mret (inl tt)
    end) : OS (unit + error)) w = (Ret (inl tt), w1) ∧ fs w1 = <["/sbin" := Dir]> (fs w)) as (w1 & E1 & F1).
  { pose proof (ok_Stat Hok "/sbin" w) as E. destruct Hs as [Hs|Hs].
    - rewrite (lookup_node_dir (fs w) "/sbin") in E by done. rewrite (run_ret _ _ _ _ _ E).
      eexists. split; [done|]. symmetry. by apply insert_id.
    - assert (lookup_node (fs w) "/sbin" = None) as Hl.
      { unfold lookup_node. rewrite resolve_not_link; [done|done|]. intros t. by rewrite Hs. }
      rewrite Hl in E. rewrite (run_ret _ _ _ _ _ E). change (IsNotExist ENOENT) with true. cbn match.
      eexists. split; [eapply ok_try, (ok_sys_with Hok)|].
      + change (fs (record _ _ w)) with (fs w). change (abs_path "/sbin") with "/sbin". change (PathDir "/sbin") with "/". rewrite Hs, is_dir_root. done.
      + done. }
  unfold prepSbinPower. rewrite <-run_assoc, (run_ret _ _ _ _ _ E1).
  destruct (ok_sbin AppPoweroff w1) as (w2 & E2 & F2); [done|done|by rewrite F1, lookup_insert_eq|].
  rewrite (run_ret _ _ _ _ _ E2).
  destruct (ok_sbin AppReboot w2) as (w3 & E3 & F3); [done|done|by rewrite F2, F1, lookup_insert_ne, lookup_insert_eq|].
  exists w3. split; [done|]. by rewrite F3, F2, F1.
Qed.

(** On a healthy machine, after [prepSbinPower] both tools are links to the
    program, whatever was at their place; run as a tool the program sends process 1
    the signal of the tool and nothing else; and what process 1 does with that
    signal is the shutdown the tool is named after. *)
Theorem power_tools w tool cmd :
  (tool, cmd) ∈ [(AppPoweroff, LINUX_REBOOT_CMD_POWER_OFF); (AppReboot, LINUX_REBOOT_CMD_RESTART)] →
  fs w !! "/sbin" = Some Dir ∨ fs w !! "/sbin" = None →
  (∃ d, fs w !! defaultTTY = Some (File d)) →
  ∃ w1 sig w2, prepSbinPower w = (Ret tt, w1) ∧ fs w1 !! tool = Some (Link vinitdPath) ∧
    main_tool tool w1 = (Ret tt, w2) ∧ calls w2 = calls w1 ++ [SOpen defaultTTY; SKill 1 sig] ∧
    waitForSignal sig = shutdown cmd.
Proof.
  intros Ht Hs [d Hd]. destruct (ok_prepSbinPower w Hs) as (w1 & E1 & F1).
  assert (fs w1 !! defaultTTY = Some (File d)) as Hd1 by (by rewrite F1, !lookup_insert_ne).
  exists w1, (if String.eqb tool AppPoweroff then SIGPWR else SIGINT).
  set (sig := if String.eqb tool AppPoweroff then SIGPWR else SIGINT).
  exists (record (SKill 1 sig) None (record (SOpen defaultTTY) None w1)). split_and!.
  - done.
  - rewrite F1. rewrite !elem_of_cons, elem_of_nil in Ht. destruct_or! Ht; simplify_eq.
    + by rewrite lookup_insert_ne, lookup_insert_eq.
    + by rewrite lookup_insert_eq.
  - unfold main_tool. rewrite (run_ret _ _ w1 (inl defaultTTY) (record (SOpen defaultTTY) None w1)).
    + cbn zeta. fold sig. by rewrite (run_ret _ _ _ _ _ (ok_try _ _ _ _ (ok_plain Hok (SKill 1 sig) _))).
    + apply ok_try, (ok_sys_with Hok). by rewrite (resolve_file _ _ d), Hd1.
  - by rewrite !calls_record, <-app_assoc.
  - subst sig. rewrite !elem_of_cons, elem_of_nil in Ht. by destruct_or! Ht; simplify_eq.
Qed.
End tools.

(** ** Witnesses *)

Definition ex_devices : string :=
  Join ["I: Bus=0019 Vendor=0000"; "N: Name=Power Button"; "P: Phys=PNP0C0C"; "H: Handlers=kbd event0"; ""] nl.

Definition ex_power : world :=
  set_fs (<[inputDevices := File ex_devices]> (<["/dev/input/event0" := File ""]> (fs ex_world))) ex_world.

Lemma power_button_shuts_down_witness :
  ∃ w1 after, @listenToPowerEvent calm 3 ex_power = (@shutdown calm LINUX_REBOOT_CMD_POWER_OFF ≫= after) w1 ∧
    calls w1 = [SOpen inputDevices; SRead inputDevices; SOpen "/dev/input/event0"; SEpoll "create"; SEpoll "add";
                SEpoll "wait"].
Proof.
  destruct (@power_button_shuts_down calm (λ _ _, eq_refl) ex_devices ["I: Bus=0019 Vendor=0000"] "N: Name=Power Button"
    ["P: Phys=PNP0C0C"] "H: Handlers=kbd event0" [] "H: " "kbd event0" "event0" [] "" 0 2 ex_power)
    as (w1 & after & E & _ & _ & C); try reflexivity; try (repeat constructor; reflexivity).
  - lia.
  - exists w1, after. split; [exact E|exact C].
Defined.

Lemma power_tools_witness :
  ∃ w1 sig w2, @prepSbinPower calm ex_power = (Ret tt, w1) ∧ fs w1 !! AppPoweroff = Some (Link vinitdPath) ∧
    @main_tool calm AppPoweroff w1 = (Ret tt, w2) ∧ calls w2 = calls w1 ++ [SOpen defaultTTY; SKill 1 sig] ∧
    @waitForSignal calm sig = @shutdown calm LINUX_REBOOT_CMD_POWER_OFF.
Proof.
  apply (@power_tools calm (λ _ _, eq_refl)).
  - left.
  - right. done.
  - exists "". done.
Defined.
