(* ===== verification/Uptime.v ===== *)
(** * The uptime ([uptime] of [src/pkg/vorteil/utils.go], [UptimeForTools] of
    [chelper.go], the prefix of [logAlways] of [log.go])

    The uptime is read from /proc/uptime, whose first word is a decimal number
    with two digits after the point, and goes through a [float64].  A finite
    non-negative [float64] is a pair of a mantissa and a binary exponent; parsing
    and printing round to the nearest, ties to even, as package strconv does.  Of
    the texts [strconv.ParseFloat] accepts the decimal numerals are modelled:
    signs, exponents, hexadecimal numerals, infinities and NaNs do not occur in
    that file. *)

From S2P Require Import Prelude GoStrings GoPath Types BlockDev Os Cloud.
From Stdlib Require Import Ascii.
Local Open Scope string_scope.

(** ** Rounding *)

(** The integer nearest to [n / d], ties to even. *)
Definition nearest (n d : Z) : Z :=
  let q := (n / d)%Z in
  let r := (2 * (n mod d))%Z in
  if (r <? d)%Z then q
  else if (d <? r)%Z then (q + 1)%Z
  else if Z.even q then q else (q + 1)%Z.

(** [n / d / 2 ^ e] as a fraction. *)
Definition scale_num (n e : Z) : Z := (n * 2 ^ Z.max 0 (- e))%Z.
Definition scale_den (d e : Z) : Z := (d * 2 ^ Z.max 0 e)%Z.

(** The exponent that leaves 53 bits for the mantissa. *)
Definition exponent (n d : Z) : Z :=
  let e := (Z.log2 n - Z.log2 d - 52)%Z in
  Z.max (-1074) (if (scale_num n e <? 2 ^ 52 * scale_den d e)%Z then (e - 1)%Z else e).

Definition float := (Z * Z)%type.

(** The [float64] nearest to [n / d]; [None] when it is out of range. *)
Definition float64 (n d : Z) : option float :=
  if (n =? 0)%Z then Some (0, 0)%Z
  else
    let e := exponent n d in
    let m := nearest (scale_num n e) (scale_den d e) in
    if (2 ^ 1024 * scale_num 1 e <=? scale_den m e)%Z then None else Some (m, e).

(** ** Texts *)

(** The longest prefix of digits, and the rest. *)
Fixpoint span_digits (s : string) : string * string :=
  match s with
  | "" => ("", "")
  | String a s' =>
      if is_digit a then let '(d, r) := span_digits s' in (String a d, r) else ("", s)
  end.

(** The digits of a decimal numeral, and how many of them follow the point. *)
Definition numeral (s : string) : option (string * nat) :=
  let '(int, r) := span_digits s in
  match r with
  | "" => if String.eqb int "" then None else Some (int, 0%nat)
  | String p r =>
      if Ascii.eqb p "." then
        let '(frac, r) := span_digits r in
        if String.eqb (int +:+ frac) "" || negb (String.eqb r "") then None
        else Some (int +:+ frac, String.length frac)
      else None
  end.

Definition ParseFloat (s : string) : option float :=
  '(digits, k) ← numeral s;
  n ← digits_val digits 0;
  float64 n (10 ^ Z.of_nat k).

(** [fmt.Sprintf("%f", f)]: the value in millionths, and its text. *)
Definition millionths (f : float) : Z :=
  nearest (scale_den (f.1 * 10 ^ 6) f.2) (scale_num 1 f.2).

Definition digit (n : Z) : ascii := ascii_of_nat (48 + Z.to_nat n).

(** The last [k] decimal digits of [n]. *)
Fixpoint fixed (k : nat) (n : Z) (s : string) : string :=
  match k with
  | O => s
  | S k => fixed k (n / 10) (String (digit (n mod 10)) s)
  end.

Definition Sprintf_f (f : float) : string :=
  let n := millionths f in itoa (n / 10 ^ 6) +:+ "." +:+ fixed 6 (n mod 10 ^ 6) "".

(** [fmt.Sscanf(s, "%d.%d", &d1, &d2)] on unsigned 64-bit integers, which stay 0
    when the text does not match or does not fit. *)
Definition scan_uint (s : string) : option Z :=
  match s with
  | "" => None
  | _ => n ← digits_val s 0; if (n <? 2 ^ 64)%Z then Some n else None
  end.

Definition Sscanf_d_d (s : string) : Z * Z :=
  let '(a, r) := span_digits s in
  match scan_uint a with
  | None => (0, 0)%Z
  | Some d1 =>
      match r with
      | String p r => if Ascii.eqb p "." then (d1, default 0%Z (scan_uint (span_digits r).1)) else (d1, 0%Z)
      | "" => (d1, 0%Z)
      end
  end.

(** ** The functions *)

Definition procFile : string := "/proc/uptime".

Section uptime.
Context `{K : kernel}.

Definition uptime : OS float :=
  r ← mtry (ReadFile procFile);
  mret (match r with
        | inr _ => (0, 0)%Z
        | inl up => default (0, 0)%Z (ParseFloat (default "" (head (SplitN2 up " "))))
        end).

Definition UptimeForTools : OS Z :=
  up ← uptime;
  let '(d1, d2) := Sscanf_d_d (Sprintf_f up) in
  mret (i32 (u64 (u64 (d1 * 100) + d2))).

(** The line [logAlways] prints; with six digits behind the point the width 5 of
    its format never pads. *)
Definition log_line (txt : string) : OS string :=
  up ← uptime;
  mret ("[" +:+ Sprintf_f up +:+ "] " +:+ txt +:+ String (ascii_of_nat 10) "").
End uptime.

(** ** Rounding lemmas *)

Local Open Scope Z_scope.

Lemma nearest_error n d : 0 < d → 2 * Z.abs (nearest n d * d - n) ≤ d.
Proof.
  intros Hd. unfold nearest. pose proof (Z.div_mod n d ltac:(lia)). pose proof (Z.mod_pos_bound n d Hd).
  destruct (Z.ltb_spec (2 * (n mod d)) d); [nia|]. destruct (Z.ltb_spec d (2 * (n mod d))); [nia|].
  destruct (Z.even _); nia.
Qed.

(** A fraction close to an integer is rounded to it. *)
Lemma nearest_near n d q : 0 < d → 2 * Z.abs (n - q * d) < d → nearest n d = q.
Proof.
  intros Hd Hn. pose proof (nearest_error n d Hd). nia.
Qed.

Lemma exponent_neg n d :
  0 < n → 0 < d → n < d * 2 ^ 52 → d < 2 ^ 900 →
  exists k, 0 ≤ k ∧ exponent n d = - k ∧ d * 2 ^ 52 ≤ n * 2 ^ k.
Proof.
  intros Hn Hd Hlt Hbig.
  pose proof (Z.log2_spec n Hn) as [Hn1 Hn2]. pose proof (Z.log2_spec d Hd) as [Hd1 Hd2].
  pose proof (Z.log2_nonneg n). pose proof (Z.log2_nonneg d).
  set (a := Z.log2 n) in *. set (b := Z.log2 d) in *.
  assert (a ≤ b + 52) as Hab.
  { assert (2 ^ a < 2 ^ (b + 53)); [|apply Z.pow_lt_mono_r_iff in H1; lia].
    apply Z.le_lt_trans with n; [done|]. apply Z.lt_trans with (d * 2 ^ 52); [done|].
    replace (b + 53) with (Z.succ b + 52) by lia. rewrite Z.pow_add_r by lia. lia. }
  assert (b < 900) as Hb.
  { apply Z.log2_lt_pow2; lia. }
  unfold exponent. fold a b. set (e := a - b - 52). set (k := 52 + b - a).
  assert (Z.max 0 (- e) = k) as Hk by lia. assert (Z.max 0 e = 0) as He by lia.
  unfold scale_num, scale_den. rewrite Hk, He, Z.pow_0_r, Z.mul_1_r.
  assert (d * 2 ^ 52 ≤ n * 2 ^ (k + 1)) as Hk1.
  { assert (2 ^ a * 2 ^ (k + 1) = 2 ^ Z.succ b * 2 ^ 52) by (rewrite <-!Z.pow_add_r by lia; f_equal; lia).
    assert (0 < 2 ^ (k + 1)) by (apply Z.pow_pos_nonneg; lia).
    apply Z.le_trans with (2 ^ Z.succ b * 2 ^ 52); [lia|]. rewrite <-H1. apply Z.mul_le_mono_nonneg_r; lia. }
  destruct (Z.ltb_spec (n * 2 ^ k) (2 ^ 52 * d)) as [Hc|Hc].
  - exists (k + 1). split_and!; [lia|lia|done].
  - exists k. split_and!; [lia|lia|lia].
Qed.

(** A value with two digits behind the point survives the [float64]. *)
Lemma hundredths_survive n :
  0 ≤ n → n * 10 ^ 4 < 2 ^ 52 →
  exists f, float64 n (10 ^ 2) = Some f ∧ millionths f = n * 10 ^ 4.
Proof.
  intros Hn Hlt. unfold float64. destruct (Z.eqb_spec n 0) as [->|Hne]; [by exists (0, 0)|].
  destruct (exponent_neg n (10 ^ 2)) as (k & Hk & -> & Hbound); [lia..|].
  unfold millionths, scale_num, scale_den. rewrite Z.opp_involutive, Z.max_r, Z.max_l by lia.
  rewrite Z.pow_0_r, !Z.mul_1_r. set (m := nearest _ _).
  pose proof (nearest_error (n * 2 ^ k) (10 ^ 2) ltac:(lia)) as Hm. fold m in Hm.
  assert (0 < 2 ^ k) as Hp by (apply Z.pow_pos_nonneg; lia).
  destruct (Z.leb_spec (2 ^ 1024 * (1 * 2 ^ k)) m) as [Hbig|_].
  { assert (2 ^ 60 ≤ 2 ^ 1024) by (apply Z.pow_le_mono_r; lia). nia. }
  exists (m, - k). split; [done|]. cbn [fst snd]. rewrite Z.opp_involutive, (Z.max_r 0 k), (Z.max_l 0 (- k)) by lia.
  rewrite Z.pow_0_r, Z.mul_1_r, Z.mul_1_l. apply nearest_near; [done|]. nia.
Qed.

(** ** Texts of digits *)

Fixpoint all_digits (s : string) : bool :=
  match s with "" => true | String a s => is_digit a && all_digits s end.

Lemma all_digits_app s t : all_digits (s +:+ t) = all_digits s && all_digits t.
Proof. induction s as [|a s IH]; [done|]. cbn. by rewrite IH, andb_assoc. Qed.

Lemma digits_val_app s t acc v :
  digits_val s acc = Some v → digits_val (s +:+ t) acc = digits_val t v.
Proof.
  revert acc. induction s as [|a s IH]; intros acc; cbn; [by intros [= ->]|].
  destruct (is_digit a); [apply IH|done].
Qed.

Lemma digits_val_digits s acc v : digits_val s acc = Some v → all_digits s = true.
Proof.
  revert acc. induction s as [|a s IH]; intros acc; cbn; [done|]. destruct (is_digit a); [apply IH|done].
Qed.

(** A text that does not start with a digit. *)
Definition no_digit (s : string) : bool := match s with "" => true | String a _ => negb (is_digit a) end.

Lemma span_digits_app s r : all_digits s = true → no_digit r = true → span_digits (s +:+ r) = (s, r).
Proof.
  intros Hs Hr. induction s as [|a s IH]; cbn in *.
  - destruct r as [|b r]; [done|]. cbn in *. by destruct (is_digit b).
  - apply andb_true_iff in Hs as [-> Hs]. by rewrite IH.
Qed.

Lemma digit_spec n : 0 ≤ n < 10 → is_digit (digit n) = true ∧ Z.of_nat (nat_of_ascii (digit n)) - 48 = n.
Proof.
  intros Hn. unfold digit, is_digit. rewrite nat_ascii_embedding by lia. split; [|lia].
  apply andb_true_iff. split; apply Nat.leb_le; lia.
Qed.

Lemma digits_val_fixed k n s acc :
  digits_val (fixed k n s) acc = digits_val s (acc * 10 ^ Z.of_nat k + n mod 10 ^ Z.of_nat k).
Proof.
  revert n s. induction k as [|k IH]; intros n s; cbn [fixed].
  { rewrite Z.mod_1_r. f_equal. cbn. lia. }
  rewrite IH. cbn [digits_val]. destruct (digit_spec (n mod 10)) as [-> ->]; [by apply Z.mod_pos_bound|]. f_equal.
  replace (Z.of_nat (S k)) with (1 + Z.of_nat k) by lia. rewrite Z.pow_add_r by lia.
  change (10 ^ 1) with 10. rewrite Z.rem_mul_r by lia. lia.
Qed.

Lemma digits_val_itoa n : 0 ≤ n → digits_val (itoa n) 0 = Some n ∧ itoa n ≠ "".
Proof.
  intros Hn. assert (∀ x s, digits_val (pretty.pretty_N_go x s) 0 = digits_val s (Z.of_N x)) as Hgo.
  { intros x. induction (N.lt_wf_0 x) as [x _ IH]. intros s. destruct (decide (0 < x)%N) as [Hx|Hx].
    - rewrite pretty.pretty_N_go_step by done. rewrite IH by (by apply N.div_lt). cbn [digits_val].
      assert (x mod 10 < 10)%N as Hm by (by apply N.mod_lt).
      assert (pretty.pretty_N_char (x mod 10) = digit (Z.of_N (x mod 10))) as ->.
      { destruct (x mod 10)%N as [|p] eqn:E; [done|]. do 4 (destruct p as [p|p|]; try done; try lia). }
      destruct (digit_spec (Z.of_N (x mod 10))) as [-> ->]; [split; [apply N2Z.is_nonneg|by apply (N2Z.inj_lt _ 10)]|]. f_equal.
      rewrite N2Z.inj_div, N2Z.inj_mod. pose proof (Z.div_mod (Z.of_N x) 10 ltac:(lia)). cbn [Z.of_N] in *. lia.
    - assert (x = 0%N) as -> by lia. by rewrite pretty.pretty_N_go_0. }
  assert (∀ x, digits_val (pretty.pretty x) 0 = Some (Z.of_N x)) as HN.
  { intros x. unfold pretty.pretty, pretty.pretty_N. case_decide; [by subst|]. by rewrite Hgo. }
  assert (digits_val (itoa n) 0 = Some n) as Hv.
  { unfold itoa. destruct n as [|p|p]; [done| |lia].
    change (pretty.pretty (Z.pos p)) with (pretty.pretty (N.pos p)). by rewrite HN. }
  split; [done|]. intros E. rewrite E in Hv. injection Hv as <-. done.
Qed.

Lemma first_word t r : Contains t " " = false → head (SplitN2 (t +:+ " " +:+ r) " ") = Some t.
Proof.
  intros Ht. unfold SplitN2. pose proof (before_app t " " r Ht) as Hb. unfold before in Hb.
  change (t +:+ " " +:+ r) with (t +:+ String " " r). destruct (Cut _ _) as [[]|]; [by subst|].
  apply (f_equal String.length) in Hb. rewrite str_length_app in Hb. cbn in Hb. lia.
Qed.

Lemma digits_no_space s : all_digits s = true → Contains s " " = false.
Proof.
  induction s as [|a s IH]; [done|]. cbn [all_digits]. intros [Ha Hs]%andb_true_iff.
  rewrite Contains_char_cons, IH by done. destruct (Ascii.eqb_spec a " ") as [->|]; done.
Qed.

(** ** The uptime of the tools *)

(** The text of the kernel: seconds, two digits, and the idle time. *)
Definition uptime_text (s c : Z) (idle : string) : string :=
  itoa s +:+ "." +:+ fixed 2 c "" +:+ " " +:+ idle.

Lemma fixed_digits k n : all_digits (fixed k n "") = true.
Proof. eapply (digits_val_digits _ 0). by rewrite digits_val_fixed. Qed.

Lemma numeral_uptime s c :
  0 ≤ s → numeral (itoa s +:+ "." +:+ fixed 2 c "") = Some (itoa s +:+ fixed 2 c "", 2%nat).
Proof.
  intros Hs. destruct (digits_val_itoa s Hs) as [Hv Hne]. unfold numeral.
  rewrite (span_digits_app (itoa s)) by (done || by eapply digits_val_digits). cbn [String.append]. rewrite Ascii.eqb_refl.
  rewrite <-(str_app_nil_r (fixed 2 c "")) at 1.
  rewrite (span_digits_app (fixed 2 c "")) by (done || apply fixed_digits).
  destruct (String.eqb_spec (itoa s +:+ fixed 2 c "") "") as [E|_].
  { destruct (itoa s); [done|]. by cbn in E. }
  done.
Qed.

Lemma ParseFloat_uptime s c :
  0 ≤ s → 0 ≤ c < 100 →
  ParseFloat (itoa s +:+ "." +:+ fixed 2 c "") = float64 (100 * s + c) (10 ^ 2).
Proof.
  intros Hs Hc. unfold ParseFloat. rewrite numeral_uptime by done. cbn [mbind option_bind].
  destruct (digits_val_itoa s Hs) as [Hv _]. rewrite (digits_val_app _ _ _ _ Hv), digits_val_fixed.
  cbn [digits_val mbind option_bind]. change (10 ^ Z.of_nat 2) with 100. rewrite Z.mod_small by lia.
  f_equal. lia.
Qed.

Lemma scan_printed n : 0 ≤ n < 2 ^ 64 →
  Sscanf_d_d (itoa (n / 10 ^ 6) +:+ "." +:+ fixed 6 (n mod 10 ^ 6) "") = (n / 10 ^ 6, n mod 10 ^ 6).
Proof.
  intros Hn. assert (0 ≤ n / 10 ^ 6 < 2 ^ 64) as Hq by (split; [apply Z.div_pos; lia|apply Z.div_lt_upper_bound; lia]).
  destruct (digits_val_itoa (n / 10 ^ 6)) as [Hv Hne]; [lia|]. unfold Sscanf_d_d.
  rewrite (span_digits_app (itoa _)) by (done || by eapply digits_val_digits).
  assert (∀ s v, s ≠ "" → digits_val s 0 = Some v → v < 2 ^ 64 → scan_uint s = Some v) as Hscan.
  { intros s v Hs Hd Hb. unfold scan_uint. destruct s; [done|]. rewrite Hd. cbn [mbind option_bind].
    by rewrite (proj2 (Z.ltb_lt _ _)). }
  rewrite (Hscan _ _ Hne Hv) by lia. cbn [String.append]. rewrite Ascii.eqb_refl. f_equal.
  rewrite <-(str_app_nil_r (fixed 6 _ "")), (span_digits_app (fixed 6 _ "")) by (done || apply fixed_digits). cbn [fst].
  pose proof (Z.mod_pos_bound n (10 ^ 6) ltac:(lia)).
  rewrite (Hscan _ (n mod 10 ^ 6)); [done|done| |lia]. rewrite digits_val_fixed. cbn [digits_val]. f_equal.
  change (10 ^ Z.of_nat 6) with (10 ^ 6). rewrite (Z.mod_small (n mod _)) by lia. lia.
Qed.

(** Hundredths of seconds that the [float64] carries exactly: 142 years. *)
Definition uptime_range (s c : Z) : Prop := 0 ≤ s ∧ 0 ≤ c < 100 ∧ (100 * s + c) * 10 ^ 4 < 2 ^ 52.

Lemma uptime_run `{K : kernel} s c idle w :
  (∀ n c, k_fail n c = None) → fs w !! procFile = Some (File (uptime_text s c idle)) → uptime_range s c →
  ∃ f w', uptime w = (Ret f, w') ∧ millionths f = (100 * s + c) * 10 ^ 4.
Proof.
  intros Hok Hf (Hs & Hc & Hb). destruct (hundredths_survive (100 * s + c)) as (f & E & Hm); [lia|done|].
  exists f. eexists. split; [|done]. unfold uptime.
  erewrite run_ret; [|apply ok_try, (ok_ReadFile Hok _ _ w); [by vm_compute|exact Hf]].
  set (t := itoa s +:+ "." +:+ fixed 2 c "").
  assert (uptime_text s c idle = t +:+ " " +:+ idle) as -> by (unfold uptime_text, t; by rewrite !str_app_assoc).
  rewrite first_word.
  - change (default "" (Some t)) with t. assert (ParseFloat t = Some f) as -> by (unfold t; by rewrite ParseFloat_uptime).
    reflexivity.
  - destruct (digits_val_itoa s Hs) as [Hv%digits_val_digits _]. unfold t. cbn [String.append].
    assert (∀ x y, Contains x " " = false → Contains (String "." y) " " = false → Contains (x +:+ String "." y) " " = false) as Happ.
    { intros x y Hx Hy. induction x as [|a x IH]; [done|]. cbn [String.append]. rewrite Contains_char_cons in *.
      apply orb_false_iff in Hx as [-> Hx]. by apply IH. }
    apply Happ; [by apply digits_no_space|]. rewrite Contains_char_cons. by apply digits_no_space, fixed_digits.
Qed.

(** C40: With an uptime of [s] seconds and [c] hundredths the tools are told
    [100 * s + 10000 * c], cut to 32 bits: the float64 loses nothing, but the six
    digits that %f prints after the point are added as if they were two.  The
    answer is the uptime in hundredths only at full seconds. *)
Theorem UptimeForTools_value `{K : kernel} s c idle w :
  (∀ n c, k_fail n c = None) → fs w !! procFile = Some (File (uptime_text s c idle)) → uptime_range s c →
  (UptimeForTools w).1 = Ret (i32 (100 * s + 10000 * c)) ∧
  (i32 (100 * s + 10000 * c) = i32 (100 * s + c) ↔ c = 0).
Proof.
  intros Hok Hf Hr. destruct (uptime_run s c idle w Hok Hf Hr) as (f & w' & E & Hm).
  destruct Hr as (Hs & Hc & Hb). split.
  - unfold UptimeForTools. rewrite (run_ret _ _ _ _ _ E). unfold Sprintf_f. rewrite Hm, scan_printed by lia.
    assert ((100 * s + c) * 10 ^ 4 / 10 ^ 6 = s) as -> by (symmetry; apply (Z.div_unique_pos _ _ _ (c * 10 ^ 4)); lia).
    assert (((100 * s + c) * 10 ^ 4) mod 10 ^ 6 = c * 10 ^ 4) as -> by (symmetry; apply (Z.mod_unique_pos _ _ s); lia).
    cbn [fst mret M_ret]. rewrite (uwrap_small 64 (s * 100)) by lia. rewrite uwrap_small by lia. do 2 f_equal. lia.
  - split; [|by intros ->]. unfold i32, swrap. intros H.
    assert ((9999 * c) mod 2 ^ 32 = 0) as H0.
    { replace (9999 * c) with ((100 * s + 10000 * c + 2 ^ (32 - 1)) - (100 * s + c + 2 ^ (32 - 1))) by lia.
      rewrite Zminus_mod. replace ((100 * s + 10000 * c + 2 ^ (32 - 1)) mod 2 ^ 32)
        with ((100 * s + c + 2 ^ (32 - 1)) mod 2 ^ 32) by lia. by rewrite Z.sub_diag. }
    rewrite Z.mod_small in H0 by lia. lia.
Qed.

Lemma UptimeForTools_value_witness :
  (@UptimeForTools calm (set_fs (<[procFile := File "12345.67 54321.00"]> (fs ex_world)) ex_world)).1 = Ret 1904500.
Proof.
  apply (@UptimeForTools_value calm 12345 67 "54321.00" _ ltac:(done)).
  - vm_compute. reflexivity.
  - unfold uptime_range. lia.
Defined.
