(* ===== verification/Boot.v ===== *)
(** * The boot sequence ([src/pkg/vorteil/vinitd.go], [openVCFGFile] and
    [readVCFG] of [conf.go], [Launch] of [launch.go], [main] of
    [src/cmd/vorteil.go])

    The four stages of the boot, composed of the components of the other files.
    Goroutines that a stage waits for run one after the other, those of [Setup] and
    [Launch] in any order (the class [schedule]); how the steps of a group can
    interleave is the subject of [SetupRace], [Join] and [LaunchSteps], and a stage
    here ends in one of the ways found there.  A goroutine that is not waited for
    and ends by itself runs where it is started; the start of one that waits for
    events of its own is recorded as [SGo], and what it does with an event is
    modelled with its component.  The logger is taken to be set: the package could
    open /dev/vtty when it was initialised. *)

From S2P Require Import Prelude Bytes GptTypes GoStrings GoPath GoNet Json Hostname Types BlockDev GptUtil Gpt Os Process Disk Launch Etc SetupRace Route Dhcp Network Conf Cloud Services Logging Power.
Local Open Scope string_scope.

(** ** Libraries

    [vimg.BootloaderConfig] and [vcfg.VCFG] belong to another repository: the
    number of bytes [binary.Read] takes for the first, its two 64-bit fields the
    program uses, and what [json.Unmarshal] makes of the second.
    [stdout_mode_zero] is the mode whose number is 0. *)
Class image_lib := {
  blc_size : nat;
  ConfigOffset : list byte → Z;
  ConfigLen : list byte → Z;
  Unmarshal_VCFG : list byte → option VCFG;
  stdout_mode_zero : stdoutMode
}.

(** What differs from boot to boot: random numbers, Unicode case folding, the
    embedded files, the order of a map of two users, the machine id, and which of
    the ways in which a group of goroutines can end is taken. *)
Class chance := {
  unicode_lower : string → string;
  rnd : nat → nat;
  asset : string → option string;
  flip : bool;
  uuid : string + error;
  pick : nat
}.

(** ** The configuration on the disk *)

Definition vcfgOffset : Z := (sectorSize * 34)%Z.

(** The largest slice the run-time system makes. *)
Definition maxAlloc : Z := 2 ^ 48.

(** One [f.Read(b)] with [len(b) = n], at most 1 GiB at a time: the bytes behind
    those that were read stay zero. *)
Definition read_some (n : nat) : M dev (list byte) :=
  f ← next_fault;
  d ← mget;
  match f with
  | Some k => mmodify (set_pos (pos d + Z.of_nat (k `min` n)));; mfail EIO
  | None =>
      let got := slice (Z.to_nat (pos d)) (Z.to_nat (Z.min (Z.of_nat n) (2 ^ 30))) (content d) in
      mmodify (set_pos (pos d + Z.of_nat (length got)));;
      if decide (length got = 0 ∧ n ≠ 0)%nat then mfail IO_EOF
      else mret (got ++ replicate (n - length got) Byte.x00)%list
  end.

Section config.
Context `{K : kernel} `{IL : image_lib}.

Definition openVCFGFile (disk : string) : OS unit :=
  Open disk;;
  on_disk (mmodify (set_pos 0));;
  off ← on_disk (seek vcfgOffset);
  if negb (off =? vcfgOffset)%Z then mfail (Errorf "can not read vcfg, wrong offset") else mret tt.

(** The bytes [readVCFG] gets from the open file. *)
Definition read_config : M dev (list byte) :=
  blc ← read_full blc_size;
  seek (i64 (vcfgOffset + ConfigOffset blc));;
  let n := ConfigLen blc in
  if ((n <? 0) || (maxAlloc <? n))%Z then mpanic SliceBounds else read_some (Z.to_nat n).

Definition readVCFG (disk : string) : OS unit :=
  openVCFGFile disk;;
  r ← mtry (on_disk read_config);
  quiet (SClose disk);;
  match r with
  | inr e => mfail e
  | inl vb =>
      match Unmarshal_VCFG vb with
      | None => mfail (Errorf "invalid vcfg")
      | Some c => vmodify (set_vcfg c);; vmodify (set_user (User (cfg_System c)))
      end
  end.
End config.

(** ** Disks of the direktiv service *)

Definition direktivDir : string := "/direktiv-data".
Definition direktivErr : string := "error.log".
Definition direktivOut : string := "log.log".
Definition MS_SILENT : Z := 32768.

Definition uuidPlain : string :=
  foldr (λ n s, String (chr n) s) ""
    [0x7d; 0x44; 0x48; 0x40; 0x9d; 0xc0; 0x11; 0xd1; 0xb2; 0x45; 0x5f; 0xfd; 0xce; 0x74; 0xfa; 0xd3]%nat.

Record networkSetting := mkSetting { ns_IP : string; ns_Mask : string; ns_Gateway : string }.

(** How [encoding/json] finds the field of a key: letters in either case, and the
    Kelvin sign for k and the long s for s. *)
Definition same_letter (a b : Ascii.ascii) : bool := (Nat.land (code a) 223 =? Nat.land (code b) 223)%nat.

Fixpoint equalFold (s t : string) : bool :=
  match s, t with
  | "", "" => true
  | String a s, String b t =>
      if (code b <? 128)%nat then same_letter a b && equalFold s t
      else
        match t with
        | String c t =>
            if same_letter a (chr 115) && (code b =? 0xC5)%nat && (code c =? 0xBF)%nat then equalFold s t
            else
              match t with
              | String d t =>
                  same_letter a (chr 107) && (code b =? 0xE2)%nat && (code c =? 0x84)%nat && (code d =? 0xAA)%nat
                  && equalFold s t
              | "" => false
              end
        | "" => false
        end
  | _, _ => false
  end.

(** The field a key sets. *)
Definition setting_field (k : string) : option (string → networkSetting → networkSetting) :=
  if equalFold "ip" k then Some (λ x n, mkSetting x (ns_Mask n) (ns_Gateway n))
  else if equalFold "mask" k then Some (λ x n, mkSetting (ns_IP n) x (ns_Gateway n))
  else if equalFold "gw" k then Some (λ x n, mkSetting (ns_IP n) (ns_Mask n) x)
  else None.

(** A value of another kind than a string is an error in the end; the other
    members are stored all the same. *)
Fixpoint setting_members (l : list (string * json)) (n : networkSetting) (ok : bool) : networkSetting * bool :=
  match l with
  | [] => (n, ok)
  | (k, v) :: l =>
      match setting_field k, v with
      | None, _ | _, JNull => setting_members l n ok
      | Some set, JString x => setting_members l (set x n) ok
      | Some _, _ => setting_members l n false
      end
  end.

(** What the structure holds afterwards, and whether there was no error. *)
Definition Unmarshal_setting (text : string) : networkSetting * bool :=
  let zero := mkSetting "" "" "" in
  match Parse text with
  | Some JNull => (zero, true)
  | Some (JObject l) => setting_members l zero true
  | _ => (zero, false)
  end.

Section direktiv.
Context `{K : kernel}.

(** [f.ReadAt(b, off)] with [len(b) = n] on an open file. *)
Definition ReadAt (p : string) (off n : nat) : OS string :=
  sys (SRead p) (λ w,
    match lookup_node (fs w) p with
    | Some (File d) =>
        if (off + n <=? String.length d)%nat then inl (String.substring off n d, w) else inr IO_EOF
    | Some _ => inr EISDIR
    | None => inr ENOENT
    end).

(** The closure [cl]. *)
Definition create_log (name : string) : OS unit :=
  or_panic (_ ← OpenFile true false (PathJoin [direktivDir; name]); mret tt).

(** [v.vcfg.Networks[0]] takes the settings. *)
Definition override_network (nws : networkSetting) : OS unit :=
  v ← vget;
  match Networks (vcfg v) with
  | Some (n :: ns) =>
      let n := mkNet (ns_IP nws) (ns_Mask nws) (ns_Gateway nws) (MTU n) (TCPDUMP n)
                 (DisableTCPSegmentationOffloading n) in
      vmodify (set_vcfg (set_Networks (Some (n :: ns)) (vcfg v)))
  | _ => mpanic IndexOutOfRange
  end.

(** A disk with the right id. *)
Definition use_direktiv_disk (name : string) : OS unit :=
  or_panic (Mount ("/dev/" +:+ name +:+ "1") direktivDir "ext2" (Z.lor MS_NOATIME MS_SILENT) "barrier=0");;
  nw ← mtry (ReadFile (PathJoin [direktivDir; "network.in"]));
  (match nw with inl _ => mret tt | inr _ => SystemPanic end);;
  let '(nws, ok) := Unmarshal_setting (match nw with inl text => text | inr _ => "" end) in
  (if ok then mret tt else SystemPanic);;
  create_log direktivErr;;
  create_log direktivOut;;
  override_network nws;;
  mmodify (set_isFirecracker true).

Definition check_disk (diskname name : string) : OS unit :=
  if HasPrefix name "loop" || String.eqb name (PathBase diskname) then mret tt
  else
    let dev := PathJoin ["/dev"; name] in
    r ← mtry (Open dev;; ReadAt dev (512 + 56) 16);
    match r with
    | inr _ => mret tt
    | inl puid => if String.eqb uuidPlain puid then use_direktiv_disk name else mret tt
    end.

Definition setup_direktiv (diskname : string) : OS unit :=
  files ← mtry (ReadDir "/sys/block");
  match files with
  | inr _ => mret tt
  | inl files => mforeach (check_disk diskname) files
  end.
End direktiv.

(** ** The stages *)

(** How the goroutine of a program ended: the process runs, and its termination
    signal is to be registered; one that still waits for a file or a port when the
    rounds are used up has not ended. *)
Inductive ended := Started (terminate : string) | Failing (e : error) | Unfinished.

Definition failing (e : nat * ended) : bool := match e.2 with Failing _ => true | _ => false end.
Definition unfinished (e : nat * ended) : bool := match e.2 with Unfinished => true | _ => false end.
Definition to_register (e : nat * ended) : option (nat * string) :=
  match e.2 with Started t => Some (e.1, t) | _ => None end.

Section stages.
Context `{K : kernel} `{IL : image_lib} `{CH : chance}.
Context `{MO : map_order} `{LL : launch_libs} `{NL : netlink_lib} `{DL : dhcp_lib}.
Context `{IO : ifc_order} `{DN : dns_lib} `{CL : clock} `{SC : schedule}.

Definition go (fn : string) : OS unit := quiet (SGo fn).

(** [checkLogs] begins with [setLoglevel]. *)
Definition PreSetup : OS unit :=
  setupVtty stdout_mode_zero;;
  setupBasicDirectories "/";;
  go "checkLogs";;
  setLoglevel;;
  disk ← bootDisk;
  vmodify (set_diskname disk);;
  readVCFG disk;;
  ro ← hasCmdLineString "ro";
  vmodify (set_readOnly ro);;
  ignore (setupMountOptions disk ro);;
  direktiv ← hasCmdLineString "direktiv";
  (if direktiv : bool then setup_direktiv disk else mret tt);;
  growDisks;;
  v ← vget;
  let wait := i64 (TerminateWait (cfg_System (vcfg v)) * 1000000) in
  mmodify (set_terminateWait (if (wait =? 0)%Z then 3000 * 1000000 else wait)%Z).

(** The three goroutines of [Setup], and which of them fail. *)
Definition setup_worker (i : nat) : OS unit :=
  v ← vget;
  match i with
  | 0 => networkSetup
  | 1 => systemConfig (Sysctl (vcfg v)) (hostname v) (MaxFDs (cfg_System (vcfg v)))
  | _ => if readOnly v then mret tt else etcGenerateFiles asset flip uuid (hostname v) (user v)
  end%nat.

Fixpoint run_workers (l : list nat) : OS (list nat) :=
  match l with
  | [] => mret []
  | i :: l =>
      r ← mtry (setup_worker i);
      failed ← run_workers l;
      mret (match r with inl _ => failed | inr _ => i :: failed end)
  end.

(** How their group ends. *)
Definition setup_ends (failed : list nat) (readOnly : bool) : verdict :=
  let fails i := bool_decide (i ∈ failed) in
  let vs := setup_verdicts (fails 0%nat) (fails 1%nat) (fails 2%nat) readOnly in
  default Returns (vs !! (pick mod length vs)%nat).

Definition conclude (v : verdict) : OS unit :=
  match v with
  | Returns => mret tt
  | ShutsDown => SystemPanic
  | Dies why => mpanic why
  | Deadlock => waiting
  end.

(** The search domains of DHCP go to the end of resolv.conf. *)
Definition search_text (domains : list string) : string :=
  "options edns0" +:+ nl +:+ "search" +:+ foldr (λ s t, " " +:+ s +:+ t) "" domains +:+ nl.

Definition resolvConf : string := "/etc/resolv.conf".

Definition write_search (domains : list string) : OS unit :=
  match domains with
  | [] => mret tt
  | _ =>
      rc ← ReadFile resolvConf;
      f ← OpenFile true true resolvConf;
      Write f (rc +:+ search_text domains)
  end.

(** [hn, err := setHostname(...)]: an error leaves the empty name. *)
Definition new_hostname (salted : string) : OS string :=
  match setHostname unicode_lower rnd salted with
  | Ret hn => vmodify (set_hostname hn);; mret hn
  | Panic why => mpanic why
  | _ => mret ""
  end.

Definition Setup : OS unit :=
  v ← vget;
  setupVtty (StdoutMode (cfg_System (vcfg v)));;
  go "waitForSignal";;
  changeDiskScheduler (diskname v);;
  go "listenToPowerEvent";;
  (if readOnly v then mret tt else prepSbinPower);;
  ignore (Reboot LINUX_REBOOT_CMD_CAD_OFF);;
  ignore printVersion;;
  hn ← new_hostname (SaltedHostname (vcfg v));
  failed ← run_workers (arrange [0; 1; 2]%nat);
  conclude (setup_ends failed (readOnly v));;
  v ← vget;
  write_search (searchDomains v);;
  (if String.eqb (hostname v) hn then mret tt
   else ignore (Remove "/etc/hosts");; ignore (Remove "/etc/hostname");; ignore (genHostnameFile (hostname v)));;
  mforeach (λ '(i, p), prepProgram p i) (imap pair (Programs (vcfg v))).

(** The goroutine that looks for a cloud; its pollers are started. *)
Definition cloud_worker : OS unit :=
  bios ← mtry (ReadFile "/sys/devices/virtual/dmi/id/bios_vendor");
  match bios with
  | inr _ => vmodify (set_hypervisor hvUnknown cpUnknown);; basicEnv
  | inl bios =>
      '(hv, cp) ← hypervisorGuess bios;
      vmodify (set_hypervisor hv cp);;
      pollers ← fetchCloudMetadata;
      mforeach (λ _, go "pollGCP") pollers
  end.

(** Logging starts when the cloud is known. *)
Definition logging_worker : OS unit :=
  v ← vget;
  match cfg_Logging (vcfg v) with
  | [] => mret tt
  | _ => if readOnly v then mret tt else startLogging asset
  end.

(** The two goroutines of [PostSetup] that can send an error, and the [select] that
    receives one: the channel is closed then, and the other send panics, unless the
    machine is down before. *)
Definition join2 (err1 err2 : bool) : OS unit :=
  if err1 && err2 && overtakes then mpanic SendOnClosed
  else if err1 || err2 then SystemPanic
  else mret tt.

Definition failed {A} (r : A + error) : bool := match r with inl _ => false | inr _ => true end.

Definition PostSetup : OS unit :=
  basicEnv;;
  ignore startDNS;;
  v ← vget;
  setupNFS (NFS (vcfg v));;
  cloud_worker;;
  logging_worker;;
  box ← mtry runBusyboxScript;
  v ← vget;
  ntp ← mtry (setupChronyD (NTP (cfg_System (vcfg v))));
  join2 (failed box) (failed ntp);;
  mmodify (set_initStatus statusRun).

(** The goroutine of a program up to its write to [terminateSignals]. *)
Definition program_run (fuel i : nat) : OS ended := λ w,
  match progs w !! i with
  | None => (Panic NilDeref, w)
  | Some np =>
      match start_program fuel i (v_envs (vinitd w)) (p_vcfgProg np) w with
      | (Ret _, w') => (Ret (Started (Terminate (p_vcfgProg np))), w')
      | (Fail e, w') => (Ret (Failing e), w')
      | (Halted, w') => (Ret Unfinished, w')
      | (Panic why, w') => (Panic why, w')
      end
  end.

Fixpoint run_all (fuel : nat) (l : list nat) : OS (list (nat * ended)) :=
  match l with
  | [] => mret []
  | i :: l => e ← program_run fuel i; es ← run_all fuel l; mret ((i, e) :: es)
  end.

(** The writes to the map [terminateSignals], which two goroutines may do at the
    same time. *)
Definition register_all (l : list (nat * string)) : OS unit :=
  if overtakes && (1 <? length l)%nat then mpanic ConcurrentMapWrites
  else mforeach (λ '(i, t), register_signal i t) l.

(** [Launch] does not close its channel of errors: the first error shuts the
    machine down, further ones are never received.  [fuel] bounds the rounds of a
    program that waits. *)
Definition Launch (fuel : nat) : OS unit :=
  go "reapProcs";;
  go "listenToProcesses";;
  w ← mget;
  ends ← run_all fuel (arrange (seq 0 (length (progs w))));
  register_all (omap to_register ends);;
  (if existsb failing ends then SystemPanic
   else if existsb unfinished ends then waiting
   else mret tt);;
  mmodify (set_initStatus statusLaunched).

(** ** [main] *)

Definition stages (fuel : nat) : list (string * OS unit) :=
  [("pre-setup", PreSetup); ("setup", Setup); ("post-setup", PostSetup); ("launch", Launch fuel)].

Definition run_stage (s : string * OS unit) : OS unit :=
  LogDebugEarly ("starting seq " +:+ s.1);;
  or_panic s.2.

Definition main (fuel : nat) (arg0 : string) : OS unit :=
  if String.eqb arg0 AppPoweroff || String.eqb arg0 AppReboot then main_tool arg0
  else
    vmodify (λ _, New);;
    mforeach run_stage (stages fuel);;
    waiting.
End stages.
