(* ===== verification/LaunchRefine.v ===== *)
(** * [Launch] in the boot and its goroutines

    In [main] the goroutines of [Launch] run one after the other.  Here that run is
    found among the interleavings of [LaunchSteps]. *)

From S2P Require Import Prelude GoStrings GoPath Types BlockDev Os Process Launch LaunchTheorems Boot LaunchSteps.
Local Open Scope string_scope.
Local Open Scope list_scope.

(** ** [Launch] is a run of its goroutines *)

Section launch.
Context `{K : kernel} `{MO : map_order} `{LL : launch_libs} `{SC : schedule} (fuel : nat) (w0 : world).

Local Abbreviation run := (reach fuel (launch_init w0)).

Definition pc_of (e : ended) : pc :=
  match e with
  | Started t => PStarted t
  | Failing e => PFailing e
  | Unfinished => PWaiting
  end.

Lemma program_run_reach s i :
  run (Running s) → pcs s !! i = Some PReady →
  match program_run fuel i (lw s) with
  | (Ret e, w') => run (Running (move i (pc_of e) w' s))
  | (Panic why, w') => run (Crashed why w')
  | _ => False
  end.
Proof.
  intros Hr Hi. pose proof (linv_reach _ _ _ Hr) as Hinv. unfold program_run.
  destruct (progs (lw s) !! i) as [np|] eqn:Hnp.
  - destruct (start_program fuel i _ _ (lw s)) as [[u|e|why|] w'] eqn:E; (eapply reach_step; [exact Hr|]);
      [by eapply step_start|by eapply step_fail|by eapply step_panic|by eapply step_wait].
  - rewrite (li_ready _ _ _ Hinv i Hi) in Hnp. apply lookup_ge_None in Hnp. apply lookup_lt_Some in Hi.
    rewrite (li_length _ _ _ Hinv) in Hi. lia.
Qed.

(** The programs of [l] run up to the write to the map. *)
Lemma run_all_reach l s :
  run (Running s) → NoDup l → (∀ i, i ∈ l → pcs s !! i = Some PReady) →
  match run_all fuel l (lw s) with
  | (Ret ends, w') => ∃ s', run (Running s') ∧ lw s' = w' ∧ lmain s' = lmain s ∧ ends.*1 = l ∧
      (∀ i e, (i, e) ∈ ends → pcs s' !! i = Some (pc_of e)) ∧ ∀ j, j ∉ l → pcs s' !! j = pcs s !! j
  | (Panic why, w') => run (Crashed why w')
  | _ => False
  end.
Proof.
  revert s. induction l as [|i l IH]; intros s Hr Hnd Hl.
  { exists s. split_and!; [done..|by intros i e ?%elem_of_nil|done]. }
  apply NoDup_cons in Hnd as [Hi Hnd]. pose proof (Hl i ltac:(left)) as Hpi.
  pose proof (program_run_reach s i Hr Hpi) as H1. cbn [run_all]. unfold mbind at 1, M_bind at 1.
  destruct (program_run fuel i (lw s)) as [[e|e|why|] w1]; [|done..].
  specialize (IH _ H1 Hnd). unfold mbind, M_bind. cbn [move lw] in IH.
  destruct (run_all fuel l w1) as [[ends|e'|why|] w2]; try (apply IH; intros j Hj; cbn;
    rewrite list_lookup_insert_ne; [apply Hl; by right|by intros ->]).
  destruct IH as (s' & Hr' & Hw & Hm & Hd & He & Ho).
  { intros j Hj. cbn. rewrite list_lookup_insert_ne; [apply Hl; by right|by intros ->]. }
  exists s'. split_and!; [done..|by rewrite <-Hd| |].
  - intros j e' [[= -> ->]|Hin]%elem_of_cons; [|by apply He]. rewrite Ho by done. cbn.
    apply list_lookup_insert_eq. by eapply lookup_lt_Some.
  - intros j [Hne Hj]%not_elem_of_cons. rewrite Ho by done. cbn. by rewrite list_lookup_insert_ne.
Qed.

Definition no_write (s : state) : Prop := ∀ j t, pcs s !! j ≠ Some (PWriting t).

(** One write after the other. *)
Lemma register_reach l s :
  run (Running s) → NoDup l.*1 → (∀ i t, (i, t) ∈ l → pcs s !! i = Some (PStarted t)) → no_write s →
  ∃ s', mforeach (λ '(i, t), register_signal i t) l (lw s) = (Ret tt, lw s') ∧ run (Running s') ∧
    lmain s' = lmain s ∧ (∀ i, i ∈ l.*1 → pcs s' !! i = Some PRegistered) ∧ ∀ j, j ∉ l.*1 → pcs s' !! j = pcs s !! j.
Proof.
  revert s. induction l as [|[i t] l IH]; intros s Hr Hnd Hl Hno.
  { exists s. split_and!; [done..|by intros i ?%elem_of_nil|done]. }
  apply NoDup_cons in Hnd as [Hi Hnd]. cbn [fst] in Hi.
  pose proof (Hl i t ltac:(left)) as Hpi. pose proof (lookup_lt_Some _ _ _ Hpi) as Hlt.
  eapply reach_step in Hr; [|by apply step_write]. eapply reach_step in Hr; [|eapply step_registered; by apply list_lookup_insert_eq].
  set (s1 := move i PRegistered _ _) in Hr.
  assert (∀ j, j ≠ i → pcs s1 !! j = pcs s !! j) as Hj.
  { intros j Hne. cbn. rewrite list_insert_insert_eq. by rewrite list_lookup_insert_ne. }
  assert (pcs s1 !! i = Some PRegistered) as Hi1.
  { cbn. rewrite list_insert_insert_eq. by apply list_lookup_insert_eq. }
  destruct (IH s1 Hr Hnd) as (s' & E & Hr' & Hm & Hreg & Ho).
  - intros j t' Hin. rewrite Hj; [apply Hl; by right|]. intros ->. apply Hi. by apply (list_elem_of_fmap_2 fst _ (i, t')).
  - intros j t' Hw. destruct (decide (j = i)) as [->|Hne]; [congruence|]. rewrite Hj in Hw by done. by eapply Hno.
  - exists s'. split_and!; [|done|done| |].
    + cbn [mforeach]. rewrite (run_ret _ _ _ tt (lw s1)) by done. exact E.
    + intros j. cbn. intros [->|Hin]%elem_of_cons; [by rewrite Ho|by apply Hreg].
    + intros j. cbn. intros [Hne Hin]%not_elem_of_cons. by rewrite Ho, Hj.
Qed.

(** Two writes at once. *)
Lemma race_reach x y l s :
  run (Running s) → NoDup (x :: y :: l).*1 → (∀ i t, (i, t) ∈ x :: y :: l → pcs s !! i = Some (PStarted t)) →
  no_write s → run (Crashed ConcurrentMapWrites (lw s)).
Proof.
  intros Hr Hnd Hl Hno. destruct x as [i t], y as [j t'].
  pose proof (Hl i t ltac:(left)) as Hi. pose proof (Hl j t' ltac:(right; left)) as Hj.
  assert (i ≠ j) as Hne. { intros ->. apply NoDup_cons in Hnd as [Hnd _]. apply Hnd. left. }
  eapply reach_step in Hr; [|by apply (step_write _ _ i t)].
  eapply reach_step; [exact Hr|]. apply (step_race _ (move i (PWriting t) (lw s) s) j i t' t); cbn.
  - by rewrite list_lookup_insert_ne.
  - apply list_lookup_insert_eq. by eapply lookup_lt_Some.
Qed.

Lemma register_all_reach l s :
  run (Running s) → NoDup l.*1 → (∀ i t, (i, t) ∈ l → pcs s !! i = Some (PStarted t)) → no_write s →
  match register_all l (lw s) with
  | (Ret _, w') => ∃ s', run (Running s') ∧ lw s' = w' ∧ lmain s' = lmain s ∧
      (∀ i, i ∈ l.*1 → pcs s' !! i = Some PRegistered) ∧ ∀ j, j ∉ l.*1 → pcs s' !! j = pcs s !! j
  | (Panic why, w') => run (Crashed why w')
  | _ => False
  end.
Proof.
  intros Hr Hnd Hl Hno. unfold register_all. destruct (overtakes && (1 <? length l)%nat) eqn:E.
  - apply andb_true_iff in E as [_ E]. destruct l as [|x [|y l]]; [done|done|]. cbn. by eapply race_reach.
  - destruct (register_reach l s Hr Hnd Hl Hno) as (s' & -> & ? & ? & ? & ?). by exists s'.
Qed.

Lemma elem_of_to_register (ends : list (nat * ended)) i t : (i, t) ∈ omap to_register ends ↔ (i, Started t) ∈ ends.
Proof.
  rewrite list_elem_of_omap. split.
  - intros ([j e] & Hin & He). unfold to_register in He. cbn in He. destruct e; by simplify_eq.
  - intros Hin. by exists (i, Started t).
Qed.

Lemma NoDup_to_register (ends : list (nat * ended)) : NoDup ends.*1 → NoDup (omap to_register ends).*1.
Proof.
  induction ends as [|[i e] ends IH]; [done|]. intros [Hi Hnd]%NoDup_cons. specialize (IH Hnd).
  destruct e as [t|e|]; [|exact IH|exact IH]. cbn. apply NoDup_cons. split; [|exact IH].
  intros ([j t'] & Hj & Hin%elem_of_to_register)%list_elem_of_fmap. cbn in Hj. subst j.
  apply Hi. by apply (list_elem_of_fmap_2 fst _ (i, Started t')).
Qed.

(** What a run of the goroutines amounts to for [main]. *)
Definition is_run (r : outcome unit * world) : Prop :=
  match r with
  | (Ret _, w') => run (Joined w') ∨ ∃ w1, run (Stopped (Ret tt) w1) ∧ w' = set_initStatus statusLaunched w1
  | (Halted, w') => run (Stopped Halted w') ∨ ∃ s i, run (Running s) ∧ lw s = w' ∧ pcs s !! i = Some PWaiting
  | (Panic why, w') => run (Crashed why w')
  | (Fail _, _) => False
  end.

(** The [select] when the goroutines have done what they can. *)
Lemma finish_reach ends s :
  run (Running s) → lmain s = Selecting → (∀ i p, pcs s !! i = Some p → i ∈ ends.*1) →
  (∀ i e, (i, e) ∈ ends → pcs s !! i = Some (match e with Started _ => PRegistered | _ => pc_of e end)) →
  is_run (((if existsb failing ends then SystemPanic else if existsb unfinished ends then waiting else mret tt);;
           mmodify (set_initStatus statusLaunched)) (lw s)).
Proof.
  intros Hr Hm Hall He. destruct (existsb failing ends) eqn:Ef.
  { apply existsb_exists in Ef as ([i e] & Hi%list_elem_of_In & Hf). destruct e as [|e|]; try done.
    eapply reach_step in Hr; [|eapply (step_report _ _ i e); [exact (He i _ Hi)|done]].
    eapply reach_step in Hr; [|by apply step_stop]. cbn [lw] in Hr.
    pose proof (SystemPanic_outcome (lw s)) as Hout. unfold mbind, M_bind.
    destruct (SystemPanic (lw s)) as [o w3]. cbn [fst snd] in *. destruct Hout as [->| ->]; [|by left].
    right. by exists w3. }
  destruct (existsb unfinished ends) eqn:Eu.
  { apply existsb_exists in Eu as ([i e] & Hi%list_elem_of_In & Hf). destruct e as [|e|]; try done.
    right. exists s, i. split_and!; [done|done|]. exact (He i _ Hi). }
  left. eapply reach_step; [exact Hr|]. apply step_join; [done|]. apply Forall_lookup. intros i p Hp.
  pose proof (Hall i p Hp) as ([j e] & -> & Hie)%list_elem_of_fmap. pose proof (He _ _ Hie) as Hpj. cbn in Hp.
  destruct e as [t|e|]; [by simplify_eq|..].
  - exfalso. apply Bool.not_true_iff_false in Ef. apply Ef, existsb_exists. exists (j, Failing e). by rewrite <-list_elem_of_In.
  - exfalso. apply Bool.not_true_iff_false in Eu. apply Eu, existsb_exists. exists (j, Unfinished). by rewrite <-list_elem_of_In.
Qed.

(** The same, with the writes to the map before. *)
Lemma register_finish_reach ends s :
  run (Running s) → lmain s = Selecting → NoDup ends.*1 → (∀ i p, pcs s !! i = Some p → i ∈ ends.*1) →
  (∀ i e, (i, e) ∈ ends → pcs s !! i = Some (pc_of e)) →
  is_run ((register_all (omap to_register ends);;
           (if existsb failing ends then SystemPanic else if existsb unfinished ends then waiting else mret tt);;
           mmodify (set_initStatus statusLaunched)) (lw s)).
Proof.
  intros Hr Hm Hnd Hall He.
  assert (no_write s) as Hnw.
  { intros j t Hj. pose proof (Hall _ _ Hj) as ([i e] & -> & Hie)%list_elem_of_fmap.
    pose proof (He _ _ Hie) as E. cbn in Hj. rewrite Hj in E. by destruct e. }
  assert (∀ i t, (i, t) ∈ omap to_register ends → pcs s !! i = Some (PStarted t)) as Hst
    by (intros i t Hi%elem_of_to_register; exact (He _ _ Hi)).
  pose proof (register_all_reach (omap to_register ends) s Hr (NoDup_to_register _ Hnd) Hst Hnw) as H2.
  unfold mbind at 1, M_bind at 1.
  destruct (register_all _ (lw s)) as [[[]|e|why|] w2]; [|done..]. destruct H2 as (s2 & Hr2 & <- & Hm2 & Hreg & Ho2).
  apply finish_reach; [done|by rewrite Hm2| |].
  - intros i p Hp. destruct (decide (i ∈ (omap to_register ends).*1)) as [Hi|Hi].
    + apply list_elem_of_fmap in Hi as ([j t] & -> & Hj%elem_of_to_register). by apply (list_elem_of_fmap_2 fst _ (j, Started t)).
    + rewrite Ho2 in Hp by done. by eapply Hall.
  - intros i e Hie. destruct e as [t|e|].
    + apply Hreg, list_elem_of_fmap. exists (i, t). split; [done|]. by apply elem_of_to_register.
    + rewrite Ho2; [exact (He _ _ Hie)|]. intros ([j t] & -> & Hj%elem_of_to_register)%list_elem_of_fmap.
      pose proof (He _ _ Hie) as E1. pose proof (He _ _ Hj) as E2. cbn in E1, E2. congruence.
    + rewrite Ho2; [exact (He _ _ Hie)|]. intros ([j t] & -> & Hj%elem_of_to_register)%list_elem_of_fmap.
      pose proof (He _ _ Hie) as E1. pose proof (He _ _ Hj) as E2. cbn in E1, E2. congruence.
Qed.

(** [Launch], as it runs in [main], is one of the runs of its goroutines, in
    whatever order they are taken: when it returns, all were joined, or an error was
    received and the kernel refused to power off; when it does not, the machine was
    shut down for an error, or a program still waits; when it panics, a goroutine
    does. *)
Theorem Launch_refines : is_run (Launch fuel w0).
Proof.
  unfold Launch, go. set (s0 := launch_init w0). pose proof (reach_init fuel s0) as H0.
  rewrite (run_ret _ _ _ tt (record (SGo "reapProcs") None w0)) by done.
  rewrite (run_ret _ _ _ tt (lw s0)), run_get by done. change (length (progs (lw s0))) with (length (progs w0)).
  set (l := arrange (seq 0 (length (progs w0)))).
  assert (l ≡ₚ seq 0 (length (progs w0))) as Hl by apply arrange_perm.
  assert (∀ i, i ∈ l ↔ (i < length (progs w0))%nat) as Hin by (intros i; rewrite Hl, elem_of_seq; lia).
  assert (NoDup l) as Hnd by (rewrite Hl; apply NoDup_seq).
  assert (∀ i, i ∈ l → pcs s0 !! i = Some PReady) as Hready by (intros i Hi%Hin; by apply lookup_replicate_2).
  pose proof (run_all_reach l s0 H0 Hnd Hready) as H1. unfold mbind at 1, M_bind at 1.
  destruct (run_all fuel l (lw s0)) as [[ends|e|why|] w1]; [|done..].
  destruct H1 as (s1 & Hr1 & <- & Hm1 & Hd & He & Ho).
  apply register_finish_reach; [done|done|by rewrite Hd| |done].
  intros i p Hp. rewrite Hd, Hin. pose proof (linv_reach _ _ _ Hr1) as Hi.
  rewrite <-(li_length _ _ _ Hi). by eapply lookup_lt_Some.
Qed.
End launch.
