(* ===== verification/BootTheorems.v ===== *)
(** * The boot sequence: theorems

    What the configuration read from the disk is, what a stage that errs leads
    to, and how [PostSetup] can panic. *)

From S2P Require Import Prelude Bytes GptTypes GptUtil GptSpec GptTheorems GoStrings GoPath GoNet Json Hostname Types BlockDev Gpt Os Process Disk.
From S2P Require Import Launch LaunchTheorems Etc Route Dhcp Network Conf Cloud Services Logging Power Boot.
Local Open Scope string_scope.
Local Open Scope list_scope.

(** ** The configuration *)

Section config.
Context `{K : kernel} `{IL : image_lib}.

Definition boot_config (c : list byte) : list byte := slice (Z.to_nat vcfgOffset) blc_size c.

(** The bytes of the configuration on a disk. *)
Definition config_bytes (c : list byte) : list byte :=
  slice (Z.to_nat (vcfgOffset + ConfigOffset (boot_config c))) (Z.to_nat (ConfigLen (boot_config c))) c.

(** An image: the two structures lie on the disk. *)
Record image (c : list byte) : Prop := {
  im_blc : (vcfgOffset + Z.of_nat blc_size ≤ Z.of_nat (length c))%Z;
  im_offset : (0 ≤ ConfigOffset (boot_config c))%Z;
  im_len : (0 ≤ ConfigLen (boot_config c) ≤ 2 ^ 30)%Z;
  im_fits : (vcfgOffset + ConfigOffset (boot_config c) + ConfigLen (boot_config c) ≤ Z.of_nat (length c) < 2 ^ 63)%Z
}.

Lemma does_read_some n c p :
  (0 ≤ p → p + Z.of_nat n ≤ Z.of_nat (length c) → Z.of_nat n ≤ 2 ^ 30 →
  does nothing (read_some n) c p (slice (Z.to_nat p) n c) c (p + Z.of_nat n))%Z.
Proof.
  intros ? ? Hn. unfold read_some. rewrite Z.min_l, Nat2Z.id by done.
  fault_case fl; [|fault_fail|];
    (rewrite length_slice, decide_False by lia; by rewrite Nat.sub_diag, app_nil_r).
Qed.

Lemma does_read_config c :
  image c → ∃ p, does nothing read_config c vcfgOffset (config_bytes c) c p.
Proof.
  intros [H1 H2 [H3 H4] [H5 H6]]. eexists. unfold read_config.
  eapply does_bind; [apply does_read_full; [done|exact H1]|]. fold (boot_config c).
  rewrite (swrap_small 64) by (unfold vcfgOffset, sectorSize in *; lia).
  eapply does_bind; [apply does_seek; unfold vcfgOffset, sectorSize in *; lia|].
  rewrite (proj2 (Z.ltb_ge _ 0)), (proj2 (Z.ltb_ge maxAlloc _)) by (unfold maxAlloc; lia). cbn [orb].
  apply does_read_some; rewrite ?Z2Nat.id; unfold vcfgOffset, sectorSize in *; lia.
Qed.
Lemma nothing_changed c c' : same_outside nothing c c' → c' = c.
Proof. intros [_ H]. apply list_eq. intros i. apply H. by intros []. Qed.

(** A read on the open boot disk. *)
Lemma reads_disk {A} (m : M dev A) c q a p w :
  does nothing m c q a c p → content (disk w) = c → pos (disk w) = q →
  (∃ fl, on_disk m w = (Ret a, set_disk (D c p fl) w) ∧ (faults (disk w) = [] → fl = [])) ∨
  (faults (disk w) ≠ [] ∧ ∃ e d, on_disk m w = (Fail e, set_disk d w) ∧ content d = c).
Proof.
  intros [_ H] Hc Hq. specialize (H (faults (disk w))). unfold on_disk.
  assert (D c q (faults (disk w)) = disk w) as Hd by (destruct (disk w); cbn in *; by subst).
  rewrite Hd in H. destruct H as [(fl & -> & Hf)|(Hn & e & d & -> & Hs)]; [left; eauto|right].
  split; [done|]. exists e, d. split; [done|]. by apply nothing_changed.
Qed.

(** Everything after the open, up to the bytes. *)
Lemma config_read (w : world) :
  image (content (disk w)) →
  ∃ o d, (on_disk (mmodify (set_pos 0));;
          off ← on_disk (seek vcfgOffset);
          (if negb (off =? vcfgOffset)%Z then mfail (Errorf "can not read vcfg, wrong offset") else mret tt);;
          mtry (on_disk read_config)) w = (o, set_disk d w) ∧
    content d = content (disk w) ∧
    (o = Ret (inl (config_bytes (content (disk w)))) ∨
     faults (disk w) ≠ [] ∧ ∃ e, o = Ret (inr e) ∨ o = Fail e).
Proof.
  intros Him. destruct (does_read_config _ Him) as [q Hq]. set (c := content (disk w)) in *.
  assert (does nothing (seek vcfgOffset) c 0 vcfgOffset c vcfgOffset) as Hs.
  { apply does_seek. destruct Him as [H _ _ _]. unfold vcfgOffset, sectorSize in *. lia. }
  set (w0 := set_disk (set_pos 0 (disk w)) w). rewrite (run_ret _ _ _ tt w0) by done.
  destruct (reads_disk _ c 0 _ _ w0 Hs eq_refl eq_refl) as [(fl & E & Hf)|(Hf & e & d & E & Hd)].
  2:{ rewrite (run_fail _ _ _ _ _ E). exists (Fail e), d. eauto 8. }
  rewrite (run_ret _ _ _ _ _ E), Z.eqb_refl. cbn [negb].
  set (w1 := set_disk (D c vcfgOffset fl) w0). rewrite (run_ret _ _ _ tt w1) by done. unfold mtry.
  destruct (reads_disk _ c vcfgOffset _ _ w1 Hq eq_refl eq_refl) as [(fl' & -> & _)|(Hf' & e & d & -> & Hd)].
  - eexists _, _. split; [reflexivity|]. eauto.
  - eexists _, _. split; [reflexivity|]. split; [done|]. right. split; [|eauto].
    intros H. by apply Hf', Hf.
Qed.

Lemma Open_cases p w :
  Open p w = (Ret tt, record (SOpen p) None w) ∨
  ∃ e, Open p w = (Fail e, record (SOpen p) (Some e) w) ∧
    ((∀ n c, k_fail n c = None) → lookup_node (fs w) p = None).
Proof.
  unfold Open, sys, sys_with. destruct (k_fail _ (SOpen p)) as [[n e]|] eqn:E.
  - right. exists (Errno e). split; [done|]. intros H. by rewrite H in E.
  - destruct (lookup_node (fs w) p); [by left|right; eauto].
Qed.

Lemma readVCFG_eq p w :
  readVCFG p w =
    (Open p;;
     r ← (on_disk (mmodify (set_pos 0));;
          off ← on_disk (seek vcfgOffset);
          (if negb (off =? vcfgOffset)%Z then mfail (Errorf "can not read vcfg, wrong offset") else mret tt);;
          mtry (on_disk read_config));
     quiet (SClose p);;
     match r with
     | inr e => mfail e
     | inl vb =>
         match Unmarshal_VCFG vb with
         | None => mfail (Errorf "invalid vcfg")
         | Some c => vmodify (set_vcfg c);; vmodify (set_user (User (cfg_System c)))
         end
     end) w.
Proof.
  unfold readVCFG, openVCFGFile. rewrite run_assoc. unfold mbind, M_bind.
  destruct (Open p w) as [[] w1]; [|done..]. destruct (on_disk _ w1) as [[] w2]; [|done..].
  destruct (on_disk _ w2) as [[] w3]; [|done..]. destruct (_ w3) as [[] w4]; done.
Qed.

Lemma readVCFG_run p w :
  image (content (disk w)) →
  let '(o, w') := readVCFG p w in
  let r := Unmarshal_VCFG (config_bytes (content (disk w))) in
  content (disk w') = content (disk w) ∧
  match o with
  | Ret _ => ∃ cfg, r = Some cfg ∧
      vinitd w' = set_user (User (cfg_System cfg)) (set_vcfg cfg (vinitd w))
  | Fail _ => vinitd w' = vinitd w
  | _ => False
  end ∧
  ((∀ n c, k_fail n c = None) → faults (disk w) = [] → lookup_node (fs w) p ≠ None →
   is_Some r → o = Ret tt).
Proof.
  intros Him. rewrite readVCFG_eq. destruct (Open_cases p w) as [E|(e & E & He)].
  2:{ rewrite (run_fail _ _ _ _ _ E). split_and!; [done|done|]. intros Hok _ Hp. by destruct Hp; apply He. }
  rewrite (run_ret _ _ _ _ _ E). set (w1 := record _ _ w).
  destruct (config_read w1 Him) as (o & d & Er & Hd & Ho).
  change (content (disk w1)) with (content (disk w)) in *.
  destruct Ho as [->|(Hf & e & [->| ->])].
  - rewrite (run_ret _ _ _ _ _ Er), (run_ret _ _ _ tt (record (SClose p) None (set_disk d w1))) by done.
    destruct (Unmarshal_VCFG _) as [cfg|]; (split; [done|]); (split; [|by intros _ _ _ []]); [|done].
    by exists cfg.
  - rewrite (run_ret _ _ _ _ _ Er). split_and!; [done|done|]. by intros _ H.
  - rewrite (run_fail _ _ _ _ _ Er). split_and!; [done|done|]. by intros _ H.
Qed.

(** C18: On an image, [readVCFG] never panics and writes nothing to the disk,
    whatever fails: it either errs and leaves the configuration as it was, or
    stores exactly the configuration whose text lies at the offset and with the
    length that the boot loader's structure names, and its user.  When nothing
    fails, a text that is valid is read. *)
Theorem readVCFG_reads p w :
  image (content (disk w)) →
  let '(o, w') := readVCFG p w in
  let r := Unmarshal_VCFG (config_bytes (content (disk w))) in
  content (disk w') = content (disk w) ∧
  match o with
  | Ret _ => ∃ cfg, r = Some cfg ∧
      vinitd w' = set_user (User (cfg_System cfg)) (set_vcfg cfg (vinitd w))
  | Fail _ => vinitd w' = vinitd w
  | _ => False
  end ∧
  ((∀ n c, k_fail n c = None) → faults (disk w) = [] → lookup_node (fs w) p ≠ None →
   is_Some r → o = Ret tt).
Proof. apply readVCFG_run. Qed.
End config.

(** ** [main] *)

Section main.
Context `{K : kernel} `{IL : image_lib} `{CH : chance}.
Context `{MO : map_order} `{LL : launch_libs} `{NL : netlink_lib} `{DL : dhcp_lib}.
Context `{IO : ifc_order} `{DN : dns_lib} `{CL : clock} `{SC : schedule}.

Lemma quietly_LogDebugEarly text : quietly (λ _, True) (LogDebugEarly text).
Proof.
  apply quietly_ignore, tame_bind; [by apply tame_OpenFile|]. intros q. by apply tame_plain.
Qed.

Lemma stages_app pre s post w w1 :
  mforeach run_stage pre w = (Ret tt, w1) →
  mforeach run_stage (pre ++ s :: post) w = mforeach run_stage (s :: post) w1.
Proof.
  revert w. induction pre as [|x pre IH]; intros w; cbn [mforeach app]; [by intros [= ->]|].
  unfold mbind, M_bind. destruct (run_stage x w) as [[[]|e|why|] w2]; [|done..]. apply IH.
Qed.

(** A stage that errs. *)
Lemma run_stage_error name m w1 e w2 :
  (LogDebugEarly ("starting seq " +:+ name);; m) w1 = (Fail e, w2) → run_stage (name, m) w1 = SystemPanic w2.
Proof.
  intros Hm. unfold run_stage. cbn [fst snd].
  destruct (quietly_LogDebugEarly ("starting seq " +:+ name) w1) as ([] & w1' & evs & E1 & _).
  rewrite (run_ret _ _ _ _ _ E1) in Hm. rewrite (run_ret _ _ _ _ _ E1). unfold or_panic, mtry, mbind, M_bind. by rewrite Hm.
Qed.

(** C6: When a stage of the boot errs while the machine is not shutting down already,
    the machine is powered off in an orderly way from the state in which the stage
    left it.  If the kernel executes the power-off, no later stage runs.  If it
    refuses, [main] goes on with the next stage. *)
Theorem main_stops fuel arg0 w pre name m post w1 e w2 :
  String.eqb arg0 AppPoweroff || String.eqb arg0 AppReboot = false →
  stages fuel = pre ++ (name, m) :: post →
  mforeach run_stage pre (upd (λ _, New) w) = (Ret tt, w1) →
  (LogDebugEarly ("starting seq " +:+ name);; m) w1 = (Fail e, w2) →
  initStatus w2 ≠ statusPoweroff →
  ∃ o w3, orderly LINUX_REBOOT_CMD_POWER_OFF w2 o w3 ∧
    ((∀ n c, k_fail n (SReboot c) = None) → o = Halted) ∧
    (o = Halted ∧ main fuel arg0 w = (Halted, w3) ∨
     o = Ret tt ∧ main fuel arg0 w = (mforeach run_stage post;; waiting) w3).
Proof.
  intros Ha Hst Hpre Hm Hs. exists (SystemPanic w2).1, (SystemPanic w2).2. split_and!.
  - by apply shutdown_orderly.
  - intros Hreb. by destruct (SystemPanic_halts Hreb w2 Hs) as (w3 & -> & _).
  - assert (main fuel arg0 w = ((run_stage (name, m);; mforeach run_stage post);; waiting) w1) as ->.
    { unfold main. rewrite Ha, run_vmodify, Hst. fold (upd (λ _, New) w).
      unfold mbind, M_bind. by rewrite (stages_app _ _ _ _ _ Hpre). }
    pose proof (run_stage_error _ _ _ _ _ Hm) as E. pose proof (SystemPanic_outcome w2) as Ho.
    destruct (SystemPanic w2) as [o w3]. cbn [fst snd] in *. rewrite run_assoc.
    destruct Ho as [->| ->]; [right|left]; (split; [done|]).
    + by rewrite (run_ret _ _ _ _ _ E).
    + unfold mbind, M_bind. by rewrite E.
Qed.
End main.

(** ** A machine that boots *)

Definition boot_vcfg : VCFG :=
  mkVCFG
    [mkProgram "app --host $HOSTNAME" ["PATH=/usr/bin:/bin"] "" "" "" ["WAIT_FILE /etc/hosts"] false
       UserPrivilege "SIGINT" []]
    (Some [ex_static]) (mkSystem ["9.9.9.9"] ["pool.ntp.org"] "app" 4096 StdoutModeSerialOnly 5000)
    [] [] [] {["vm.swappiness" := "10"]} "vm-$SALT".

Definition boot_image : image_lib := {|
  blc_size := 8; ConfigOffset := λ _, 8%Z; ConfigLen := λ _, 16%Z;
  Unmarshal_VCFG := λ bs, if (length bs =? 16)%nat then Some boot_vcfg else None;
  stdout_mode_zero := StdoutModeOther
|}.

Definition no_chance : chance := {|
  unicode_lower := λ s, s; rnd := λ n, n; asset := λ p, Some p; flip := false; uuid := inl "d2c4"; pick := 0
|}.

Definition any_upstream : dns_lib := {| ParseUpstreamsConfig := λ _, true |}.

(** [refuse]: the calls that fail. *)
Definition boot_kernel (refuse : syscall → bool) : kernel := {|
  k_fail := λ _ c, if refuse c then Some (0%nat, 5%Z) else None;
  k_pseudo := λ t,
    if String.eqb t "proc" then
      [("/cmdline", "root=/dev/sda2 quiet"); ("/bootdev", "/dev/sda"); ("/sysrq-trigger", "");
       ("/mounts", "/dev/sda2 / ext4 rw 0 0"); ("/sys/vm/swappiness", "60"); ("/cgroups", "")]
    else if String.eqb t "sysfs" then
      [("/class/net/lo/type", "772"); ("/class/net/ens3/type", "1"); ("/devices/virtual/dmi/id/bios_vendor", "SeaBIOS")]
    else [];
  k_procs := λ _, []; k_pid := λ n, Z.of_nat n; k_bsize := 4096; k_imaxpct := 25; k_output := λ _, "";
  k_http := λ _, None; k_uri_ok := λ _, true; k_lookpath := λ _, None; k_addrs := λ _, None;
  k_fd := λ n, Z.of_nat n; k_lookup := λ _, None; k_respond := λ _ _, None; k_hangs := λ _ _, false; k_epoll := λ _, (0%Z, false);
  k_interfaces := [mkInterface "lo" []; mkInterface "ens3" []]
|}.

Definition boot_fs : gmap string node :=
  list_to_map [("/", Dir); ("/proc", Dir); ("/sys", Dir); ("/dev", Dir); ("/dev/pts", Dir); ("/bin", Dir);
    ("/sys/fs", Dir); ("/sys/fs/cgroup", Dir);
    ("/dev/sda", File ""); ("/dev/vtty", File ""); ("/dev/ttyS0", File ""); ("/bin/app", File "ELF")].

Definition boot_world : world :=
  mkWorld boot_fs (D ex_disk 0 []) [] statusSetup false false 0 [] [] New [].

Definition boot_main (refuse : syscall → bool) (fuel : nat) : OS unit :=
  @main (boot_kernel refuse) boot_image no_chance forward plain_libs cidr_lib silent_dhcp by_key
    any_upstream (in_order false) fuel "/vorteil/vinitd".

(** The boot comes to its end: the disk is grown, the machine configured, and the
    program started as uid 1000 once the file it waits for is there. *)
Example boot_launches :
  let r := boot_main (λ _, false) 10 boot_world in
  r.1 = Halted ∧ initStatus r.2 = statusLaunched ∧
  ((λ c, (cmd_Path c, cmd_Args c, cmd_Uid c)) <$> started r.2) =
    [("/bin/app", ["/bin/app"; "--host"; "vm-abcdefgh"], 1000%Z)] ∧
  terminateSignals r.2 = [(0%nat, SIGINT)] ∧ terminateWait r.2 = 5000000000%Z ∧
  fs r.2 !! "/etc/hostname" = Some (File "vm-abcdefgh") ∧
  fs r.2 !! "/proc/sys/vm/swappiness" = Some (File "10") ∧
  (LastLBA <$> entry (content (disk r.2)) 1) = Some 46%Z.
Proof. vm_compute. split_and!; reflexivity. Qed.

(** *** Witnesses *)

Lemma ex_image : @image boot_image ex_disk.
Proof. split; vm_compute; (split || idtac); done. Qed.

Lemma readVCFG_reads_witness :
  (@readVCFG calm boot_image "/dev/sda" (set_disk (D ex_disk 0 []) ex_world)).1 = Ret tt.
Proof.
  pose proof (@readVCFG_reads calm boot_image "/dev/sda" (set_disk (D ex_disk 0 []) ex_world) ex_image) as H.
  destruct (readVCFG _ _) as [o w']. destruct H as (_ & _ & H). apply H; [done|done|by vm_compute|].
  exists boot_vcfg. vm_compute. reflexivity.
Defined.

Lemma outcome_of {A} (m : OS A) w o : (m w).1 = o → m w = (o, (m w).2).
Proof. intros <-. by destruct (m w). Qed.

Definition no_bootdev (c : syscall) : bool :=
  match c with SOpen p => String.eqb p "/proc/bootdev" | _ => false end.

Definition boot_PreSetup (refuse : syscall → bool) : OS unit :=
  LogDebugEarly (K := boot_kernel refuse) ("starting seq " +:+ "pre-setup");;
  @PreSetup (boot_kernel refuse) boot_image.

Lemma main_stops_witness :
  let w1 := upd (λ _, New) boot_world in
  ∃ o w3, @orderly (boot_kernel no_bootdev) LINUX_REBOOT_CMD_POWER_OFF (boot_PreSetup no_bootdev w1).2 o w3 ∧ o = Halted.
Proof.
  intros w1. set (w2 := (boot_PreSetup no_bootdev w1).2).
  assert ((boot_PreSetup no_bootdev w1).1 = Fail (Errno 5)) as E by (vm_compute; reflexivity).
  apply outcome_of in E. fold w2 in E.
  assert (initStatus w2 ≠ statusPoweroff) as Hs by (vm_compute; done). clearbody w2.
  destruct (@main_stops (boot_kernel no_bootdev) boot_image no_chance forward plain_libs cidr_lib
    silent_dhcp by_key any_upstream (in_order false) 10 "/vorteil/vinitd" boot_world
    [] "pre-setup" _ _ w1 (Errno 5) w2 eq_refl eq_refl eq_refl E Hs) as (o & w3 & Ho & Hh & _).
  exists o, w3. split; [exact Ho|]. apply Hh. reflexivity.
Defined.
