(* ===== verification/Panics.v ===== *)
(** * How the first stage of the boot can die ([PreSetup])

    A panic of process 1 stops the machine.  Here the kernel may refuse any call and
    the disk may fail at any operation, and the stage goes on after a shutdown the
    kernel refused: two panics are left, and no file system is touched. *)

From S2P Require Import Prelude Bytes GptTypes BlockDev GptUtil Gpt GptSpec GptTheorems.
From S2P Require Import GoStrings GoPath GoNet Json Hostname Types Os Process Disk Launch Network Conf Logging Power Boot BootTheorems.
Local Open Scope string_scope.

Local Abbreviation any := (λ _ : event, True).

Section presetup.
Context `{K : kernel} `{IL : image_lib} (c : list byte).

(** The disk is as the machine found it. *)
Definition intact (w : world) : Prop := content (disk w) = c.

#[local] Instance intact_stable : stable intact.
Proof. intros w w' _ _ Hd. unfold intact. by rewrite Hd. Qed.

Lemma intact_vmodify f : safe intact (vmodify f).
Proof. by apply safe_vmodify. Qed.

(** No network takes the settings of a direktiv disk. *)
Definition no_network (w : world) : Prop :=
  match Networks (vcfg (vinitd w)) with Some (_ :: _) => False | _ => True end.

Local Abbreviation printk := "/proc/sys/kernel/printk".

(** The file of the log level is empty. *)
Definition no_loglevel (w : world) : Prop := lookup_node (fs w) printk = Some (File "").

Definition presetup_panic (why : panic) (w : world) : Prop :=
  why = IndexOutOfRange ∧ (no_network w ∨ no_loglevel w).

(** ** Steps that cannot panic *)

Lemma safe_mountFs target fstype opts : safe intact (mountFs target fstype opts).
Proof.
  apply safe_bind; [eapply safe_tame; [apply _|]; by apply tame_try, (tame_Stat any)|]. intros r.
  apply safe_bind; [|intros _; eapply safe_tame; [apply _|]; by apply (tame_Mount any)].
  destruct r as [u|e]; [done|]. destruct (IsNotExist e); [|done].
  apply safe_bind; [case_match; [apply safe_shutdown, _|done]|].
  intros _. eapply safe_tame; [apply _|]. by apply (tame_MkdirAll any).
Qed.

Lemma safe_setupBasicDirectories base : safe intact (setupBasicDirectories base).
Proof.
  apply safe_bind; [eapply safe_tame; [apply _|]; by apply (tame_ignore any), tame_plain|intros _].
  apply safe_bind; [|intros _; eapply safe_tame; [apply _|]; by apply tame_ignore, (tame_Symlink any)].
  apply safe_foreach. intros [path fstype] _. apply safe_mountFs.
Qed.

Lemma safe_setupVtty mode : safe intact (setupVtty mode).
Proof.
  assert (∀ set p, safe intact (assign set (OpenFile false false p))) as Ha.
  { intros set p. apply safe_bind; [eapply safe_tame; [apply _|]; by apply tame_try, (tame_OpenFile any)|].
    intros f. apply intact_vmodify. }
  apply safe_bind; [|intros _].
  - destruct mode; (apply safe_bind; [|intros _]); first [apply intact_vmodify | apply Ha].
  - apply safe_bind; [|intros _]; (eapply safe_tame; [apply _|]; by apply tame_ignore, (tame_OpenFile any)).
Qed.

Lemma ReadFile_text p w d w' : ReadFile p w = (Ret d, w') → lookup_node (fs w') p = Some (File d).
Proof.
  unfold ReadFile, Open, ReadAll, sys, sys_with, mbind, M_bind.
  destruct (k_fail _ _) as [[]|]; [done|]. destruct (lookup_node (fs w) p) as [n|] eqn:E; [|done]. cbn [fst snd].
  destruct (k_fail _ _) as [[]|]; [done|]. change (fs (record (SOpen p) None w)) with (fs w). rewrite E.
  destruct n; try done. intros [= <- <-]. exact E.
Qed.

Lemma dies_setLoglevel : dies intact presetup_panic setLoglevel.
Proof.
  intros w Hw. assert (safe intact (ReadFile printk)) as Hs.
  { eapply safe_tame; [apply _|]. by apply (tame_ReadFile any). }
  destruct (Hs w Hw) as [Hp Hi]. unfold setLoglevel, mtry, mbind, M_bind.
  destruct (ReadFile printk w) as [[d|e|why|] w1] eqn:E; [|done|by destruct (Hp why)|done].
  apply ReadFile_text in E. destruct d as [|a d]; [|unfold lift; cbn [level_of]; by split].
  split; [done|]. intros why [= <-]. split; [done|by right].
Qed.

Lemma readVCFG_safe p : image c → safe intact (readVCFG p).
Proof.
  intros Him w Hw. pose proof (readVCFG_run p w) as H. rewrite Hw in H. specialize (H Him).
  destruct (readVCFG p w) as [o w']. cbn [fst snd] in *. destruct H as (Hd & Ho & _). split; [by destruct o|done].
Qed.

(** ** The disks of direktiv *)

Lemma dies_override nws : dies intact presetup_panic (override_network nws).
Proof.
  intros w Hw. unfold override_network. rewrite run_vget.
  assert (no_network w → presetup_panic IndexOutOfRange w) as Hno by (intros Hn; split; [done|by left]).
  unfold no_network in Hno. destruct (Networks _) as [[|n ns]|]; [| |].
  1, 3: split; [done|]; intros why [= <-]; by apply Hno.
  done.
Qed.

Lemma dies_or_panic m : dies intact presetup_panic m → dies intact presetup_panic (or_panic m).
Proof.
  intros Hm. apply dies_bind; [by apply dies_try|]. intros [?|?]; apply dies_safe; [done|apply safe_shutdown, _].
Qed.

Lemma dies_use_direktiv_disk name : dies intact presetup_panic (use_direktiv_disk name).
Proof.
  assert (∀ b : bool, dies intact presetup_panic (if b then mret tt else SystemPanic)) as Hif.
  { intros []; apply dies_safe; [done|apply safe_shutdown, _]. }
  assert (∀ f, dies intact presetup_panic (create_log f)) as Hlog.
  { intros f. apply dies_or_panic, dies_tame; [apply _|].
    apply tame_bind; [by apply tame_OpenFile|intros; apply tame_ret]. }
  apply dies_bind; [apply dies_or_panic, dies_tame; [apply _|]; auto with tame|intros _].
  apply dies_bind; [apply dies_tame; [apply _|]; by apply tame_try, tame_ReadFile|intros nw].
  apply dies_bind; [destruct nw; [apply (Hif true)|apply (Hif false)]|intros _].
  destruct (Unmarshal_setting _) as [nws ok]. apply dies_bind; [apply Hif|intros _].
  do 2 (apply dies_bind; [apply Hlog|intros _]). apply dies_bind; [apply dies_override|intros _].
  by apply dies_safe, safe_modify.
Qed.

Lemma tame_ReadAt p off n : tame any (ReadAt p off n).
Proof.
  apply tame_sys_with; [done|done|]. intros w a w'. destruct (lookup_node _ _) as [[]|]; try done.
  case_match; [by intros [= _ <-]|done].
Qed.

Lemma dies_setup_direktiv diskname : dies intact presetup_panic (setup_direktiv diskname).
Proof.
  apply dies_bind; [apply dies_tame; [apply _|]; auto with tame|intros [files|?]; [|by apply dies_safe]].
  apply dies_foreach. intros name _. unfold check_disk. case_match; [by apply dies_safe|]. cbv zeta.
  apply dies_bind.
  - apply dies_tame; [apply _|]. apply tame_try, tame_bind; [by apply tame_Open|intros _; apply tame_ReadAt].
  - intros [puid|?]; [|by apply dies_safe]. case_match; [apply dies_use_direktiv_disk|by apply dies_safe].
Qed.

(** ** Growing the disk *)

Context (h : GPTHeader).

(** A disk that can be grown, or one that is not to be grown. *)
Definition resizable : Prop :=
  growable c h ∨
  (header_at c 1 = Some h ∧ (1024 ≤ Z.of_nat (length c))%Z ∧ ∀ p, needsResize (new_modifier p c h) = false).

(** Nothing but the partitioning metadata differs from the disk that was found. *)
Definition kept (w : world) : Prop := same_outside (metadata c h) c (content (disk w)).

#[local] Instance kept_stable : stable kept.
Proof. intros w w' _ _ Hd. unfold kept. by rewrite Hd. Qed.

Lemma intact_kept w : intact w → kept w.
Proof. unfold intact, kept. by intros ->. Qed.

Lemma growDisk_keeps p w :
  resizable → (0 < k_bsize < 2 ^ 63)%Z → intact w →
  (∀ why, (growDisk p w).1 ≠ Panic why) ∧ kept (growDisk p w).2.
Proof.
  intros Hr Hb Hw. unfold intact in Hw. destruct (disk w) as [c' q fl] eqn:Ed. cbn [content] in Hw. subst c'.
  destruct Hr as [Hg|(Hh & Hl & Hn)].
  - destruct (growDisk_device p c h q fl w Hg Ed)
      as (k & pe & mbr & ? & ? & ? & ? & ? & ? & [(q' & fl' & _ & E)|(_ & e & d' & ? & E)]); rewrite E; [|done].
    destruct (resize_kernel_safe p (grown_modifier p c h k pe) _ eq_refl Hb) as [Hp Hc]. split; [intros why; apply Hp|].
    unfold kept. rewrite (Hc _). by apply data_cF.
  - destruct (does_newGPTModifier p c q h Hh Hl) as [_ Hr]. unfold growDisk, on_disk, mbind, M_bind. rewrite Ed.
    destruct (Hr fl) as [(fl1 & E & _)|(_ & e & d' & E & Hs)]; unfold D in E; rewrite E.
    + by rewrite (Hn p).
    + split; [done|]. unfold kept. cbn. by rewrite (nothing_changed _ _ Hs).
Qed.

(** Like [dies], but the invariant changes. *)
Definition dies_to {A} (I J : world → Prop) (m : OS A) : Prop := ∀ w, I w →
  J (m w).2 ∧ ∀ why, (m w).1 = Panic why → presetup_panic why (m w).2.

Lemma dies_to_step I I' J {A B} (m : OS A) (f : A → OS B) :
  (∀ w, I' w → J w) → dies_to I I' m → (∀ a, dies_to I' J (f a)) → dies_to I J (m ≫= f).
Proof.
  intros HIJ Hm Hf w Hw. destruct (Hm w Hw) as [Hi Hp]. unfold mbind, M_bind.
  destruct (m w) as [[a|e|why|] w1]; [by apply Hf|split; [by apply HIJ|done]| |split; [by apply HIJ|done]].
  split; [by apply HIJ|]. intros why' [= <-]. by apply Hp.
Qed.

Lemma dies_then {A B} (m : OS A) (f : A → OS B) :
  dies intact presetup_panic m → (∀ a, dies_to intact kept (f a)) → dies_to intact kept (m ≫= f).
Proof. apply dies_to_step, intact_kept. Qed.

Lemma growDisks_dies : resizable → (0 < k_bsize < 2 ^ 63)%Z → dies_to intact kept growDisks.
Proof.
  intros Hr Hb. apply dies_then; [apply dies_tame; [apply _|]; by apply tame_ReadFile|intros p].
  apply dies_then; [apply dies_tame; [apply _|]; by apply tame_Open|intros _].
  apply (dies_to_step _ kept); [done| |intros _].
  - intros w Hw. destruct (growDisk_keeps p w Hr Hb Hw) as [Hp Hk]. split; [done|]. intros why E. by destruct (Hp why).
  - apply dies_safe, safe_bind; [eapply safe_tame; [apply _|]; by apply (tame_plain any)|intros _].
    eapply safe_quietly, quietly_flushDisk. apply _.
Qed.

Lemma PreSetup_dies : image c → resizable → (0 < k_bsize < 2 ^ 63)%Z → dies_to intact kept PreSetup.
Proof.
  intros Him Hr Hb. unfold PreSetup. apply dies_then; [apply dies_safe, safe_setupVtty|intros _].
  apply dies_then; [apply dies_safe, safe_setupBasicDirectories|intros _].
  apply dies_then; [apply dies_tame; [apply _|]; by apply (tame_quiet any)|intros _].
  apply dies_then; [apply dies_setLoglevel|intros _].
  apply dies_then; [apply dies_tame; [apply _|]; by apply tame_ReadFile|intros disk].
  apply dies_then; [apply dies_safe, intact_vmodify|intros _].
  apply dies_then; [by apply dies_safe, readVCFG_safe|intros _].
  apply dies_then; [apply dies_tame; [apply _|]; by apply tame_hasCmdLineString|intros ro].
  apply dies_then; [apply dies_safe, intact_vmodify|intros _].
  apply dies_then; [|intros _].
  { apply dies_tame; [apply _|]. apply tame_ignore. unfold setupMountOptions.
    apply tame_bind; [by apply tame_ReadFile|intros text]. by eapply tame_weaken, tame_mount_loop. }
  apply dies_then; [apply dies_tame; [apply _|]; by apply tame_hasCmdLineString|intros direktiv].
  apply dies_then; [destruct direktiv; [apply dies_setup_direktiv|by apply dies_safe]|intros _].
  apply (dies_to_step _ kept); [done|by apply growDisks_dies|intros _].
  apply (dies_vget kept). intros w0 _. cbv zeta. by apply dies_safe, safe_modify.
Qed.
End presetup.

(** C8: Whatever system call or disk operation fails, on an image whose partition table
    can be grown or need not be, and with a logger, [PreSetup] changes no byte of
    the disk outside the partitioning metadata, and it panics in two ways only: there is no
    network that could take the settings of a direktiv disk, or the file of the
    kernel's log level is empty; both are an index out of range. *)
Theorem PreSetup_panics `{K : kernel} `{IL : image_lib} h w :
  let c := content (disk w) in
  image c → resizable c h → (0 < k_bsize < 2 ^ 63)%Z →
  same_outside (metadata c h) c (content (disk (PreSetup w).2)) ∧
  ∀ why, (PreSetup w).1 = Panic why →
    why = IndexOutOfRange ∧ (no_network (PreSetup w).2 ∨ no_loglevel (PreSetup w).2).
Proof. intros c Him Hr Hb. by apply (PreSetup_dies c h). Qed.

(** ** Witness: an empty log level *)

Definition empty_printk : kernel :=
  let K := boot_kernel (λ _, false) in {|
  k_fail := @k_fail K;
  k_pseudo := λ t, ((if String.eqb t "proc" then [("/sys/kernel/printk", "")] else []) ++ @k_pseudo K t)%list;
  k_procs := @k_procs K; k_pid := @k_pid K; k_bsize := @k_bsize K; k_imaxpct := @k_imaxpct K; k_output := @k_output K;
  k_http := @k_http K; k_uri_ok := @k_uri_ok K; k_lookpath := @k_lookpath K; k_addrs := @k_addrs K;
  k_fd := @k_fd K; k_lookup := @k_lookup K; k_respond := @k_respond K; k_hangs := @k_hangs K; k_epoll := @k_epoll K;
  k_interfaces := @k_interfaces K
|}.

Lemma PreSetup_panics_witness :
  let w' := (@PreSetup empty_printk boot_image boot_world).2 in
  same_outside (metadata ex_disk ex_header) ex_disk (content (disk w')) ∧
  (@PreSetup empty_printk boot_image boot_world).1 = Panic IndexOutOfRange ∧ (no_network w' ∨ no_loglevel w').
Proof.
  assert ((@PreSetup empty_printk boot_image boot_world).1 = Panic IndexOutOfRange) as E by (vm_compute; reflexivity).
  destruct (@PreSetup_panics empty_printk boot_image ex_header boot_world) as [H1 H2].
  - exact ex_image.
  - left. exact ex_growable.
  - cbn. lia.
  - cbv zeta. split; [exact H1|]. split; [exact E|]. exact (proj2 (H2 _ E)).
Defined.
